(** * Statistics engine of samples/bpf/xdp_redirect_cpu_user.c

    A shallow embedding of the statistics-collection and rate-reporting
    code of [xdp_redirect_cpu_user.c]: snapshot allocation, per-CPU map
    collection, elapsed-time-aware rate computation, report rendering and
    the double-buffered poll loop.

    - [__u64] values are integers [Z] with the wrap-around modulo [2^64]
      written out ([U64.wrap]).
    - [double] values are IEEE 754 binary64 numbers, taken from the
      Standard Library's executable specification [SpecFloat]
      ([prec = 53], [emax = 1024]).
    - The kernel maps, the monotonic clock and the allocator are external:
      they are oracles carried by the [world], together with the two
      output streams and the heap of snapshot buffers. *)

From Stdlib Require Import ZArith Lia Bool List String Reals Lra.
From Stdlib Require Import Floats.SpecFloat.
From stdpp Require Import base option list gmap.

Local Open Scope Z_scope.

(** ** Unsigned 64-bit arithmetic *)

Module U64.

Definition modulus : Z := 2 ^ 64.

Definition wrap (z : Z) : Z := z mod modulus.

Definition add (a b : Z) : Z := wrap (a + b).
Definition sub (a b : Z) : Z := wrap (a - b).
Definition mul (a b : Z) : Z := wrap (a * b).

Definition in_range (z : Z) : Prop := 0 <= z < modulus.

End U64.

(** ** 32-bit conversions *)

(** Conversion to [unsigned int] and [__u32]: reduction modulo [2^32]. *)
Definition to_u32 (z : Z) : Z := z mod 2 ^ 32.

(** Conversion to [int] of a value that may lie outside its range: the
    value in [[-2^31, 2^31)] that is congruent to it modulo [2^32] (the
    result GCC and Clang define for this conversion). *)
Definition to_int (z : Z) : Z := (z + 2 ^ 31) mod 2 ^ 32 - 2 ^ 31.

(** ** IEEE 754 binary64 ([double]) *)

Module Double.

Definition prec : Z := 53.
Definition emax : Z := 1024.

Definition t := spec_float.

Definition zero : t := S754_zero false.

(** Conversion of an integer to [double]: round to nearest, ties to even. *)
Definition of_Z (z : Z) : t := binary_normalize prec emax z 0 false.

Definition div (x y : t) : t := SFdiv prec emax x y.

(** [x < y] and [x <= y]; both are false when an operand is a NaN. *)
Definition ltb (x y : t) : bool := SFltb x y.
Definition leb (x y : t) : bool := SFleb x y.

(** The integer part of a finite double, rounded toward zero. *)
Definition trunc (f : t) : option Z :=
  match f with
  | S754_zero _ => Some 0
  | S754_finite s m e => Some (cond_Zopp s (Z.shiftl (Z.pos m) e))
  | _ => None
  end.

(** The C conversion [double -> __u64] (C11 6.3.1.4): the fractional part
    is discarded; when the integral part is not representable in the
    unsigned 64-bit type the behaviour is undefined ([None]). *)
Definition to_u64 (f : t) : option Z :=
  match trunc f with
  | Some v => if (0 <=? v) && (v <? U64.modulus) then Some v else None
  | None => None
  end.

(** The mathematical floor of a finite double. *)
Definition floor (f : t) : option Z :=
  match f with
  | S754_zero _ => Some 0
  | S754_finite s m e =>
      Some (if 0 <=? e then cond_Zopp s (Z.pos m) * 2 ^ e
            else cond_Zopp s (Z.pos m) / 2 ^ (- e))
  | _ => None
  end.

(** [floor] as a [__u64]: defined when the floor is representable. *)
Definition floor_u64 (f : t) : option Z :=
  match floor f with
  | Some v => if (0 <=? v) && (v <? U64.modulus) then Some v else None
  | None => None
  end.

(** A double that is not negative: [+0], a positive finite number or
    [+inf]. *)
Definition nonneg (f : t) : bool :=
  match f with
  | S754_zero false | S754_finite false _ _ | S754_infinity false => true
  | _ => false
  end.

End Double.

(** ** Data model: the structs of the program *)

(** [struct datarec] *)
Record datarec := mk_datarec {
  processed : Z;
  dropped : Z
}.

(** [struct record]; [cpu] is the array behind the pointer, one entry per
    possible CPU. *)
Record record := mk_record {
  timestamp : Z;
  total : datarec;
  cpu : list datarec
}.

(** [struct stats_record]; [enq] is the array [enq[MAX_CPUS]]. *)
Record stats_record := mk_stats_record {
  rx_cnt : record;
  redir_err : record;
  kthread : record;
  enq : list record
}.

Definition MAX_CPUS : nat := 12.

Definition NANOSEC_PER_SEC : Z := 1000000000.

(** Exit return codes *)
Definition EXIT_OK : Z := 0.
Definition EXIT_FAIL : Z := 1.
Definition EXIT_FAIL_OPTION : Z := 2.
Definition EXIT_FAIL_XDP : Z := 3.
Definition EXIT_FAIL_BPF : Z := 4.
Definition EXIT_FAIL_MEM : Z := 5.

(** ** Rate computation *)

(** [calc_period]: the local [period_] starts at [0] and is assigned only
    when the unsigned difference of the timestamps is positive. *)
Definition calc_period (r p : record) : Double.t :=
  let period_ := Double.zero in
  let period := U64.sub (timestamp r) (timestamp p) in
  let period_ :=
    if 0 <? period
    then Double.div (Double.of_Z period) (Double.of_Z NANOSEC_PER_SEC)
    else period_ in
  period_.

(** [calc_pps]: [packets / period_] is a [double] division of the converted
    packet count; the assignment to the [__u64] local converts it back. *)
Definition calc_pps (r p : datarec) (period_ : Double.t) : option Z :=
  let packets := 0 in
  let pps := 0 in
  if Double.ltb Double.zero period_ then
    let packets := U64.sub (processed r) (processed p) in
    Double.to_u64 (Double.div (Double.of_Z packets) period_)
  else Some pps.

(** [calc_drop_pps] *)
Definition calc_drop_pps (r p : datarec) (period_ : Double.t) : option Z :=
  let packets := 0 in
  let pps := 0 in
  if Double.ltb Double.zero period_ then
    let packets := U64.sub (dropped r) (dropped p) in
    Double.to_u64 (Double.div (Double.of_Z packets) period_)
  else Some pps.

(** ** The environment and the state of the process *)

(** One [printf]/[fprintf] call: the format string and its arguments. *)
Inductive arg :=
| AStr (s : string)
| AInt (z : Z)
| ADbl (d : Double.t).

Record printf_call := Printf {
  fmt : string;
  args : list arg
}.

(** Addresses of the [struct stats_record] buffers on the heap. *)
Definition loc := positive.

(** The world: the oracles of the external collaborators (indexed by the
    number of calls made so far), the heap and the output streams.
    - [map_lookup n fd key]: what the [n]-th [bpf_map_lookup_elem] call
      returns when asked for [key] of map [fd]; [None] is a nonzero
      return value, [Some values] the per-CPU values copied out.
    - [clock n]: [(res, tv_sec, tv_nsec)] of the [n]-th [clock_gettime].
    - [malloc_ok n]: whether the [n]-th [malloc] returns a block. *)
Record world := World {
  possible_cpus : nat;
  map_fd : nat -> Z;
  map_lookup : nat -> Z -> Z -> option (list datarec);
  clock : nat -> Z * Z * Z;
  malloc_ok : nat -> bool;
  n_lookups : nat;
  n_clock : nat;
  n_mallocs : nat;
  heap : gmap loc stats_record;
  stdout : list printf_call;
  stderr : list printf_call;
  sleeps : list Z
}.

Definition set_n_lookups (n : nat) (w : world) : world :=
  World (possible_cpus w) (map_fd w) (map_lookup w) (clock w) (malloc_ok w)
        n (n_clock w) (n_mallocs w) (heap w) (stdout w) (stderr w) (sleeps w).

Definition set_n_clock (n : nat) (w : world) : world :=
  World (possible_cpus w) (map_fd w) (map_lookup w) (clock w) (malloc_ok w)
        (n_lookups w) n (n_mallocs w) (heap w) (stdout w) (stderr w) (sleeps w).

Definition set_n_mallocs (n : nat) (w : world) : world :=
  World (possible_cpus w) (map_fd w) (map_lookup w) (clock w) (malloc_ok w)
        (n_lookups w) (n_clock w) n (heap w) (stdout w) (stderr w) (sleeps w).

Definition set_heap (h : gmap loc stats_record) (w : world) : world :=
  World (possible_cpus w) (map_fd w) (map_lookup w) (clock w) (malloc_ok w)
        (n_lookups w) (n_clock w) (n_mallocs w) h (stdout w) (stderr w) (sleeps w).

Definition set_stdout (o : list printf_call) (w : world) : world :=
  World (possible_cpus w) (map_fd w) (map_lookup w) (clock w) (malloc_ok w)
        (n_lookups w) (n_clock w) (n_mallocs w) (heap w) o (stderr w) (sleeps w).

Definition set_stderr (o : list printf_call) (w : world) : world :=
  World (possible_cpus w) (map_fd w) (map_lookup w) (clock w) (malloc_ok w)
        (n_lookups w) (n_clock w) (n_mallocs w) (heap w) (stdout w) o (sleeps w).

Definition set_sleeps (s : list Z) (w : world) : world :=
  World (possible_cpus w) (map_fd w) (map_lookup w) (clock w) (malloc_ok w)
        (n_lookups w) (n_clock w) (n_mallocs w) (heap w) (stdout w) (stderr w) s.

(** What a computation does: it returns, it calls [exit], or it runs into
    behaviour the C standard leaves undefined. *)
Inductive outcome (A : Type) :=
| Done (a : A) (w : world)
| Exit (code : Z) (w : world)
| Fault.

Arguments Done {A} a w.
Arguments Exit {A} code w.
Arguments Fault {A}.

Definition M (A : Type) : Type := world -> outcome A.

#[export] Instance M_ret : MRet M := fun A a w => Done a w.

#[export] Instance M_bind : MBind M := fun A B f m w =>
  match m w with
  | Done a w' => f a w'
  | Exit code w' => Exit code w'
  | Fault => Fault
  end.

Definition exit {A} (code : Z) : M A := fun w => Exit code w.

Definition undefined {A} : M A := fun _ => Fault.

(** An operation that is undefined when it has no result. *)
Definition defined {A} (o : option A) : M A :=
  match o with
  | Some a => mret a
  | None => undefined
  end.

Definition get_world : M world := fun w => Done w w.

Definition printf (f : string) (a : list arg) : M unit :=
  fun w => Done tt (set_stdout (stdout w ++ [Printf f a]) w).

Definition fprintf_stderr (f : string) (a : list arg) : M unit :=
  fun w => Done tt (set_stderr (stderr w ++ [Printf f a]) w).

(** [unsigned int sleep (unsigned int seconds)]: the argument is converted
    to [unsigned int]; [sleeps] records the seconds asked for. *)
Definition sleep (interval : Z) : M unit :=
  fun w => Done tt (set_sleeps (sleeps w ++ [to_u32 interval]) w).

Definition bpf_num_possible_cpus : M nat :=
  fun w => Done (possible_cpus w) w.

Definition bpf_map_lookup_elem (fd key : Z) : M (option (list datarec)) :=
  fun w => Done (map_lookup w (n_lookups w) fd key)
                (set_n_lookups (S (n_lookups w)) w).

Definition clock_gettime : M (Z * Z * Z) :=
  fun w => Done (clock w (n_clock w)) (set_n_clock (S (n_clock w)) w).

(** [malloc]: [true] for a block, [false] for [NULL]. *)
Definition malloc : M bool :=
  fun w => Done (malloc_ok w (n_mallocs w)) (set_n_mallocs (S (n_mallocs w)) w).

(** [for (i = start; i < start + count; i++) body], threading the locals
    the body updates. *)
Fixpoint for_range {S : Type} (start count : nat)
    (body : nat -> S -> M S) (s : S) : M S :=
  match count with
  | O => mret s
  | Datatypes.S n => s' ← body start s; for_range (Datatypes.S start) n body s'
  end.

(** ** gettime *)

Definition gettime : M Z :=
  '(res, tv_sec, tv_nsec) ← clock_gettime;
  if res <? 0 then
    fprintf_stderr "Error with gettimeofday! (%i)\n" [AInt res];;
    exit EXIT_FAIL
  else
    mret (U64.add (U64.mul (U64.wrap tv_sec) NANOSEC_PER_SEC) (U64.wrap tv_nsec)).

(** ** map_collect_percpu *)

(** [rec] is the record the pointer argument designates; the updated
    record is returned next to the boolean result.  Reading [values[i]]
    or writing [rec->cpu[i]] outside the array is undefined. *)
Definition map_collect_percpu (fd key : Z) (rec : record) : M (bool * record) :=
  nr_cpus ← bpf_num_possible_cpus;
  let sum_processed := 0 in
  let sum_dropped := 0 in
  res ← bpf_map_lookup_elem fd key;
  match res with
  | None =>
      fprintf_stderr "ERR: bpf_map_lookup_elem failed key:0x%X\n" [AInt key];;
      mret (false, rec)
  | Some values =>
      ts ← gettime;
      let rec := mk_record ts (total rec) (cpu rec) in
      '(cpus, sum_processed, sum_dropped) ←
        for_range 0 nr_cpus (fun i '(cpus, sum_processed, sum_dropped) =>
          v ← defined (values !! i);
          _ ← defined (cpus !! i);
          let cpus := <[i := mk_datarec (processed v) (dropped v)]> cpus in
          let sum_processed := U64.add sum_processed (processed v) in
          let sum_dropped := U64.add sum_dropped (dropped v) in
          mret (cpus, sum_processed, sum_dropped))
        (cpu rec, sum_processed, sum_dropped);
      let rec := mk_record (timestamp rec) (mk_datarec sum_processed sum_dropped) cpus in
      mret (true, rec)
  end.

(** ** Heap access *)

Definition load (p : loc) : M stats_record :=
  w ← get_world; defined (heap w !! p).

Definition store (p : loc) (s : stats_record) : M unit :=
  fun w => Done tt (set_heap (<[p := s]> (heap w)) w).

(** The records inside a [struct stats_record]: [&rec->rx_cnt],
    [&rec->redir_err], [&rec->kthread] and [&rec->enq[i]]. *)
Inductive field :=
| F_rx_cnt
| F_redir_err
| F_kthread
| F_enq (i : nat).

Definition get_field (f : field) (s : stats_record) : option record :=
  match f with
  | F_rx_cnt => Some (rx_cnt s)
  | F_redir_err => Some (redir_err s)
  | F_kthread => Some (kthread s)
  | F_enq i => enq s !! i
  end.

Definition set_field (f : field) (r : record) (s : stats_record) : stats_record :=
  match f with
  | F_rx_cnt => mk_stats_record r (redir_err s) (kthread s) (enq s)
  | F_redir_err => mk_stats_record (rx_cnt s) r (kthread s) (enq s)
  | F_kthread => mk_stats_record (rx_cnt s) (redir_err s) r (enq s)
  | F_enq i => mk_stats_record (rx_cnt s) (redir_err s) (kthread s) (<[i := r]> (enq s))
  end.

(** Runs [f] on the record [&p->fld] and writes the record back. *)
Definition on_record (p : loc) (fld : field)
    (f : record -> M (bool * record)) : M bool :=
  s ← load p;
  r ← defined (get_field fld s);
  '(b, r') ← f r;
  store p (set_field fld r' s);;
  mret b.

(** ** Snapshot allocation *)

Definition zero_datarec : datarec := mk_datarec 0 0.

(** A zeroed [struct record]: the [cpu] pointer is [NULL], no array. *)
Definition zero_record : record := mk_record 0 zero_datarec [].

Definition zero_stats_record : stats_record :=
  mk_stats_record zero_record zero_record zero_record
                  (replicate MAX_CPUS zero_record).

(** [alloc_record_per_cpu]: an array of [nr_cpus] entries; [memset] runs
    on the result of [malloc] before the result is tested, and through a
    null pointer it is undefined. *)
Definition alloc_record_per_cpu : M (list datarec) :=
  nr_cpus ← bpf_num_possible_cpus;
  array ← malloc;
  contents ← (if array : bool then mret (replicate nr_cpus zero_datarec)
              else undefined);
  if negb array then
    fprintf_stderr "Mem alloc error (nr_cpus:%u)\n" [AInt (Z.of_nat nr_cpus)];;
    exit EXIT_FAIL_MEM
  else mret contents.

Definition set_cpu (a : list datarec) (r : record) : record :=
  mk_record (timestamp r) (total r) a.

(** [rec-><fld>.cpu = alloc_record_per_cpu()] *)
Definition alloc_cpu_of (p : loc) (fld : field) : M unit :=
  a ← alloc_record_per_cpu;
  s ← load p;
  r ← defined (get_field fld s);
  store p (set_field fld (set_cpu a r) s).

(** [alloc_stats_record]: as above, [memset] precedes the null test. *)
Definition alloc_stats_record : M loc :=
  ok ← malloc;
  w ← get_world;
  let rec := if ok : bool then Some (fresh (dom (heap w))) else None in
  match rec with
  | None => undefined
  | Some p => store p zero_stats_record
  end;;
  match rec with
  | None =>
      fprintf_stderr "Mem alloc error\n" [];;
      exit EXIT_FAIL_MEM
  | Some p =>
      alloc_cpu_of p F_rx_cnt;;
      alloc_cpu_of p F_redir_err;;
      alloc_cpu_of p F_kthread;;
      for_range 0 MAX_CPUS (fun i _ => alloc_cpu_of p (F_enq i)) tt;;
      mret p
  end.

(** ** stats_print *)

(** The [double] locals [pps] and [drop] receive the [__u64] results of
    [calc_pps] and [calc_drop_pps]. *)
Definition rate (v : option Z) : M Double.t :=
  v ← defined v; mret (Double.of_Z v).

Definition stats_print (stats_rec stats_prev : loc) : M unit :=
  nr_cpus ← bpf_num_possible_cpus;
  cur ← load stats_rec;
  old ← load stats_prev;
  (* Header *)
  printf "%-15s %-7s %-10s %-18s %-12s %-9s\n"
         [AStr "XDP-cpumap"; AStr "CPU:to"; AStr "pps "; AStr "pps-human-readable";
          AStr "drop-pps"; AStr "period"];;
  (* XDP rx_cnt *)
  let rec := rx_cnt cur in
  let prev := rx_cnt old in
  let t := calc_period rec prev in
  for_range 0 nr_cpus (fun i _ =>
    r ← defined (cpu rec !! i);
    p ← defined (cpu prev !! i);
    pps ← rate (calc_pps r p t);
    if Double.ltb Double.zero pps then
      printf "%-15s %-7d %-10.0f %'-18.0f %-12s %f\n"
             [AStr "XDP-RX"; AInt (Z.of_nat i); ADbl pps; ADbl pps; AStr "(nan)"; ADbl t]
    else mret tt) tt;;
  pps ← rate (calc_pps (total rec) (total prev) t);
  printf "%-15s %-7s %-10.0f %'-18.0f %-12s %f\n"
         [AStr "XDP-RX"; AStr "total"; ADbl pps; ADbl pps; AStr "(nan)"; ADbl t];;
  (* cpumap enqueue stats *)
  for_range 0 MAX_CPUS (fun to_cpu _ =>
    rec ← defined (enq cur !! to_cpu);
    prev ← defined (enq old !! to_cpu);
    let t := calc_period rec prev in
    for_range 0 nr_cpus (fun i _ =>
      r ← defined (cpu rec !! i);
      p ← defined (cpu prev !! i);
      pps ← rate (calc_pps r p t);
      drop ← rate (calc_drop_pps r p t);
      if Double.ltb Double.zero pps then
        printf "%-15s %3d:%-3d %-10.0f %'-18.0f %'-12.0f %f\n"
               [AStr "cpumap-enqueue"; AInt (Z.of_nat i); AInt (Z.of_nat to_cpu);
                ADbl pps; ADbl pps; ADbl drop; ADbl t]
      else mret tt) tt;;
    pps ← rate (calc_pps (total rec) (total prev) t);
    if Double.ltb Double.zero pps then
      drop ← rate (calc_drop_pps (total rec) (total prev) t);
      printf "%-15s %3s:%-3d %-10.0f %'-18.0f %'-12.0f %f\n"
             [AStr "cpumap-enqueue"; AStr "sum"; AInt (Z.of_nat to_cpu);
              ADbl pps; ADbl pps; ADbl drop; ADbl t]
    else mret tt) tt;;
  (* cpumap kthread stats *)
  let rec := kthread cur in
  let prev := kthread old in
  let t := calc_period rec prev in
  for_range 0 nr_cpus (fun i _ =>
    r ← defined (cpu rec !! i);
    p ← defined (cpu prev !! i);
    pps ← rate (calc_pps r p t);
    drop ← rate (calc_drop_pps r p t);
    if Double.ltb Double.zero pps then
      printf "%-15s %-7d %-10.0f %'-18.0f %'-12.0f %f\n"
             [AStr "cpumap_kthread"; AInt (Z.of_nat i); ADbl pps; ADbl pps; ADbl drop; ADbl t]
    else mret tt) tt;;
  pps ← rate (calc_pps (total rec) (total prev) t);
  drop ← rate (calc_drop_pps (total rec) (total prev) t);
  printf "%-15s %-7s %-10.0f %'-18.0f %'-12.0f %f\n"
         [AStr "cpumap_kthread"; AStr "total"; ADbl pps; ADbl pps; ADbl drop; ADbl t];;
  (* XDP redirect err tracepoints (very unlikely) *)
  let rec := redir_err cur in
  let prev := redir_err old in
  let t := calc_period rec prev in
  for_range 0 nr_cpus (fun i _ =>
    r ← defined (cpu rec !! i);
    p ← defined (cpu prev !! i);
    pps ← rate (calc_pps r p t);
    drop ← rate (calc_drop_pps r p t);
    if Double.ltb Double.zero pps then
      printf "%-15s %-7d %-10.0f %'-18.0f %'-12.0f %f\n"
             [AStr "redirect_err"; AInt (Z.of_nat i); ADbl pps; ADbl pps; ADbl drop; ADbl t]
    else mret tt) tt;;
  pps ← rate (calc_pps (total rec) (total prev) t);
  drop ← rate (calc_drop_pps (total rec) (total prev) t);
  printf "%-15s %-7s %-10.0f %'-18.0f %'-12.0f %f\n"
         [AStr "redirect_err"; AStr "total"; ADbl pps; ADbl pps; ADbl drop; ADbl t];;
  printf "\n" [].

(** ** stats_collect *)

(** The boolean result of [map_collect_percpu] is discarded at each call. *)
Definition stats_collect (rec : loc) : M unit :=
  w ← get_world;
  let fd := map_fd w 1 in (* map: rx_cnt *)
  on_record rec F_rx_cnt (map_collect_percpu fd 0);;
  let fd := map_fd w 2 in (* map: redirect_err_cnt *)
  on_record rec F_redir_err (map_collect_percpu fd 1);;
  let fd := map_fd w 3 in (* map: cpumap_enqueue_cnt *)
  for_range 0 MAX_CPUS (fun i _ =>
    on_record rec (F_enq i) (map_collect_percpu fd (Z.of_nat i));;
    mret tt) tt;;
  let fd := map_fd w 4 in (* map: cpumap_kthread_cnt *)
  on_record rec F_kthread (map_collect_percpu fd 0);;
  mret tt.

(** ** The poll loop *)

(** Pointer swap trick: [swap(&a, &b)] exchanges the two pointer variables;
    the result is the new contents of [( *a, *b)]. *)
Definition swap (a b : loc) : loc * loc :=
  let tmp := a in
  let a := b in
  let b := tmp in
  (a, b).

(** The pointer variables [record] and [prev] of [stats_poll]. *)
Record poll_vars := mk_poll_vars {
  record_ptr : loc;
  prev_ptr : loc
}.

(** One iteration of the [while (1)] body. *)
Definition poll_iteration (interval : Z) (v : poll_vars) : M poll_vars :=
  let '(prev, record) := swap (prev_ptr v) (record_ptr v) in
  stats_collect record;;
  stats_print record prev;;
  sleep interval;;
  mret (mk_poll_vars record prev).

Fixpoint poll_loop (iterations : nat) (interval : Z) (v : poll_vars) : M poll_vars :=
  match iterations with
  | O => mret v
  | S n => v' ← poll_iteration interval v; poll_loop n interval v'
  end.

(** [stats_poll], cut after the given number of iterations of the endless
    loop ([setlocale] only selects the digit grouping of [%']; the two
    calls of [free_stats_record] after the loop are never reached). *)
Definition stats_poll (iterations : nat) (interval : Z) : M poll_vars :=
  record ← alloc_stats_record;
  prev ← alloc_stats_record;
  stats_collect record;;
  poll_loop iterations interval (mk_poll_vars record prev).

(** ** Rounding: the real-number reading of the binary64 operations *)

(** [2^e] as a real number. *)
Definition bpow (e : Z) : R := powerRZ 2 e.

Arguments bpow : simpl never.

(** The real [x] lies in the slice [[m * 2^e, (m+1) * 2^e)], at the place
    the location says: on its lower end, below, at or above its middle. *)
Definition located (x : R) (m e : Z) (l : location) : Prop :=
  match l with
  | loc_Exact => x = (IZR m * bpow e)%R
  | loc_Inexact Lt => (IZR m * bpow e < x < (IZR m + /2) * bpow e)%R
  | loc_Inexact Eq => x = ((IZR m + /2) * bpow e)%R
  | loc_Inexact Gt => ((IZR m + /2) * bpow e < x < (IZR m + 1) * bpow e)%R
  end.

(** [M * 2^E] is a multiple of [2^E] nearest to [x], the even one on a
    tie. *)
Definition nearest_even (x : R) (M E : Z) : Prop :=
  ((IZR M - /2) * bpow E <= x <= (IZR M + /2) * bpow E)%R /\
  (x = ((IZR M - /2) * bpow E)%R \/ x = ((IZR M + /2) * bpow E)%R ->
   Z.even M = true).

(** [E] is the exponent binary64 gives the last place of [x > 0]: [emin]
    in the subnormal range, [prec] places below the leading bit above. *)
Definition canonical_exp (x : R) (E : Z) : Prop :=
  (E = emin Double.prec Double.emax /\
   (x < bpow (emin Double.prec Double.emax + Double.prec))%R) \/
  (emin Double.prec Double.emax < E /\
   (bpow (E + Double.prec - 1) <= x < bpow (E + Double.prec))%R).

(** [x] rounds to [M * 2^E]. *)
Definition rounds (x : R) (M E : Z) : Prop :=
  canonical_exp x E /\ nearest_even x M E.

(** The last step of [binary_round_aux]: the rounded mantissa is
    renormalised (a carry into bit [prec]) and packed, or replaced by
    [+inf] on overflow. *)
Definition finish (M E : Z) : spec_float :=
  let '(mrs, e) := shr_fexp Double.prec Double.emax M E loc_Exact in
  match shr_m mrs with
  | Z0 => S754_zero false
  | Zpos m =>
      if e <=? Double.emax - Double.prec then S754_finite false m e
      else S754_infinity false
  | Zneg _ => S754_nan
  end.

(** ** The rate formulas as the specification words them *)

(** [period(curr, prev) = (curr.timestamp - prev.timestamp) / 1e9], the
    subtraction on [__u64] and the division on [double]. *)
Definition period_spec (curr prev : record) : Double.t :=
  Double.div (Double.of_Z (U64.sub (timestamp curr) (timestamp prev)))
             (Double.of_Z (10 ^ 9)).

(** [floor(delta / period)] when [period > 0], else [0]. *)
Definition rate_spec (delta : Z) (period : Double.t) : option Z :=
  if Double.ltb Double.zero period
  then Double.floor_u64 (Double.div (Double.of_Z delta) period)
  else Some 0.

Definition pps_spec (curr prev : datarec) (period : Double.t) : option Z :=
  rate_spec (U64.sub (processed curr) (processed prev)) period.

Definition drop_pps_spec (curr prev : datarec) (period : Double.t) : option Z :=
  rate_spec (U64.sub (dropped curr) (dropped prev)) period.

(** ** The report as the specification words it *)

(** The lines of the report. *)
Definition line_header : printf_call :=
  Printf "%-15s %-7s %-10s %-18s %-12s %-9s\n"
         [AStr "XDP-cpumap"; AStr "CPU:to"; AStr "pps "; AStr "pps-human-readable";
          AStr "drop-pps"; AStr "period"].

Definition line_rx_cpu (i : nat) (pps : Z) (t : Double.t) : printf_call :=
  Printf "%-15s %-7d %-10.0f %'-18.0f %-12s %f\n"
         [AStr "XDP-RX"; AInt (Z.of_nat i); ADbl (Double.of_Z pps);
          ADbl (Double.of_Z pps); AStr "(nan)"; ADbl t].

Definition line_rx_total (pps : Z) (t : Double.t) : printf_call :=
  Printf "%-15s %-7s %-10.0f %'-18.0f %-12s %f\n"
         [AStr "XDP-RX"; AStr "total"; ADbl (Double.of_Z pps);
          ADbl (Double.of_Z pps); AStr "(nan)"; ADbl t].

Definition line_enq_cpu (to_cpu i : nat) (pps drop : Z) (t : Double.t) : printf_call :=
  Printf "%-15s %3d:%-3d %-10.0f %'-18.0f %'-12.0f %f\n"
         [AStr "cpumap-enqueue"; AInt (Z.of_nat i); AInt (Z.of_nat to_cpu);
          ADbl (Double.of_Z pps); ADbl (Double.of_Z pps); ADbl (Double.of_Z drop);
          ADbl t].

Definition line_enq_sum (to_cpu : nat) (pps drop : Z) (t : Double.t) : printf_call :=
  Printf "%-15s %3s:%-3d %-10.0f %'-18.0f %'-12.0f %f\n"
         [AStr "cpumap-enqueue"; AStr "sum"; AInt (Z.of_nat to_cpu);
          ADbl (Double.of_Z pps); ADbl (Double.of_Z pps); ADbl (Double.of_Z drop);
          ADbl t].

Definition line_cpu (label : string) (i : nat) (pps drop : Z) (t : Double.t)
  : printf_call :=
  Printf "%-15s %-7d %-10.0f %'-18.0f %'-12.0f %f\n"
         [AStr label; AInt (Z.of_nat i); ADbl (Double.of_Z pps);
          ADbl (Double.of_Z pps); ADbl (Double.of_Z drop); ADbl t].

Definition line_total (label : string) (pps drop : Z) (t : Double.t) : printf_call :=
  Printf "%-15s %-7s %-10.0f %'-18.0f %'-12.0f %f\n"
         [AStr label; AStr "total"; ADbl (Double.of_Z pps);
          ADbl (Double.of_Z pps); ADbl (Double.of_Z drop); ADbl t].

Definition line_blank : printf_call := Printf "\n" [].

(** What one CPU contributes to a block: nothing when its pps is [0], one
    row otherwise; [None] when the entry or a rate is undefined.  The RX
    block computes no drop rate. *)
Definition rx_row (rec prev : record) (i : nat) : option (list printf_call) :=
  let t := calc_period rec prev in
  r ← cpu rec !! i;
  p ← cpu prev !! i;
  pps ← calc_pps r p t;
  Some (if pps =? 0 then [] else [line_rx_cpu i pps t]).

Definition rate_row (mk : nat -> Z -> Z -> Double.t -> printf_call)
    (rec prev : record) (i : nat) : option (list printf_call) :=
  let t := calc_period rec prev in
  r ← cpu rec !! i;
  p ← cpu prev !! i;
  pps ← calc_pps r p t;
  drop ← calc_drop_pps r p t;
  Some (if pps =? 0 then [] else [mk i pps drop t]).

(** The rows of the CPUs [0 .. nr_cpus - 1], in ascending order. *)
Definition cpu_rows (row : nat -> option (list printf_call)) (nr_cpus : nat)
  : list printf_call :=
  flat_map (fun i => default [] (row i)) (seq 0 nr_cpus).

Definition total_pps (rec prev : record) : Z :=
  default 0 (calc_pps (total rec) (total prev) (calc_period rec prev)).

Definition total_drop (rec prev : record) : Z :=
  default 0 (calc_drop_pps (total rec) (total prev) (calc_period rec prev)).

(** (a) the RX block: per-CPU rows, then the total row unconditionally. *)
Definition rx_block (nr_cpus : nat) (rec prev : record) : list printf_call :=
  cpu_rows (rx_row rec prev) nr_cpus ++
  [line_rx_total (total_pps rec prev) (calc_period rec prev)].

(** (b) the enqueue block of one target: per-CPU rows, then the sum row
    only when its pps is not [0]. *)
Definition enq_block (nr_cpus to_cpu : nat) (rec prev : record) : list printf_call :=
  cpu_rows (rate_row (line_enq_cpu to_cpu) rec prev) nr_cpus ++
  (if total_pps rec prev =? 0 then []
   else [line_enq_sum to_cpu (total_pps rec prev) (total_drop rec prev)
                      (calc_period rec prev)]).

(** (c), (d) the kthread and redirect_err blocks: per-CPU rows, then the
    total row unconditionally. *)
Definition total_block (label : string) (nr_cpus : nat) (rec prev : record)
  : list printf_call :=
  cpu_rows (rate_row (line_cpu label) rec prev) nr_cpus ++
  [line_total label (total_pps rec prev) (total_drop rec prev)
              (calc_period rec prev)].

Definition enq_blocks (nr_cpus : nat) (cur old : stats_record) : list printf_call :=
  flat_map (fun to_cpu =>
              match enq cur !! to_cpu, enq old !! to_cpu with
              | Some rec, Some prev => enq_block nr_cpus to_cpu rec prev
              | _, _ => []
              end) (seq 0 MAX_CPUS).

Definition render (nr_cpus : nat) (cur old : stats_record) : list printf_call :=
  [line_header] ++
  rx_block nr_cpus (rx_cnt cur) (rx_cnt old) ++
  enq_blocks nr_cpus cur old ++
  total_block "cpumap_kthread" nr_cpus (kthread cur) (kthread old) ++
  total_block "redirect_err" nr_cpus (redir_err cur) (redir_err old) ++
  [line_blank].

(** When every step of the report is defined: the arrays hold an entry for
    every CPU and every target, and every rate fits a [__u64].  (Whether a
    row is defined does not depend on its format, so any will do below.) *)
Definition rows_defined (row : nat -> option (list printf_call)) (nr_cpus : nat) : Prop :=
  forall i, (i < nr_cpus)%nat -> is_Some (row i).

Definition rx_defined (nr_cpus : nat) (rec prev : record) : Prop :=
  rows_defined (rx_row rec prev) nr_cpus /\
  is_Some (calc_pps (total rec) (total prev) (calc_period rec prev)).

Definition enq_defined (nr_cpus : nat) (rec prev : record) : Prop :=
  rows_defined (rate_row (line_enq_cpu 0) rec prev) nr_cpus /\
  is_Some (calc_pps (total rec) (total prev) (calc_period rec prev)) /\
  (total_pps rec prev <> 0 ->
   is_Some (calc_drop_pps (total rec) (total prev) (calc_period rec prev))).

Definition total_defined (nr_cpus : nat) (rec prev : record) : Prop :=
  rows_defined (rate_row (line_cpu "") rec prev) nr_cpus /\
  is_Some (calc_pps (total rec) (total prev) (calc_period rec prev)) /\
  is_Some (calc_drop_pps (total rec) (total prev) (calc_period rec prev)).

Definition print_defined (nr_cpus : nat) (cur old : stats_record) : Prop :=
  rx_defined nr_cpus (rx_cnt cur) (rx_cnt old) /\
  (forall to_cpu, (to_cpu < MAX_CPUS)%nat ->
     exists rec prev, enq cur !! to_cpu = Some rec /\ enq old !! to_cpu = Some prev /\
                      enq_defined nr_cpus rec prev) /\
  total_defined nr_cpus (kthread cur) (kthread old) /\
  total_defined nr_cpus (redir_err cur) (redir_err old).

(** ** Well-formed snapshots and environments *)

(** The shape [alloc_stats_record] gives a snapshot: [nr_cpus] entries in
    every per-CPU array, [MAX_CPUS] enqueue records. *)
Definition wf_record (nr_cpus : nat) (r : record) : Prop :=
  length (cpu r) = nr_cpus.

Definition wf_stats (nr_cpus : nat) (s : stats_record) : Prop :=
  wf_record nr_cpus (rx_cnt s) /\ wf_record nr_cpus (redir_err s) /\
  wf_record nr_cpus (kthread s) /\
  length (enq s) = MAX_CPUS /\ Forall (wf_record nr_cpus) (enq s).

(** The kernel copies out one value per possible CPU. *)
Definition lookups_complete (w : world) : Prop :=
  forall n fd key values,
    map_lookup w n fd key = Some values -> length values = possible_cpus w.

(** No [clock_gettime] call from now on fails. *)
Definition clock_works (w : world) : Prop :=
  forall n, (n_clock w <= n)%nat -> 0 <= (clock w n).1.1.

(** The sum of a list of counters. *)
Definition sum_list (l : list Z) : Z := foldr Z.add 0 l.

(** The tables [stats_collect] reads, in order: the record they fill, the
    index of the map in [map_fd], the key. *)
Definition tables : list (field * nat * Z) :=
  [(F_rx_cnt, 1%nat, 0); (F_redir_err, 2%nat, 1)] ++
  map (fun i => (F_enq i, 3%nat, Z.of_nat i)) (seq 0 MAX_CPUS) ++
  [(F_kthread, 4%nat, 0)].

(** A record freshly collected from [values]. *)
Definition collected (values : list datarec) (r : record) : Prop :=
  cpu r = values /\
  processed (total r) = U64.wrap (sum_list (processed <$> values)) /\
  dropped (total r) = U64.wrap (sum_list (dropped <$> values)).

(** ** What a poll cycle may do to the world *)

(** The environment and the allocator are left alone; the clock only moves
    forward. *)
Definition quiet (w w' : world) : Prop :=
  possible_cpus w' = possible_cpus w /\ map_fd w' = map_fd w /\
  map_lookup w' = map_lookup w /\ clock w' = clock w /\
  malloc_ok w' = malloc_ok w /\ n_mallocs w' = n_mallocs w /\
  (n_clock w <= n_clock w')%nat.

(** One of the clock reads made between [w] and [w'] failed. *)
Definition clock_failed (w w' : world) : Prop :=
  exists n, (n_clock w <= n < n_clock w')%nat /\ (clock w n).1.1 < 0.

(** A computation that allocates nothing and that only a failed clock
    read makes exit, with [EXIT_FAIL]. *)
Definition cycle_safe {A} (m : M A) : Prop :=
  forall w,
    match m w with
    | Done _ w' => quiet w w'
    | Exit code w' => code = EXIT_FAIL /\ quiet w w' /\ clock_failed w w'
    | Fault => True
    end.

(** ** Example environments *)

Definition counters (l : list Z) : list datarec :=
  (fun x => mk_datarec x 0) <$> l.

Definition initial_world (nr_cpus : nat)
    (lookup : nat -> Z -> Z -> option (list datarec))
    (clk : nat -> Z * Z * Z) : world :=
  World nr_cpus (fun i => Z.of_nat i) lookup clk (fun _ => true) 0 0 0 ∅ [] [] [].

(** Scenario 1: four CPUs; the baseline collection (calls 0 .. 14) reads
    [100,0,0,0] from the RX table at time 0, the first cycle (calls 15 ..
    29) reads [200,50,0,0] one second later; every other table stays at
    zero. *)
Definition scenario1_lookup (n : nat) (fd key : Z) : option (list datarec) :=
  if (n =? 0)%nat then Some (counters [100; 0; 0; 0])
  else if (n =? 15)%nat then Some (counters [200; 50; 0; 0])
  else Some (counters [0; 0; 0; 0]).

Definition scenario1_clock (n : nat) : Z * Z * Z :=
  if (n <? 15)%nat then (0, 0, 0) else (0, 1, 0).

Definition scenario1 : world := initial_world 4 scenario1_lookup scenario1_clock.

(** Scenario 3: as scenario 1, but in the first cycle the lookup of the
    enqueue table for target 5 (call 15 + 2 + 5) fails. *)
Definition scenario3_lookup (n : nat) (fd key : Z) : option (list datarec) :=
  if (n =? 22)%nat then None else scenario1_lookup n fd key.

Definition scenario3 : world := initial_world 4 scenario3_lookup scenario1_clock.

(** As scenario 1, but the first clock read of the first cycle fails. *)
Definition clock_failure_clock (n : nat) : Z * Z * Z :=
  if (n =? 15)%nat then (-1, 0, 0) else scenario1_clock n.

Definition clock_failure : world :=
  initial_world 4 scenario1_lookup clock_failure_clock.

(** A snapshot for the examples: four CPUs, every table with the same
    counters. *)
Definition sample_record : record :=
  mk_record 7000000000 (mk_datarec 10 2)
            [mk_datarec 4 1; mk_datarec 3 0; mk_datarec 2 1; mk_datarec 1 0].

Definition sample_stats : stats_record :=
  mk_stats_record sample_record sample_record sample_record
                  (replicate MAX_CPUS sample_record).

(** Two buffers holding identical snapshots. *)
Definition identical_snapshots : world :=
  set_heap (<[1%positive := sample_stats]> (<[2%positive := sample_stats]> ∅))
           (initial_world 4 scenario1_lookup scenario1_clock).

(** ** [stats_collect] as a walk over the tables *)

Fixpoint collect_tables (rec : loc) (fds : nat -> Z) (l : list (field * nat * Z))
  : M unit :=
  match l with
  | [] => mret tt
  | (fld, m, key) :: l' =>
      on_record rec fld (map_collect_percpu (fds m) key);;
      collect_tables rec fds l'
  end.

(** The messages on [stderr] for the lookups that fail, the first one being
    call number [n]. *)
Fixpoint collect_errors (w : world) (n : nat) (l : list (field * nat * Z))
  : list printf_call :=
  match l with
  | [] => []
  | (fld, m, key) :: l' =>
      match map_lookup w n (map_fd w m) key with
      | None => [Printf "ERR: bpf_map_lookup_elem failed key:0x%X\n" [AInt key]]
      | Some _ => []
      end ++ collect_errors w (S n) l'
  end.

(** The fields that exist in a snapshot. *)
Definition field_ok (fld : field) : Prop :=
  match fld with
  | F_enq i => (i < MAX_CPUS)%nat
  | _ => True
  end.

(** The world when [stats_poll] enters its loop: both snapshots allocated,
    the baseline collected. *)
Definition after_baseline (w : world) : world :=
  match stats_poll 0 2 w with
  | Done _ w' => w'
  | _ => w
  end.

#[export] Instance field_eq_dec : EqDecision field.
Proof. solve_decision. Defined.

(** A snapshot as [alloc_stats_record] leaves it, and the snapshot of the
    baseline collection of scenario 1. *)
Definition fresh_record (nr_cpus : nat) : record :=
  mk_record 0 zero_datarec (replicate nr_cpus zero_datarec).

Definition fresh_stats (nr_cpus : nat) : stats_record :=
  mk_stats_record (fresh_record nr_cpus) (fresh_record nr_cpus) (fresh_record nr_cpus)
                  (replicate MAX_CPUS (fresh_record nr_cpus)).

Definition baseline_stats : stats_record :=
  mk_stats_record (mk_record 0 (mk_datarec 100 0) (counters [100; 0; 0; 0]))
                  (fresh_record 4) (fresh_record 4)
                  (replicate MAX_CPUS (fresh_record 4)).



(** ** The columns of the rows *)

(** The first argument of a row of the report: the name of its block. *)
Definition row_label (l : printf_call) : option string :=
  match args l with
  | AStr s :: _ => Some s
  | _ => None
  end.

(** A pair of counters of two records of a table: the two totals, or the
    two entries of one CPU. *)
Definition counters_of (rec prev : record) (r p : datarec) : Prop :=
  (r = total rec /\ p = total prev) \/
  exists i, cpu rec !! i = Some r /\ cpu prev !! i = Some p.

(** A row that carries a computed drop rate: its last four arguments are
    the pps (twice), the drop-pps and the period of a pair of counters of
    the table, the drop-pps printed with [%'-12.0f]. *)
Definition drop_rate_row (rec prev : record) (l : printf_call) : Prop :=
  exists r p pps drop ids pre,
    counters_of rec prev r p /\
    calc_pps r p (calc_period rec prev) = Some pps /\
    calc_drop_pps r p (calc_period rec prev) = Some drop /\
    args l = ids ++ [ADbl (Double.of_Z pps); ADbl (Double.of_Z pps);
                     ADbl (Double.of_Z drop); ADbl (calc_period rec prev)] /\
    fmt l = (pre ++ " %-10.0f %'-18.0f %'-12.0f %f\n")%string.

(** Two snapshots that differ at most in the [dropped] counters of the RX
    table. *)
Definition rx_dropped_apart (s s' : stats_record) : Prop :=
  timestamp (rx_cnt s) = timestamp (rx_cnt s') /\
  processed (total (rx_cnt s)) = processed (total (rx_cnt s')) /\
  processed <$> cpu (rx_cnt s) = processed <$> cpu (rx_cnt s') /\
  redir_err s = redir_err s' /\ kthread s = kthread s' /\ enq s = enq s'.

(** The two snapshots of scenario 1 after the first cycle, in a heap. *)
Definition cycle1_stats : stats_record :=
  mk_stats_record (mk_record 1000000000 (mk_datarec 250 0) (counters [200; 50; 0; 0]))
                  (fresh_record 4) (fresh_record 4)
                  (replicate MAX_CPUS (fresh_record 4)).

Definition scenario1_snapshots : world :=
  set_heap (<[1%positive := cycle1_stats]> (<[2%positive := baseline_stats]> ∅))
           (initial_world 4 scenario1_lookup scenario1_clock).

(** * The rest of the program: definitions *)

From Stdlib Require Import Ascii.

(** The nanosecond count of a clock reading. *)
Definition nanoseconds (reading : Z * Z * Z) : Z :=
  reading.1.2 * NANOSEC_PER_SEC + reading.2.

(** The [k] next [malloc] calls all return a block. *)
Definition mallocs_ok (w : world) (k : nat) : Prop :=
  forall j, (j < k)%nat -> malloc_ok w (n_mallocs w + j) = true.

(** Only the heap and the allocation count differ between [w] and [w']. *)
Definition alloc_only (w w' : world) : Prop :=
  possible_cpus w' = possible_cpus w /\ map_fd w' = map_fd w /\
  map_lookup w' = map_lookup w /\ clock w' = clock w /\
  malloc_ok w' = malloc_ok w /\ n_lookups w' = n_lookups w /\
  n_clock w' = n_clock w /\ stdout w' = stdout w /\ stderr w' = stderr w /\
  sleeps w' = sleeps w.

(** The records of a snapshot in the order [alloc_stats_record] gives them
    their per-CPU arrays. *)
Definition snapshot_fields : list field :=
  [F_rx_cnt; F_redir_err; F_kthread] ++ (F_enq <$> seq 0 MAX_CPUS).

Fixpoint alloc_fields (p : loc) (l : list field) : M unit :=
  match l with
  | [] => mret tt
  | fld :: l' => alloc_cpu_of p fld;; alloc_fields p l'
  end.

(** The two pointer variables of the poll loop designate two different
    buffers, each with the shape [alloc_stats_record] gave it. *)
Definition buffers_ok (w : world) (v : poll_vars) : Prop :=
  record_ptr v <> prev_ptr v /\
  exists cur old,
    heap w !! record_ptr v = Some cur /\ heap w !! prev_ptr v = Some old /\
    wf_stats (possible_cpus w) cur /\ wf_stats (possible_cpus w) old.

(** A computation that has no path to [exit]. *)
Definition never_exits {A} (m : M A) : Prop :=
  forall w code w', m w <> Exit code w'.

(** Two snapshots of a table taken at the same time, or more than a
    second apart. *)
Definition settled (rec prev : record) : Prop :=
  U64.sub (timestamp rec) (timestamp prev) = 0 \/
  NANOSEC_PER_SEC < U64.sub (timestamp rec) (timestamp prev).

(** * The process around the statistics engine *)

(** ** The command-line options *)

(** The code of a character constant. *)
Definition char (c : ascii) : Z := Z.of_nat (nat_of_ascii c).

Definition no_argument : Z := 0.
Definition required_argument : Z := 1.

(** [struct option] of [getopt.h]; a null [name] or [flag] pointer is
    [None], a [flag] pointer is represented by the [int] it points to. *)
Record option_entry := mk_option {
  name : option string;
  has_arg : Z;
  flag : option Z;
  val : Z
}.

Definition long_options : list option_entry :=
  [mk_option (Some "help"%string) no_argument None (char "h");
   mk_option (Some "dev"%string) required_argument None (char "d");
   mk_option (Some "skb-mode"%string) no_argument None (char "S");
   mk_option (Some "debug"%string) no_argument None (char "D");
   mk_option (Some "sec"%string) required_argument None (char "s");
   mk_option (Some "prognum"%string) required_argument None (char "p");
   mk_option (Some "qsize"%string) required_argument None (char "q");
   mk_option None 0 None 0].

(** String literals are kept as the source spells them, escape sequences
    included; [dquote] is the double quote character. *)
Definition dquote : string := String (ascii_of_nat 34) EmptyString.

Definition __doc__ : string :=
  (" XDP redirect with a CPU-map type \" ++ dquote ++ "BPF_MAP_TYPE_CPUMAP\"
   ++ dquote ++ " (EXPERIMENTAL)")%string.

(** [usage]: the loop runs over [long_options] until the entry whose
    [name] is null; reading past the end of the array is undefined. *)
Fixpoint usage_options (opts : list option_entry) : M unit :=
  match opts with
  | [] => undefined
  | o :: rest =>
      match name o with
      | None => mret tt
      | Some n =>
          printf " --%-12s" [AStr n];;
          match flag o with
          | Some v => printf " flag (internal value:%d)" [AInt v]
          | None => printf " short-option: -%c" [AInt (val o)]
          end;;
          printf "\n" [];;
          usage_options rest
      end
  end.

Definition usage (argv0 : string) : M unit :=
  printf "\nDOCUMENTATION:\n%s\n" [AStr __doc__];;
  printf "\n" [];;
  printf " Usage: %s (options-see-below)\n" [AStr argv0];;
  printf " Listing options:\n" [];;
  usage_options long_options;;
  printf "\n" [].

(** ** The process and its environment *)

(** Constants of the system headers: [IF_NAMESIZE] of [net/if.h],
    [XDP_FLAGS_SKB_MODE], that is [(1U << 1)], of [linux/if_link.h]. *)
Definition IF_NAMESIZE : nat := 16.
Definition XDP_FLAGS_SKB_MODE : Z := 2.

(** How many xdp_progs are defined in _kern.c *)
Definition MAX_PROG : Z := 4.

(** The calls into the kernel and the BPF loader, with their arguments. *)
Inductive kernel_call :=
| K_if_nametoindex (ifname : string)
| K_load_bpf_file (filename : string)
| K_bpf_map_update_elem (fd key value flags : Z)
| K_signal_SIGINT
| K_set_link_xdp_fd (ifindex fd flags : Z)
| K_read_trace_pipe.

(** What lies outside the program.
    - [getopt_results]: what the successive calls of [getopt_long] return,
      each with the [optarg] it sets ([None] for a null pointer); once
      they are used up the call returns [-1].  The messages [getopt_long]
      itself writes on [stderr] are not recorded.
    - [answer history call]: the value [call] returns after the calls of
      [history] (an [unsigned int] for [if_nametoindex], an [int] for the
      other calls); [errno history]: the value of [errno] then.
    - [atoi]: the [int] that [atoi] returns for a string.
    - [prog_fd], [bpf_log_buf]: the globals of the BPF loader. *)
Record platform := Platform {
  getopt_results : list (Z * option string);
  atoi : string -> Z;
  strerror : Z -> string;
  answer : list kernel_call -> kernel_call -> Z;
  errno : list kernel_call -> Z;
  prog_fd : Z -> Z;
  bpf_log_buf : string;
  trace_pipe_ends : bool
}.

(** The state of the process: the world of the statistics engine, the
    globals [ifindex], [ifname] (with the buffer it points to) and
    [xdp_flags], the calls made so far and whether [int_exit] handles
    [SIGINT]. *)
Record process := Process {
  env : platform;
  sys : world;
  ifindex : Z;
  ifname : option string;
  xdp_flags : Z;
  kernel : list kernel_call;
  sigint : bool
}.

Definition set_sys (w : world) (p : process) : process :=
  Process (env p) w (ifindex p) (ifname p) (xdp_flags p) (kernel p) (sigint p).

Definition set_ifindex (i : Z) (p : process) : process :=
  Process (env p) (sys p) i (ifname p) (xdp_flags p) (kernel p) (sigint p).

Definition set_ifname (n : option string) (p : process) : process :=
  Process (env p) (sys p) (ifindex p) n (xdp_flags p) (kernel p) (sigint p).

Definition set_xdp_flags (f : Z) (p : process) : process :=
  Process (env p) (sys p) (ifindex p) (ifname p) f (kernel p) (sigint p).

Definition set_kernel (k : list kernel_call) (p : process) : process :=
  Process (env p) (sys p) (ifindex p) (ifname p) (xdp_flags p) k (sigint p).

Definition set_sigint (b : bool) (p : process) : process :=
  Process (env p) (sys p) (ifindex p) (ifname p) (xdp_flags p) (kernel p) b.

(** The process as [main] finds it. *)
Definition start (e : platform) (w : world) : process :=
  Process e w (-1) None 0 [] false.

Inductive result (A : Type) :=
| Ret (a : A) (p : process)
| Halt (code : Z) (p : process)
| Undef.

Arguments Ret {A} a p.
Arguments Halt {A} code p.
Arguments Undef {A}.

Definition P (A : Type) : Type := process -> result A.

#[export] Instance P_ret : MRet P := fun A a p => Ret a p.

#[export] Instance P_bind : MBind P := fun A B f m p =>
  match m p with
  | Ret a p' => f a p'
  | Halt code p' => Halt code p'
  | Undef => Undef
  end.

(** A computation of the statistics engine, run inside the process. *)
Definition lift {A} (m : M A) : P A := fun p =>
  match m (sys p) with
  | Done a w => Ret a (set_sys w p)
  | Exit code w => Halt code (set_sys w p)
  | Fault => Undef
  end.

Definition get_process : P process := fun p => Ret p p.

Definition modify (f : process -> process) : P unit := fun p => Ret tt (f p).

Definition syscall (c : kernel_call) : P Z := fun p =>
  Ret (answer (env p) (kernel p) c) (set_kernel (kernel p ++ [c]) p).

(** ** int_exit *)

(** [ifname] is printed with [%s]: undefined for a null pointer. *)
Definition int_exit (sig : Z) : P unit :=
  p ← get_process;
  dev ← lift (defined (ifname p));
  lift (fprintf_stderr "Interrupted: Removing XDP program on ifindex:%d device:%s\n"
                       [AInt (ifindex p); AStr dev]);;
  (if -1 <? ifindex p
   then syscall (K_set_link_xdp_fd (ifindex p) (-1) (xdp_flags p));; mret tt
   else mret tt);;
  lift (exit EXIT_OK).

(** ** create_cpu_entry *)

Definition create_cpu_entry (cpu queue_size : Z) : P Z :=
  p ← get_process;
  ret ← syscall (K_bpf_map_update_elem (map_fd (sys p) 0) cpu queue_size 0);
  if negb (ret =? 0) then
    lift (fprintf_stderr "Create CPU entry failed\n" []);;
    lift (exit EXIT_FAIL_BPF)
  else mret 0.

(** ** main *)

(** The locals of [main] that the options set. *)
Record main_locals := mk_locals {
  debug : bool;
  interval : Z;
  prog_num : Z;
  qsize : Z
}.

(** [strncpy (dest, src, n)] copies at most [n] characters of [src]. *)
Definition strncpy (src : string) (n : nat) : string := substring 0 n src.

(** The labels [case 'h': error: default:] of the switch: [usage] and
    [return EXIT_FAIL_OPTION] ([inl] is a return from [main]). *)
Definition option_error (argv0 : string) : P (Z + main_locals) :=
  lift (usage argv0);;
  mret (inl EXIT_FAIL_OPTION).

(** The body of the [switch] for one option returned by [getopt_long]. *)
Definition handle_option (argv0 : string) (opt : Z) (optarg : option string)
    (l : main_locals) : P (Z + main_locals) :=
  if opt =? char "d" then
    arg ← lift (defined optarg);
    if (IF_NAMESIZE <=? String.length arg)%nat then
      lift (fprintf_stderr "ERR: --dev name too long\n" []);;
      option_error argv0
    else
      modify (set_ifname (Some (strncpy arg IF_NAMESIZE)));;
      i ← syscall (K_if_nametoindex (strncpy arg IF_NAMESIZE));
      (* [int ifindex] receives the [unsigned int] result *)
      let i := to_int i in
      modify (set_ifindex i);;
      if i =? 0 then
        p ← get_process;
        lift (fprintf_stderr "ERR: --dev name unknown err(%d):%s\n"
                [AInt (errno (env p) (kernel p));
                 AStr (strerror (env p) (errno (env p) (kernel p)))]);;
        option_error argv0
      else mret (inr l)
  else if opt =? char "s" then
    arg ← lift (defined optarg);
    p ← get_process;
    mret (inr (mk_locals (debug l) (atoi (env p) arg) (prog_num l) (qsize l)))
  else if opt =? char "S" then
    p ← get_process;
    modify (set_xdp_flags (Z.lor (xdp_flags p) XDP_FLAGS_SKB_MODE));;
    mret (inr l)
  else if opt =? char "D" then
    mret (inr (mk_locals true (interval l) (prog_num l) (qsize l)))
  else if opt =? char "p" then
    arg ← lift (defined optarg);
    p ← get_process;
    let prog_num := atoi (env p) arg in
    if (prog_num <? 0) || (MAX_PROG <=? prog_num) then
      lift (fprintf_stderr "--prognum too large err(%d):%s\n"
              [AInt (errno (env p) (kernel p));
               AStr (strerror (env p) (errno (env p) (kernel p)))]);;
      option_error argv0
    else mret (inr (mk_locals (debug l) (interval l) prog_num (qsize l)))
  else if opt =? char "q" then
    arg ← lift (defined optarg);
    p ← get_process;
    mret (inr (mk_locals (debug l) (interval l) (prog_num l)
                         (to_u32 (atoi (env p) arg))))
  else option_error argv0.

(** [while ((opt = getopt_long(...)) != -1) switch (opt) ...] over the
    results [getopt_long] still has to give. *)
Fixpoint parse_options (argv0 : string) (results : list (Z * option string))
    (l : main_locals) : P (Z + main_locals) :=
  match results with
  | [] => mret (inr l)
  | (opt, optarg) :: rest =>
      if opt =? -1 then mret (inr l)
      else
        r ← handle_option argv0 opt optarg l;
        match r with
        | inl code => mret (inl code)
        | inr l' => parse_options argv0 rest l'
        end
  end.

(** [main] after the options: the required option, the BPF object, the
    CPU entries, the signal handler, the attachment, and the poll loop cut
    after [iterations] rounds.  The result is the value [main] returns;
    [None] stands for a run that was still in [stats_poll] (or in
    [read_trace_pipe]) when it was cut: neither returns, and the
    [return EXIT_OK] after them is never reached. *)
Definition run (iterations : nat) (argv0 filename : string) (l : main_locals)
  : P (option Z) :=
  p ← get_process;
  (* Required options *)
  if ifindex p =? -1 then
    lift (fprintf_stderr "ERR: required option --dev missing" []);;
    lift (usage argv0);;
    mret (Some EXIT_FAIL_OPTION)
  else
    r ← syscall (K_load_bpf_file filename);
    if negb (r =? 0) then
      lift (fprintf_stderr "ERR in load_bpf_file(): %s" [AStr (bpf_log_buf (env p))]);;
      mret (Some EXIT_FAIL)
    else
      p ← get_process;
      if prog_fd (env p) 0 =? 0 then
        lift (fprintf_stderr "ERR: load_bpf_file: %s\n"
                [AStr (strerror (env p) (errno (env p) (kernel p)))]);;
        mret (Some EXIT_FAIL)
      else
        create_cpu_entry 0 (qsize l);;
        create_cpu_entry 1 (qsize l);;
        create_cpu_entry 2 (qsize l);;
        create_cpu_entry 3 (qsize l);;
        create_cpu_entry 4 (qsize l);;
        (* Remove XDP program when program is interrupted *)
        syscall K_signal_SIGINT;;
        modify (set_sigint true);;
        p ← get_process;
        r ← syscall (K_set_link_xdp_fd (ifindex p) (prog_fd (env p) (prog_num l))
                                       (xdp_flags p));
        if r <? 0 then
          lift (fprintf_stderr "link set xdp fd failed\n" []);;
          mret (Some EXIT_FAIL_XDP)
        else
          ended ←
            (if debug l then
               lift (printf "Debug-mode reading trace pipe (fix #define DEBUG)\n" []);;
               syscall K_read_trace_pipe;;
               mret (trace_pipe_ends (env p))
             else mret true);
          if ended : bool then
            lift (stats_poll iterations (interval l));;
            mret None
          else mret None.

(** [main]: the locals with their initial values, the name of the BPF
    object, the options, and the rest. *)
Definition main (iterations : nat) (argv0 : string) : P (option Z) :=
  let l := mk_locals false 2 0 (128 + 64) in
  let filename := substring 0 255 (argv0 ++ "_kern.o") in
  p ← get_process;
  r ← parse_options argv0 (getopt_results (env p)) l;
  match r with
  | inl code => mret (Some code)
  | inr l => run iterations argv0 filename l
  end.

(** What [usage] prints for one entry of the table. *)
Definition option_lines (o : option_entry) : list printf_call :=
  match name o with
  | None => []
  | Some n =>
      [Printf " --%-12s" [AStr n];
       match flag o with
       | Some v => Printf " flag (internal value:%d)" [AInt v]
       | None => Printf " short-option: -%c" [AInt (val o)]
       end;
       Printf "\n" []]
  end.

Definition usage_text (argv0 : string) : list printf_call :=
  [Printf "\nDOCUMENTATION:\n%s\n" [AStr __doc__];
   Printf "\n" [];
   Printf " Usage: %s (options-see-below)\n" [AStr argv0];
   Printf " Listing options:\n" []] ++
  flat_map option_lines
    [mk_option (Some "help"%string) no_argument None (char "h");
     mk_option (Some "dev"%string) required_argument None (char "d");
     mk_option (Some "skb-mode"%string) no_argument None (char "S");
     mk_option (Some "debug"%string) no_argument None (char "D");
     mk_option (Some "sec"%string) required_argument None (char "s");
     mk_option (Some "prognum"%string) required_argument None (char "p");
     mk_option (Some "qsize"%string) required_argument None (char "q")] ++
  [Printf "\n" []].

(** Only the output streams differ between the two worlds. *)
Definition output_only (w w' : world) : Prop :=
  w' = set_stderr (stderr w') (set_stdout (stdout w') w).

(** A lookup of an interface name, the name fitting [ifname_buf] with
    its terminating null character. *)
Definition is_lookup (c : kernel_call) : Prop :=
  match c with
  | K_if_nametoindex dev => (String.length dev < IF_NAMESIZE)%nat
  | _ => False
  end.

(** What the processing of the options leaves alone: the process has
    printed and has looked up interface names, nothing else. *)
Definition parsed (p p' : process) : Prop :=
  env p' = env p /\ sigint p' = sigint p /\ output_only (sys p) (sys p') /\
  exists ks, kernel p' = kernel p ++ ks /\ Forall is_lookup ks.

(** The device globals: no [--dev] was given, or the last one named a
    device that the last call made has found. *)
Definition device_ok (p : process) : Prop :=
  (ifindex p = -1 /\ ifname p = None) \/
  (exists dev before,
     ifname p = Some dev /\ (String.length dev < IF_NAMESIZE)%nat /\
     kernel p = before ++ [K_if_nametoindex dev] /\
     ifindex p = to_int (answer (env p) before (K_if_nametoindex dev)) /\
     ifindex p <> 0).

Definition locals_ok (l : main_locals) : Prop :=
  0 <= prog_num l < MAX_PROG /\ 0 <= qsize l < 2 ^ 32.

(** The options [getopt_long] gives before it returns [-1]. *)
Fixpoint options_given (results : list (Z * option string))
  : list (Z * option string) :=
  match results with
  | [] => []
  | (opt, optarg) :: rest =>
      if opt =? -1 then [] else (opt, optarg) :: options_given rest
  end.

(** The arguments given with option [c], in order. *)
Definition args_of (c : ascii) (given : list (Z * option string)) : list string :=
  omap (fun x : Z * option string => if x.1 =? char c then x.2 else None) given.

(** The setting an option chooses: the value of its last argument, or
    the default [d]. *)
Definition setting {A} (f : string -> A) (d : A) (c : ascii)
    (given : list (Z * option string)) : A :=
  from_option f d (last (args_of c given)).

Definition given_flag (c : ascii) (given : list (Z * option string)) : bool :=
  existsb (fun x : Z * option string => x.1 =? char c) given.

(** The calls [main] makes between the options and the poll loop. *)
Definition cpu_entries (fd0 q : Z) (cpus : list Z) : list kernel_call :=
  (fun cpu => K_bpf_map_update_elem fd0 cpu q 0) <$> cpus.

Definition attach_call (p : process) (l : main_locals) : kernel_call :=
  K_set_link_xdp_fd (ifindex p) (prog_fd (env p) (prog_num l)) (xdp_flags p).

Definition startup_calls (p : process) (filename : string) (l : main_locals)
  : list kernel_call :=
  [K_load_bpf_file filename] ++
  cpu_entries (map_fd (sys p) 0) (qsize l) [0; 1; 2; 3; 4] ++
  [K_signal_SIGINT; attach_call p l].

(** [p'] is [p] after the calls [ks], with the handler installed or not;
    the world of the statistics engine is left open. *)
Definition after_calls (p p' : process) (ks : list kernel_call) (handler : bool)
  : Prop :=
  env p' = env p /\ ifindex p' = ifindex p /\ ifname p' = ifname p /\
  xdp_flags p' = xdp_flags p /\ kernel p' = kernel p ++ ks /\ sigint p' = handler.

(** [create_cpu_entry] for each of [cpus], then [k]. *)
Fixpoint create_then {B} (cpus : list Z) (q : Z) (k : P B) : P B :=
  match cpus with
  | [] => k
  | cpu :: rest => create_cpu_entry cpu q;; create_then rest q k
  end.

(** The ways [run] ends. *)
Inductive run_outcome (iterations : nat) (argv0 filename : string)
    (l : main_locals) (p : process) : result (option Z) -> Prop :=
| Run_no_device p' :
    ifindex p = -1 ->
    after_calls p p' [] (sigint p) -> output_only (sys p) (sys p') ->
    stdout (sys p') = stdout (sys p) ++ usage_text argv0 ->
    run_outcome iterations argv0 filename l p (Ret (Some EXIT_FAIL_OPTION) p')
| Run_load_failed p' :
    ifindex p <> -1 ->
    after_calls p p' [K_load_bpf_file filename] (sigint p) ->
    output_only (sys p) (sys p') ->
    answer (env p) (kernel p) (K_load_bpf_file filename) <> 0 \/
    prog_fd (env p) 0 = 0 ->
    run_outcome iterations argv0 filename l p (Ret (Some EXIT_FAIL) p')
| Run_entry_failed k p' :
    ifindex p <> -1 -> (k < 5)%nat ->
    after_calls p p'
      ([K_load_bpf_file filename] ++
       cpu_entries (map_fd (sys p) 0) (qsize l) (take (S k) [0; 1; 2; 3; 4]))
      (sigint p) ->
    output_only (sys p) (sys p') ->
    run_outcome iterations argv0 filename l p (Halt EXIT_FAIL_BPF p')
| Run_attach_failed p' :
    ifindex p <> -1 ->
    after_calls p p' (startup_calls p filename l) true ->
    output_only (sys p) (sys p') ->
    run_outcome iterations argv0 filename l p (Ret (Some EXIT_FAIL_XDP) p')
| Run_trace_pipe p' :
    ifindex p <> -1 -> debug l = true -> trace_pipe_ends (env p) = false ->
    after_calls p p' (startup_calls p filename l ++ [K_read_trace_pipe]) true ->
    output_only (sys p) (sys p') ->
    run_outcome iterations argv0 filename l p (Ret None p')
| Run_polled p' w0 v :
    ifindex p <> -1 ->
    after_calls p p'
      (startup_calls p filename l ++ (if debug l then [K_read_trace_pipe] else []))
      true ->
    output_only (sys p) w0 ->
    stats_poll iterations (interval l) w0 = Done v (sys p') ->
    run_outcome iterations argv0 filename l p (Ret None p')
| Run_poll_exit p' w0 :
    ifindex p <> -1 ->
    after_calls p p'
      (startup_calls p filename l ++ (if debug l then [K_read_trace_pipe] else []))
      true ->
    output_only (sys p) w0 ->
    stats_poll iterations (interval l) w0 = Exit EXIT_FAIL (sys p') ->
    run_outcome iterations argv0 filename l p (Halt EXIT_FAIL p')
| Run_undef :
    run_outcome iterations argv0 filename l p Undef.

(** The state a run ends in, when it ends in one. *)
Definition final {A} (r : result A) : option process :=
  match r with
  | Ret _ p | Halt _ p => Some p
  | Undef => None
  end.

(** The name of the BPF object [main] loads. *)
Definition object_file (argv0 : string) : string :=
  substring 0 255 (argv0 ++ "_kern.o").

(** A platform for the examples: [--dev eth0 --sec -1], the device has
    index 3, every other call succeeds, the program loaded has descriptor
    7. *)
Definition sample_platform : platform :=
  Platform [(char "d", Some "eth0"%string); (char "s", Some "-1"%string)]
           (fun s => if String.eqb s "-1" then -1 else 0)
           (fun _ => "Success"%string)
           (fun _ c => match c with K_if_nametoindex _ => 3 | _ => 0 end)
           (fun _ => 0)
           (fun _ => 7)
           EmptyString
           false.

(** The same with a device whose index is [UINT_MAX]. *)
Definition wrapped_index_platform : platform :=
  Platform [(char "d", Some "eth0"%string)]
           (fun _ => 0)
           (fun _ => "Success"%string)
           (fun _ c => match c with K_if_nametoindex _ => 2 ^ 32 - 1 | _ => 0 end)
           (fun _ => 0)
           (fun _ => 7)
           EmptyString
           false.

(** The process that [main] leaves on it when the poll loop is cut after
    one round. *)
Definition sample_final : process :=
  default (start sample_platform scenario1)
          (final (main 1 "xdp_redirect_cpu" (start sample_platform scenario1))).

(** * Rounding in binary64

    The operations of [SpecFloat] are read on the real numbers: an integer
    conversion and a division round their exact result to nearest, ties to
    even ([rounds]), and rounding is monotone. *)

Section Bpow.
Local Open Scope R_scope.

Lemma bpow_pos e : 0 < bpow e.
Proof. apply powerRZ_lt. lra. Qed.

Lemma bpow_add a b : bpow (a + b) = bpow a * bpow b.
Proof. apply powerRZ_add. lra. Qed.

Lemma bpow_0 : bpow 0 = 1.
Proof. reflexivity. Qed.

Lemma bpow_1 : bpow 1 = 2.
Proof. unfold bpow. simpl. lra. Qed.

Lemma bpow_succ e : bpow (e + 1) = 2 * bpow e.
Proof. rewrite bpow_add, bpow_1. lra. Qed.

Lemma bpow_nat n : bpow (Z.of_nat n) = 2 ^ n.
Proof. unfold bpow. symmetry. apply pow_powerRZ. Qed.

Lemma bpow_IZR n : (0 <= n)%Z -> bpow n = IZR (2 ^ n).
Proof.
  intros Hn. rewrite <- (Z2Nat.id n Hn) at 1. rewrite bpow_nat.
  rewrite <- (Z2Nat.id n Hn) at 2.
  rewrite <- Zpower_nat_Z. induction (Z.to_nat n) as [|k IH].
  - reflexivity.
  - rewrite Zpower_nat_succ_r, mult_IZR, <- IH. simpl. reflexivity.
Qed.

Lemma bpow_le a b : (a <= b)%Z -> bpow a <= bpow b.
Proof.
  intros H. replace b with (a + (b - a))%Z by lia.
  rewrite bpow_add. rewrite (bpow_IZR (b - a)) by lia.
  assert (1 <= IZR (2 ^ (b - a))).
  { apply IZR_le. assert (0 < 2 ^ (b - a))%Z by (apply Z.pow_pos_nonneg; lia). lia. }
  pose proof (bpow_pos a). nra.
Qed.

Lemma bpow_lt a b : (a < b)%Z -> bpow a < bpow b.
Proof.
  intros H. apply Rlt_le_trans with (bpow (a + 1)).
  - rewrite bpow_succ. pose proof (bpow_pos a). lra.
  - apply bpow_le. lia.
Qed.

Lemma bpow_lt_inv a b : bpow a < bpow b -> (a < b)%Z.
Proof.
  intros H. destruct (Z_lt_le_dec a b) as [|Hle]; [assumption|].
  apply bpow_le in Hle. lra.
Qed.

Lemma bpow_le_inv a b : bpow a <= bpow b -> (a <= b)%Z.
Proof.
  intros H. destruct (Z_le_gt_dec a b) as [|Hgt]; [assumption|].
  assert (b < a)%Z as Hlt by lia. apply bpow_lt in Hlt. lra.
Qed.
End Bpow.

Section Shift.
Local Open Scope R_scope.

Lemma iter_pos_nat {A} (f : A -> A) p x :
  SpecFloat.iter_pos f p x = Nat.iter (Pos.to_nat p) f x.
Proof.
  revert x. induction p as [p IH | p IH |]; intros x; cbn [SpecFloat.iter_pos].
  - rewrite !IH. rewrite Pos2Nat.inj_xI.
    replace (S (2 * Pos.to_nat p))%nat with (Pos.to_nat p + (Pos.to_nat p + 1))%nat by lia.
    rewrite !Nat.iter_add. simpl. reflexivity.
  - rewrite !IH. rewrite Pos2Nat.inj_xO.
    replace (2 * Pos.to_nat p)%nat with (Pos.to_nat p + Pos.to_nat p)%nat by lia.
    rewrite Nat.iter_add. reflexivity.
  - reflexivity.
Qed.

Lemma loc_of_shr_record_of_loc m l :
  loc_of_shr_record (shr_record_of_loc m l) = l.
Proof. destruct l as [|[]]; reflexivity. Qed.

Lemma shr_m_shr_record_of_loc m l : shr_m (shr_record_of_loc m l) = m.
Proof. destruct l as [|[]]; reflexivity. Qed.

Lemma shr_1_located x mrs e :
  (0 <= shr_m mrs)%Z ->
  located x (shr_m mrs) e (loc_of_shr_record mrs) ->
  located x (shr_m (shr_1 mrs)) (e + 1) (loc_of_shr_record (shr_1 mrs)) /\
  (0 <= shr_m (shr_1 mrs))%Z.
Proof.
  destruct mrs as [m r s]. cbn [shr_m]. intros Hm H.
  pose proof (bpow_pos e) as Hb.
  destruct m as [|p|p]; [| |lia].
  - destruct r, s; cbn [shr_1 shr_m loc_of_shr_record located orb] in H |- *;
      rewrite bpow_succ; (split; [lra | lia]).
  - destruct p as [p|p|]; destruct r, s;
      cbn [shr_1 shr_m loc_of_shr_record located orb] in H |- *;
      rewrite bpow_succ; (split; [|lia]);
      try rewrite (Pos2Z.inj_xI p) in H; try rewrite (Pos2Z.inj_xO p) in H;
      rewrite ?plus_IZR, ?mult_IZR in H;
      lra.
Qed.

Lemma shr_iter_located x n : forall mrs e,
  (0 <= shr_m mrs)%Z ->
  located x (shr_m mrs) e (loc_of_shr_record mrs) ->
  located x (shr_m (Nat.iter n shr_1 mrs)) (e + Z.of_nat n)
          (loc_of_shr_record (Nat.iter n shr_1 mrs)) /\
  (0 <= shr_m (Nat.iter n shr_1 mrs))%Z.
Proof.
  induction n as [|n IH]; intros mrs e Hm H.
  - simpl. rewrite Z.add_0_r. auto.
  - destruct (IH mrs e Hm H) as [H1 H2].
    destruct (shr_1_located x _ _ H2 H1) as [H3 H4].
    simpl Nat.iter. replace (e + Z.of_nat (S n))%Z with (e + Z.of_nat n + 1)%Z by lia.
    auto.
Qed.

Lemma shr_located x mrs e n :
  (0 <= shr_m mrs)%Z ->
  located x (shr_m mrs) e (loc_of_shr_record mrs) ->
  located x (shr_m (fst (shr mrs e n))) (snd (shr mrs e n))
          (loc_of_shr_record (fst (shr mrs e n))) /\
  (0 <= shr_m (fst (shr mrs e n)))%Z /\
  snd (shr mrs e n) = (e + Z.max n 0)%Z.
Proof.
  intros Hm H. destruct n as [|p|p]; simpl.
  - rewrite Z.add_0_r. auto.
  - rewrite iter_pos_nat.
    destruct (shr_iter_located x (Pos.to_nat p) mrs e Hm H) as [H1 H2].
    rewrite positive_nat_Z in H1. auto.
  - rewrite Z.add_0_r. auto.
Qed.

Lemma shr_fexp_located x m e l :
  (0 <= m)%Z -> located x m e l ->
  located x (shr_m (fst (shr_fexp Double.prec Double.emax m e l)))
          (snd (shr_fexp Double.prec Double.emax m e l))
          (loc_of_shr_record (fst (shr_fexp Double.prec Double.emax m e l))) /\
  (0 <= shr_m (fst (shr_fexp Double.prec Double.emax m e l)))%Z /\
  snd (shr_fexp Double.prec Double.emax m e l)
  = Z.max e (fexp Double.prec Double.emax (Zdigits2 m + e)).
Proof.
  intros Hm H. unfold shr_fexp.
  destruct (shr_located x (shr_record_of_loc m l) e
              (fexp Double.prec Double.emax (Zdigits2 m + e) - e)) as (H1 & H2 & H3).
  - rewrite shr_m_shr_record_of_loc. exact Hm.
  - rewrite shr_m_shr_record_of_loc, loc_of_shr_record_of_loc. exact H.
  - repeat split; try assumption. rewrite H3. lia.
Qed.
End Shift.

Section Digits.

Lemma digits2_pos_size p : digits2_pos p = Pos.size p.
Proof. induction p; simpl; congruence. Qed.

Lemma Zdigits2_bounds m :
  0 < m -> 2 ^ (Zdigits2 m - 1) <= m < 2 ^ Zdigits2 m.
Proof.
  destruct m as [|p|p]; try lia. intros _. simpl Zdigits2.
  rewrite digits2_pos_size.
  pose proof (Pos.size_gt p) as Hgt. pose proof (Pos.size_le p) as Hle.
  apply Pos2Z.pos_lt_pos in Hgt. apply Pos2Z.pos_le_pos in Hle.
  rewrite Pos2Z.inj_pow in Hgt, Hle. rewrite (Pos2Z.inj_xO p) in Hle.
  split; [|exact Hgt].
  replace (Z.pos (Pos.size p)) with (Z.succ (Z.pos (Pos.size p) - 1)) in Hle by lia.
  rewrite Z.pow_succ_r in Hle by lia. lia.
Qed.

Lemma Zdigits2_nonneg m : 0 <= Zdigits2 m.
Proof. destruct m; simpl; lia. Qed.

Lemma Zdigits2_le m d : 0 <= d -> 0 <= m < 2 ^ d -> Zdigits2 m <= d.
Proof.
  intros Hd [Hm0 Hm]. destruct (Z.eq_dec m 0) as [->|Hne]; [simpl; lia|].
  destruct (Zdigits2_bounds m ltac:(lia)) as [Hlo _].
  destruct (Z_le_gt_dec (Zdigits2 m) d) as [|Hgt]; [assumption|].
  assert (2 ^ d <= 2 ^ (Zdigits2 m - 1)) by (apply Z.pow_le_mono_r; lia).
  lia.
Qed.

Lemma Zdigits2_ge m k : 0 <= k -> 2 ^ k <= m -> k + 1 <= Zdigits2 m.
Proof.
  intros Hk Hm.
  assert (0 < m) as Hpos by (pose proof (Z.pow_pos_nonneg 2 k); lia).
  destruct (Zdigits2_bounds m Hpos) as [_ Hhi].
  destruct (Z_le_gt_dec (k + 1) (Zdigits2 m)) as [|Hgt]; [assumption|].
  assert (2 ^ Zdigits2 m <= 2 ^ k).
  { apply Z.pow_le_mono_r; [lia|]. lia. }
  lia.
Qed.

End Digits.

Section Round.
Local Open Scope R_scope.

Lemma round_nearest_even_spec x m e l :
  located x m e l ->
  nearest_even x (round_nearest_even m l) e.
Proof.
  pose proof (bpow_pos e) as Hb.
  unfold nearest_even. destruct l as [|[]]; cbn [located round_nearest_even]; intros H.
  - split; [lra|]. intros [H1|H1]; lra.
  - destruct (Z.even m) eqn:Hev.
    + split; [lra|]. intros _. exact Hev.
    + rewrite plus_IZR. split; [lra|]. intros _.
      rewrite Z.even_add, Hev. reflexivity.
  - split; [lra|]. intros [H1|H1]; lra.
  - rewrite plus_IZR. split; [lra|]. intros [H1|H1]; lra.
Qed.

Lemma located_bounds x m e l :
  located x m e l -> IZR m * bpow e <= x < (IZR m + 1) * bpow e.
Proof.
  pose proof (bpow_pos e) as Hb.
  destruct l as [|[]]; cbn [located]; intros H; lra.
Qed.

Lemma fexp_eq e : fexp Double.prec Double.emax e = Z.max (e - 53) (-1074).
Proof. reflexivity. Qed.

Lemma emin_eq : emin Double.prec Double.emax = (-1074)%Z.
Proof. reflexivity. Qed.

(** The exponent chosen by [shr_fexp] is the canonical one of the value. *)
Lemma canonical_exp_located x m e l :
  0 < x -> (0 <= m)%Z -> located x m e l ->
  (e <= fexp Double.prec Double.emax (Zdigits2 m + e))%Z ->
  canonical_exp x (fexp Double.prec Double.emax (Zdigits2 m + e)).
Proof.
  intros Hx Hm Hloc Hpre. apply located_bounds in Hloc.
  unfold canonical_exp.
  change (fexp Double.prec Double.emax (Zdigits2 m + e))
    with (Z.max (Zdigits2 m + e - 53) (-1074)) in *.
  change (emin Double.prec Double.emax) with (-1074)%Z. change Double.prec with 53%Z.
  destruct (Z.eq_dec m 0%Z) as [->|Hne].
  - simpl Zdigits2 in *. left. split; [lia|].
    apply Rlt_le_trans with (bpow e); [lra|]. apply bpow_le. lia.
  - destruct (Zdigits2_bounds m ltac:(lia)) as [Hlo Hhi].
    set (d := Zdigits2 m) in *.
    assert (1 <= d)%Z as Hd.
    { pose proof (Zdigits2_ge m 0%Z ltac:(lia) ltac:(simpl; lia)). lia. }
    assert (bpow (d - 1 + e) <= x) as Hxlo.
    { rewrite bpow_add, (bpow_IZR (d - 1)) by lia.
      apply IZR_le in Hlo. pose proof (bpow_pos e). nra. }
    assert (x < bpow (d + e)) as Hxhi.
    { rewrite bpow_add, (bpow_IZR d) by lia.
      assert (IZR m + 1 <= IZR (2 ^ d)).
      { rewrite <- (plus_IZR m 1). apply IZR_le. lia. }
      pose proof (bpow_pos e). nra. }
    clearbody d. clear Hlo Hhi Hloc Hne Hm.
    destruct (Z_le_gt_dec (d + e - 53)%Z (-1074)%Z) as [Hc|Hc].
    + left. split; [lia|].
      apply Rlt_le_trans with (bpow (d + e)); [lra|]. apply bpow_le. lia.
    + right. split; [lia|].
      replace (Z.max (d + e - 53) (-1074) + 53 - 1)%Z with (d - 1 + e)%Z by lia.
      replace (Z.max (d + e - 53) (-1074) + 53)%Z with (d + e)%Z by lia.
      lra.
Qed.

Lemma binary_round_aux_finish x m e l :
  0 < x -> (0 <= m)%Z -> located x m e l ->
  (e <= fexp Double.prec Double.emax (Zdigits2 m + e))%Z ->
  exists M E, binary_round_aux Double.prec Double.emax false m e l = finish M E /\ rounds x M E.
Proof.
  intros Hx Hm Hloc Hpre.
  destruct (shr_fexp_located x m e l Hm Hloc) as (H1 & H2 & H3).
  unfold binary_round_aux.
  destruct (shr_fexp Double.prec Double.emax m e l) as [mrs' e'] eqn:Hs.
  cbn [fst snd] in H1, H2, H3.
  exists (round_nearest_even (shr_m mrs') (loc_of_shr_record mrs')), e'.
  split.
  - unfold finish. reflexivity.
  - split.
    + rewrite H3. rewrite Z.max_r by exact Hpre.
      eapply canonical_exp_located; eassumption.
    + apply round_nearest_even_spec. exact H1.
Qed.

End Round.

Section Monotone.
Local Open Scope R_scope.

Lemma canonical_exp_upper x E : canonical_exp x E -> x < bpow (E + 53).
Proof.
  unfold canonical_exp. change Double.prec with 53%Z.
  intros [[-> H]|[_ H]]; lra.
Qed.

Lemma canonical_exp_emin x E : canonical_exp x E -> (-1074 <= E)%Z.
Proof.
  unfold canonical_exp. change (emin Double.prec Double.emax) with (-1074)%Z.
  intros [[-> _]|[H _]]; lia.
Qed.

Lemma bpow_53 E : bpow (E + 53) = IZR (2 ^ 53) * bpow E.
Proof. rewrite Z.add_comm, bpow_add, (bpow_IZR 53) by lia. reflexivity. Qed.

Lemma bpow_52 E : bpow (E + 53 - 1) = IZR (2 ^ 52) * bpow E.
Proof.
  replace (E + 53 - 1)%Z with (52 + E)%Z by lia.
  rewrite bpow_add, (bpow_IZR 52) by lia. reflexivity.
Qed.

Lemma rounds_bounds x M E :
  0 < x -> rounds x M E -> (0 <= M <= 2 ^ 53)%Z /\ (-1074 <= E)%Z.
Proof.
  intros Hx [Hc [[Hlo Hhi] _]].
  pose proof (canonical_exp_upper x E Hc) as Hup.
  pose proof (canonical_exp_emin x E Hc) as Hemin.
  rewrite bpow_53 in Hup. pose proof (bpow_pos E) as Hb.
  repeat split; try assumption.
  - assert (IZR (-1) < IZR M) as H by (simpl; nra).
    apply lt_IZR in H. lia.
  - assert (IZR M < IZR (2 ^ 53 + 1)) as H.
    { rewrite plus_IZR. nra. }
    apply lt_IZR in H. lia.
Qed.

Lemma rounds_normal x M E :
  rounds x M E -> (-1074 < E)%Z -> (2 ^ 52 <= M)%Z.
Proof.
  intros [Hc [[Hlo Hhi] _]] HE.
  destruct Hc as [[-> _]|[_ [Hc _]]];
    [change (emin Double.prec Double.emax) with (-1074)%Z in HE; lia|].
  change Double.prec with 53%Z in Hc. rewrite bpow_52 in Hc.
  pose proof (bpow_pos E) as Hb.
  assert (IZR (2 ^ 52 - 1) < IZR M) as H.
  { rewrite minus_IZR. nra. }
  apply lt_IZR in H. lia.
Qed.

Lemma nearest_even_mono x y Mx My E :
  x <= y -> nearest_even x Mx E -> nearest_even y My E -> (Mx <= My)%Z.
Proof.
  intros Hxy [[Hx1 Hx2] Hxe] [[Hy1 Hy2] Hye].
  pose proof (bpow_pos E) as Hb.
  destruct (Z_le_gt_dec Mx My) as [|Hgt]; [assumption|exfalso].
  assert (IZR My + 1 <= IZR Mx) as Hgt'.
  { rewrite <- (plus_IZR My 1). apply IZR_le. lia. }
  assert (IZR Mx = IZR My + 1) as Heq by nra.
  assert (x = (IZR Mx - / 2) * bpow E) as Hx by nra.
  assert (y = (IZR My + / 2) * bpow E) as Hy by nra.
  specialize (Hxe (or_introl Hx)). specialize (Hye (or_intror Hy)).
  rewrite <- (plus_IZR My 1) in Heq. apply eq_IZR in Heq. subst Mx.
  rewrite Z.even_add in Hxe. rewrite Hye in Hxe. discriminate.
Qed.

(** Rounding to nearest is monotone, across binades too. *)
Lemma rounds_mono x y Mx Ex My Ey :
  0 < x -> x <= y -> rounds x Mx Ex -> rounds y My Ey ->
  (Ex <= Ey)%Z /\ IZR Mx * bpow Ex <= IZR My * bpow Ey.
Proof.
  intros Hx Hxy Hrx Hry.
  assert (0 < y) as Hy by lra.
  destruct (rounds_bounds x Mx Ex Hx Hrx) as [HMx HEx].
  destruct (rounds_bounds y My Ey Hy Hry) as [HMy HEy].
  pose proof (canonical_exp_upper y Ey (proj1 Hry)) as Hyup.
  assert (Ex <= Ey)%Z as HE.
  { destruct (proj1 Hrx) as [[-> _]|[_ [Hlo _]]].
    - change (emin Double.prec Double.emax) with (-1074)%Z. exact HEy.
    - change Double.prec with 53%Z in Hlo.
      assert (bpow (Ex + 53 - 1) < bpow (Ey + 53)) as Hlt by lra.
      apply bpow_lt_inv in Hlt. lia. }
  split; [exact HE|].
  destruct (Z.eq_dec Ex Ey) as [->|Hne].
  - pose proof (nearest_even_mono x y Mx My Ey Hxy (proj2 Hrx) (proj2 Hry)) as HM.
    apply IZR_le in HM. pose proof (bpow_pos Ey). nra.
  - assert (-1074 < Ey)%Z as Hn by lia.
    pose proof (rounds_normal y My Ey Hry Hn) as HMy'.
    apply Rle_trans with (IZR (2 ^ 53) * bpow Ex).
    { apply Rmult_le_compat_r; [pose proof (bpow_pos Ex); lra|].
      apply IZR_le. lia. }
    apply Rle_trans with (IZR (2 ^ 52) * bpow Ey).
    { rewrite <- bpow_53, <- bpow_52. apply bpow_le. lia. }
    apply Rmult_le_compat_r; [pose proof (bpow_pos Ey); lra|].
    apply IZR_le. exact HMy'.
Qed.

End Monotone.

Section Finish.
Local Open Scope R_scope.

Lemma shr_fexp_noshift M E :
  (fexp Double.prec Double.emax (Zdigits2 M + E) <= E)%Z ->
  shr_fexp Double.prec Double.emax M E loc_Exact = (Build_shr_record M false false, E).
Proof.
  intros H. unfold shr_fexp, shr. cbn [shr_record_of_loc].
  destruct (fexp Double.prec Double.emax (Zdigits2 M + E) - E)%Z eqn:Hd; try reflexivity. lia.
Qed.

Lemma finish_small M E :
  (0 <= M < 2 ^ 53)%Z -> (-1074 <= E)%Z ->
  finish M E =
    match M with
    | Zpos m => if (E <=? 971)%Z then S754_finite false m E else S754_infinity false
    | _ => S754_zero false
    end.
Proof.
  intros HM HE. unfold finish. rewrite shr_fexp_noshift.
  - cbn [shr_m]. destruct M; try reflexivity. lia.
  - pose proof (Zdigits2_le M 53 ltac:(lia) HM) as Hd.
    change (fexp Double.prec Double.emax (Zdigits2 M + E))
      with (Z.max (Zdigits2 M + E - 53) (-1074)).
    lia.
Qed.

Lemma finish_carry E :
  (-1074 <= E)%Z ->
  finish (2 ^ 53) E =
    if (E + 1 <=? 971)%Z then S754_finite false (2 ^ 52) (E + 1)
    else S754_infinity false.
Proof.
  intros HE. unfold finish, shr_fexp.
  change (Zdigits2 (2 ^ 53)) with 54%Z.
  change (fexp Double.prec Double.emax (54 + E)) with (Z.max (54 + E - 53) (-1074)).
  replace (Z.max (54 + E - 53) (-1074) - E)%Z with 1%Z by lia.
  reflexivity.
Qed.

(** The value of a finite double and the integer below it. *)
Lemma shiftl_floor M E k :
  (k <= Z.shiftl M E)%Z <-> IZR k <= IZR M * bpow E.
Proof.
  destruct (Z_le_gt_dec 0 E) as [HE|HE].
  - rewrite Z.shiftl_mul_pow2 by lia. rewrite (bpow_IZR E) by lia.
    rewrite <- mult_IZR. split; [apply IZR_le | apply le_IZR].
  - rewrite Z.shiftl_div_pow2 by lia.
    assert (0 < 2 ^ (- E))%Z as Hp by (apply Z.pow_pos_nonneg; lia).
    assert (bpow E * IZR (2 ^ (- E)) = 1) as Hinv.
    { rewrite <- (bpow_IZR (- E)) by lia. rewrite <- bpow_add.
      replace (E + - E)%Z with 0%Z by lia. reflexivity. }
    assert (0 < IZR (2 ^ (- E))) as Hp' by (apply IZR_lt; lia).
    pose proof (bpow_pos E) as Hb.
    split; intros H.
    + assert (k * 2 ^ (- E) <= M)%Z as H'.
      { pose proof (Z.mul_div_le M (2 ^ (- E)) Hp).
        apply Z.le_trans with (2 ^ (- E) * (M / 2 ^ (- E)))%Z; [|assumption].
        rewrite Z.mul_comm. apply Z.mul_le_mono_nonneg_l; lia. }
      apply IZR_le in H'. rewrite mult_IZR in H'.
      apply Rmult_le_reg_r with (IZR (2 ^ (- E))); [assumption|].
      rewrite Rmult_assoc, Hinv. lra.
    + apply Z.div_le_lower_bound; [assumption|].
      rewrite Z.mul_comm. apply le_IZR. rewrite mult_IZR.
      apply Rmult_le_compat_r with (r := IZR (2 ^ (- E))) in H; [|lra].
      rewrite Rmult_assoc, Hinv in H. lra.
Qed.

Lemma shiftl_mono M1 E1 M2 E2 :
  IZR M1 * bpow E1 <= IZR M2 * bpow E2 ->
  (Z.shiftl M1 E1 <= Z.shiftl M2 E2)%Z.
Proof.
  intros H. apply shiftl_floor. apply Rle_trans with (2 := H).
  apply shiftl_floor. lia.
Qed.

End Finish.

Section Operations.
Local Open Scope R_scope.

Lemma Zdigits2_unique m d :
  (0 < d)%Z -> (2 ^ (d - 1) <= m < 2 ^ d)%Z -> Zdigits2 m = d.
Proof.
  intros Hd [Hlo Hhi].
  assert (0 < m)%Z as Hm by (pose proof (Z.pow_pos_nonneg 2 (d - 1)); lia).
  pose proof (Zdigits2_le m d ltac:(lia) ltac:(lia)).
  pose proof (Zdigits2_ge m (d - 1) ltac:(lia) Hlo). lia.
Qed.

Lemma pos_iter_xO p d : Z.pos (Pos.iter xO p d) = (Z.pos p * 2 ^ Z.pos d)%Z.
Proof.
  induction d as [|d IH] using Pos.peano_ind.
  - simpl. lia.
  - rewrite Pos.iter_succ, Pos2Z.inj_succ, Z.pow_succ_r by lia.
    rewrite (Pos2Z.inj_xO (Pos.iter xO p d)), IH. lia.
Qed.

Lemma shl_align_spec p e e' :
  let '(mz, ez) := shl_align p e e' in
  IZR (Z.pos mz) * bpow ez = IZR (Z.pos p) * bpow e /\
  (Zdigits2 (Z.pos mz) + ez = Zdigits2 (Z.pos p) + e)%Z /\
  ez = Z.min e e'.
Proof.
  unfold shl_align. destruct (e' - e)%Z as [|d|d] eqn:Hd.
  - repeat split; lia.
  - repeat split; lia.
  - assert (e = e' + Z.pos d)%Z as -> by lia.
    rewrite pos_iter_xO. repeat split; [| |lia].
    + rewrite mult_IZR, Z.add_comm, bpow_add, (bpow_IZR (Z.pos d)) by lia. lra.
    + destruct (Zdigits2_bounds (Z.pos p) ltac:(lia)) as [Hlo Hhi].
      assert (0 < Zdigits2 (Z.pos p))%Z as Hdp by (simpl; lia).
      rewrite (Zdigits2_unique _ (Zdigits2 (Z.pos p) + Z.pos d)); [lia|lia|].
      replace (Zdigits2 (Z.pos p) + Z.pos d - 1)%Z
        with (Zdigits2 (Z.pos p) - 1 + Z.pos d)%Z by lia.
      rewrite !Z.pow_add_r by lia.
      assert (0 < 2 ^ Z.pos d)%Z by (apply Z.pow_pos_nonneg; lia).
      split; [apply Z.mul_le_mono_nonneg_r; lia | apply Z.mul_lt_mono_pos_r; lia].
Qed.

Lemma binary_round_rounds p e :
  exists M E, binary_round Double.prec Double.emax false p e = finish M E /\
              rounds (IZR (Z.pos p) * bpow e) M E.
Proof.
  unfold binary_round.
  pose proof (shl_align_spec p e (fexp Double.prec Double.emax (Z.pos (digits2_pos p) + e))) as Hs.
  destruct (shl_align p e (fexp Double.prec Double.emax (Z.pos (digits2_pos p) + e))) as [mz ez].
  destruct Hs as (Hv & Hd & He).
  apply binary_round_aux_finish.
  - pose proof (bpow_pos e). assert (0 < IZR (Z.pos p)) by (apply IZR_lt; lia). nra.
  - lia.
  - cbn [located]. symmetry. exact Hv.
  - rewrite Hd. change (Zdigits2 (Z.pos p)) with (Z.pos (digits2_pos p)). lia.
Qed.


Lemma new_location_located x m2 q r e :
  (0 < m2)%Z -> (0 <= r < m2)%Z ->
  x * IZR m2 = (IZR m2 * IZR q + IZR r) * bpow e ->
  located x q e (new_location m2 r).
Proof.
  intros Hm2 [Hr0 Hr] Hx.
  pose proof (bpow_pos e) as Hb.
  assert (0 < IZR m2) as HD by (apply IZR_lt; lia).
  assert (0 <= IZR r) as HR0 by (apply IZR_le; lia).
  set (rho := IZR r / IZR m2).
  assert (rho * IZR m2 = IZR r) as Hrho by (unfold rho; field; lra).
  clearbody rho.
  assert (x = (IZR q + rho) * bpow e) as ->.
  { apply Rmult_eq_reg_r with (IZR m2); [|lra]. rewrite Hx. nra. }
  assert (forall c, (2 * r ?= m2)%Z = c ->
            match c with
            | Lt => rho < / 2 | Eq => rho = / 2 | Gt => / 2 < rho end) as Hcmp.
  { intros c Hc. destruct c.
    - apply Z.compare_eq in Hc. apply (f_equal IZR) in Hc.
      rewrite mult_IZR in Hc. nra.
    - apply -> Z.compare_lt_iff in Hc. apply IZR_lt in Hc.
      rewrite mult_IZR in Hc. nra.
    - apply -> Z.compare_gt_iff in Hc. apply IZR_lt in Hc.
      rewrite mult_IZR in Hc. nra. }
  assert (rho < 1) as Hrho1.
  { apply IZR_lt in Hr. nra. }
  unfold new_location.
  destruct (Z.even m2) eqn:Hev; unfold new_location_even, new_location_odd;
    destruct (Z.eqb_spec r 0%Z) as [Hz|Hnz].
  - assert (rho = 0) as ->.
    { subst r. apply Rmult_eq_reg_r with (IZR m2); lra. }
    cbn [located]; lra.
  - assert (0 < IZR r) by (apply IZR_lt; lia).
    specialize (Hcmp _ eq_refl).
    destruct (2 * r ?= m2)%Z; cbn [located]; nra.
  - assert (rho = 0) as ->.
    { subst r. apply Rmult_eq_reg_r with (IZR m2); lra. }
    cbn [located]; lra.
  - assert (0 < IZR r) by (apply IZR_lt; lia).
    destruct (2 * r + 1 ?= m2)%Z eqn:Hc.
    + apply Z.compare_eq in Hc.
      assert ((2 * r ?= m2)%Z = Lt) as Hlt by (apply Z.compare_lt_iff; lia).
      specialize (Hcmp _ Hlt). cbn [located]. cbv beta iota in Hcmp. nra.
    + apply -> Z.compare_lt_iff in Hc.
      assert ((2 * r ?= m2)%Z = Lt) as Hlt by (apply Z.compare_lt_iff; lia).
      specialize (Hcmp _ Hlt). cbn [located]. cbv beta iota in Hcmp. nra.
    + apply -> Z.compare_gt_iff in Hc.
      assert (m2 <> 2 * r)%Z as Hodd.
      { intros ->. rewrite Z.even_mul in Hev. discriminate. }
      assert ((2 * r ?= m2)%Z = Gt) as Hgt by (apply Z.compare_gt_iff; lia).
      specialize (Hcmp _ Hgt). cbn [located]. cbv beta iota in Hcmp. nra.
Qed.

Lemma SFdiv_core_located m1 e1 m2 e2 :
  let '(q, e', l) :=
    SFdiv_core_binary Double.prec Double.emax (Z.pos m1) e1 (Z.pos m2) e2 in
  located (IZR (Z.pos m1) * bpow e1 / (IZR (Z.pos m2) * bpow e2)) q e' l /\
  (0 <= q)%Z /\
  (e' <= fexp Double.prec Double.emax (Zdigits2 q + e'))%Z.
Proof.
  unfold SFdiv_core_binary.
  set (d1 := Zdigits2 (Z.pos m1)). set (d2 := Zdigits2 (Z.pos m2)).
  set (e' := Z.min (fexp Double.prec Double.emax (d1 + e1 - (d2 + e2))) (e1 - e2)).
  set (s := (e1 - e2 - e')%Z).
  assert (0 <= s)%Z as Hs by (unfold s, e'; lia).
  set (m' := match s with
             | 0%Z => Z.pos m1
             | Z.pos _ => Z.shiftl (Z.pos m1) s
             | Z.neg _ => 0%Z
             end).
  assert (m' = Z.pos m1 * 2 ^ s)%Z as Hm'.
  { unfold m'. destruct s as [|p|p] eqn:Hsp.
    - lia.
    - apply Z.shiftl_mul_pow2. lia.
    - lia. }
  clearbody m'.
  pose proof (Z_div_mod m' (Z.pos m2) ltac:(lia)) as Hdiv.
  destruct (Z.div_eucl m' (Z.pos m2)) as [q r]. destruct Hdiv as [Hqr Hr].
  assert (0 < 2 ^ s)%Z as Hp by (apply Z.pow_pos_nonneg; lia).
  assert (0 <= q)%Z as Hq by nia.
  destruct (Zdigits2_bounds (Z.pos m1) ltac:(lia)) as [H1lo H1hi].
  destruct (Zdigits2_bounds (Z.pos m2) ltac:(lia)) as [H2lo H2hi].
  fold d1 in H1lo, H1hi. fold d2 in H2lo, H2hi.
  assert (1 <= d1)%Z as Hd1 by (unfold d1; simpl; lia).
  assert (1 <= d2)%Z as Hd2 by (unfold d2; simpl; lia).
  repeat split; [|exact Hq|].
  - apply new_location_located; [lia|lia|].
    pose proof (bpow_pos e2) as Hb2. pose proof (bpow_pos e') as Hb'.
    assert (0 < IZR (Z.pos m2)) as HD by (apply IZR_lt; lia).
    rewrite <- (mult_IZR (Z.pos m2) q), <- plus_IZR, <- Hqr, Hm', mult_IZR.
    rewrite <- (bpow_IZR s) by lia.
    replace e1 with (s + e' + e2)%Z at 1 by (unfold s; lia).
    rewrite !bpow_add. field. lra.
  - assert (d1 + s - d2 <= Zdigits2 q)%Z as Hdq.
    { destruct (Z_le_gt_dec 0 (d1 - 1 + s - d2)) as [Hk|Hk].
      - pose proof (Zdigits2_ge q (d1 - 1 + s - d2) Hk) as Hge.
        assert (2 ^ (d1 - 1 + s - d2) <= q)%Z as Hq2; [|lia].
        destruct (Z_le_gt_dec (2 ^ (d1 - 1 + s - d2)) q) as [|Hlt]; [assumption|exfalso].
        assert (2 ^ (d1 - 1) * 2 ^ s <= m')%Z as Hm'lo.
        { rewrite Hm'. apply Z.mul_le_mono_nonneg_r; lia. }
        assert (2 ^ (d1 - 1) * 2 ^ s = 2 ^ (d1 - 1 + s - d2) * 2 ^ d2)%Z as Hpw.
        { rewrite <- !Z.pow_add_r by lia. f_equal. lia. }
        assert (0 < 2 ^ (d1 - 1 + s - d2))%Z by (apply Z.pow_pos_nonneg; lia).
        nia.
      - pose proof (Zdigits2_nonneg q). lia. }
    change (fexp Double.prec Double.emax (Zdigits2 q + e'))
      with (Z.max (Zdigits2 q + e' - 53) (-1074)).
    assert (e' <= Z.max (d1 + e1 - (d2 + e2) - 53) (-1074))%Z as He'.
    { unfold e'. change (fexp Double.prec Double.emax (d1 + e1 - (d2 + e2)))
        with (Z.max (d1 + e1 - (d2 + e2) - 53) (-1074)). lia. }
    unfold s in Hdq. lia.
Qed.

Lemma div_rounds mx ex my ey :
  exists M E,
    Double.div (S754_finite false mx ex) (S754_finite false my ey) = finish M E /\
    rounds (IZR (Z.pos mx) * bpow ex / (IZR (Z.pos my) * bpow ey)) M E.
Proof.
  unfold Double.div. cbn [SFdiv xorb].
  pose proof (SFdiv_core_located mx ex my ey) as H.
  destruct (SFdiv_core_binary Double.prec Double.emax (Z.pos mx) ex (Z.pos my) ey)
    as [[q e'] l].
  destruct H as (Hloc & Hq & Hpre).
  apply binary_round_aux_finish; try assumption.
  pose proof (bpow_pos ex). pose proof (bpow_pos ey).
  assert (0 < IZR (Z.pos mx)) by (apply IZR_lt; lia).
  assert (0 < IZR (Z.pos my)) by (apply IZR_lt; lia).
  apply Rdiv_lt_0_compat; nra.
Qed.

End Operations.

Section Conversion.

Lemma finish_finite M E :
  (0 < M <= 2 ^ 53)%Z -> (-1074 <= E <= 970)%Z ->
  exists m e, finish M E = S754_finite false m e /\
              (IZR (Z.pos m) * bpow e = IZR M * bpow E)%R.
Proof.
  intros HM HE. destruct (Z.eq_dec M (2 ^ 53)) as [->|Hne].
  - rewrite finish_carry by lia.
    destruct (Z.leb_spec (E + 1) 971) as [_|]; [|lia].
    eexists _, _. split; [reflexivity|].
    rewrite bpow_succ. change (IZR (2 ^ 53)) with (IZR (2 * 2 ^ 52)).
    rewrite mult_IZR. change (Z.pos (2 ^ 52)) with (2 ^ 52)%Z. lra.
  - rewrite finish_small by lia. destruct M as [|m|m]; try lia.
    destruct (Z.leb_spec E 971) as [_|]; [|lia].
    eexists _, _. split; reflexivity.
Qed.

(** What the conversion to [__u64] makes of a rounded result. *)
Lemma to_u64_finish M E :
  (0 <= M <= 2 ^ 53)%Z -> (-1074 <= E)%Z ->
  Double.to_u64 (finish M E) =
    if (M =? 0)%Z then Some 0%Z
    else if ((if (M =? 2 ^ 53)%Z then E + 1 else E) <=? 971)%Z
         then (if (Z.shiftl M E <? U64.modulus)%Z then Some (Z.shiftl M E) else None)
         else None.
Proof.
  intros HM HE.
  assert (0 <= Z.shiftl M E)%Z as Hnn by (apply Z.shiftl_nonneg; lia).
  destruct (Z.eqb_spec M 0) as [->|Hnz].
  - rewrite finish_small by lia. reflexivity.
  - destruct (Z.eqb_spec M (2 ^ 53)) as [->|Hne].
    + rewrite finish_carry by lia.
      destruct (Z.leb_spec (E + 1) 971) as [Hle|Hgt]; [|reflexivity].
      unfold Double.to_u64, Double.trunc. cbn [cond_Zopp].
      assert (Z.shiftl (Z.pos (2 ^ 52)) (E + 1) = Z.shiftl (2 ^ 53) E) as ->.
      { apply Z.le_antisymm; apply shiftl_mono; rewrite bpow_succ;
          change (IZR (2 ^ 53)) with (IZR (2 * 2 ^ 52)); rewrite mult_IZR;
          change (Z.pos (2 ^ 52)) with (2 ^ 52)%Z; lra. }
      destruct (Z.leb_spec 0 (Z.shiftl (2 ^ 53) E)); [|lia]. reflexivity.
    + rewrite finish_small by lia. destruct M as [|m|m]; try lia.
      destruct (Z.leb_spec E 971) as [Hle|Hgt]; [|reflexivity].
      unfold Double.to_u64, Double.trunc. cbn [cond_Zopp].
      destruct (Z.leb_spec 0 (Z.shiftl (Z.pos m) E)); [|lia]. reflexivity.
Qed.

Lemma to_u64_finish_mono Mx Ex My Ey a :
  (0 <= Mx <= 2 ^ 53)%Z -> (0 <= My <= 2 ^ 53)%Z ->
  (-1074 <= Ex)%Z -> (Ex <= Ey)%Z ->
  (IZR Mx * bpow Ex <= IZR My * bpow Ey)%R ->
  Double.to_u64 (finish My Ey) = Some a ->
  exists b, Double.to_u64 (finish Mx Ex) = Some b /\ (0 <= b <= a)%Z.
Proof.
  intros HMx HMy HEx HE Hv Ha.
  pose proof (shiftl_mono _ _ _ _ Hv) as Hsh.
  assert (0 <= Z.shiftl Mx Ex)%Z as Hnn by (apply Z.shiftl_nonneg; lia).
  assert (0 <= Z.shiftl My Ey)%Z as Hnn' by (apply Z.shiftl_nonneg; lia).
  rewrite to_u64_finish in Ha |- * by lia.
  destruct (Z.eqb_spec Mx 0) as [->|Hxnz].
  - exists 0%Z. split; [reflexivity|].
    destruct (Z.eqb_spec My 0); [injection Ha as <-; lia|].
    destruct (_ <=? 971)%Z; [|discriminate].
    destruct (_ <? U64.modulus)%Z; [|discriminate].
    injection Ha as <-. lia.
  - assert (My <> 0)%Z as Hynz.
    { intros ->. pose proof (bpow_pos Ex) as Hb.
      assert (1 <= IZR Mx)%R by (apply IZR_le; lia). nra. }
    destruct (Z.eqb_spec My 0) as [|_]; [contradiction|].
    destruct (Z.leb_spec (if (My =? 2 ^ 53)%Z then Ey + 1 else Ey) 971) as [Hey|];
      [|discriminate].
    destruct (Z.ltb_spec (Z.shiftl My Ey) U64.modulus) as [Hlt|]; [|discriminate].
    injection Ha as <-.
    assert ((if (Mx =? 2 ^ 53)%Z then Ex + 1 else Ex) <= 971)%Z as Hex.
    { destruct (Z.eqb_spec Mx (2 ^ 53)) as [->|_].
      - destruct (Z.eq_dec Ex Ey) as [->|Hne].
        + assert (2 ^ 53 <= My)%Z as Hge.
          { apply le_IZR. pose proof (bpow_pos Ey). nra. }
          destruct (Z.eqb_spec My (2 ^ 53)); lia.
        + destruct (My =? 2 ^ 53)%Z; lia.
      - destruct (My =? 2 ^ 53)%Z; lia. }
    destruct (Z.leb_spec (if (Mx =? 2 ^ 53)%Z then Ex + 1 else Ex) 971); [|lia].
    destruct (Z.ltb_spec (Z.shiftl Mx Ex) U64.modulus); [|lia].
    eexists. split; [reflexivity|]. lia.
Qed.

Lemma of_Z_0 : Double.of_Z 0 = Double.zero.
Proof. reflexivity. Qed.

Lemma of_Z_rounds z :
  0 < z -> exists M E, Double.of_Z z = finish M E /\ rounds (IZR z) M E.
Proof.
  intros Hz. destruct z as [|p|p]; try lia.
  unfold Double.of_Z. cbn [binary_normalize].
  destruct (binary_round_rounds p 0) as (M & E & H1 & H2).
  exists M, E. split; [exact H1|].
  rewrite bpow_0, Rmult_1_r in H2. exact H2.
Qed.

(** A positive [__u64] converts to a positive finite double. *)
Lemma of_Z_u64 z :
  0 < z < U64.modulus ->
  exists M E m e,
    rounds (IZR z) M E /\ Double.of_Z z = S754_finite false m e /\
    (IZR (Z.pos m) * bpow e = IZR M * bpow E)%R.
Proof.
  intros [Hz Hlt]. destruct (of_Z_rounds z Hz) as (M & E & Hf & Hr).
  assert (0 < IZR z)%R as Hx by (apply IZR_lt; lia).
  destruct (rounds_bounds _ _ _ Hx Hr) as [HM HE].
  assert (E <= 11) as HE11.
  { destruct (Z_le_gt_dec E (-1074)) as [|Hn]; [lia|].
    destruct Hr as [[[-> _]|[_ [Hlo _]]] _];
      [change (emin Double.prec Double.emax) with (-1074); lia|].
    change Double.prec with 53 in Hlo.
    assert (bpow (E + 53 - 1) < bpow 64)%R as Hb.
    { apply Rle_lt_trans with (1 := Hlo). rewrite (bpow_IZR 64) by lia.
      apply IZR_lt. exact Hlt. }
    apply bpow_lt_inv in Hb. lia. }
  assert (0 < M) as HMpos.
  { destruct (Z_le_gt_dec E (-1074)) as [Hs|Hn].
    - destruct (Z.eq_dec M 0) as [->|]; [exfalso|lia].
      destruct Hr as [_ [[_ Hhi] _]].
      assert (bpow E <= bpow 0)%R as Hb by (apply bpow_le; lia).
      rewrite bpow_0 in Hb. pose proof (bpow_pos E).
      assert (1 <= IZR z)%R by (apply IZR_le; lia). lra.
    - pose proof (rounds_normal _ _ _ Hr ltac:(lia)). lia. }
  destruct (finish_finite M E ltac:(lia) ltac:(lia)) as (m & e & Hfin & Hv).
  exists M, E, m, e. rewrite Hf. auto.
Qed.

Lemma of_Z_positive z :
  0 <= z < U64.modulus -> Double.ltb Double.zero (Double.of_Z z) = (0 <? z).
Proof.
  intros [Hz Hlt]. destruct (Z.eq_dec z 0) as [->|Hnz]; [reflexivity|].
  destruct (of_Z_u64 z ltac:(lia)) as (M & E & m & e & _ & -> & _).
  destruct (Z.ltb_spec 0 z); [reflexivity|lia].
Qed.

Lemma ltb_zero_cases t :
  Double.ltb Double.zero t = true ->
  t = S754_infinity false \/ exists m e, t = S754_finite false m e.
Proof.
  destruct t as [s|s| |s m e]; try destruct s; try discriminate; eauto.
Qed.

(** The heart of the monotonicity of the rates: converting, dividing by a
    positive double and converting back is monotone. *)
Lemma to_u64_div_mono zA zB t a :
  0 <= zB <= zA -> zA < U64.modulus ->
  Double.ltb Double.zero t = true ->
  Double.to_u64 (Double.div (Double.of_Z zA) t) = Some a ->
  exists b, Double.to_u64 (Double.div (Double.of_Z zB) t) = Some b /\ 0 <= b <= a.
Proof.
  intros [HzB Hle] Hlt Ht Ha.
  assert (0 <= a) as Ha0.
  { unfold Double.to_u64 in Ha. destruct (Double.trunc _); [|discriminate].
    destruct (Z.leb_spec 0 z); [|discriminate].
    destruct (z <? U64.modulus); [|discriminate]. injection Ha as <-. lia. }
  destruct (Z.eq_dec zB 0) as [->|HnzB].
  { exists 0. split; [|lia].
    destruct (ltb_zero_cases t Ht) as [->|(m & e & ->)]; reflexivity. }
  destruct (of_Z_u64 zA ltac:(lia)) as (MA & EA & mA & eA & HrA & HfA & HvA).
  destruct (of_Z_u64 zB ltac:(lia)) as (MB & EB & mB & eB & HrB & HfB & HvB).
  rewrite HfA in Ha. rewrite HfB.
  destruct (ltb_zero_cases t Ht) as [->|(mt & et & ->)].
  { exists 0. split; [reflexivity|lia]. }
  assert (0 < IZR zB)%R as HxB by (apply IZR_lt; lia).
  assert (IZR zB <= IZR zA)%R as HxAB by (apply IZR_le; lia).
  destruct (rounds_mono _ _ _ _ _ _ HxB HxAB HrB HrA) as [_ Hv].
  rewrite <- HvA, <- HvB in Hv.
  destruct (div_rounds mA eA mt et) as (MA' & EA' & HdA & HrA').
  destruct (div_rounds mB eB mt et) as (MB' & EB' & HdB & HrB').
  rewrite HdA in Ha. rewrite HdB.
  pose proof (bpow_pos eB) as HbB. pose proof (bpow_pos et) as Hbt.
  assert (0 < IZR (Z.pos mB))%R as HmB by (apply IZR_lt; lia).
  assert (0 < IZR (Z.pos mt))%R as Hmt by (apply IZR_lt; lia).
  assert (0 < IZR (Z.pos mt) * bpow et)%R as Hvt by nra.
  assert (0 < IZR (Z.pos mB) * bpow eB / (IZR (Z.pos mt) * bpow et))%R as HqB.
  { apply Rdiv_lt_0_compat; nra. }
  assert (IZR (Z.pos mB) * bpow eB / (IZR (Z.pos mt) * bpow et)
          <= IZR (Z.pos mA) * bpow eA / (IZR (Z.pos mt) * bpow et))%R as Hq.
  { unfold Rdiv. apply Rmult_le_compat_r; [|exact Hv].
    apply Rlt_le, Rinv_0_lt_compat, Hvt. }
  destruct (rounds_mono _ _ _ _ _ _ HqB Hq HrB' HrA') as [HE' Hv'].
  destruct (rounds_bounds _ _ _ HqB HrB') as [HMB' HEB'].
  destruct (rounds_bounds _ _ _ (Rlt_le_trans _ _ _ HqB Hq) HrA') as [HMA' HEA'].
  eapply to_u64_finish_mono; eassumption.
Qed.

(** ** Signs: the quotients of the rate computation are never negative *)

Lemma binary_round_aux_sign s m e l :
  match binary_round_aux Double.prec Double.emax s m e l with
  | S754_zero s' | S754_infinity s' | S754_finite s' _ _ => s' = s
  | S754_nan => True
  end.
Proof.
  unfold binary_round_aux.
  destruct (shr_fexp Double.prec Double.emax m e l) as [mrs' e'].
  destruct (shr_fexp Double.prec Double.emax _ e' loc_Exact) as [mrs'' e''].
  destruct (shr_m mrs''); [reflexivity| |exact I].
  destruct (e'' <=? Double.emax - Double.prec); reflexivity.
Qed.

Lemma of_Z_nonneg z :
  0 <= z -> Double.of_Z z = S754_nan \/ Double.nonneg (Double.of_Z z) = true.
Proof.
  intros Hz. destruct z as [|p|p]; [right; reflexivity| |lia].
  unfold Double.of_Z. cbn [binary_normalize]. unfold binary_round.
  destruct (shl_align p 0 _) as [mz ez].
  pose proof (binary_round_aux_sign false (Z.pos mz) ez loc_Exact) as H.
  destruct (binary_round_aux _ _ _ _ _ _) as [s|s| |s m e];
    try subst s; auto.
Qed.

Lemma div_nonneg x t :
  x = S754_nan \/ Double.nonneg x = true ->
  Double.ltb Double.zero t = true ->
  Double.div x t = S754_nan \/ Double.nonneg (Double.div x t) = true.
Proof.
  intros Hx Ht.
  destruct (ltb_zero_cases t Ht) as [->|(mt & et & ->)];
    destruct Hx as [->|Hx]; auto;
    destruct x as [[]|[]| |[] mx ex]; try discriminate; cbn; auto.
  unfold Double.div. cbn [SFdiv xorb].
  destruct (SFdiv_core_binary _ _ _ _ _ _) as [[q e'] l].
  pose proof (binary_round_aux_sign false q e' l) as H.
  destruct (binary_round_aux _ _ _ _ _ _) as [s|s| |s m e];
    try subst s; auto.
Qed.

(** On a double that is not negative, discarding the fraction is taking
    the floor. *)
Lemma to_u64_floor_u64 f :
  f = S754_nan \/ Double.nonneg f = true -> Double.to_u64 f = Double.floor_u64 f.
Proof.
  intros [->|H]; [reflexivity|].
  destruct f as [[]|[]| |[] m e]; try discriminate; try reflexivity.
  unfold Double.to_u64, Double.floor_u64, Double.trunc, Double.floor.
  cbn [cond_Zopp].
  destruct (Z.leb_spec 0 e) as [He|He].
  - rewrite Z.shiftl_mul_pow2 by lia. reflexivity.
  - rewrite Z.shiftl_div_pow2 by lia. reflexivity.
Qed.

Lemma u64_sub_range a b : 0 <= U64.sub a b < U64.modulus.
Proof. unfold U64.sub, U64.wrap. apply Z.mod_pos_bound. reflexivity. Qed.

Lemma rate_code_spec delta period :
  0 <= delta ->
  (if Double.ltb Double.zero period
   then Double.to_u64 (Double.div (Double.of_Z delta) period)
   else Some 0) = rate_spec delta period.
Proof.
  intros Hd. unfold rate_spec.
  destruct (Double.ltb Double.zero period) eqn:Ht; [|reflexivity].
  apply to_u64_floor_u64, div_nonneg; [apply of_Z_nonneg; lia | exact Ht].
Qed.

Lemma leb_zero_not_ltb t :
  Double.leb t Double.zero = true -> Double.ltb Double.zero t = false.
Proof.
  destruct t as [[]|[]| |[] m e]; try discriminate; reflexivity.
Qed.

Lemma calc_period_same r p :
  timestamp r = timestamp p -> calc_period r p = Double.zero.
Proof.
  intros H. unfold calc_period. rewrite H.
  unfold U64.sub, U64.wrap. rewrite Z.sub_diag. reflexivity.
Qed.

End Conversion.

(** * The rate calculator *)

(** C1. [calc_period] is the [__u64] difference of the timestamps divided
    by [1e9]; [calc_pps] is the floor of the [processed] delta divided by
    the period when the period is positive and [0] otherwise (where the
    floor does not fit a [__u64] the C conversion, and so the rate, is
    undefined); [calc_drop_pps] is the same formula on [dropped]; and when
    the period is not positive, in particular when the two timestamps are
    equal, every rate of the pair is [0]. *)
Theorem rate_formulas :
  (forall curr prev, calc_period curr prev = period_spec curr prev) /\
  (forall curr prev period,
     calc_pps curr prev period = pps_spec curr prev period) /\
  (forall curr prev period,
     calc_drop_pps curr prev period = drop_pps_spec curr prev period) /\
  (forall curr prev period,
     Double.leb period Double.zero = true ->
     calc_pps curr prev period = Some 0 /\
     calc_drop_pps curr prev period = Some 0) /\
  (forall rcurr rprev curr prev,
     timestamp rcurr = timestamp rprev ->
     calc_period rcurr rprev = Double.zero /\
     calc_pps curr prev (calc_period rcurr rprev) = Some 0 /\
     calc_drop_pps curr prev (calc_period rcurr rprev) = Some 0).
Proof.
  repeat split.
  - intros curr prev. unfold calc_period, period_spec.
    pose proof (u64_sub_range (timestamp curr) (timestamp prev)) as Hr.
    destruct (Z.ltb_spec 0 (U64.sub (timestamp curr) (timestamp prev))) as [_|Hle];
      [reflexivity|].
    assert (U64.sub (timestamp curr) (timestamp prev) = 0) as -> by lia.
    reflexivity.
  - intros curr prev period. unfold calc_pps, pps_spec.
    apply rate_code_spec, u64_sub_range.
  - intros curr prev period. unfold calc_drop_pps, drop_pps_spec.
    apply rate_code_spec, u64_sub_range.
  - unfold calc_pps. rewrite (leb_zero_not_ltb _ H). reflexivity.
  - unfold calc_drop_pps. rewrite (leb_zero_not_ltb _ H). reflexivity.
  - apply calc_period_same, H.
  - rewrite (calc_period_same _ _ H). reflexivity.
  - rewrite (calc_period_same _ _ H). reflexivity.
Qed.

Lemma rate_formulas_witness :
  calc_pps (mk_datarec 7 0) (mk_datarec 3 0) (Double.of_Z (-1)) = Some 0 /\
  calc_period (mk_record 5 zero_datarec []) (mk_record 5 zero_datarec []) = Double.zero.
Proof.
  split.
  - apply (proj1 (proj2 (proj2 (proj2 rate_formulas)))). reflexivity.
  - apply (proj2 (proj2 (proj2 (proj2 rate_formulas)))
             (mk_record 5 zero_datarec []) (mk_record 5 zero_datarec [])
             zero_datarec zero_datarec).
    reflexivity.
Defined.

(** C8. For a fixed [prev] and a fixed positive period, [calc_pps] is
    monotone in the [processed] delta: when neither delta underflows and
    the delta of [curr_B] is at most the delta of [curr_A], the rate of
    [curr_B] is defined whenever the rate of [curr_A] is, and is at most
    it. *)
Theorem pps_monotone :
  forall prev curr_A curr_B period a,
    U64.in_range (processed prev) ->
    U64.in_range (processed curr_A) -> U64.in_range (processed curr_B) ->
    processed prev <= processed curr_A ->
    processed prev <= processed curr_B ->
    processed curr_B - processed prev <= processed curr_A - processed prev ->
    Double.ltb Double.zero period = true ->
    calc_pps curr_A prev period = Some a ->
    exists b, calc_pps curr_B prev period = Some b /\ b <= a.
Proof.
  intros prev curr_A curr_B period a Hp HA HB HpA HpB Hd Ht Ha.
  unfold calc_pps in *. rewrite Ht in *.
  unfold U64.in_range in *.
  assert (U64.sub (processed curr_A) (processed prev)
          = processed curr_A - processed prev) as HsA.
  { unfold U64.sub, U64.wrap. apply Z.mod_small. lia. }
  assert (U64.sub (processed curr_B) (processed prev)
          = processed curr_B - processed prev) as HsB.
  { unfold U64.sub, U64.wrap. apply Z.mod_small. lia. }
  rewrite HsA in Ha. rewrite HsB.
  destruct (to_u64_div_mono (processed curr_A - processed prev)
              (processed curr_B - processed prev) period a) as (b & Hb & Hle);
    try assumption; try lia.
  exists b. split; [exact Hb | lia].
Qed.

Lemma pps_monotone_witness :
  exists b, calc_pps (mk_datarec 150 0) (mk_datarec 100 0) (Double.of_Z 2) = Some b /\
            b <= 50.
Proof.
  apply (pps_monotone (mk_datarec 100 0) (mk_datarec 200 0) (mk_datarec 150 0)
           (Double.of_Z 2) 50); cbn [processed];
    unfold U64.in_range, U64.modulus; try lia; reflexivity.
Defined.

(** * Computations *)

Section Monad.
Context {A B : Type}.

Lemma bind_done (m : M A) (f : A -> M B) w a w1 :
  m w = Done a w1 -> (m ≫= f) w = f a w1.
Proof. intros H. unfold mbind, M_bind. rewrite H. reflexivity. Qed.

Lemma bind_exit (m : M A) (f : A -> M B) w code w1 :
  m w = Exit code w1 -> (m ≫= f) w = Exit code w1.
Proof. intros H. unfold mbind, M_bind. rewrite H. reflexivity. Qed.

Lemma bind_fault (m : M A) (f : A -> M B) w :
  m w = Fault -> (m ≫= f) w = Fault.
Proof. intros H. unfold mbind, M_bind. rewrite H. reflexivity. Qed.

Lemma bind_done_inv (m : M A) (f : A -> M B) w b w2 :
  (m ≫= f) w = Done b w2 ->
  exists a w1, m w = Done a w1 /\ f a w1 = Done b w2.
Proof.
  unfold mbind, M_bind. destruct (m w) as [a w1| |]; try discriminate.
  intros H. eauto.
Qed.

Lemma bind_exit_inv (m : M A) (f : A -> M B) w code w2 :
  (m ≫= f) w = Exit code w2 ->
  m w = Exit code w2 \/ exists a w1, m w = Done a w1 /\ f a w1 = Exit code w2.
Proof.
  unfold mbind, M_bind. destruct (m w) as [a w1|c w1|]; try discriminate.
  - intros H. right. eauto.
  - intros [= -> ->]. left. reflexivity.
Qed.

End Monad.

Lemma defined_done {A} (o : option A) w a w' :
  defined o w = Done a w' <-> o = Some a /\ w' = w.
Proof.
  destruct o as [x|]; cbn.
  - split; [intros [= -> ->]; auto | intros [[= ->] ->]; reflexivity].
  - split; [discriminate | intros [[=] _]].
Qed.

Lemma defined_some {A} (a : A) w : defined (Some a) w = Done a w.
Proof. reflexivity. Qed.

Lemma world_eta w :
  World (possible_cpus w) (map_fd w) (map_lookup w) (clock w) (malloc_ok w)
        (n_lookups w) (n_clock w) (n_mallocs w) (heap w) (stdout w) (stderr w)
        (sleeps w) = w.
Proof. destruct w; reflexivity. Qed.

Lemma set_stdout_nil w : set_stdout (stdout w ++ []) w = w.
Proof. unfold set_stdout. rewrite app_nil_r. apply world_eta. Qed.

Lemma set_stdout_app w l1 l2 :
  set_stdout (stdout (set_stdout (stdout w ++ l1) w) ++ l2)
             (set_stdout (stdout w ++ l1) w)
  = set_stdout (stdout w ++ l1 ++ l2) w.
Proof. unfold set_stdout. cbn. rewrite app_assoc. reflexivity. Qed.

Lemma for_range_S {S : Type} start count (body : nat -> S -> M S) s :
  for_range start (Datatypes.S count) body s
  = (body start s ≫= for_range (Datatypes.S start) count body).
Proof. reflexivity. Qed.

(** * Collection *)

Lemma wrap_add_l a b : U64.wrap (U64.wrap a + b) = U64.wrap (a + b).
Proof. unfold U64.wrap. apply Zplus_mod_idemp_l. Qed.

Lemma u64_sub_range_add a b : U64.in_range (U64.add a b).
Proof. unfold U64.in_range, U64.add, U64.wrap. apply Z.mod_pos_bound. reflexivity. Qed.

Lemma datarec_eta v : mk_datarec (processed v) (dropped v) = v.
Proof. destruct v; reflexivity. Qed.

(** The copy loop of [map_collect_percpu]: it leaves the world alone,
    overwrites the entries [i .. i + n - 1] with the values read, and adds
    them to the running sums. *)
Lemma collect_loop values n : forall i cpus0 sp0 sd0 w cpus sp sd w',
  for_range i n (fun i '(cpus, sum_processed, sum_dropped) =>
      v ← defined (values !! i);
      _ ← defined (cpus !! i);
      let cpus := <[i := mk_datarec (processed v) (dropped v)]> cpus in
      let sum_processed := U64.add sum_processed (processed v) in
      let sum_dropped := U64.add sum_dropped (dropped v) in
      mret (cpus, sum_processed, sum_dropped))
    (cpus0, sp0, sd0) w = Done (cpus, sp, sd) w' ->
  U64.in_range sp0 -> U64.in_range sd0 ->
  w' = w /\
  length cpus = length cpus0 /\
  take i cpus = take i cpus0 /\
  take n (drop i cpus) = take n (drop i values) /\
  (n <= length (drop i values))%nat /\
  (n <= length (drop i cpus0))%nat /\
  drop (i + n) cpus = drop (i + n) cpus0 /\
  sp = U64.wrap (sp0 + sum_list (processed <$> take n (drop i values))) /\
  sd = U64.wrap (sd0 + sum_list (dropped <$> take n (drop i values))).
Proof.
  induction n as [|n IH]; intros i cpus0 sp0 sd0 w cpus sp sd w' H Hsp0 Hsd0.
  - cbn in H. injection H as -> -> -> ->.
    rewrite Nat.add_0_r. cbn. rewrite !Z.add_0_r.
    unfold U64.wrap. rewrite !Z.mod_small by assumption.
    repeat split; lia.
  - rewrite for_range_S in H.
    apply bind_done_inv in H. destruct H as ([[c1 p1] d1] & w1 & Hb & Hrest).
    apply bind_done_inv in Hb. destruct Hb as (v & w2 & Hv & Hb).
    apply defined_done in Hv. destruct Hv as [Hv ->].
    apply bind_done_inv in Hb. destruct Hb as (old & w3 & Ho & Hb).
    apply defined_done in Ho. destruct Ho as [Ho ->].
    cbn in Hb. injection Hb as <- <- <- <-.
    apply IH in Hrest; [|apply u64_sub_range_add..].
    destruct Hrest as (-> & Hlen & Htake & Hvals & Hnv & Hnc & Hdrop & Hsp & Hsd).
    rewrite length_insert in Hlen.
    pose proof (lookup_lt_Some _ _ _ Hv) as Hiv.
    pose proof (lookup_lt_Some _ _ _ Ho) as Hic.
    rewrite length_drop in Hnv, Hnc |- *. rewrite length_insert in Hnc.
    rewrite length_drop.
    assert (cpus !! i = Some v) as Hci.
    { rewrite <- (lookup_take_lt _ (S i)) by lia. rewrite Htake.
      rewrite lookup_take_lt by lia. rewrite list_lookup_insert_eq by lia.
      rewrite datarec_eta. reflexivity. }
    split; [reflexivity|]. split; [exact Hlen|]. split.
    { apply (f_equal (take i)) in Htake. rewrite !take_take in Htake.
      rewrite !Nat.min_l in Htake by lia. rewrite Htake.
      apply take_insert_ge. lia. }
    split.
    { rewrite (drop_S _ _ _ Hci), (drop_S _ _ _ Hv). cbn [take].
      rewrite Hvals. reflexivity. }
    split; [lia|]. split; [lia|]. split.
    { replace (i + S n)%nat with (S i + n)%nat by lia. rewrite Hdrop.
      apply drop_insert_lt. lia. }
    rewrite (drop_S _ _ _ Hv). cbn [take fmap list_fmap sum_list foldr].
    fold (sum_list (processed <$> take n (drop (S i) values))).
    fold (sum_list (dropped <$> take n (drop (S i) values))).
    split.
    + rewrite Hsp. unfold U64.add. rewrite wrap_add_l. f_equal. lia.
    + rewrite Hsd. unfold U64.add. rewrite wrap_add_l. f_equal. lia.
Qed.

Lemma gettime_eq w :
  gettime w =
    let w1 := set_n_clock (S (n_clock w)) w in
    if (clock w (n_clock w)).1.1 <? 0
    then Exit EXIT_FAIL
           (set_stderr (stderr w ++ [Printf "Error with gettimeofday! (%i)\n"
                                            [AInt (clock w (n_clock w)).1.1]]) w1)
    else Done (U64.add (U64.mul (U64.wrap (clock w (n_clock w)).1.2) NANOSEC_PER_SEC)
                       (U64.wrap (clock w (n_clock w)).2)) w1.
Proof.
  unfold gettime, clock_gettime, mbind, M_bind.
  destruct (clock w (n_clock w)) as [[res tv_sec] tv_nsec]. cbn.
  destruct (res <? 0); reflexivity.
Qed.

Lemma map_collect_percpu_eq fd key rec w :
  map_collect_percpu fd key rec w =
    let w1 := set_n_lookups (S (n_lookups w)) w in
    match map_lookup w (n_lookups w) fd key with
    | None =>
        Done (false, rec)
             (set_stderr (stderr w ++ [Printf "ERR: bpf_map_lookup_elem failed key:0x%X\n"
                                              [AInt key]]) w1)
    | Some values =>
        (ts ← gettime;
         '(cpus, sum_processed, sum_dropped) ←
           for_range 0 (possible_cpus w)
             (fun i '(cpus, sum_processed, sum_dropped) =>
                v ← defined (values !! i);
                _ ← defined (cpus !! i);
                let cpus := <[i := mk_datarec (processed v) (dropped v)]> cpus in
                let sum_processed := U64.add sum_processed (processed v) in
                let sum_dropped := U64.add sum_dropped (dropped v) in
                mret (cpus, sum_processed, sum_dropped))
             (cpu rec, 0, 0);
         mret (true, mk_record ts (mk_datarec sum_processed sum_dropped) cpus)) w1
    end.
Proof.
  unfold map_collect_percpu, bpf_num_possible_cpus, bpf_map_lookup_elem.
  unfold mbind at 1 2, M_bind at 1 2.
  destruct (map_lookup w (n_lookups w) fd key); reflexivity.
Qed.

(** What a successful [map_collect_percpu] leaves in the record. *)
Lemma map_collect_percpu_done fd key rec w b rec' w' :
  map_collect_percpu fd key rec w = Done (b, rec') w' ->
  match map_lookup w (n_lookups w) fd key with
  | None => b = false /\ rec' = rec
  | Some values =>
      b = true /\
      (possible_cpus w <= length values)%nat /\
      (possible_cpus w <= length (cpu rec))%nat /\
      length (cpu rec') = length (cpu rec) /\
      take (possible_cpus w) (cpu rec') = take (possible_cpus w) values /\
      drop (possible_cpus w) (cpu rec') = drop (possible_cpus w) (cpu rec) /\
      processed (total rec')
        = U64.wrap (sum_list (processed <$> take (possible_cpus w) values)) /\
      dropped (total rec')
        = U64.wrap (sum_list (dropped <$> take (possible_cpus w) values))
  end.
Proof.
  rewrite map_collect_percpu_eq. cbv zeta.
  destruct (map_lookup w (n_lookups w) fd key) as [values|].
  - intros H.
    apply bind_done_inv in H. destruct H as (ts & w2 & _ & H).
    apply bind_done_inv in H. destruct H as ([[cpus sp] sd] & w3 & Hloop & H).
    cbn in H. injection H as <- <- <-.
    apply collect_loop in Hloop; [|unfold U64.in_range, U64.modulus; lia..].
    destruct Hloop as (_ & Hlen & _ & Hvals & Hnv & Hnc & Hdrop & Hsp & Hsd).
    rewrite !drop_0 in *. cbn [cpu total processed dropped].
    rewrite Z.add_0_l in Hsp, Hsd. auto 10.
  - intros [= <- <- <-]. auto.
Qed.

(** * The snapshot invariant *)

(** C2. After a collection that returned [true], the [total] of the record
    is the sum, in [__u64] arithmetic, of its per-CPU entries: over the
    logical CPUs [0 .. nr_cpus - 1], and so over the whole array when the
    array has the [nr_cpus] entries it was allocated with. *)
Theorem total_is_sum_of_cpus :
  forall fd key rec w rec' w',
    map_collect_percpu fd key rec w = Done (true, rec') w' ->
    let nr_cpus := possible_cpus w in
    (nr_cpus <= length (cpu rec'))%nat /\
    processed (total rec') = U64.wrap (sum_list (processed <$> take nr_cpus (cpu rec'))) /\
    dropped (total rec') = U64.wrap (sum_list (dropped <$> take nr_cpus (cpu rec'))) /\
    (wf_record nr_cpus rec ->
     wf_record nr_cpus rec' /\
     processed (total rec') = U64.wrap (sum_list (processed <$> cpu rec')) /\
     dropped (total rec') = U64.wrap (sum_list (dropped <$> cpu rec'))).
Proof.
  intros fd key rec w rec' w' H nr_cpus.
  apply map_collect_percpu_done in H.
  destruct (map_lookup w (n_lookups w) fd key) as [values|]; [|destruct H; discriminate].
  destruct H as (_ & Hnv & Hnc & Hlen & Htake & _ & Hsp & Hsd).
  fold nr_cpus in Hnv, Hnc, Htake, Hsp, Hsd.
  rewrite <- Htake in Hsp, Hsd.
  split; [lia|]. split; [exact Hsp|]. split; [exact Hsd|].
  unfold wf_record. intros Hwf.
  rewrite take_ge in Hsp, Hsd by lia. repeat split; [lia|assumption..].
Qed.

Lemma total_is_sum_of_cpus_witness :
  let rec' := mk_record 1000000000 (mk_datarec 250 0) (counters [200; 50; 0; 0]) in
  (4 <= length (cpu rec'))%nat /\
  processed (total rec') = U64.wrap (sum_list (processed <$> take 4 (cpu rec'))).
Proof.
  cbv zeta.
  eassert (map_collect_percpu 1 0 (fresh_record 4)
             (set_n_clock 15 (set_n_lookups 15 scenario1))
           = Done (true, mk_record 1000000000 (mk_datarec 250 0)
                                   (counters [200; 50; 0; 0])) _) as H
    by (vm_compute; reflexivity).
  pose proof (total_is_sum_of_cpus _ _ _ _ _ _ H) as (Hlen & Hsum & _).
  split; [exact Hlen | exact Hsum].
Defined.

(** * Fatal paths of the poll cycle *)

Lemma quiet_refl w : quiet w w.
Proof. unfold quiet. repeat split; lia. Qed.

Lemma quiet_trans w1 w2 w3 : quiet w1 w2 -> quiet w2 w3 -> quiet w1 w3.
Proof.
  unfold quiet. intros (?&?&?&?&?&?&?) (?&?&?&?&?&?&?).
  repeat split; try congruence; lia.
Qed.

Lemma clock_failed_l w1 w2 w3 :
  clock_failed w1 w2 -> quiet w2 w3 -> clock_failed w1 w3.
Proof.
  intros (n & Hn & Hres) (_&_&_&_&_&_&Hle). exists n. split; [lia|exact Hres].
Qed.

Lemma clock_failed_r w1 w2 w3 :
  quiet w1 w2 -> clock_failed w2 w3 -> clock_failed w1 w3.
Proof.
  intros (_&_&_&Hc&_&_&Hle) (n & Hn & Hres). exists n.
  rewrite Hc in Hres. split; [lia|exact Hres].
Qed.

Lemma safe_ret {A} (a : A) : cycle_safe (mret a).
Proof. intros w. apply quiet_refl. Qed.

Lemma safe_bind {A B} (m : M A) (f : A -> M B) :
  cycle_safe m -> (forall a, cycle_safe (f a)) -> cycle_safe (m ≫= f).
Proof.
  intros Hm Hf w. specialize (Hm w). unfold mbind, M_bind.
  destruct (m w) as [a w1|c w1|]; [|exact Hm|exact I].
  specialize (Hf a w1). destruct (f a w1) as [b w2|c w2|]; [| |exact I].
  - eapply quiet_trans; eassumption.
  - destruct Hf as (Hc & Hq & Hfail). split; [exact Hc|]. split.
    + eapply quiet_trans; eassumption.
    + eapply clock_failed_r; eassumption.
Qed.

Lemma safe_for_range {S} (body : nat -> S -> M S) count :
  (forall i s, cycle_safe (body i s)) ->
  forall start s, cycle_safe (for_range start count body s).
Proof.
  intros Hb. induction count as [|n IH]; intros start s.
  - apply safe_ret.
  - rewrite for_range_S. apply safe_bind; [apply Hb|]. intros s'. apply IH.
Qed.

Lemma safe_defined {A} (o : option A) : cycle_safe (defined o).
Proof. destruct o; intros w; [apply quiet_refl|exact I]. Qed.

Lemma safe_get_world : cycle_safe get_world.
Proof. intros w. apply quiet_refl. Qed.

Lemma safe_printf f a : cycle_safe (printf f a).
Proof. intros w. cbn. unfold quiet. cbn. repeat split; lia. Qed.

Lemma safe_fprintf_stderr f a : cycle_safe (fprintf_stderr f a).
Proof. intros w. cbn. unfold quiet. cbn. repeat split; lia. Qed.

Lemma safe_sleep interval : cycle_safe (sleep interval).
Proof. intros w. cbn. unfold quiet. cbn. repeat split; lia. Qed.

Lemma safe_bpf_num_possible_cpus : cycle_safe bpf_num_possible_cpus.
Proof. intros w. apply quiet_refl. Qed.

Lemma safe_bpf_map_lookup_elem fd key : cycle_safe (bpf_map_lookup_elem fd key).
Proof. intros w. cbn. unfold quiet. cbn. repeat split; lia. Qed.

Lemma safe_load p : cycle_safe (load p).
Proof. apply safe_bind; [apply safe_get_world|]. intros w. apply safe_defined. Qed.

Lemma safe_store p s : cycle_safe (store p s).
Proof. intros w. cbn. unfold quiet. cbn. repeat split; lia. Qed.

Lemma safe_gettime : cycle_safe gettime.
Proof.
  intros w. rewrite gettime_eq. cbv zeta.
  destruct (Z.ltb_spec (clock w (n_clock w)).1.1 0) as [Hlt|Hge].
  - split; [reflexivity|]. split.
    + unfold quiet. cbn. repeat split; lia.
    + exists (n_clock w). cbn. split; [lia|exact Hlt].
  - unfold quiet. cbn. repeat split; lia.
Qed.

Lemma safe_rate v : cycle_safe (rate v).
Proof. apply safe_bind; [apply safe_defined|]. intros z. apply safe_ret. Qed.

Create HintDb safe discriminated.
#[local] Hint Resolve safe_ret safe_defined safe_get_world safe_printf
  safe_fprintf_stderr safe_sleep safe_bpf_num_possible_cpus
  safe_bpf_map_lookup_elem safe_load safe_store safe_gettime safe_rate : safe.

Ltac safe_step :=
  match goal with
  | |- cycle_safe (_ ≫= _) => apply safe_bind; [|intros ?]
  | |- cycle_safe (for_range _ _ _ _) => apply safe_for_range; intros ? ?
  | |- cycle_safe (match ?x with _ => _ end) => destruct x
  | |- cycle_safe (let '(_, _) := ?x in _) => destruct x
  | |- cycle_safe _ => solve [auto with safe]
  end.

Lemma safe_map_collect_percpu fd key rec : cycle_safe (map_collect_percpu fd key rec).
Proof. unfold map_collect_percpu. repeat safe_step. Qed.

Lemma safe_on_record p fld fd key :
  cycle_safe (on_record p fld (map_collect_percpu fd key)).
Proof.
  unfold on_record. repeat safe_step. apply safe_map_collect_percpu.
Qed.

Lemma safe_stats_collect rec : cycle_safe (stats_collect rec).
Proof.
  unfold stats_collect.
  repeat (safe_step || apply safe_on_record).
Qed.

Lemma safe_stats_print stats_rec stats_prev :
  cycle_safe (stats_print stats_rec stats_prev).
Proof. unfold stats_print. repeat safe_step. Qed.

Lemma safe_poll_iteration interval v : cycle_safe (poll_iteration interval v).
Proof.
  unfold poll_iteration. destruct (swap (prev_ptr v) (record_ptr v)) as [prev record].
  apply safe_bind; [apply safe_stats_collect|]. intros _.
  apply safe_bind; [apply safe_stats_print|]. intros _.
  repeat safe_step.
Qed.

Lemma safe_poll_loop iterations interval :
  forall v, cycle_safe (poll_loop iterations interval v).
Proof.
  induction iterations as [|n IH]; intros v.
  - apply safe_ret.
  - cbn [poll_loop]. apply safe_bind; [apply safe_poll_iteration|]. exact IH.
Qed.

(** Both allocation routines call [memset] on the result of [malloc]
    before testing it: when [malloc] returns [NULL] the behaviour is
    undefined, and the [exit(EXIT_FAIL_MEM)] after the test is not what the
    model (or the C standard) gives. *)
Lemma alloc_record_per_cpu_null w :
  malloc_ok w (n_mallocs w) = false -> alloc_record_per_cpu w = Fault.
Proof.
  intros H. unfold alloc_record_per_cpu, bpf_num_possible_cpus, malloc, mbind, M_bind.
  rewrite H. reflexivity.
Qed.

Lemma alloc_stats_record_null w :
  malloc_ok w (n_mallocs w) = false -> alloc_stats_record w = Fault.
Proof.
  intros H. unfold alloc_stats_record, malloc, get_world, mbind, M_bind.
  rewrite H. reflexivity.
Qed.

(** C5, as the code has it.  Inside the poll cycle nothing is allocated,
    and a failed map lookup does not terminate the process: it is logged
    (one line on [stderr], naming the key) and [map_collect_percpu] returns
    [false] with the record as it was, having changed nothing else but the
    count of lookups.  A failed clock read in [gettime] does terminate the
    process, with [EXIT_FAIL], after one line on [stderr]; this is the
    only way any number of cycles exits, and never with [EXIT_FAIL_MEM]. *)
Theorem cycle_fatal_paths :
  (forall fd key rec w,
     map_lookup w (n_lookups w) fd key = None ->
     map_collect_percpu fd key rec w
     = Done (false, rec)
            (set_stderr
               (stderr w ++ [Printf "ERR: bpf_map_lookup_elem failed key:0x%X\n"
                                    [AInt key]])
               (set_n_lookups (S (n_lookups w)) w))) /\
  (forall fd key rec w values,
     map_lookup w (n_lookups w) fd key = Some values ->
     (clock w (n_clock w)).1.1 < 0 ->
     map_collect_percpu fd key rec w
     = Exit EXIT_FAIL
            (set_stderr
               (stderr w ++ [Printf "Error with gettimeofday! (%i)\n"
                                    [AInt (clock w (n_clock w)).1.1]])
               (set_n_clock (S (n_clock w)) (set_n_lookups (S (n_lookups w)) w)))) /\
  (forall iterations interval v w,
     match poll_loop iterations interval v w with
     | Done _ w' => n_mallocs w' = n_mallocs w
     | Exit code w' =>
         code = EXIT_FAIL /\ code <> EXIT_FAIL_MEM /\
         n_mallocs w' = n_mallocs w /\ clock_failed w w'
     | Fault => True
     end).
Proof.
  split; [|split].
  - intros fd key rec w H. rewrite map_collect_percpu_eq, H. reflexivity.
  - intros fd key rec w values H Hres. rewrite map_collect_percpu_eq, H. cbv zeta.
    unfold mbind at 1, M_bind at 1. rewrite gettime_eq. cbv zeta.
    change (clock (set_n_lookups (S (n_lookups w)) w)) with (clock w).
    change (n_clock (set_n_lookups (S (n_lookups w)) w)) with (n_clock w).
    destruct (Z.ltb_spec (clock w (n_clock w)).1.1 0); [|lia]. reflexivity.
  - intros iterations interval v w.
    pose proof (safe_poll_loop iterations interval v w) as H.
    destruct (poll_loop iterations interval v w) as [v' w'|code w'|]; [| |exact I].
    + apply H.
    + destruct H as (-> & Hq & Hfail). repeat split; [discriminate|apply Hq|exact Hfail].
Qed.

Lemma cycle_fatal_paths_witness :
  map_collect_percpu 3 5 zero_record (set_n_lookups 22 scenario3)
  = Done (false, zero_record)
         (set_stderr [Printf "ERR: bpf_map_lookup_elem failed key:0x%X\n" [AInt 5]]
                     (set_n_lookups 23 scenario3)) /\
  map_collect_percpu 1 0 zero_record (set_n_clock 15 clock_failure)
  = Exit EXIT_FAIL
         (set_stderr [Printf "Error with gettimeofday! (%i)\n" [AInt (-1)]]
                     (set_n_clock 16 (set_n_lookups 1 clock_failure))).
Proof.
  split.
  - apply (proj1 cycle_fatal_paths 3 5 zero_record (set_n_lookups 22 scenario3)).
    reflexivity.
  - apply (proj1 (proj2 cycle_fatal_paths) 1 0 zero_record
             (set_n_clock 15 clock_failure) (counters [100; 0; 0; 0])).
    + reflexivity.
    + cbn. lia.
Defined.

(** The claim as the specification states it fails: with every allocation
    successful and every lookup successful, a failed clock read in the
    first cycle (after both snapshots were allocated, 32 blocks, and the
    baseline was collected) terminates the process with [EXIT_FAIL]. *)
Lemma allocation_not_the_only_fatal_path :
  (forall n, malloc_ok clock_failure n = true) /\
  (forall n fd key, map_lookup clock_failure n fd key <> None) /\
  exists w', stats_poll 1 2 clock_failure = Exit EXIT_FAIL w' /\
             n_mallocs w' = 32%nat /\ n_lookups w' = 16%nat /\
             EXIT_FAIL <> EXIT_FAIL_MEM.
Proof.
  split; [reflexivity|]. split.
  - intros n fd key. cbn. unfold scenario1_lookup.
    destruct (n =? 0)%nat; [discriminate|]. destruct (n =? 15)%nat; discriminate.
  - eexists. split; [vm_compute; reflexivity|].
    repeat split. discriminate.
Qed.

(** * Rotation of the two snapshot buffers *)

(** C6. [swap] is a pure exchange of the two pointers: what was reachable
    as the current snapshot is afterwards reachable as the previous one
    with the same contents and conversely, the world (the heap and the
    allocation count in particular) is not involved, and swapping twice
    gives back the original assignment.  A poll iteration starts its
    collection in the very world it was entered with. *)
Theorem swap_is_reference_exchange :
  forall (w : world) (v : poll_vars),
    let '(prev', record') := swap (prev_ptr v) (record_ptr v) in
    prev' = record_ptr v /\ record' = prev_ptr v /\
    heap w !! prev' = heap w !! record_ptr v /\
    heap w !! record' = heap w !! prev_ptr v /\
    swap prev' record' = (prev_ptr v, record_ptr v) /\
    forall interval,
      poll_iteration interval v w
      = (stats_collect record';; stats_print record' prev';; sleep interval;;
         mret (mk_poll_vars record' prev')) w.
Proof.
  intros w v. cbn. repeat split.
Qed.

(** * The report *)

Lemma to_u64_range f v : Double.to_u64 f = Some v -> 0 <= v < U64.modulus.
Proof.
  unfold Double.to_u64. destruct (Double.trunc f) as [z|]; [|discriminate].
  destruct (Z.leb_spec 0 z); [|discriminate].
  destruct (Z.ltb_spec z U64.modulus); [|discriminate].
  intros [= <-]. lia.
Qed.

Lemma calc_pps_range r p t v : calc_pps r p t = Some v -> 0 <= v < U64.modulus.
Proof.
  unfold calc_pps. destruct (Double.ltb Double.zero t).
  - apply to_u64_range.
  - intros [= <-]. unfold U64.modulus. lia.
Qed.

Lemma calc_drop_pps_range r p t v :
  calc_drop_pps r p t = Some v -> 0 <= v < U64.modulus.
Proof.
  unfold calc_drop_pps. destruct (Double.ltb Double.zero t).
  - apply to_u64_range.
  - intros [= <-]. unfold U64.modulus. lia.
Qed.

(** A row is printed exactly when its [__u64] rate is not zero. *)
Lemma print_if_positive v f a w :
  0 <= v < U64.modulus ->
  (if Double.ltb Double.zero (Double.of_Z v) then printf f a else mret tt) w
  = Done tt (set_stdout (stdout w ++ (if v =? 0 then [] else [Printf f a])) w).
Proof.
  intros Hv. rewrite (of_Z_positive v Hv).
  destruct (Z.eqb_spec v 0) as [->|Hnz].
  - cbn. rewrite set_stdout_nil. reflexivity.
  - destruct (Z.ltb_spec 0 v); [reflexivity|lia].
Qed.

Lemma for_range_emit (body : nat -> unit -> M unit) (D : nat -> Prop)
    (R : nat -> list printf_call) n : forall i w,
  (forall j w, (i <= j < i + n)%nat -> D j ->
     body j tt w = Done tt (set_stdout (stdout w ++ R j) w)) ->
  (forall j, (i <= j < i + n)%nat -> D j) ->
  for_range i n body tt w
  = Done tt (set_stdout (stdout w ++ flat_map R (seq i n)) w).
Proof.
  induction n as [|n IH]; intros i w Hbody HD.
  - cbn. rewrite set_stdout_nil. reflexivity.
  - rewrite for_range_S. erewrite bind_done; [|apply Hbody; [lia|apply HD; lia]].
    rewrite IH.
    + cbn [seq flat_map]. rewrite set_stdout_app. reflexivity.
    + intros j w' Hj. apply Hbody. lia.
    + intros j Hj. apply HD. lia.
Qed.

Lemma for_range_emit_inv (body : nat -> unit -> M unit) (D : nat -> Prop) n :
  (forall j u w u' w', body j u w = Done u' w' -> D j) ->
  forall i u w u' w',
    for_range i n body u w = Done u' w' ->
    forall j, (i <= j < i + n)%nat -> D j.
Proof.
  intros Hbody. induction n as [|n IH]; intros i u w u' w' H j Hj; [lia|].
  rewrite for_range_S in H. apply bind_done_inv in H.
  destruct H as (u1 & w1 & H1 & H2).
  destruct (Nat.eq_dec j i) as [->|Hne].
  - eapply Hbody. exact H1.
  - eapply IH; [exact H2|lia].
Qed.

Lemma rate_some v w : rate (Some v) w = Done (Double.of_Z v) w.
Proof. reflexivity. Qed.

Lemma rate_done v w d w' :
  rate v w = Done d w' -> exists z, v = Some z /\ d = Double.of_Z z /\ w' = w.
Proof.
  destruct v as [z|]; cbn; [|discriminate]. intros [= <- <-]. eauto.
Qed.

(** The per-CPU loop of the RX block. *)
Lemma rx_loop nr_cpus rec prev w :
  rows_defined (rx_row rec prev) nr_cpus ->
  for_range 0 nr_cpus (fun i _ =>
    r ← defined (cpu rec !! i);
    p ← defined (cpu prev !! i);
    pps ← rate (calc_pps r p (calc_period rec prev));
    if Double.ltb Double.zero pps then
      printf "%-15s %-7d %-10.0f %'-18.0f %-12s %f\n"
             [AStr "XDP-RX"; AInt (Z.of_nat i); ADbl pps; ADbl pps; AStr "(nan)";
              ADbl (calc_period rec prev)]
    else mret tt) tt w
  = Done tt (set_stdout (stdout w ++ cpu_rows (rx_row rec prev) nr_cpus) w).
Proof.
  intros HD. unfold cpu_rows.
  apply (for_range_emit _ (fun i => is_Some (rx_row rec prev i))); [|intros j Hj; apply HD; lia].
  intros j w' _ [l Hl]. rewrite Hl. cbn [default]. unfold rx_row in Hl. cbv zeta in Hl.
  destruct (cpu rec !! j) as [r|]; [|discriminate].
  destruct (cpu prev !! j) as [p|]; [|discriminate].
  cbn in Hl.
  destruct (calc_pps r p (calc_period rec prev)) as [v|] eqn:Hv; [|discriminate].
  injection Hl as <-.
  do 2 (erewrite bind_done; [|apply defined_some]).
  rewrite Hv. erewrite bind_done; [|apply rate_some].
  apply print_if_positive. eapply calc_pps_range, Hv.
Qed.

Lemma rx_loop_inv nr_cpus rec prev w u w' :
  for_range 0 nr_cpus (fun i _ =>
    r ← defined (cpu rec !! i);
    p ← defined (cpu prev !! i);
    pps ← rate (calc_pps r p (calc_period rec prev));
    if Double.ltb Double.zero pps then
      printf "%-15s %-7d %-10.0f %'-18.0f %-12s %f\n"
             [AStr "XDP-RX"; AInt (Z.of_nat i); ADbl pps; ADbl pps; AStr "(nan)";
              ADbl (calc_period rec prev)]
    else mret tt) tt w = Done u w' ->
  rows_defined (rx_row rec prev) nr_cpus.
Proof.
  intros H j Hj.
  eapply (for_range_emit_inv _ (fun i => is_Some (rx_row rec prev i))) in H;
    [exact H| |lia].
  clear. intros j u w u' w' H. unfold rx_row. cbv zeta.
  apply bind_done_inv in H. destruct H as (r & w1 & Hr & H).
  apply defined_done in Hr. destruct Hr as [Hr ->].
  apply bind_done_inv in H. destruct H as (p & w1 & Hp & H).
  apply defined_done in Hp. destruct Hp as [Hp ->].
  apply bind_done_inv in H. destruct H as (d & w1 & Hd & H).
  apply rate_done in Hd. destruct Hd as (z & Hz & _).
  rewrite Hr. cbn. rewrite Hp. cbn. rewrite Hz. cbn. eauto.
Qed.

(** The per-CPU loop of the enqueue, kthread and redirect_err blocks; they
    differ in the format of the row only. *)
Lemma rate_loop (f : string) (ids : nat -> list arg)
    (mk : nat -> Z -> Z -> Double.t -> printf_call) nr_cpus rec prev w :
  (forall i pps drop t,
     mk i pps drop t
     = Printf f (ids i ++ [ADbl (Double.of_Z pps); ADbl (Double.of_Z pps);
                           ADbl (Double.of_Z drop); ADbl t])) ->
  rows_defined (rate_row mk rec prev) nr_cpus ->
  for_range 0 nr_cpus (fun i _ =>
    r ← defined (cpu rec !! i);
    p ← defined (cpu prev !! i);
    pps ← rate (calc_pps r p (calc_period rec prev));
    drop ← rate (calc_drop_pps r p (calc_period rec prev));
    if Double.ltb Double.zero pps then
      printf f (ids i ++ [ADbl pps; ADbl pps; ADbl drop; ADbl (calc_period rec prev)])
    else mret tt) tt w
  = Done tt (set_stdout (stdout w ++ cpu_rows (rate_row mk rec prev) nr_cpus) w).
Proof.
  intros Hmk HD. unfold cpu_rows.
  apply (for_range_emit _ (fun i => is_Some (rate_row mk rec prev i)));
    [|intros j Hj; apply HD; lia].
  intros j w' _ [l Hl]. rewrite Hl. cbn [default]. unfold rate_row in Hl. cbv zeta in Hl.
  destruct (cpu rec !! j) as [r|]; [|discriminate].
  destruct (cpu prev !! j) as [p|]; [|discriminate].
  cbn in Hl.
  destruct (calc_pps r p (calc_period rec prev)) as [v|] eqn:Hv; [|discriminate].
  cbn in Hl.
  destruct (calc_drop_pps r p (calc_period rec prev)) as [d|] eqn:Hd; [|discriminate].
  injection Hl as <-.
  do 2 (erewrite bind_done; [|apply defined_some]).
  rewrite Hv, Hd. do 2 (erewrite bind_done; [|apply rate_some]).
  rewrite Hmk. apply print_if_positive. eapply calc_pps_range, Hv.
Qed.

Lemma rate_loop_inv (f : string) (ids : nat -> list arg)
    (mk : nat -> Z -> Z -> Double.t -> printf_call) nr_cpus rec prev w u w' :
  for_range 0 nr_cpus (fun i _ =>
    r ← defined (cpu rec !! i);
    p ← defined (cpu prev !! i);
    pps ← rate (calc_pps r p (calc_period rec prev));
    drop ← rate (calc_drop_pps r p (calc_period rec prev));
    if Double.ltb Double.zero pps then
      printf f (ids i ++ [ADbl pps; ADbl pps; ADbl drop; ADbl (calc_period rec prev)])
    else mret tt) tt w = Done u w' ->
  rows_defined (rate_row mk rec prev) nr_cpus.
Proof.
  intros H j Hj.
  eapply (for_range_emit_inv _ (fun i => is_Some (rate_row mk rec prev i))) in H;
    [exact H| |lia].
  clear. intros j u w u' w' H. unfold rate_row. cbv zeta.
  apply bind_done_inv in H. destruct H as (r & w1 & Hr & H).
  apply defined_done in Hr. destruct Hr as [Hr ->].
  apply bind_done_inv in H. destruct H as (p & w1 & Hp & H).
  apply defined_done in Hp. destruct Hp as [Hp ->].
  apply bind_done_inv in H. destruct H as (d & w1 & Hd & H).
  apply rate_done in Hd. destruct Hd as (z & Hz & _ & ->).
  apply bind_done_inv in H. destruct H as (d' & w1 & Hd & H).
  apply rate_done in Hd. destruct Hd as (z' & Hz' & _).
  rewrite Hr. cbn. rewrite Hp. cbn. rewrite Hz. cbn. rewrite Hz'. cbn. eauto.
Qed.

Lemma rows_defined_mk mk mk' rec prev nr_cpus :
  rows_defined (rate_row mk rec prev) nr_cpus ->
  rows_defined (rate_row mk' rec prev) nr_cpus.
Proof.
  intros H i Hi. specialize (H i Hi). unfold rate_row in *. cbv zeta in *.
  destruct (cpu rec !! i) as [r|]; [|destruct H; discriminate].
  destruct (cpu prev !! i) as [p|]; [|destruct H; discriminate].
  cbn in *. destruct (calc_pps r p _); [|destruct H; discriminate].
  cbn in *. destruct (calc_drop_pps r p _); [|destruct H; discriminate].
  cbn. eauto.
Qed.

Lemma total_pps_some rec prev v :
  calc_pps (total rec) (total prev) (calc_period rec prev) = Some v ->
  total_pps rec prev = v.
Proof. unfold total_pps. intros ->. reflexivity. Qed.

Lemma total_drop_some rec prev v :
  calc_drop_pps (total rec) (total prev) (calc_period rec prev) = Some v ->
  total_drop rec prev = v.
Proof. unfold total_drop. intros ->. reflexivity. Qed.

Lemma printf_eq f a w : printf f a w = Done tt (set_stdout (stdout w ++ [Printf f a]) w).
Proof. reflexivity. Qed.

(** One target of the enqueue part of [stats_print]. *)
Lemma enq_target nr_cpus cur old to_cpu w rec prev :
  enq cur !! to_cpu = Some rec -> enq old !! to_cpu = Some prev ->
  enq_defined nr_cpus rec prev ->
  (rec ← defined (enq cur !! to_cpu);
   prev ← defined (enq old !! to_cpu);
   let t := calc_period rec prev in
   for_range 0 nr_cpus (fun i _ =>
     r ← defined (cpu rec !! i);
     p ← defined (cpu prev !! i);
     pps ← rate (calc_pps r p t);
     drop ← rate (calc_drop_pps r p t);
     if Double.ltb Double.zero pps then
       printf "%-15s %3d:%-3d %-10.0f %'-18.0f %'-12.0f %f\n"
              [AStr "cpumap-enqueue"; AInt (Z.of_nat i); AInt (Z.of_nat to_cpu);
               ADbl pps; ADbl pps; ADbl drop; ADbl t]
     else mret tt) tt;;
   pps ← rate (calc_pps (total rec) (total prev) t);
   if Double.ltb Double.zero pps then
     drop ← rate (calc_drop_pps (total rec) (total prev) t);
     printf "%-15s %3s:%-3d %-10.0f %'-18.0f %'-12.0f %f\n"
            [AStr "cpumap-enqueue"; AStr "sum"; AInt (Z.of_nat to_cpu);
             ADbl pps; ADbl pps; ADbl drop; ADbl t]
   else mret tt) w
  = Done tt (set_stdout (stdout w ++ enq_block nr_cpus to_cpu rec prev) w).
Proof.
  intros Hrec Hprev (Hrows & [v Hv] & Hdrop).
  rewrite Hrec, Hprev.
  do 2 (erewrite bind_done; [|apply defined_some]). cbv zeta.
  erewrite bind_done;
    [|apply (rate_loop "%-15s %3d:%-3d %-10.0f %'-18.0f %'-12.0f %f\n"
               (fun i => [AStr "cpumap-enqueue"; AInt (Z.of_nat i); AInt (Z.of_nat to_cpu)])
               (line_enq_cpu to_cpu));
      [reflexivity | eapply rows_defined_mk, Hrows]].
  rewrite Hv. erewrite bind_done; [|apply rate_some].
  pose proof (calc_pps_range _ _ _ _ Hv) as Hrange.
  rewrite (of_Z_positive v Hrange).
  unfold enq_block. rewrite (total_pps_some _ _ _ Hv).
  rewrite (total_pps_some _ _ _ Hv) in Hdrop.
  destruct (Z.eqb_spec v 0) as [->|Hnz].
  - cbn. rewrite app_nil_r. reflexivity.
  - destruct (Z.ltb_spec 0 v); [|lia].
    destruct (Hdrop Hnz) as [d Hd]. rewrite Hd.
    erewrite bind_done; [|apply rate_some].
    rewrite (total_drop_some _ _ _ Hd).
    rewrite printf_eq, set_stdout_app. reflexivity.
Qed.

Lemma enq_target_inv nr_cpus cur old to_cpu w u w' :
  (rec ← defined (enq cur !! to_cpu);
   prev ← defined (enq old !! to_cpu);
   let t := calc_period rec prev in
   for_range 0 nr_cpus (fun i _ =>
     r ← defined (cpu rec !! i);
     p ← defined (cpu prev !! i);
     pps ← rate (calc_pps r p t);
     drop ← rate (calc_drop_pps r p t);
     if Double.ltb Double.zero pps then
       printf "%-15s %3d:%-3d %-10.0f %'-18.0f %'-12.0f %f\n"
              [AStr "cpumap-enqueue"; AInt (Z.of_nat i); AInt (Z.of_nat to_cpu);
               ADbl pps; ADbl pps; ADbl drop; ADbl t]
     else mret tt) tt;;
   pps ← rate (calc_pps (total rec) (total prev) t);
   if Double.ltb Double.zero pps then
     drop ← rate (calc_drop_pps (total rec) (total prev) t);
     printf "%-15s %3s:%-3d %-10.0f %'-18.0f %'-12.0f %f\n"
            [AStr "cpumap-enqueue"; AStr "sum"; AInt (Z.of_nat to_cpu);
             ADbl pps; ADbl pps; ADbl drop; ADbl t]
   else mret tt) w = Done u w' ->
  exists rec prev, enq cur !! to_cpu = Some rec /\ enq old !! to_cpu = Some prev /\
                   enq_defined nr_cpus rec prev.
Proof.
  intros H.
  apply bind_done_inv in H. destruct H as (rec & w1 & Hrec & H).
  apply defined_done in Hrec. destruct Hrec as [Hrec ->].
  apply bind_done_inv in H. destruct H as (prev & w1 & Hprev & H).
  apply defined_done in Hprev. destruct Hprev as [Hprev ->].
  cbv zeta in H.
  apply bind_done_inv in H. destruct H as (u1 & w1 & Hloop & H).
  apply (rate_loop_inv "%-15s %3d:%-3d %-10.0f %'-18.0f %'-12.0f %f\n"
           (fun i => [AStr "cpumap-enqueue"; AInt (Z.of_nat i); AInt (Z.of_nat to_cpu)])
           (line_enq_cpu 0)) in Hloop.
  apply bind_done_inv in H. destruct H as (d & w2 & Hd & H).
  apply rate_done in Hd. destruct Hd as (v & Hv & -> & ->).
  exists rec, prev. split; [exact Hrec|]. split; [exact Hprev|].
  split; [exact Hloop|]. split; [eauto|].
  rewrite (total_pps_some _ _ _ Hv). intros Hnz.
  pose proof (calc_pps_range _ _ _ _ Hv) as Hrange.
  rewrite (of_Z_positive v Hrange) in H.
  destruct (Z.ltb_spec 0 v); [|lia].
  apply bind_done_inv in H. destruct H as (d & w3 & Hd & H).
  apply rate_done in Hd. destruct Hd as (z & Hz & _). eauto.
Qed.

(** The kthread and redirect_err parts of [stats_print]. *)
Lemma total_part {B} label nr_cpus rec prev (k : M B) w :
  total_defined nr_cpus rec prev ->
  (for_range 0 nr_cpus (fun i _ =>
     r ← defined (cpu rec !! i);
     p ← defined (cpu prev !! i);
     pps ← rate (calc_pps r p (calc_period rec prev));
     drop ← rate (calc_drop_pps r p (calc_period rec prev));
     if Double.ltb Double.zero pps then
       printf "%-15s %-7d %-10.0f %'-18.0f %'-12.0f %f\n"
              [AStr label; AInt (Z.of_nat i); ADbl pps; ADbl pps; ADbl drop;
               ADbl (calc_period rec prev)]
     else mret tt) tt;;
   pps ← rate (calc_pps (total rec) (total prev) (calc_period rec prev));
   drop ← rate (calc_drop_pps (total rec) (total prev) (calc_period rec prev));
   printf "%-15s %-7s %-10.0f %'-18.0f %'-12.0f %f\n"
          [AStr label; AStr "total"; ADbl pps; ADbl pps; ADbl drop;
           ADbl (calc_period rec prev)];;
   k) w
  = k (set_stdout (stdout w ++ total_block label nr_cpus rec prev) w).
Proof.
  intros (Hrows & [v Hv] & [d Hd]).
  erewrite bind_done;
    [|apply (rate_loop "%-15s %-7d %-10.0f %'-18.0f %'-12.0f %f\n"
               (fun i => [AStr label; AInt (Z.of_nat i)]) (line_cpu label));
      [reflexivity | eapply rows_defined_mk, Hrows]].
  rewrite Hv, Hd. do 2 (erewrite bind_done; [|apply rate_some]).
  unfold total_block. rewrite (total_pps_some _ _ _ Hv), (total_drop_some _ _ _ Hd).
  erewrite bind_done; [|apply printf_eq]. rewrite set_stdout_app. reflexivity.
Qed.

Lemma total_part_inv {B} label nr_cpus rec prev (k : M B) w u w' :
  (for_range 0 nr_cpus (fun i _ =>
     r ← defined (cpu rec !! i);
     p ← defined (cpu prev !! i);
     pps ← rate (calc_pps r p (calc_period rec prev));
     drop ← rate (calc_drop_pps r p (calc_period rec prev));
     if Double.ltb Double.zero pps then
       printf "%-15s %-7d %-10.0f %'-18.0f %'-12.0f %f\n"
              [AStr label; AInt (Z.of_nat i); ADbl pps; ADbl pps; ADbl drop;
               ADbl (calc_period rec prev)]
     else mret tt) tt;;
   pps ← rate (calc_pps (total rec) (total prev) (calc_period rec prev));
   drop ← rate (calc_drop_pps (total rec) (total prev) (calc_period rec prev));
   printf "%-15s %-7s %-10.0f %'-18.0f %'-12.0f %f\n"
          [AStr label; AStr "total"; ADbl pps; ADbl pps; ADbl drop;
           ADbl (calc_period rec prev)];;
   k) w = Done u w' ->
  total_defined nr_cpus rec prev.
Proof.
  intros H.
  apply bind_done_inv in H. destruct H as (u1 & w1 & Hloop & H).
  apply (rate_loop_inv "%-15s %-7d %-10.0f %'-18.0f %'-12.0f %f\n"
           (fun i => [AStr label; AInt (Z.of_nat i)]) (line_cpu "")) in Hloop.
  apply bind_done_inv in H. destruct H as (d & w2 & Hd & H).
  apply rate_done in Hd. destruct Hd as (v & Hv & _ & ->).
  apply bind_done_inv in H. destruct H as (d' & w3 & Hd & H).
  apply rate_done in Hd. destruct Hd as (z & Hz & _).
  split; [exact Hloop|]. split; eauto.
Qed.

(** The RX part of [stats_print]. *)
Lemma rx_part {B} nr_cpus rec prev (k : M B) w :
  rx_defined nr_cpus rec prev ->
  (for_range 0 nr_cpus (fun i _ =>
     r ← defined (cpu rec !! i);
     p ← defined (cpu prev !! i);
     pps ← rate (calc_pps r p (calc_period rec prev));
     if Double.ltb Double.zero pps then
       printf "%-15s %-7d %-10.0f %'-18.0f %-12s %f\n"
              [AStr "XDP-RX"; AInt (Z.of_nat i); ADbl pps; ADbl pps; AStr "(nan)";
               ADbl (calc_period rec prev)]
     else mret tt) tt;;
   pps ← rate (calc_pps (total rec) (total prev) (calc_period rec prev));
   printf "%-15s %-7s %-10.0f %'-18.0f %-12s %f\n"
          [AStr "XDP-RX"; AStr "total"; ADbl pps; ADbl pps; AStr "(nan)";
           ADbl (calc_period rec prev)];;
   k) w
  = k (set_stdout (stdout w ++ rx_block nr_cpus rec prev) w).
Proof.
  intros (Hrows & [v Hv]).
  erewrite bind_done; [|apply rx_loop, Hrows].
  rewrite Hv. erewrite bind_done; [|apply rate_some].
  unfold rx_block. rewrite (total_pps_some _ _ _ Hv).
  erewrite bind_done; [|apply printf_eq]. rewrite set_stdout_app. reflexivity.
Qed.

Lemma rx_part_inv {B} nr_cpus rec prev (k : M B) w u w' :
  (for_range 0 nr_cpus (fun i _ =>
     r ← defined (cpu rec !! i);
     p ← defined (cpu prev !! i);
     pps ← rate (calc_pps r p (calc_period rec prev));
     if Double.ltb Double.zero pps then
       printf "%-15s %-7d %-10.0f %'-18.0f %-12s %f\n"
              [AStr "XDP-RX"; AInt (Z.of_nat i); ADbl pps; ADbl pps; AStr "(nan)";
               ADbl (calc_period rec prev)]
     else mret tt) tt;;
   pps ← rate (calc_pps (total rec) (total prev) (calc_period rec prev));
   printf "%-15s %-7s %-10.0f %'-18.0f %-12s %f\n"
          [AStr "XDP-RX"; AStr "total"; ADbl pps; ADbl pps; AStr "(nan)";
           ADbl (calc_period rec prev)];;
   k) w = Done u w' ->
  rx_defined nr_cpus rec prev.
Proof.
  intros H.
  apply bind_done_inv in H. destruct H as (u1 & w1 & Hloop & H).
  apply rx_loop_inv in Hloop.
  apply bind_done_inv in H. destruct H as (d & w2 & Hd & H).
  apply rate_done in Hd. destruct Hd as (v & Hv & _).
  split; eauto.
Qed.

Lemma load_some p w s : heap w !! p = Some s -> load p w = Done s w.
Proof. intros H. unfold load, get_world, mbind, M_bind. rewrite H. reflexivity. Qed.

Lemma load_done p w s w' : load p w = Done s w' -> heap w !! p = Some s /\ w' = w.
Proof.
  unfold load, get_world, mbind, M_bind. intros H. apply defined_done in H. exact H.
Qed.

(** [stats_print] prints the report of the two snapshots whenever every
    step of it is defined. *)
Lemma stats_print_render stats_rec stats_prev w cur old :
  heap w !! stats_rec = Some cur -> heap w !! stats_prev = Some old ->
  print_defined (possible_cpus w) cur old ->
  stats_print stats_rec stats_prev w
  = Done tt (set_stdout (stdout w ++ render (possible_cpus w) cur old) w).
Proof.
  intros Hcur Hold (Hrx & Henq & Hkt & Herr).
  unfold stats_print.
  erewrite bind_done; [|reflexivity].
  erewrite bind_done; [|apply load_some, Hcur].
  erewrite bind_done; [|apply load_some, Hold].
  erewrite bind_done; [|apply printf_eq].
  cbv zeta. rewrite rx_part by exact Hrx. rewrite set_stdout_app.
  erewrite bind_done.
  2:{ apply (for_range_emit _
               (fun to_cpu => exists rec prev,
                  enq cur !! to_cpu = Some rec /\ enq old !! to_cpu = Some prev /\
                  enq_defined (possible_cpus w) rec prev)
               (fun to_cpu =>
                  match enq cur !! to_cpu, enq old !! to_cpu with
                  | Some rec, Some prev => enq_block (possible_cpus w) to_cpu rec prev
                  | _, _ => []
                  end)).
      - intros j w' _ (rec & prev & Hr & Hp & Hd). cbv beta.
        etrans; [apply (enq_target _ cur old j w' rec prev); assumption|].
        rewrite Hr, Hp. reflexivity.
      - intros j Hj. apply Henq. lia. }
  rewrite set_stdout_app.
  rewrite total_part by exact Hkt. rewrite set_stdout_app.
  rewrite total_part by exact Herr. rewrite set_stdout_app.
  rewrite printf_eq, set_stdout_app.
  unfold render, enq_blocks. rewrite <- !app_assoc. reflexivity.
Qed.

(** Conversely, when [stats_print] returns, every step was defined. *)
Lemma stats_print_done stats_rec stats_prev w u w' :
  stats_print stats_rec stats_prev w = Done u w' ->
  exists cur old,
    heap w !! stats_rec = Some cur /\ heap w !! stats_prev = Some old /\
    print_defined (possible_cpus w) cur old.
Proof.
  unfold stats_print. intros H.
  apply bind_done_inv in H. destruct H as (nr & w1 & Hnr & H).
  injection Hnr as <- <-.
  apply bind_done_inv in H. destruct H as (cur & w1 & Hcur & H).
  apply load_done in Hcur. destruct Hcur as [Hcur ->].
  apply bind_done_inv in H. destruct H as (old & w1 & Hold & H).
  apply load_done in Hold. destruct Hold as [Hold ->].
  apply bind_done_inv in H. destruct H as (u1 & w1 & Hhdr & H).
  rewrite printf_eq in Hhdr. injection Hhdr as <-. cbv zeta in H.
  exists cur, old. split; [exact Hcur|]. split; [exact Hold|].
  pose proof (rx_part_inv _ _ _ _ _ _ _ H) as Hrx.
  rewrite rx_part in H by exact Hrx.
  apply bind_done_inv in H. destruct H as (u2 & w2 & Henq & H).
  pose proof (total_part_inv _ _ _ _ _ _ _ _ H) as Hkt.
  rewrite total_part in H by exact Hkt.
  pose proof (total_part_inv _ _ _ _ _ _ _ _ H) as Herr.
  split; [exact Hrx|]. split; [|split; assumption].
  intros to_cpu Hto.
  eapply (for_range_emit_inv _
            (fun to_cpu => exists rec prev,
               enq cur !! to_cpu = Some rec /\ enq old !! to_cpu = Some prev /\
               enq_defined (possible_cpus w) rec prev)) in Henq;
    [exact Henq| |lia].
  intros j u3 w3 u4 w4 Hj. eapply enq_target_inv. exact Hj.
Qed.

Lemma in_cpu_rows row nr_cpus l :
  In l (cpu_rows row nr_cpus) <->
  exists i ls, (i < nr_cpus)%nat /\ row i = Some ls /\ In l ls.
Proof.
  unfold cpu_rows. rewrite in_flat_map. split.
  - intros (i & Hi & Hl). apply in_seq in Hi.
    destruct (row i) as [ls|] eqn:Hr; [|destruct Hl].
    exists i, ls. split; [lia|]. split; [exact Hr|exact Hl].
  - intros (i & ls & Hi & Hr & Hl). exists i. split; [apply in_seq; lia|].
    rewrite Hr. exact Hl.
Qed.
















(** C9. Scenario 1.  With four CPUs, RX counters [100,0,0,0] at time 0 in
    the previous snapshot and [200,50,0,0] one second later in the current
    one (totals 100 and 250, as collected), the period is [1.0], the
    per-CPU rates are [100, 50, 0, 0], the RX block is the rows of CPU 0
    and CPU 1 followed by the total row with pps 150; and this is what the
    program prints in its first cycle in the environment [scenario1]. *)
Theorem scenario1_rx_report :
  let prev := mk_record 0 (mk_datarec 100 0) (counters [100; 0; 0; 0]) in
  let curr := mk_record 1000000000 (mk_datarec 250 0) (counters [200; 50; 0; 0]) in
  let t := Double.of_Z 1 in
  calc_period curr prev = t /\
  zip_with (fun r p => calc_pps r p t) (cpu curr) (cpu prev)
    = [Some 100; Some 50; Some 0; Some 0] /\
  calc_pps (total curr) (total prev) t = Some 150 /\
  rx_block 4 curr prev
    = [line_rx_cpu 0 100 t; line_rx_cpu 1 50 t; line_rx_total 150 t] /\
  exists v w',
    stats_poll 1 2 scenario1 = Done v w' /\
    rx_cnt <$> heap w' !! record_ptr v = Some curr /\
    rx_cnt <$> heap w' !! prev_ptr v = Some prev /\
    stdout w' =
      [line_header; line_rx_cpu 0 100 t; line_rx_cpu 1 50 t; line_rx_total 150 t;
       line_total "cpumap_kthread" 0 0 t; line_total "redirect_err" 0 0 t;
       line_blank].
Proof.
  cbv zeta. repeat split; try reflexivity.
  eexists _, _. split; [vm_compute; reflexivity|].
  repeat split.
Qed.

Lemma calc_pps_processed r p r' p' t :
  processed r = processed r' -> processed p = processed p' ->
  calc_pps r p t = calc_pps r' p' t.
Proof. unfold calc_pps. intros -> ->. reflexivity. Qed.

Lemma rx_row_processed rec prev rec' prev' i :
  timestamp rec = timestamp rec' -> timestamp prev = timestamp prev' ->
  processed <$> cpu rec = processed <$> cpu rec' ->
  processed <$> cpu prev = processed <$> cpu prev' ->
  rx_row rec prev i = rx_row rec' prev' i.
Proof.
  intros Ht Ht' Hc Hc'. unfold rx_row. cbv zeta.
  assert (calc_period rec prev = calc_period rec' prev') as ->.
  { unfold calc_period. rewrite Ht, Ht'. reflexivity. }
  apply (f_equal (fun l => l !! i)) in Hc, Hc'.
  rewrite !list_lookup_fmap in Hc, Hc'.
  destruct (cpu rec !! i) as [r|], (cpu rec' !! i) as [r'|]; try discriminate;
    [|reflexivity].
  destruct (cpu prev !! i) as [p|], (cpu prev' !! i) as [p'|]; try discriminate;
    [|reflexivity].
  cbn in Hc, Hc' |- *. injection Hc as Hc. injection Hc' as Hc'.
  rewrite (calc_pps_processed r p r' p' _ Hc Hc'). reflexivity.
Qed.

(** The rows of the blocks. *)
Lemma in_rx_block nr_cpus rec prev l :
  In l (rx_block nr_cpus rec prev) <->
  (exists i r p pps,
     (i < nr_cpus)%nat /\ cpu rec !! i = Some r /\ cpu prev !! i = Some p /\
     calc_pps r p (calc_period rec prev) = Some pps /\ pps <> 0 /\
     l = line_rx_cpu i pps (calc_period rec prev)) \/
  l = line_rx_total (total_pps rec prev) (calc_period rec prev).
Proof.
  unfold rx_block. rewrite in_app_iff, in_cpu_rows. cbn [In]. split.
  - intros [(i & ls & Hi & Hrow & Hl)|[<-|[]]]; [left|right; reflexivity].
    unfold rx_row in Hrow. cbv zeta in Hrow.
    destruct (cpu rec !! i) as [r|] eqn:Hr; [|discriminate].
    destruct (cpu prev !! i) as [p|] eqn:Hp; [|discriminate]. cbn in Hrow.
    destruct (calc_pps r p (calc_period rec prev)) as [pps|] eqn:Hpps; [|discriminate].
    injection Hrow as <-.
    destruct (Z.eqb_spec pps 0) as [|Hnz]; [destruct Hl|].
    destruct Hl as [<-|[]]. exists i, r, p, pps. repeat (split; [assumption|]). reflexivity.
  - intros [(i & r & p & pps & Hi & Hr & Hp & Hpps & Hnz & ->)| ->];
      [left|right; left; reflexivity].
    exists i, [line_rx_cpu i pps (calc_period rec prev)].
    split; [exact Hi|]. split; [|left; reflexivity].
    unfold rx_row. cbv zeta. rewrite Hr, Hp. cbn. rewrite Hpps. cbn.
    destruct (Z.eqb_spec pps 0); [contradiction|reflexivity].
Qed.

Lemma in_rate_rows mk nr_cpus rec prev l :
  In l (cpu_rows (rate_row mk rec prev) nr_cpus) ->
  exists i r p pps drop,
    (i < nr_cpus)%nat /\ cpu rec !! i = Some r /\ cpu prev !! i = Some p /\
    calc_pps r p (calc_period rec prev) = Some pps /\
    calc_drop_pps r p (calc_period rec prev) = Some drop /\
    l = mk i pps drop (calc_period rec prev).
Proof.
  rewrite in_cpu_rows. intros (i & ls & Hi & Hrow & Hl).
  unfold rate_row in Hrow. cbv zeta in Hrow.
  destruct (cpu rec !! i) as [r|] eqn:Hr; [|discriminate].
  destruct (cpu prev !! i) as [p|] eqn:Hp; [|discriminate]. cbn in Hrow.
  destruct (calc_pps r p (calc_period rec prev)) as [pps|] eqn:Hpps; [|discriminate].
  cbn in Hrow.
  destruct (calc_drop_pps r p (calc_period rec prev)) as [drop|] eqn:Hdrop;
    [|discriminate].
  injection Hrow as <-. destruct (pps =? 0); [destruct Hl|].
  destruct Hl as [<-|[]]. exists i, r, p, pps, drop. repeat (split; [assumption|]). reflexivity.
Qed.

Lemma in_render nr_cpus cur old l :
  In l (render nr_cpus cur old) ->
  l = line_header \/
  In l (rx_block nr_cpus (rx_cnt cur) (rx_cnt old)) \/
  (exists to_cpu rec prev,
     (to_cpu < MAX_CPUS)%nat /\
     enq cur !! to_cpu = Some rec /\ enq old !! to_cpu = Some prev /\
     In l (enq_block nr_cpus to_cpu rec prev)) \/
  In l (total_block "cpumap_kthread" nr_cpus (kthread cur) (kthread old)) \/
  In l (total_block "redirect_err" nr_cpus (redir_err cur) (redir_err old)) \/
  l = line_blank.
Proof.
  unfold render, enq_blocks. rewrite !in_app_iff, in_flat_map. cbn [In].
  intros [[H|[]]|[H|[(x & Hx & H)|[H|[H|[H|[]]]]]]]; auto 10.
  destruct (enq cur !! x) as [rec|] eqn:Hr; [|destruct H].
  destruct (enq old !! x) as [prev|] eqn:Hp; [|destruct H].
  apply in_seq in Hx.
  right. right. left. exists x, rec, prev.
  split; [lia|]. split; [exact Hr|]. split; [exact Hp|exact H].
Qed.

(** A row of an enqueue, kthread or redirect_err block carries the drop
    rate computed from a pair of counters of its table. *)
Lemma rate_rows_row mk label ids pre nr_cpus rec prev l :
  (forall i pps drop t,
     mk i pps drop t
     = Printf (pre ++ " %-10.0f %'-18.0f %'-12.0f %f\n")
              (AStr label :: ids i ++
               [ADbl (Double.of_Z pps); ADbl (Double.of_Z pps);
                ADbl (Double.of_Z drop); ADbl t])) ->
  In l (cpu_rows (rate_row mk rec prev) nr_cpus) ->
  row_label l = Some label /\ drop_rate_row rec prev l.
Proof.
  intros Hmk Hl. apply in_rate_rows in Hl.
  destruct Hl as (i & r & p & pps & drop & _ & Hr & Hp & Hpps & Hdrop & ->).
  rewrite Hmk. split; [reflexivity|].
  exists r, p, pps, drop, (AStr label :: ids i), pre.
  split; [right; exists i; auto|]. auto.
Qed.

Lemma total_block_row label nr_cpus rec prev l :
  total_defined nr_cpus rec prev ->
  In l (total_block label nr_cpus rec prev) ->
  row_label l = Some label /\ drop_rate_row rec prev l.
Proof.
  intros (_ & [pps Hpps] & [drop Hdrop]) Hin.
  unfold total_block in Hin. apply in_app_iff in Hin. destruct Hin as [Hin|[<-|[]]].
  - apply (rate_rows_row (line_cpu label) label (fun i => [AInt (Z.of_nat i)])
             "%-15s %-7d" nr_cpus rec prev l); [reflexivity|exact Hin].
  - split; [reflexivity|].
    exists (total rec), (total prev), pps, drop, [AStr label; AStr "total"],
      "%-15s %-7s"%string.
    split; [left; auto|]. split; [exact Hpps|]. split; [exact Hdrop|].
    rewrite (total_pps_some _ _ _ Hpps), (total_drop_some _ _ _ Hdrop).
    split; reflexivity.
Qed.

Lemma enq_block_row nr_cpus to_cpu rec prev l :
  enq_defined nr_cpus rec prev ->
  In l (enq_block nr_cpus to_cpu rec prev) ->
  row_label l = Some "cpumap-enqueue"%string /\ drop_rate_row rec prev l.
Proof.
  intros (_ & [pps Hpps] & Hdrop) Hin.
  unfold enq_block in Hin. apply in_app_iff in Hin. destruct Hin as [Hin|Hin].
  - apply (rate_rows_row (line_enq_cpu to_cpu) "cpumap-enqueue"
             (fun i => [AInt (Z.of_nat i); AInt (Z.of_nat to_cpu)])
             "%-15s %3d:%-3d" nr_cpus rec prev l); [reflexivity|exact Hin].
  - destruct (Z.eqb_spec (total_pps rec prev) 0) as [|Hnz]; [destruct Hin|].
    destruct Hin as [<-|[]]. destruct (Hdrop Hnz) as [drop Hd].
    split; [reflexivity|].
    exists (total rec), (total prev), pps, drop,
      [AStr "cpumap-enqueue"; AStr "sum"; AInt (Z.of_nat to_cpu)],
      "%-15s %3s:%-3d"%string.
    split; [left; auto|]. split; [exact Hpps|]. split; [exact Hd|].
    rewrite (total_pps_some _ _ _ Hpps), (total_drop_some _ _ _ Hd).
    split; reflexivity.
Qed.

(** The report does not depend on the [dropped] counters of the RX table. *)
Lemma rx_block_processed nr_cpus rec prev rec' prev' :
  timestamp rec = timestamp rec' -> timestamp prev = timestamp prev' ->
  processed (total rec) = processed (total rec') ->
  processed (total prev) = processed (total prev') ->
  processed <$> cpu rec = processed <$> cpu rec' ->
  processed <$> cpu prev = processed <$> cpu prev' ->
  rx_block nr_cpus rec prev = rx_block nr_cpus rec' prev' /\
  (rx_defined nr_cpus rec prev -> rx_defined nr_cpus rec' prev').
Proof.
  intros Ht Ht' Hp Hp' Hc Hc'.
  assert (calc_period rec prev = calc_period rec' prev') as Hper.
  { unfold calc_period. rewrite Ht, Ht'. reflexivity. }
  split.
  - unfold rx_block, cpu_rows, total_pps. rewrite Hper.
    rewrite (calc_pps_processed _ _ _ _ _ Hp Hp'). f_equal.
    apply flat_map_ext. intros i.
    rewrite (rx_row_processed rec prev rec' prev' i); auto.
  - intros [Hrows Htot]. split.
    + intros i Hi. rewrite <- (rx_row_processed rec prev rec' prev' i); auto.
    + rewrite <- Hper, <- (calc_pps_processed _ _ _ _ _ Hp Hp'). exact Htot.
Qed.

Lemma rx_dropped_apart_render nr_cpus cur old cur' old' :
  rx_dropped_apart cur cur' -> rx_dropped_apart old old' ->
  render nr_cpus cur old = render nr_cpus cur' old' /\
  (print_defined nr_cpus cur old -> print_defined nr_cpus cur' old').
Proof.
  intros (Ht & Hp & Hc & He & Hk & Hq) (Ht' & Hp' & Hc' & He' & Hk' & Hq').
  destruct (rx_block_processed nr_cpus _ _ _ _ Ht Ht' Hp Hp' Hc Hc') as [Hrx Hdef].
  split.
  - unfold render, enq_blocks. rewrite Hrx, He, He', Hk, Hk', Hq, Hq'. reflexivity.
  - intros (H1 & H2 & H3 & H4). unfold print_defined.
    rewrite <- He, <- He', <- Hk, <- Hk', <- Hq, <- Hq'. auto.
Qed.

(** C10. In every report that [stats_print] prints, each row of the RX
    block, the per-CPU rows and the total row, passes the literal string
    ["(nan)"] for the drop-pps column, which its format prints with
    [%-12s]: the total row is there in every report and the row of a CPU
    whenever its pps is not zero.  The [dropped] counters of the RX table
    are collected and summed like those of every table, but they do not
    reach the report at all.  Each row of the enqueue, kthread and
    redirect_err blocks passes instead the drop rate computed from a pair
    of counters of its table, printed with [%'-12.0f]; the total rows of
    the kthread and redirect_err blocks are there in every report. *)
Theorem rx_block_prints_nan :
  (forall stats_rec stats_prev w cur old,
     heap w !! stats_rec = Some cur -> heap w !! stats_prev = Some old ->
     print_defined (possible_cpus w) cur old ->
     exists out,
       stats_print stats_rec stats_prev w
       = Done tt (set_stdout (stdout w ++ out) w) /\
       let t := calc_period (rx_cnt cur) (rx_cnt old) in
       (forall l,
          In l out -> row_label l = Some "XDP-RX"%string ->
          exists id pps,
            (fmt l = "%-15s %-7d %-10.0f %'-18.0f %-12s %f\n"%string \/
             fmt l = "%-15s %-7s %-10.0f %'-18.0f %-12s %f\n"%string) /\
            args l = [AStr "XDP-RX"; id; ADbl (Double.of_Z pps);
                      ADbl (Double.of_Z pps); AStr "(nan)"; ADbl t]) /\
       (exists pps,
          calc_pps (total (rx_cnt cur)) (total (rx_cnt old)) t = Some pps /\
          In (Printf "%-15s %-7s %-10.0f %'-18.0f %-12s %f\n"
                     [AStr "XDP-RX"; AStr "total"; ADbl (Double.of_Z pps);
                      ADbl (Double.of_Z pps); AStr "(nan)"; ADbl t]) out) /\
       (forall i r p pps,
          (i < possible_cpus w)%nat ->
          cpu (rx_cnt cur) !! i = Some r -> cpu (rx_cnt old) !! i = Some p ->
          calc_pps r p t = Some pps -> pps <> 0 ->
          In (Printf "%-15s %-7d %-10.0f %'-18.0f %-12s %f\n"
                     [AStr "XDP-RX"; AInt (Z.of_nat i); ADbl (Double.of_Z pps);
                      ADbl (Double.of_Z pps); AStr "(nan)"; ADbl t]) out) /\
       (forall l s,
          In l out -> row_label l = Some s ->
          s = "cpumap-enqueue"%string \/ s = "cpumap_kthread"%string \/
          s = "redirect_err"%string ->
          exists fld rec prev,
            fld <> F_rx_cnt /\
            get_field fld cur = Some rec /\ get_field fld old = Some prev /\
            drop_rate_row rec prev l) /\
       (forall fld label,
          (fld = F_kthread /\ label = "cpumap_kthread"%string) \/
          (fld = F_redir_err /\ label = "redirect_err"%string) ->
          exists rec prev pps drop,
            get_field fld cur = Some rec /\ get_field fld old = Some prev /\
            calc_pps (total rec) (total prev) (calc_period rec prev) = Some pps /\
            calc_drop_pps (total rec) (total prev) (calc_period rec prev)
            = Some drop /\
            In (Printf "%-15s %-7s %-10.0f %'-18.0f %'-12.0f %f\n"
                       [AStr label; AStr "total"; ADbl (Double.of_Z pps);
                        ADbl (Double.of_Z pps); ADbl (Double.of_Z drop);
                        ADbl (calc_period rec prev)]) out)) /\
  (forall stats_rec stats_prev w u w',
     stats_print stats_rec stats_prev w = Done u w' ->
     exists cur old,
       heap w !! stats_rec = Some cur /\ heap w !! stats_prev = Some old /\
       print_defined (possible_cpus w) cur old) /\
  (forall stats_rec stats_prev w w2 cur old cur' old' u w',
     heap w !! stats_rec = Some cur -> heap w !! stats_prev = Some old ->
     heap w2 !! stats_rec = Some cur' -> heap w2 !! stats_prev = Some old' ->
     possible_cpus w2 = possible_cpus w ->
     rx_dropped_apart cur cur' -> rx_dropped_apart old old' ->
     stats_print stats_rec stats_prev w = Done u w' ->
     exists out,
       stdout w' = stdout w ++ out /\
       stats_print stats_rec stats_prev w2
       = Done u (set_stdout (stdout w2 ++ out) w2)) /\
  (forall fd key rec w rec' w' values,
     map_lookup w (n_lookups w) fd key = Some values ->
     map_collect_percpu fd key rec w = Done (true, rec') w' ->
     dropped <$> take (possible_cpus w) (cpu rec')
     = dropped <$> take (possible_cpus w) values /\
     dropped (total rec')
     = U64.wrap (sum_list (dropped <$> take (possible_cpus w) values))).
Proof.
  split; [|split; [|split]].
  - intros stats_rec stats_prev w cur old Hcur Hold Hdef.
    exists (render (possible_cpus w) cur old).
    split; [apply stats_print_render; assumption|]. cbv zeta.
    pose proof Hdef as (Hrx & Henq & Hkt & Herr).
    pose proof Hrx as (_ & [tot Htot]).
    assert (forall l, In l (rx_block (possible_cpus w) (rx_cnt cur) (rx_cnt old)) ->
                      In l (render (possible_cpus w) cur old)) as Hrxin.
    { intros l Hl. unfold render. apply in_app_iff. right.
      apply in_app_iff. left. exact Hl. }
    split; [|split; [|split; [|split]]].
    + intros l Hl Hlabel. apply in_render in Hl.
      destruct Hl as [->|[Hl|[(to_cpu & rec & prev & Hto & Hr & Hp & Hl)|[Hl|[Hl| ->]]]]].
      * discriminate.
      * apply in_rx_block in Hl.
        destruct Hl as [(i & r & p & pps & _ & _ & _ & _ & _ & ->)| ->].
        -- exists (AInt (Z.of_nat i)), pps. split; [left|]; reflexivity.
        -- exists (AStr "total"), (total_pps (rx_cnt cur) (rx_cnt old)).
           split; [right|]; reflexivity.
      * destruct (Henq to_cpu Hto) as (rec' & prev' & Hr' & Hp' & He).
        rewrite Hr in Hr'. rewrite Hp in Hp'. injection Hr' as <-. injection Hp' as <-.
        destruct (enq_block_row _ _ _ _ _ He Hl) as [Hlab _]. congruence.
      * destruct (total_block_row _ _ _ _ _ Hkt Hl) as [Hlab _]. congruence.
      * destruct (total_block_row _ _ _ _ _ Herr Hl) as [Hlab _]. congruence.
      * discriminate.
    + exists tot. split; [exact Htot|]. apply Hrxin, in_rx_block. right.
      rewrite (total_pps_some _ _ _ Htot). reflexivity.
    + intros i r p pps Hi Hr Hp Hpps Hnz. apply Hrxin, in_rx_block. left.
      exists i, r, p, pps. auto 10.
    + intros l s Hl Hlabel Hs. apply in_render in Hl.
      destruct Hl as [->|[Hl|[(to_cpu & rec & prev & Hto & Hr & Hp & Hl)|[Hl|[Hl| ->]]]]].
      * injection Hlabel as <-. destruct Hs as [|[|]]; discriminate.
      * apply in_rx_block in Hl.
        destruct Hl as [(i & r & p & pps & _ & _ & _ & _ & _ & ->)| ->];
          injection Hlabel as <-; destruct Hs as [|[|]]; discriminate.
      * destruct (Henq to_cpu Hto) as (rec' & prev' & Hr' & Hp' & He).
        rewrite Hr in Hr'. rewrite Hp in Hp'. injection Hr' as <-. injection Hp' as <-.
        destruct (enq_block_row _ _ _ _ _ He Hl) as [_ Hrow].
        exists (F_enq to_cpu), rec, prev. split; [discriminate|]. auto.
      * destruct (total_block_row _ _ _ _ _ Hkt Hl) as [_ Hrow].
        exists F_kthread, (kthread cur), (kthread old). split; [discriminate|]. auto.
      * destruct (total_block_row _ _ _ _ _ Herr Hl) as [_ Hrow].
        exists F_redir_err, (redir_err cur), (redir_err old).
        split; [discriminate|]. auto.
      * discriminate.
    + intros fld label [[-> ->]|[-> ->]].
      * destruct Hkt as (_ & [pps Hpps] & [drop Hdrop]).
        exists (kthread cur), (kthread old), pps, drop.
        split; [reflexivity|]. split; [reflexivity|].
        split; [exact Hpps|]. split; [exact Hdrop|].
        unfold render, total_block. rewrite !in_app_iff. do 3 right. left. right.
        rewrite (total_pps_some _ _ _ Hpps), (total_drop_some _ _ _ Hdrop).
        left. reflexivity.
      * destruct Herr as (_ & [pps Hpps] & [drop Hdrop]).
        exists (redir_err cur), (redir_err old), pps, drop.
        split; [reflexivity|]. split; [reflexivity|].
        split; [exact Hpps|]. split; [exact Hdrop|].
        unfold render, total_block. rewrite !in_app_iff. do 4 right. left. right.
        rewrite (total_pps_some _ _ _ Hpps), (total_drop_some _ _ _ Hdrop).
        left. reflexivity.
  - exact stats_print_done.
  - intros stats_rec stats_prev w w2 cur old cur' old' u w'
           Hcur Hold Hcur' Hold' Hnr Hc Ho Hrun.
    destruct (stats_print_done _ _ _ _ _ Hrun) as (c & o & Hc0 & Ho0 & Hdef).
    rewrite Hcur in Hc0. rewrite Hold in Ho0. injection Hc0 as <-. injection Ho0 as <-.
    rewrite (stats_print_render _ _ _ _ _ Hcur Hold Hdef) in Hrun.
    injection Hrun as <- <-.
    exists (render (possible_cpus w) cur old). split; [reflexivity|].
    destruct (rx_dropped_apart_render (possible_cpus w) _ _ _ _ Hc Ho) as [Heq Hd].
    rewrite Heq, <- Hnr. apply stats_print_render; try assumption.
    rewrite Hnr. apply Hd, Hdef.
  - intros fd key rec w rec' w' values Hl Hrun.
    apply map_collect_percpu_done in Hrun. rewrite Hl in Hrun.
    destruct Hrun as (_ & _ & _ & _ & Htake & _ & _ & Hsd).
    rewrite Htake. split; [reflexivity|exact Hsd].
Qed.

Lemma scenario1_snapshots_run :
  exists w', stats_print 1%positive 2%positive scenario1_snapshots = Done tt w'.
Proof. eexists. vm_compute. reflexivity. Qed.

Lemma rx_block_prints_nan_witness :
  exists out,
    stats_print 1%positive 2%positive scenario1_snapshots
    = Done tt (set_stdout out scenario1_snapshots) /\
    In (Printf "%-15s %-7d %-10.0f %'-18.0f %-12s %f\n"
               [AStr "XDP-RX"; AInt 1; ADbl (Double.of_Z 50); ADbl (Double.of_Z 50);
                AStr "(nan)"; ADbl (Double.of_Z 1)]) out /\
    In (Printf "%-15s %-7s %-10.0f %'-18.0f %-12s %f\n"
               [AStr "XDP-RX"; AStr "total"; ADbl (Double.of_Z 150);
                ADbl (Double.of_Z 150); AStr "(nan)"; ADbl (Double.of_Z 1)]) out.
Proof.
  destruct scenario1_snapshots_run as [w' Hrun].
  destruct (stats_print_done _ _ _ _ _ Hrun) as (cur & old & Hcur & Hold & Hdef).
  injection Hcur as <-. injection Hold as <-.
  destruct (proj1 rx_block_prints_nan 1%positive 2%positive scenario1_snapshots
              cycle1_stats baseline_stats eq_refl eq_refl Hdef)
    as (out & Hout & _ & (pps & Hpps & Htot) & Hcpu & _).
  exists out. split; [exact Hout|]. split.
  - apply (Hcpu 1%nat (mk_datarec 50 0) (mk_datarec 0 0) 50); try reflexivity.
    + cbn. lia.
    + discriminate.
  - injection Hpps as <-. exact Htot.
Defined.

(** * Confinement of a failed lookup *)

Lemma collect_loop_total values n : forall i cpus0 sp0 sd0 w,
  (i + n <= length values)%nat -> (i + n <= length cpus0)%nat ->
  exists cpus sp sd,
    for_range i n (fun i '(cpus, sum_processed, sum_dropped) =>
        v ← defined (values !! i);
        _ ← defined (cpus !! i);
        let cpus := <[i := mk_datarec (processed v) (dropped v)]> cpus in
        let sum_processed := U64.add sum_processed (processed v) in
        let sum_dropped := U64.add sum_dropped (dropped v) in
        mret (cpus, sum_processed, sum_dropped))
      (cpus0, sp0, sd0) w = Done (cpus, sp, sd) w.
Proof.
  induction n as [|n IH]; intros i cpus0 sp0 sd0 w Hv Hc.
  - eexists _, _, _. reflexivity.
  - destruct (lookup_lt_is_Some_2 values i ltac:(lia)) as [v Hvi].
    destruct (lookup_lt_is_Some_2 cpus0 i ltac:(lia)) as [c Hci].
    rewrite for_range_S.
    edestruct (IH (S i) (<[i := mk_datarec (processed v) (dropped v)]> cpus0)
                 (U64.add sp0 (processed v)) (U64.add sd0 (dropped v)) w)
      as (cpus & sp & sd & H).
    { lia. } { rewrite length_insert. lia. }
    exists cpus, sp, sd.
    erewrite bind_done; [exact H|].
    rewrite Hvi. erewrite bind_done; [|apply defined_some].
    rewrite Hci. erewrite bind_done; [|apply defined_some].
    reflexivity.
Qed.

Lemma quiet_clock_works w w' : quiet w w' -> clock_works w -> clock_works w'.
Proof.
  intros (_&_&_&Hc&_&_&Hle) H n Hn. rewrite Hc. apply H. lia.
Qed.

Lemma quiet_lookups_complete w w' :
  quiet w w' -> lookups_complete w -> lookups_complete w'.
Proof.
  intros (Hcpus&_&Hl&_) H n fd key values Hv. rewrite Hl in Hv. rewrite Hcpus.
  eapply H, Hv.
Qed.

(** [map_collect_percpu] returns on a well-formed record whatever the
    lookup answers, as long as the clock can be read. *)
Lemma map_collect_percpu_total fd key r w :
  wf_record (possible_cpus w) r -> lookups_complete w -> clock_works w ->
  exists b r' w',
    map_collect_percpu fd key r w = Done (b, r') w' /\
    heap w' = heap w /\ quiet w w' /\ n_lookups w' = S (n_lookups w) /\
    stdout w' = stdout w /\ sleeps w' = sleeps w /\
    wf_record (possible_cpus w) r' /\
    match map_lookup w (n_lookups w) fd key with
    | None =>
        b = false /\ r' = r /\
        stderr w' = stderr w ++
                    [Printf "ERR: bpf_map_lookup_elem failed key:0x%X\n" [AInt key]]
    | Some values => b = true /\ collected values r' /\ stderr w' = stderr w
    end.
Proof.
  intros Hwf Hcomplete Hclock.
  pose proof (safe_map_collect_percpu fd key r w) as Hsafe.
  destruct (map_collect_percpu fd key r w) as [[b r'] w'| |] eqn:Hrun.
  - pose proof (map_collect_percpu_done _ _ _ _ _ _ _ Hrun) as Hdone.
    rewrite map_collect_percpu_eq in Hrun. cbv zeta in Hrun.
    exists b, r', w'. split; [reflexivity|].
    destruct (map_lookup w (n_lookups w) fd key) as [values|] eqn:Hl.
    + apply bind_done_inv in Hrun. destruct Hrun as (ts & w2 & Hts & Hrun).
      rewrite gettime_eq in Hts. cbv zeta in Hts.
      destruct (_ <? 0); [discriminate|]. injection Hts as _ Hw2. subst w2.
      apply bind_done_inv in Hrun. destruct Hrun as ([[cpus sp] sd] & w3 & Hloop & Hrun).
      apply collect_loop in Hloop; [|unfold U64.in_range, U64.modulus; lia..].
      destruct Hloop as (-> & _). cbn in Hrun. injection Hrun as _ Hr' Hw'.
      subst r' w'.
      destruct Hdone as (-> & Hnv & Hnc & Hlen & Htake & _ & Hsp & Hsd).
      pose proof (Hcomplete _ _ _ _ Hl) as Hlv. unfold wf_record in *.
      rewrite !take_ge in * by lia.
      repeat split; try assumption; try reflexivity; cbn in *; lia.
    + injection Hrun as Hb Hr' Hw'. subst b r' w'.
      repeat split; try assumption; try reflexivity; cbn; lia.
  - exfalso. destruct Hsafe as (_ & _ & n & Hn & Hres).
    rewrite map_collect_percpu_eq in Hrun. cbv zeta in Hrun.
    destruct (map_lookup w (n_lookups w) fd key) as [values|]; [|discriminate].
    apply bind_exit_inv in Hrun. destruct Hrun as [Hrun|(ts & w2 & Hts & Hrun)].
    + rewrite gettime_eq in Hrun. cbv zeta in Hrun.
      change (clock (set_n_lookups (S (n_lookups w)) w)) with (clock w) in Hrun.
      change (n_clock (set_n_lookups (S (n_lookups w)) w)) with (n_clock w) in Hrun.
      destruct (Z.ltb_spec (clock w (n_clock w)).1.1 0) as [Hlt|]; [|discriminate].
      pose proof (Hclock (n_clock w) ltac:(lia)). lia.
    + pose proof (Hclock n ltac:(lia)). lia.
  - exfalso. rewrite map_collect_percpu_eq in Hrun. cbv zeta in Hrun.
    destruct (map_lookup w (n_lookups w) fd key) as [values|] eqn:Hl; [|discriminate].
    pose proof (Hcomplete _ _ _ _ Hl) as Hlv. unfold wf_record in Hwf.
    unfold mbind at 1, M_bind at 1 in Hrun. rewrite gettime_eq in Hrun. cbv zeta in Hrun.
    destruct (_ <? 0); [discriminate|].
    edestruct (collect_loop_total values (possible_cpus w) 0 (cpu r) 0 0)
      as (cpus & sp & sd & Hloop); [cbn; lia..|].
    erewrite bind_done in Hrun; [|apply Hloop]. discriminate.
Qed.

Lemma get_set_field fld r s :
  is_Some (get_field fld s) -> get_field fld (set_field fld r s) = Some r.
Proof.
  destruct fld as [| | |i]; cbn; try reflexivity.
  intros H. apply list_lookup_insert_eq. apply lookup_lt_is_Some. exact H.
Qed.

Lemma get_set_field_ne fld fld' r s :
  fld <> fld' -> get_field fld' (set_field fld r s) = get_field fld' s.
Proof.
  destruct fld as [| | |i], fld' as [| | |j]; cbn; try reflexivity; try congruence.
  intros H. apply list_lookup_insert_ne. congruence.
Qed.

Lemma set_get_field fld r s : get_field fld s = Some r -> set_field fld r s = s.
Proof.
  destruct s as [a b c e]. destruct fld as [| | |i]; cbn; try (intros [= ->]; reflexivity).
  intros H. rewrite list_insert_id by exact H. reflexivity.
Qed.

Lemma wf_get_field nr_cpus fld s r :
  wf_stats nr_cpus s -> get_field fld s = Some r -> wf_record nr_cpus r.
Proof.
  intros (Hrx & Herr & Hkt & Hlen & Henq).
  destruct fld as [| | |i]; cbn; try (intros [= <-]; assumption).
  intros H. eapply (proj1 (Forall_lookup _ _) Henq). exact H.
Qed.

Lemma wf_set_field nr_cpus fld s r :
  wf_stats nr_cpus s -> wf_record nr_cpus r -> wf_stats nr_cpus (set_field fld r s).
Proof.
  intros (Hrx & Herr & Hkt & Hlen & Henq) Hr.
  destruct fld as [| | |i]; cbn; repeat split; try assumption.
  - cbn. rewrite length_insert. exact Hlen.
  - cbn. apply Forall_insert; assumption.
Qed.

Lemma field_ok_some nr_cpus fld s :
  wf_stats nr_cpus s -> field_ok fld -> is_Some (get_field fld s).
Proof.
  intros (_ & _ & _ & Hlen & _) Hok. destruct fld as [| | |i]; cbn; eauto.
  apply lookup_lt_is_Some. cbn in Hok. lia.
Qed.

Lemma store_eq p s w : store p s w = Done tt (set_heap (<[p := s]> (heap w)) w).
Proof. reflexivity. Qed.

(** One table of [stats_collect]: its record is either collected afresh
    or, when the lookup fails, left as it was; nothing else changes in the
    snapshot. *)
Lemma on_record_collect p fld fd key w s :
  heap w !! p = Some s -> wf_stats (possible_cpus w) s -> field_ok fld ->
  lookups_complete w -> clock_works w ->
  exists b r' w',
    on_record p fld (map_collect_percpu fd key) w = Done b w' /\
    heap w' = <[p := set_field fld r' s]> (heap w) /\
    quiet w w' /\ n_lookups w' = S (n_lookups w) /\
    stdout w' = stdout w /\ sleeps w' = sleeps w /\
    wf_record (possible_cpus w) r' /\
    match map_lookup w (n_lookups w) fd key with
    | None =>
        b = false /\ set_field fld r' s = s /\
        stderr w' = stderr w ++
                    [Printf "ERR: bpf_map_lookup_elem failed key:0x%X\n" [AInt key]]
    | Some values => b = true /\ collected values r' /\ stderr w' = stderr w
    end.
Proof.
  intros Hs Hwf Hok Hcomplete Hclock.
  destruct (field_ok_some _ fld s Hwf Hok) as [r Hr].
  pose proof (wf_get_field _ _ _ _ Hwf Hr) as Hwfr.
  destruct (map_collect_percpu_total fd key r w Hwfr Hcomplete Hclock)
    as (b & r' & w' & Hrun & Hheap & Hq & Hn & Hout & Hsl & Hwfr' & Hcase).
  exists b, r', (set_heap (<[p := set_field fld r' s]> (heap w')) w').
  split.
  { unfold on_record. erewrite bind_done; [|apply load_some, Hs].
    rewrite Hr. erewrite bind_done; [|apply defined_some].
    erewrite bind_done; [|exact Hrun]. reflexivity. }
  split; [cbn; rewrite Hheap; reflexivity|].
  split; [destruct Hq as (?&?&?&?&?&?&?); unfold quiet; cbn; auto 10|].
  repeat (split; [assumption|]).
  destruct (map_lookup w (n_lookups w) fd key).
  - exact Hcase.
  - destruct Hcase as (-> & -> & Herr). repeat split; [|exact Herr].
    apply set_get_field, Hr.
Qed.

Lemma bind_cong {A B} (m : M A) (f g : A -> M B) w :
  (forall a w1, m w = Done a w1 -> f a w1 = g a w1) ->
  (m ≫= f) w = (m ≫= g) w.
Proof.
  intros H. unfold mbind, M_bind. destruct (m w) as [a w1| |]; try reflexivity.
  apply H. reflexivity.
Qed.

Lemma bind_assoc {A B C} (m : M A) (f : A -> M B) (g : B -> M C) w :
  ((m ≫= f) ≫= g) w = (m ≫= (fun a => f a ≫= g)) w.
Proof.
  unfold mbind, M_bind. destruct (m w) as [a w1| |]; reflexivity.
Qed.

Lemma bind_cong2 {A B} (m m' : M A) (f g : A -> M B) w :
  m w = m' w -> (forall a w1, f a w1 = g a w1) ->
  (m ≫= f) w = (m' ≫= g) w.
Proof.
  intros Hm H. unfold mbind, M_bind. rewrite Hm.
  destruct (m' w) as [a w1| |]; try reflexivity. apply H.
Qed.

Lemma collect_tables_app rec fds l1 l2 w :
  collect_tables rec fds (l1 ++ l2) w
  = (collect_tables rec fds l1;; collect_tables rec fds l2) w.
Proof.
  revert w. induction l1 as [|[[fld m] key] l1 IH]; intros w; [reflexivity|].
  cbn [collect_tables app]. rewrite bind_assoc.
  apply bind_cong. intros _ w1 _. apply IH.
Qed.

Lemma for_range_collect rec fds m n : forall i w,
  for_range i n (fun i _ =>
      on_record rec (F_enq i) (map_collect_percpu (fds m) (Z.of_nat i));;
      mret tt) tt w
  = collect_tables rec fds (map (fun i => (F_enq i, m, Z.of_nat i)) (seq i n)) w.
Proof.
  induction n as [|n IH]; intros i w; [reflexivity|].
  rewrite for_range_S. cbn [seq map collect_tables]. rewrite bind_assoc.
  apply bind_cong. intros _ w1 _. apply IH.
Qed.

Lemma stats_collect_tables rec w :
  stats_collect rec w = collect_tables rec (map_fd w) tables w.
Proof.
  unfold stats_collect. erewrite bind_done; [|reflexivity].
  unfold tables. change ([?a; ?b] ++ ?l) with (a :: b :: l).
  cbn [collect_tables].
  apply bind_cong. intros _ w1 _. apply bind_cong. intros _ w2 _.
  rewrite collect_tables_app.
  apply bind_cong2; [apply for_range_collect|].
  intros [] w3. reflexivity.
Qed.

Lemma collect_errors_quiet w w1 l : forall n,
  quiet w w1 -> collect_errors w1 n l = collect_errors w n l.
Proof.
  intros n (_ & Hfd & Hl & _). revert n.
  induction l as [|[[fld m] key] l IH]; intros n; [reflexivity|].
  cbn [collect_errors]. rewrite Hfd, Hl, IH. reflexivity.
Qed.

(** The walk over any list of distinct tables. *)
Lemma collect_tables_spec rec : forall l w s,
  heap w !! rec = Some s -> wf_stats (possible_cpus w) s ->
  lookups_complete w -> clock_works w ->
  NoDup ((fun x => x.1.1) <$> l) -> Forall (fun x => field_ok x.1.1) l ->
  exists w' s',
    collect_tables rec (map_fd w) l w = Done tt w' /\
    heap w' = <[rec := s']> (heap w) /\ wf_stats (possible_cpus w) s' /\
    quiet w w' /\
    n_lookups w' = (n_lookups w + length l)%nat /\
    stdout w' = stdout w /\ sleeps w' = sleeps w /\
    stderr w' = stderr w ++ collect_errors w (n_lookups w) l /\
    (forall fld, fld ∉ (fun x => x.1.1) <$> l -> get_field fld s' = get_field fld s) /\
    (forall j fld m key,
       l !! j = Some (fld, m, key) ->
       match map_lookup w (n_lookups w + j) (map_fd w m) key with
       | None => get_field fld s' = get_field fld s
       | Some values => exists r', get_field fld s' = Some r' /\ collected values r'
       end).
Proof.
  induction l as [|[[fld m] key] l IH]; intros w s Hs Hwf Hcomplete Hclock Hnd Hok.
  - exists w, s. cbn. rewrite app_nil_r, Nat.add_0_r.
    split; [reflexivity|]. split; [symmetry; apply insert_id, Hs|].
    split; [exact Hwf|]. split; [apply quiet_refl|].
    do 5 (split; [reflexivity|]).
    intros j fld m key H. rewrite lookup_nil in H. discriminate.
  - rewrite fmap_cons in Hnd. apply NoDup_cons in Hnd. destruct Hnd as [Hfresh Hnd].
    apply Forall_cons in Hok. destruct Hok as [Hokf Hok]. cbn in Hokf, Hfresh.
    destruct (on_record_collect rec fld (map_fd w m) key w s Hs Hwf Hokf Hcomplete Hclock)
      as (b & r1 & w1 & Hrun & Hheap1 & Hq1 & Hn1 & Hout1 & Hsl1 & Hwfr1 & Hcase).
    pose proof Hq1 as (Hcpus & Hfd & Hlk & _).
    set (s1 := set_field fld r1 s) in *.
    assert (heap w1 !! rec = Some s1) as Hs1 by (rewrite Hheap1; apply lookup_insert_eq).
    assert (wf_stats (possible_cpus w1) s1) as Hwf1.
    { rewrite Hcpus. apply wf_set_field; assumption. }
    destruct (IH w1 s1 Hs1 Hwf1 (quiet_lookups_complete _ _ Hq1 Hcomplete)
                (quiet_clock_works _ _ Hq1 Hclock) Hnd Hok)
      as (w' & s' & Hrun' & Hheap' & Hwf' & Hq' & Hn' & Hout' & Hsl' & Herr' & Hframe & Hent).
    exists w', s'. split.
    { cbn [collect_tables]. erewrite bind_done; [|exact Hrun].
      rewrite <- Hfd. exact Hrun'. }
    split; [rewrite Hheap', Hheap1; apply insert_insert_eq|].
    split; [rewrite <- Hcpus; exact Hwf'|].
    split; [eapply quiet_trans; eassumption|].
    split; [rewrite Hn', Hn1; cbn [length]; lia|].
    split; [congruence|]. split; [congruence|].
    assert (is_Some (get_field fld s)) as Hsome by (eapply field_ok_some; eassumption).
    split.
    { rewrite Herr', (collect_errors_quiet w w1 l _ Hq1), Hn1.
      cbn [collect_errors].
      destruct (map_lookup w (n_lookups w) (map_fd w m) key).
      - destruct Hcase as (_ & _ & ->). rewrite app_nil_l. reflexivity.
      - destruct Hcase as (_ & _ & ->). rewrite <- app_assoc. reflexivity. }
    split.
    { intros fld' Hnot. rewrite fmap_cons in Hnot. apply not_elem_of_cons in Hnot.
      destruct Hnot as [Hne Hnot]. cbn in Hne.
      rewrite (Hframe fld' Hnot). apply get_set_field_ne. congruence. }
    intros [|j] fld' m' key' Hj.
    + simpl in Hj. injection Hj as <- <- <-. rewrite Nat.add_0_r.
      rewrite (Hframe fld Hfresh).
      destruct (map_lookup w (n_lookups w) (map_fd w m) key).
      * destruct Hcase as (_ & Hcol & _). exists r1. split; [|exact Hcol].
        apply get_set_field, Hsome.
      * destruct Hcase as (_ & Hid & _). fold s1 in Hid. rewrite Hid. reflexivity.
    + simpl in Hj. specialize (Hent j fld' m' key' Hj).
      rewrite Hlk, Hfd, Hn1 in Hent.
      replace (n_lookups w + S j)%nat with (S (n_lookups w) + j)%nat by lia.
      assert (fld <> fld') as Hne.
      { intros ->. apply Hfresh. apply list_elem_of_lookup. exists j.
        rewrite list_lookup_fmap, Hj. reflexivity. }
      destruct (map_lookup w (S (n_lookups w) + j) (map_fd w m') key').
      * exact Hent.
      * rewrite Hent. apply get_set_field_ne, Hne.
Qed.

Lemma tables_distinct : NoDup ((fun x : field * nat * Z => x.1.1) <$> tables).
Proof. apply (bool_decide_unpack _). vm_compute. reflexivity. Qed.

Lemma tables_ok : Forall (fun x : field * nat * Z => field_ok x.1.1) tables.
Proof. unfold tables, MAX_CPUS. cbn. repeat constructor; cbn; lia. Qed.

(** C4. A failed lookup is confined to its table.  [map_collect_percpu]
    then returns [false] with the record as it was, after one message on
    [stderr], and without reading the clock.  In a poll iteration on
    well-formed snapshots, with a clock that can be read, [stats_collect]
    returns whatever the fifteen lookups answer: every table whose lookup
    succeeds is collected afresh, every table whose lookup fails keeps its
    record and adds one message to [stderr]; [stats_print] then runs on
    the result, and when it is defined it prints the whole report, after
    which the iteration sleeps and returns for the next one. *)
Theorem lookup_failure_confined :
  (forall fd key rec w,
     map_lookup w (n_lookups w) fd key = None ->
     map_collect_percpu fd key rec w
     = Done (false, rec)
            (set_stderr (stderr w ++
                         [Printf "ERR: bpf_map_lookup_elem failed key:0x%X\n" [AInt key]])
                        (set_n_lookups (S (n_lookups w)) w))) /\
  (forall interval v w s old,
     heap w !! prev_ptr v = Some s -> heap w !! record_ptr v = Some old ->
     record_ptr v <> prev_ptr v ->
     wf_stats (possible_cpus w) s -> lookups_complete w -> clock_works w ->
     exists w1 s1,
       stats_collect (prev_ptr v) w = Done tt w1 /\
       heap w1 = <[prev_ptr v := s1]> (heap w) /\
       n_lookups w1 = (n_lookups w + 15)%nat /\
       stdout w1 = stdout w /\
       stderr w1 = stderr w ++ collect_errors w (n_lookups w) tables /\
       (forall j fld m key,
          tables !! j = Some (fld, m, key) ->
          match map_lookup w (n_lookups w + j) (map_fd w m) key with
          | None => get_field fld s1 = get_field fld s
          | Some values => exists r', get_field fld s1 = Some r' /\ collected values r'
          end) /\
       poll_iteration interval v w
       = (stats_print (prev_ptr v) (record_ptr v);; sleep interval;;
          mret (mk_poll_vars (prev_ptr v) (record_ptr v))) w1 /\
       (print_defined (possible_cpus w) s1 old ->
        poll_iteration interval v w
        = Done (mk_poll_vars (prev_ptr v) (record_ptr v))
               (set_sleeps (sleeps w ++ [to_u32 interval])
                  (set_stdout (stdout w ++ render (possible_cpus w) s1 old) w1)))).
Proof.
  split.
  - intros fd key rec w H. rewrite map_collect_percpu_eq, H. reflexivity.
  - intros interval v w s old Hs Hold Hne Hwf Hcomplete Hclock.
    destruct (collect_tables_spec (prev_ptr v) tables w s Hs Hwf Hcomplete Hclock
                tables_distinct tables_ok)
      as (w1 & s1 & Hrun & Hheap & Hwf1 & Hq & Hn & Hout & Hsl & Herr & _ & Hent).
    rewrite <- stats_collect_tables in Hrun.
    exists w1, s1.
    assert (poll_iteration interval v w
            = (stats_print (prev_ptr v) (record_ptr v);; sleep interval;;
               mret (mk_poll_vars (prev_ptr v) (record_ptr v))) w1) as Hpoll.
    { unfold poll_iteration, swap. erewrite bind_done; [|exact Hrun]. reflexivity. }
    split; [exact Hrun|]. split; [exact Hheap|]. split; [exact Hn|].
    split; [exact Hout|]. split; [exact Herr|]. split; [exact Hent|].
    split; [exact Hpoll|].
    intros Hdef. rewrite Hpoll.
    destruct Hq as (Hcpus & _).
    erewrite bind_done.
    2:{ apply (stats_print_render _ _ _ s1 old).
        - rewrite Hheap. apply lookup_insert_eq.
        - rewrite Hheap, lookup_insert_ne by congruence. exact Hold.
        - rewrite Hcpus. exact Hdef. }
    rewrite Hcpus, Hout. unfold mbind, M_bind, sleep, mret, M_ret.
    change (sleeps (set_stdout ?o w1)) with (sleeps w1). rewrite Hsl. reflexivity.
Qed.

Lemma after_baseline_scenario3 :
  possible_cpus (after_baseline scenario3) = 4%nat /\
  map_lookup (after_baseline scenario3) = scenario3_lookup /\
  clock (after_baseline scenario3) = scenario1_clock /\
  n_lookups (after_baseline scenario3) = 15%nat /\
  heap (after_baseline scenario3) !! 1%positive = Some baseline_stats /\
  heap (after_baseline scenario3) !! 2%positive = Some (fresh_stats 4).
Proof. vm_compute. repeat split. Qed.

Lemma lookup_failure_confined_witness :
  exists w1 s1,
    stats_collect 2%positive (after_baseline scenario3) = Done tt w1 /\
    heap w1 !! 2%positive = Some s1 /\
    get_field (F_enq 5) s1 = Some (fresh_record 4) /\
    (exists r', get_field F_rx_cnt s1 = Some r' /\
                collected (counters [200; 50; 0; 0]) r') /\
    stderr w1 = [Printf "ERR: bpf_map_lookup_elem failed key:0x%X\n" [AInt 5]] /\
    exists w2,
      poll_iteration 2 (mk_poll_vars 1%positive 2%positive) (after_baseline scenario3)
      = Done (mk_poll_vars 2%positive 1%positive) w2.
Proof.
  destruct after_baseline_scenario3 as (Hcpus & Hlk & Hclk & Hn & H1 & H2).
  destruct (proj2 lookup_failure_confined 2 (mk_poll_vars 1%positive 2%positive)
              (after_baseline scenario3) (fresh_stats 4) baseline_stats)
    as (w1 & s1 & Hrun & Hheap & _ & _ & Herr & Hent & _).
  - exact H2.
  - exact H1.
  - discriminate.
  - rewrite Hcpus. unfold wf_stats, wf_record. repeat split. repeat constructor.
  - intros n fd key values. rewrite Hlk, Hcpus. unfold scenario3_lookup, scenario1_lookup.
    destruct (n =? 22)%nat; [discriminate|].
    destruct (n =? 0)%nat; [intros [= <-]; reflexivity|].
    destruct (n =? 15)%nat; intros [= <-]; reflexivity.
  - intros n _. rewrite Hclk. unfold scenario1_clock. destruct (n <? 15)%nat; cbn; lia.
  - exists w1, s1. split; [exact Hrun|].
    split; [rewrite Hheap; apply lookup_insert_eq|].
    split.
    { specialize (Hent 7%nat (F_enq 5) 3%nat 5 eq_refl).
      rewrite Hlk, Hn in Hent. exact Hent. }
    split.
    { specialize (Hent 0%nat F_rx_cnt 1%nat 0 eq_refl).
      rewrite Hlk, Hn in Hent. exact Hent. }
    split.
    { rewrite Herr. rewrite Hn. unfold tables. cbn [collect_errors app map seq MAX_CPUS].
      rewrite Hlk. vm_compute. reflexivity. }
    eexists. vm_compute. reflexivity.
Defined.

(** * The rates: exactness, range and definedness *)

Section Exact.

(** A real on the grid of its own last place rounds to itself. *)
Lemma rounds_exact K M E :
  rounds (IZR K * bpow E) M E -> M = K.
Proof.
  intros [_ [[Hlo Hhi] _]]. pose proof (bpow_pos E) as Hb.
  assert (IZR M - / 2 <= IZR K)%R as H1 by nra.
  assert (IZR K <= IZR M + / 2)%R as H2 by nra.
  assert (IZR (2 * M - 1) <= IZR (2 * K))%R as H3.
  { rewrite minus_IZR, !mult_IZR. lra. }
  assert (IZR (2 * K) <= IZR (2 * M + 1))%R as H4.
  { rewrite plus_IZR, !mult_IZR. lra. }
  apply le_IZR in H3, H4. lia.
Qed.

(** The last place of a real in [[1, 2^53)] is at or below the units. *)
Lemma canonical_exp_int x E :
  (1 <= x < IZR (2 ^ 53))%R -> canonical_exp x E -> -52 <= E <= 0.
Proof.
  intros [Hlo Hhi] [[-> Hs]|[Hn [Hl Hu]]].
  - exfalso. change (emin Double.prec Double.emax + Double.prec) with (-1021) in Hs.
    assert (bpow (-1021) < bpow 0)%R as Hb by (apply bpow_lt; lia).
    rewrite bpow_0 in Hb. lra.
  - change Double.prec with 53 in Hl, Hu.
    rewrite <- (bpow_IZR 53) in Hhi by lia. rewrite <- bpow_0 in Hlo.
    assert (bpow (E + 53 - 1) < bpow 53)%R as H1 by lra.
    assert (bpow 0 < bpow (E + 53))%R as H2 by lra.
    apply bpow_lt_inv in H1, H2. lia.
Qed.

Lemma bpow_neg_IZR E : E <= 0 -> (IZR (2 ^ (- E)) * bpow E = 1)%R.
Proof.
  intros HE. rewrite <- bpow_IZR by lia. rewrite <- bpow_add.
  replace (- E + E) with 0 by lia. apply bpow_0.
Qed.

(** Integers below [2^53] are binary64 numbers. *)
Lemma rounds_int z M E :
  0 < z < 2 ^ 53 -> rounds (IZR z) M E ->
  (IZR M * bpow E = IZR z)%R /\ -52 <= E <= 0 /\ 0 < M.
Proof.
  intros Hz Hr.
  assert (1 <= IZR z < IZR (2 ^ 53))%R as Hx by (split; [apply IZR_le|apply IZR_lt]; lia).
  pose proof (canonical_exp_int _ _ Hx (proj1 Hr)) as HE.
  pose proof (bpow_neg_IZR E ltac:(lia)) as Hone.
  assert (IZR z = IZR (z * 2 ^ (- E)) * bpow E)%R as Hgrid.
  { rewrite mult_IZR, Rmult_assoc, Hone. lra. }
  rewrite Hgrid in Hr. apply rounds_exact in Hr. subst M.
  split; [symmetry; exact Hgrid|]. split; [exact HE|].
  apply Z.mul_pos_pos; [lia|]. apply Z.pow_pos_nonneg; lia.
Qed.

Lemma of_Z_exact z :
  0 < z < 2 ^ 53 ->
  exists m e, Double.of_Z z = S754_finite false m e /\
              (IZR (Z.pos m) * bpow e = IZR z)%R.
Proof.
  intros Hz.
  destruct (of_Z_u64 z) as (M & E & m & e & Hr & Hf & Hv).
  { unfold U64.modulus. lia. }
  exists m, e. split; [exact Hf|].
  rewrite Hv. apply (rounds_int z M E Hz Hr).
Qed.

(** A quotient that is an integer below [2^53] is computed exactly. *)
Lemma div_exact mx ex my ey k :
  0 < k < 2 ^ 53 ->
  (IZR (Z.pos mx) * bpow ex = IZR k * (IZR (Z.pos my) * bpow ey))%R ->
  exists m e, Double.div (S754_finite false mx ex) (S754_finite false my ey)
              = S754_finite false m e /\
              (IZR (Z.pos m) * bpow e = IZR k)%R.
Proof.
  intros Hk Hv.
  destruct (div_rounds mx ex my ey) as (M & E & Hd & Hr).
  pose proof (bpow_pos ey) as Hb.
  assert (0 < IZR (Z.pos my))%R as Hmy by (apply IZR_lt; lia).
  assert (IZR (Z.pos mx) * bpow ex / (IZR (Z.pos my) * bpow ey) = IZR k)%R as Hq.
  { rewrite Hv. field. split; lra. }
  rewrite Hq in Hr.
  destruct (rounds_int k M E Hk Hr) as (Hval & HE & HM).
  assert (0 < IZR k)%R as Hkr by (apply IZR_lt; lia).
  destruct (rounds_bounds _ _ _ Hkr Hr) as [HM' _].
  destruct (finish_finite M E ltac:(lia) ltac:(lia)) as (m & e & Hfin & Hve).
  exists m, e. rewrite Hd. split; [exact Hfin|]. rewrite Hve. exact Hval.
Qed.

End Exact.

Section WholeSeconds.

(** Rounding a quotient of integers below [2^53] never reaches the next
    integer: its integer part is the integer quotient. *)
Lemma rounds_quotient delta k M E :
  0 < delta < 2 ^ 53 -> 0 < k < 2 ^ 53 ->
  rounds (IZR delta / IZR k) M E ->
  Z.shiftl M E = delta / k /\ E <= 0.
Proof.
  intros Hd Hk [Hc [[Hlo Hhi] _]].
  pose proof (bpow_pos E) as HbE.
  assert (0 < IZR k)%R as Hkr by (apply IZR_lt; lia).
  assert (0 < IZR delta)%R as Hdr by (apply IZR_lt; lia).
  assert (IZR delta < IZR (2 ^ 53))%R as Hd53 by (apply IZR_lt; lia).
  assert (IZR k < IZR (2 ^ 53))%R as Hk53 by (apply IZR_lt; lia).
  set (x := (IZR delta / IZR k)%R) in *.
  assert (x * IZR k = IZR delta)%R as Hx by (unfold x; field; lra).
  assert (0 < x)%R as Hxpos by (unfold x; apply Rdiv_lt_0_compat; lra).
  (* the last place of the quotient *)
  assert (E <= 0 /\ (IZR k * bpow E < 2)%R) as [HE Hulp].
  { destruct Hc as [[-> _]|[_ [Hl _]]].
    - change (emin Double.prec Double.emax) with (-1074). split; [lia|].
      assert (bpow (-1074) <= bpow (-53))%R as Hb by (apply bpow_le; lia).
      assert (IZR (2 ^ 53) * bpow (-53) = 1)%R as H1 by (apply (bpow_neg_IZR (-53)); lia).
      pose proof (bpow_pos (-1074)). nra.
    - change Double.prec with 53 in Hl. rewrite bpow_52 in Hl.
      assert (0 < IZR (2 ^ 52))%R as H52 by (apply IZR_lt; lia).
      assert (IZR (2 ^ 53) = 2 * IZR (2 ^ 52))%R as H53.
      { rewrite <- mult_IZR. reflexivity. }
      split.
      + assert (1 <= IZR k)%R as Hk1 by (apply IZR_le; lia).
        assert (bpow E < bpow 1)%R as Hb by (rewrite bpow_1; nra).
        apply bpow_lt_inv in Hb. lia.
      + assert (IZR k * (IZR (2 ^ 52) * bpow E) <= IZR delta)%R as H by nra.
        nra. }
  pose proof (Z.div_mod delta k ltac:(lia)) as Hdm.
  pose proof (Z.mod_pos_bound delta k ltac:(lia)) as Hr.
  set (n := delta / k) in *. set (r := delta mod k) in *.
  assert (0 <= n) as Hn by (apply Z.div_pos; lia).
  assert (IZR delta = IZR k * IZR n + IZR r)%R as Hdmr.
  { rewrite <- mult_IZR, <- plus_IZR. f_equal. exact Hdm. }
  assert (0 <= IZR r)%R as Hr0 by (apply IZR_le; lia).
  assert (IZR r + 1 <= IZR k)%R as Hr1.
  { rewrite <- plus_IZR. apply IZR_le. lia. }
  split; [|exact HE].
  assert (IZR n <= IZR M * bpow E)%R as Hge.
  { pose proof (bpow_neg_IZR E HE) as Hone.
    assert (IZR n <= x)%R as Hnx by nra.
    assert (IZR (n * 2 ^ (- E)) <= IZR M + / 2)%R as HN.
    { rewrite mult_IZR.
      assert (0 < IZR (2 ^ (- E)))%R as Hp.
      { apply IZR_lt. apply Z.pow_pos_nonneg; lia. }
      nra. }
    assert (IZR (2 * (n * 2 ^ (- E))) <= IZR (2 * M + 1))%R as HN'.
    { rewrite plus_IZR, !(mult_IZR 2). lra. }
    apply le_IZR in HN'.
    assert (n * 2 ^ (- E) <= M) as HNM by lia.
    apply IZR_le in HNM. rewrite mult_IZR in HNM.
    assert (0 < IZR (2 ^ (- E)))%R as Hp.
    { apply IZR_lt. apply Z.pow_pos_nonneg; lia. }
    nra. }
  assert (IZR M * bpow E < IZR (n + 1))%R as Hlt.
  { rewrite plus_IZR. nra. }
  apply Z.le_antisymm.
  - destruct (Z_le_gt_dec (Z.shiftl M E) n) as [|Hgt]; [assumption|exfalso].
    assert (n + 1 <= Z.shiftl M E) as H by lia.
    apply shiftl_floor in H. lra.
  - apply shiftl_floor. exact Hge.
Qed.

Lemma period_whole_seconds rec prev k :
  U64.sub (timestamp rec) (timestamp prev) = k * NANOSEC_PER_SEC ->
  0 < k -> k * NANOSEC_PER_SEC < 2 ^ 53 ->
  exists m e, calc_period rec prev = S754_finite false m e /\
              (IZR (Z.pos m) * bpow e = IZR k)%R.
Proof.
  intros Hts Hk Hlt. unfold calc_period. rewrite Hts.
  unfold NANOSEC_PER_SEC in *.
  destruct (Z.ltb_spec 0 (k * 1000000000)) as [_|]; [|lia].
  destruct (of_Z_exact (k * 1000000000) ltac:(lia)) as (m1 & e1 & -> & Hv1).
  destruct (of_Z_exact 1000000000 ltac:(lia)) as (m2 & e2 & -> & Hv2).
  apply (div_exact m1 e1 m2 e2 k); [lia|].
  rewrite Hv1, Hv2, mult_IZR. reflexivity.
Qed.

Lemma rate_whole_seconds delta m e k :
  0 <= delta < 2 ^ 53 -> 0 < k < 2 ^ 53 ->
  (IZR (Z.pos m) * bpow e = IZR k)%R ->
  Double.to_u64 (Double.div (Double.of_Z delta) (S754_finite false m e))
  = Some (delta / k).
Proof.
  intros Hd Hk Hv. destruct (Z.eq_dec delta 0) as [->|Hnz].
  { rewrite Z.div_0_l by lia. reflexivity. }
  destruct (of_Z_exact delta ltac:(lia)) as (md & ed & -> & Hvd).
  destruct (div_rounds md ed m e) as (M & E & -> & Hr).
  rewrite Hvd, Hv in Hr.
  destruct (rounds_quotient delta k M E ltac:(lia) Hk Hr) as [Hsh HE].
  assert (0 < IZR delta / IZR k)%R as Hq.
  { apply Rdiv_lt_0_compat; apply IZR_lt; lia. }
  destruct (rounds_bounds _ _ _ Hq Hr) as [HM HEmin].
  rewrite to_u64_finish by lia. rewrite Hsh.
  assert (0 <= delta / k < 2 ^ 53) as Hn.
  { split; [apply Z.div_pos; lia|].
    apply Z.le_lt_trans with delta; [|lia]. apply Z.div_le_upper_bound; nia. }
  destruct (Z.eqb_spec M 0) as [->|_].
  { rewrite Z.shiftl_0_l in Hsh. rewrite <- Hsh. reflexivity. }
  destruct (Z.leb_spec (if M =? 2 ^ 53 then E + 1 else E) 971) as [_|Hgt];
    [|destruct (M =? 2 ^ 53); lia].
  destruct (Z.ltb_spec (delta / k) U64.modulus) as [_|Hge]; [reflexivity|].
  unfold U64.modulus in Hge. lia.
Qed.

End WholeSeconds.

(** X3.  When the two snapshots are a whole number [k >= 1] of seconds
    apart ([k * 10^9 < 2^53]) and the wrapped difference of the counters
    is below [2^53], [calc_pps] and [calc_drop_pps] return exactly the
    integer quotient of that difference by [k]: the double arithmetic
    loses nothing. *)
Theorem pps_exact_whole_seconds rec prev r p k :
  U64.sub (timestamp rec) (timestamp prev) = k * NANOSEC_PER_SEC ->
  0 < k -> k * NANOSEC_PER_SEC < 2 ^ 53 ->
  (U64.sub (processed r) (processed p) < 2 ^ 53 ->
   calc_pps r p (calc_period rec prev)
   = Some (U64.sub (processed r) (processed p) / k)) /\
  (U64.sub (dropped r) (dropped p) < 2 ^ 53 ->
   calc_drop_pps r p (calc_period rec prev)
   = Some (U64.sub (dropped r) (dropped p) / k)).
Proof.
  intros Hts Hk Hlt.
  destruct (period_whole_seconds rec prev k Hts Hk Hlt) as (m & e & -> & Hv).
  assert (0 < k < 2 ^ 53) as Hk' by (unfold NANOSEC_PER_SEC in Hlt; lia).
  split; intros Hd.
  - unfold calc_pps. cbn [Double.ltb Double.zero SFltb SFcompare].
    apply rate_whole_seconds; [|exact Hk'|exact Hv].
    pose proof (u64_sub_range (processed r) (processed p)). lia.
  - unfold calc_drop_pps. cbn [Double.ltb Double.zero SFltb SFcompare].
    apply rate_whole_seconds; [|exact Hk'|exact Hv].
    pose proof (u64_sub_range (dropped r) (dropped p)). lia.
Qed.

Lemma pps_exact_whole_seconds_witness :
  calc_pps (mk_datarec 7 0) (mk_datarec 0 0)
           (calc_period (mk_record 2000000000 zero_datarec []) (mk_record 0 zero_datarec []))
  = Some 3.
Proof.
  apply (proj1 (pps_exact_whole_seconds (mk_record 2000000000 zero_datarec [])
                  (mk_record 0 zero_datarec []) (mk_datarec 7 0) (mk_datarec 0 0) 2
                  eq_refl ltac:(lia) ltac:(reflexivity))).
  reflexivity.
Defined.

Section Range.

(** A real on a grid coarser than its last place rounds to itself. *)
Lemma rounds_grid K e0 M E :
  E <= e0 -> rounds (IZR K * bpow e0) M E ->
  (IZR M * bpow E = IZR K * bpow e0)%R.
Proof.
  intros HE Hr.
  assert (IZR K * bpow e0 = IZR (K * 2 ^ (e0 - E)) * bpow E)%R as Hgrid.
  { rewrite mult_IZR, <- bpow_IZR by lia. rewrite Rmult_assoc, <- bpow_add.
    replace (e0 - E + E) with e0 by lia. reflexivity. }
  rewrite Hgrid in Hr |- *. apply rounds_exact in Hr. subst M. reflexivity.
Qed.

Lemma rounds_one M E : rounds 1 M E -> (IZR M * bpow E = 1)%R.
Proof.
  intros Hr. apply (rounds_int 1 M E ltac:(lia) Hr).
Qed.

Lemma rounds_modulus M E :
  rounds (IZR U64.modulus) M E -> (IZR M * bpow E = IZR U64.modulus)%R.
Proof.
  intros Hr.
  assert (IZR U64.modulus = IZR 1 * bpow 64)%R as H64.
  { rewrite (bpow_IZR 64) by lia. unfold U64.modulus. lra. }
  assert (E <= 64) as HE.
  { destruct Hr as [[[-> _]|[_ [Hl _]]] _].
    - change (emin Double.prec Double.emax) with (-1074). lia.
    - change Double.prec with 53 in Hl. rewrite H64, Rmult_1_l in Hl.
      apply bpow_le_inv in Hl. lia. }
  rewrite H64 in Hr |- *. apply rounds_grid; assumption.
Qed.

(** A [__u64] within 1024 of [2^64] converts to the double [2^64]. *)
Lemma rounds_near_modulus z M E :
  U64.modulus - 1024 <= z < U64.modulus -> rounds (IZR z) M E ->
  (IZR M * bpow E = IZR U64.modulus)%R.
Proof.
  unfold U64.modulus. intros Hz Hr.
  assert (0 < IZR z)%R as Hx by (apply IZR_lt; lia).
  destruct (rounds_bounds _ _ _ Hx Hr) as [HM _].
  assert (E = 11) as ->.
  { destruct Hr as [[[_ Hs]|[_ [Hl Hu]]] _].
    - exfalso. change (emin Double.prec Double.emax + Double.prec) with (-1021) in Hs.
      assert (bpow (-1021) < bpow 0)%R as Hb by (apply bpow_lt; lia).
      rewrite bpow_0 in Hb. assert (1 <= IZR z)%R by (apply IZR_le; lia). lra.
    - change Double.prec with 53 in Hl, Hu.
      assert (IZR z < bpow 64)%R as H1.
      { rewrite (bpow_IZR 64) by lia. apply IZR_lt. lia. }
      assert (bpow 63 <= IZR z)%R as H2.
      { rewrite (bpow_IZR 63) by lia. apply IZR_le. lia. }
      assert (bpow (E + 53 - 1) < bpow 64)%R as H3 by lra.
      assert (bpow 63 < bpow (E + 53))%R as H4 by lra.
      apply bpow_lt_inv in H3, H4. lia. }
  destruct Hr as [_ [[Hlo Hhi] Heven]].
  rewrite (bpow_IZR 11) in * by lia.
  assert (IZR (2 * z) <= IZR ((2 * M + 1) * 2 ^ 11))%R as H1.
  { rewrite !mult_IZR, plus_IZR, mult_IZR. lra. }
  apply le_IZR in H1.
  assert (M = 2 ^ 53) as ->.
  { destruct (Z.eq_dec M (2 ^ 53 - 1)) as [->|]; [|lia].
    assert (z = 2 ^ 64 - 1024) as -> by lia.
    discriminate Heven. right.
    change (2 ^ 64 - 1024) with ((2 * (2 ^ 53 - 1) + 1) * 2 ^ 10).
    change (2 ^ 11) with (2 * 2 ^ 10).
    rewrite !mult_IZR, plus_IZR, mult_IZR. lra. }
  rewrite <- mult_IZR. reflexivity.
Qed.

End Range.

Section Period.

(** The double a positive [__u64] converts to lies in [[1, 2^64]]. *)
Lemma of_Z_u64_bounds z :
  0 < z < U64.modulus ->
  exists m e, Double.of_Z z = S754_finite false m e /\
    (1 <= IZR (Z.pos m) * bpow e <= IZR U64.modulus)%R /\
    exists M E, rounds (IZR z) M E /\ (IZR (Z.pos m) * bpow e = IZR M * bpow E)%R.
Proof.
  intros Hz.
  destruct (of_Z_u64 z Hz) as (M & E & m & e & Hr & Hf & Hv).
  exists m, e. split; [exact Hf|]. split; [|eauto].
  destruct (of_Z_rounds 1 ltac:(lia)) as (M1 & E1 & _ & Hr1).
  destruct (of_Z_rounds U64.modulus ltac:(reflexivity)) as (M2 & E2 & _ & Hr2).
  pose proof (rounds_one _ _ Hr1) as H1. pose proof (rounds_modulus _ _ Hr2) as H2.
  assert (1 <= IZR z)%R as Hz1 by (apply IZR_le; lia).
  assert (IZR z <= IZR U64.modulus)%R as Hz2 by (apply IZR_le; lia).
  destruct (rounds_mono 1 (IZR z) M1 E1 M E ltac:(lra) Hz1 Hr1 Hr) as [_ Hlo].
  destruct (rounds_mono (IZR z) (IZR U64.modulus) M E M2 E2 ltac:(lra) Hz2 Hr Hr2)
    as [_ Hhi].
  rewrite Hv. lra.
Qed.

(** A quotient of positive finite doubles between [2^-1021] and [2^1023]
    is a positive finite double. *)
Lemma div_finite mx ex my ey :
  (bpow (-1021) <= IZR (Z.pos mx) * bpow ex / (IZR (Z.pos my) * bpow ey) < bpow 1023)%R ->
  exists m e M E,
    Double.div (S754_finite false mx ex) (S754_finite false my ey)
    = S754_finite false m e /\
    rounds (IZR (Z.pos mx) * bpow ex / (IZR (Z.pos my) * bpow ey)) M E /\
    (IZR (Z.pos m) * bpow e = IZR M * bpow E)%R.
Proof.
  intros [Hlo Hhi].
  destruct (div_rounds mx ex my ey) as (M & E & Hd & Hr).
  set (q := (IZR (Z.pos mx) * bpow ex / (IZR (Z.pos my) * bpow ey))%R) in *.
  assert (0 < q)%R as Hq by (pose proof (bpow_pos (-1021)); lra).
  destruct (rounds_bounds _ _ _ Hq Hr) as [HM HE].
  assert (-1074 < E <= 970) as HE'.
  { destruct (proj1 Hr) as [[_ Hs]|[Hn [Hl _]]].
    - change (emin Double.prec Double.emax + Double.prec) with (-1021) in Hs. lra.
    - change (emin Double.prec Double.emax) with (-1074) in Hn.
      change Double.prec with 53 in Hl.
      assert (bpow (E + 53 - 1) < bpow 1023)%R as Hb by lra.
      apply bpow_lt_inv in Hb. lia. }
  pose proof (rounds_normal _ _ _ Hr ltac:(lia)) as HMn.
  destruct (finish_finite M E ltac:(lia) ltac:(lia)) as (m & e & Hfin & Hv).
  exists m, e, M, E. rewrite Hd. auto.
Qed.

Lemma of_Z_nanosec :
  exists m e, Double.of_Z NANOSEC_PER_SEC = S754_finite false m e /\
              (IZR (Z.pos m) * bpow e = IZR NANOSEC_PER_SEC)%R.
Proof. apply of_Z_exact. unfold NANOSEC_PER_SEC. lia. Qed.

(** The period of two timestamps that differ is a positive finite double. *)
Lemma period_finite d :
  0 < d < U64.modulus ->
  exists m e M E vd,
    Double.div (Double.of_Z d) (Double.of_Z NANOSEC_PER_SEC) = S754_finite false m e /\
    (1 <= vd <= IZR U64.modulus)%R /\
    (exists Md Ed, rounds (IZR d) Md Ed /\ vd = IZR Md * bpow Ed)%R /\
    rounds (vd / IZR NANOSEC_PER_SEC) M E /\
    (IZR (Z.pos m) * bpow e = IZR M * bpow E)%R.
Proof.
  intros Hd.
  destruct (of_Z_u64_bounds d Hd) as (md & ed & -> & Hb & Md & Ed & Hrd & Hvd).
  destruct of_Z_nanosec as (mn & en & -> & Hvn).
  assert (0 < IZR NANOSEC_PER_SEC < bpow 30)%R as Hn.
  { rewrite (bpow_IZR 30) by lia. split; apply IZR_lt; reflexivity. }
  destruct (div_finite md ed mn en) as (m & e & M & E & Hdiv & Hr & Hv).
  { rewrite Hvn. split.
    - apply Rle_trans with (bpow (-30)); [apply bpow_le; lia|].
      apply Rle_trans with (1 / IZR NANOSEC_PER_SEC)%R.
      + unfold Rdiv. rewrite Rmult_1_l. 
        assert (bpow (-30) * bpow 30 = 1)%R as H1.
        { rewrite <- bpow_add. apply bpow_0. }
        apply Rmult_le_reg_r with (IZR NANOSEC_PER_SEC); [lra|].
        rewrite Rinv_l by lra. pose proof (bpow_pos (-30)). nra.
      + unfold Rdiv. apply Rmult_le_compat_r; [|lra].
        apply Rlt_le, Rinv_0_lt_compat. lra.
    - apply Rle_lt_trans with (IZR U64.modulus / 1)%R.
      + unfold Rdiv. apply Rmult_le_compat; try lra.
        * apply Rlt_le, Rinv_0_lt_compat. lra.
        * apply Rinv_le_contravar; [lra|].
          change 1%R with (IZR 1). apply IZR_le. unfold NANOSEC_PER_SEC. lia.
      + unfold Rdiv. rewrite Rinv_1, Rmult_1_r.
        unfold U64.modulus. rewrite <- (bpow_IZR 64) by lia. apply bpow_lt. lia. }
  exists m, e, M, E, (IZR (Z.pos md) * bpow ed)%R.
  rewrite Hvn in Hr. split; [exact Hdiv|]. split; [exact Hb|].
  split; [exists Md, Ed; split; assumption|]. split; assumption.
Qed.

End Period.

(** X2.  [calc_period] is [0.0] when the wrapped difference of the two
    timestamps is [0] and a positive finite double (no infinity, no NaN)
    otherwise: the test [period_ > 0] of [calc_pps] and [calc_drop_pps]
    passes exactly when the timestamps, as [__u64] values, differ. *)
Theorem period_positive_iff_stamps_differ r p :
  (U64.sub (timestamp r) (timestamp p) = 0 -> calc_period r p = Double.zero) /\
  (U64.sub (timestamp r) (timestamp p) <> 0 ->
   exists m e, calc_period r p = S754_finite false m e) /\
  Double.ltb Double.zero (calc_period r p)
  = negb (U64.sub (timestamp r) (timestamp p) =? 0) /\
  (U64.in_range (timestamp r) -> U64.in_range (timestamp p) ->
   (Double.ltb Double.zero (calc_period r p) = true <-> timestamp r <> timestamp p)).
Proof.
  pose proof (u64_sub_range (timestamp r) (timestamp p)) as Hrange.
  assert (U64.sub (timestamp r) (timestamp p) <> 0 ->
          exists m e, calc_period r p = S754_finite false m e) as Hpos.
  { intros Hnz. unfold calc_period.
    destruct (Z.ltb_spec 0 (U64.sub (timestamp r) (timestamp p))) as [Hlt|]; [|lia].
    destruct (period_finite _ (conj Hlt (proj2 Hrange))) as (m & e & _ & _ & _ & -> & _).
    eauto. }
  assert (Double.ltb Double.zero (calc_period r p)
          = negb (U64.sub (timestamp r) (timestamp p) =? 0)) as Hltb.
  { destruct (Z.eqb_spec (U64.sub (timestamp r) (timestamp p)) 0) as [Hz|Hnz].
    - unfold calc_period. rewrite Hz. reflexivity.
    - destruct (Hpos Hnz) as (m & e & ->). reflexivity. }
  split; [|split; [exact Hpos|split; [exact Hltb|]]].
  - intros Hz. unfold calc_period. rewrite Hz. reflexivity.
  - intros Hr Hp. rewrite Hltb.
    assert (U64.sub (timestamp r) (timestamp p) = 0 <-> timestamp r = timestamp p) as Hiff.
    { unfold U64.sub, U64.wrap, U64.in_range, U64.modulus in *. split.
      - intros H0.
        destruct (Z_le_gt_dec (timestamp p) (timestamp r)).
        + rewrite Z.mod_small in H0 by lia. lia.
        + replace (timestamp r - timestamp p)
            with (timestamp r - timestamp p + 2 ^ 64 + (-1) * 2 ^ 64) in H0 by lia.
          rewrite Z.mod_add in H0 by lia. rewrite Z.mod_small in H0 by lia. lia.
      - intros ->. rewrite Z.sub_diag. reflexivity. }
    destruct (Z.eqb_spec (U64.sub (timestamp r) (timestamp p)) 0) as [Hz|Hnz]; cbn.
    + split; [discriminate|]. intros Hne. exfalso. apply Hne, Hiff, Hz.
    + split; [|reflexivity]. intros _ Heq. apply Hnz, Hiff, Heq.
Qed.

Lemma period_positive_iff_stamps_differ_witness :
  Double.ltb Double.zero
             (calc_period (mk_record 5 (mk_datarec 0 0) [])
                          (mk_record 3 (mk_datarec 0 0) [])) = true.
Proof.
  apply (proj2 (proj2 (proj2 (period_positive_iff_stamps_differ
                                (mk_record 5 (mk_datarec 0 0) [])
                                (mk_record 3 (mk_datarec 0 0) []))))).
  - unfold U64.in_range, U64.modulus. cbn. lia.
  - unfold U64.in_range, U64.modulus. cbn. lia.
  - cbn. lia.
Defined.

(** With a period of at most one second, a count of at least
    [2^64 - 1024] gives a quotient of at least [2^64]. *)
Lemma rate_undefined_near_wrap rec prev delta :
  0 < U64.sub (timestamp rec) (timestamp prev) <= NANOSEC_PER_SEC ->
  U64.modulus - 1024 <= delta < U64.modulus ->
  (if Double.ltb Double.zero (calc_period rec prev)
   then Double.to_u64 (Double.div (Double.of_Z delta) (calc_period rec prev))
   else Some 0) = None.
Proof.
  intros Hd Hdelta. unfold calc_period.
  set (d := U64.sub (timestamp rec) (timestamp prev)) in *.
  destruct (Z.ltb_spec 0 d) as [_|]; [|lia].
  assert (0 < d < U64.modulus) as Hd64.
  { unfold U64.modulus, NANOSEC_PER_SEC in *. lia. }
  destruct (period_finite d Hd64)
    as (m & e & Mt & Et & vd & -> & _ & (Md & Ed & Hrd & ->) & Hrt & Hvt).
  cbn [Double.ltb Double.zero SFltb SFcompare].
  assert (0 < d < 2 ^ 53) as Hd53 by (unfold NANOSEC_PER_SEC in *; lia).
  destruct (rounds_int d Md Ed Hd53 Hrd) as (Hvd & _ & _).
  rewrite Hvd in Hrt.
  assert (0 < IZR d)%R as Hdr by (apply IZR_lt; lia).
  assert (0 < IZR NANOSEC_PER_SEC)%R as Hnr by (apply IZR_lt; reflexivity).
  assert (IZR d <= IZR NANOSEC_PER_SEC)%R as Hdn by (apply IZR_le; lia).
  assert (0 < IZR d / IZR NANOSEC_PER_SEC)%R as Hq by (apply Rdiv_lt_0_compat; lra).
  assert (IZR d / IZR NANOSEC_PER_SEC <= 1)%R as Hq1.
  { apply Rmult_le_reg_r with (IZR NANOSEC_PER_SEC); [lra|].
    unfold Rdiv. rewrite Rmult_assoc, Rinv_l by lra. lra. }
  destruct (of_Z_rounds 1 ltac:(lia)) as (M1 & E1 & _ & Hr1).
  pose proof (rounds_one _ _ Hr1) as H1.
  destruct (rounds_mono _ _ _ _ _ _ Hq Hq1 Hrt Hr1) as [_ Hle1].
  rewrite H1, <- Hvt in Hle1.
  assert (0 < IZR (Z.pos m) * bpow e)%R as Hpos.
  { pose proof (bpow_pos e). assert (0 < IZR (Z.pos m))%R by (apply IZR_lt; lia). nra. }
  (* the packet count converts to 2^64 *)
  destruct (of_Z_u64 delta ltac:(unfold U64.modulus in *; lia))
    as (Mp & Ep & mp & ep & Hrp & -> & Hvp).
  pose proof (rounds_near_modulus delta Mp Ep Hdelta Hrp) as Hp64.
  rewrite <- Hvp in Hp64.
  destruct (div_rounds mp ep m e) as (MQ & EQ & -> & HrQ).
  rewrite Hp64 in HrQ.
  destruct (of_Z_rounds U64.modulus ltac:(reflexivity)) as (M2 & E2 & _ & Hr2).
  pose proof (rounds_modulus _ _ Hr2) as H2.
  assert (0 < IZR U64.modulus)%R as Hmod by (apply IZR_lt; reflexivity).
  assert (IZR U64.modulus <= IZR U64.modulus / (IZR (Z.pos m) * bpow e))%R as HQ.
  { apply Rmult_le_reg_r with (IZR (Z.pos m) * bpow e)%R; [lra|].
    unfold Rdiv. rewrite Rmult_assoc, Rinv_l by lra. nra. }
  destruct (rounds_mono _ _ _ _ _ _ Hmod HQ Hr2 HrQ) as [_ Hge].
  rewrite H2 in Hge.
  destruct (rounds_bounds _ _ _ (Rlt_le_trans _ _ _ Hmod HQ) HrQ) as [HMQ HEQ].
  rewrite to_u64_finish by lia.
  apply shiftl_floor in Hge.
  destruct (Z.eqb_spec MQ 0) as [->|_].
  { rewrite Z.shiftl_0_l in Hge. unfold U64.modulus in Hge. lia. }
  destruct (_ <=? 971); [|reflexivity].
  destruct (Z.ltb_spec (Z.shiftl MQ EQ) U64.modulus); [lia|reflexivity].
Qed.

(** X4.  When the period is not zero and at most one second, and the
    wrapped difference of the counters is at least [2^64 - 1024] (a
    counter that went down by at most 1024), the quotient is at least
    [2^64] as a double and its conversion to [__u64] in [calc_pps] and
    [calc_drop_pps] is undefined. *)
Theorem pps_undefined_near_wrap rec prev r p :
  0 < U64.sub (timestamp rec) (timestamp prev) <= NANOSEC_PER_SEC ->
  (U64.modulus - 1024 <= U64.sub (processed r) (processed p) ->
   calc_pps r p (calc_period rec prev) = None) /\
  (U64.modulus - 1024 <= U64.sub (dropped r) (dropped p) ->
   calc_drop_pps r p (calc_period rec prev) = None).
Proof.
  intros Hd. split; intros Hdelta.
  - apply (rate_undefined_near_wrap rec prev _ Hd).
    split; [exact Hdelta|apply u64_sub_range].
  - apply (rate_undefined_near_wrap rec prev _ Hd).
    split; [exact Hdelta|apply u64_sub_range].
Qed.

Lemma pps_undefined_near_wrap_witness :
  calc_pps (mk_datarec 99 0) (mk_datarec 100 0)
           (calc_period (mk_record 1000000000 zero_datarec []) (mk_record 0 zero_datarec []))
  = None.
Proof.
  apply (proj1 (pps_undefined_near_wrap (mk_record 1000000000 zero_datarec [])
                  (mk_record 0 zero_datarec []) (mk_datarec 99 0) (mk_datarec 100 0)
                  ltac:(vm_compute; split; [reflexivity|discriminate]))).
  vm_compute. discriminate.
Defined.

Section Beyond.

(** A normal binary64 number rounds to itself. *)
Lemma rounds_repr M E :
  2 ^ 52 <= M < 2 ^ 53 -> -1074 < E -> rounds (IZR M * bpow E) M E.
Proof.
  intros HM HE. pose proof (bpow_pos E) as Hb.
  assert (IZR (2 ^ 52) <= IZR M)%R as H1 by (apply IZR_le; lia).
  assert (IZR M < IZR (2 ^ 53))%R as H2 by (apply IZR_lt; lia).
  split.
  - right. change (emin Double.prec Double.emax) with (-1074).
    change Double.prec with 53. rewrite bpow_52, bpow_53. split; [exact HE|]. nra.
  - split; [nra|]. intros [H|H]; exfalso; nra.
Qed.

(** The period of two timestamps more than a second apart exceeds one
    second by a place of the double at least. *)
Lemma period_beyond_one_second d :
  NANOSEC_PER_SEC < d < U64.modulus ->
  exists m e,
    Double.div (Double.of_Z d) (Double.of_Z NANOSEC_PER_SEC) = S754_finite false m e /\
    (IZR (2 ^ 52 + 1) * bpow (-52) <= IZR (Z.pos m) * bpow e)%R.
Proof.
  intros Hd.
  destruct (period_finite d) as (m & e & M & E & vd & Hdiv & Hvd & (Md & Ed & Hrd & ->) & Hr & Hv).
  { unfold NANOSEC_PER_SEC in Hd. lia. }
  exists m, e. split; [exact Hdiv|]. rewrite Hv.
  pose proof (rounds_repr (2 ^ 52 + 1) (-52) ltac:(lia) ltac:(lia)) as Hr0.
  (* the conversion of [d] is at least [10^9 + 1] *)
  destruct (of_Z_rounds (NANOSEC_PER_SEC + 1) ltac:(reflexivity)) as (Mn & En & _ & Hrn).
  pose proof (rounds_int (NANOSEC_PER_SEC + 1) Mn En
                ltac:(unfold NANOSEC_PER_SEC; lia) Hrn) as (Hvn & _ & _).
  assert (0 < IZR (NANOSEC_PER_SEC + 1))%R as Hn0 by (apply IZR_lt; reflexivity).
  assert (IZR (NANOSEC_PER_SEC + 1) <= IZR d)%R as Hnd by (apply IZR_le; lia).
  destruct (rounds_mono _ _ _ _ _ _ Hn0 Hnd Hrn Hrd) as [_ Hge].
  rewrite Hvn in Hge.
  assert (0 < IZR NANOSEC_PER_SEC)%R as Hn by (apply IZR_lt; reflexivity).
  assert (bpow (-52) * IZR (2 ^ 52) = 1)%R as Hone.
  { rewrite Rmult_comm. apply (bpow_neg_IZR (-52)). lia. }
  assert (IZR (2 ^ 52 + 1) * bpow (-52) <= IZR Md * bpow Ed / IZR NANOSEC_PER_SEC)%R as Hle.
  { apply Rmult_le_reg_r with (IZR NANOSEC_PER_SEC); [exact Hn|].
    unfold Rdiv. rewrite (Rmult_assoc (IZR Md * bpow Ed)), Rinv_l, Rmult_1_r by lra.
    apply Rle_trans with (2 := Hge).
    rewrite !plus_IZR.
    assert (IZR NANOSEC_PER_SEC <= IZR (2 ^ 52))%R as Hsmall.
    { apply IZR_le. unfold NANOSEC_PER_SEC. lia. }
    pose proof (bpow_pos (-52)). nra. }
  assert (0 < IZR (2 ^ 52 + 1) * bpow (-52))%R as Hpos.
  { pose proof (bpow_pos (-52)). assert (0 < IZR (2 ^ 52 + 1))%R by (apply IZR_lt; lia). nra. }
  destruct (rounds_mono _ _ _ _ _ _ Hpos Hle Hr0 Hr) as [_ Hres]. exact Hres.
Qed.

(** Dividing any [__u64] by a double of at least [1 + 2^-52] gives a
    double that converts back to a [__u64]. *)
Lemma rate_defined_beyond delta m e :
  0 <= delta < U64.modulus ->
  (IZR (2 ^ 52 + 1) * bpow (-52) <= IZR (Z.pos m) * bpow e)%R ->
  exists a, Double.to_u64 (Double.div (Double.of_Z delta) (S754_finite false m e))
            = Some a /\ 0 <= a <= U64.modulus - 2048.
Proof.
  intros Hd Ht. destruct (Z.eq_dec delta 0) as [->|Hnz].
  { exists 0. split; [reflexivity|]. unfold U64.modulus. lia. }
  destruct (of_Z_u64_bounds delta ltac:(lia)) as (md & ed & -> & Hb & _).
  destruct (div_rounds md ed m e) as (M & E & -> & Hr).
  set (vt := (IZR (Z.pos m) * bpow e)%R) in *.
  set (vd := (IZR (Z.pos md) * bpow ed)%R) in *.
  assert (bpow (-52) * IZR (2 ^ 52) = 1)%R as Hone.
  { rewrite Rmult_comm. apply (bpow_neg_IZR (-52)). lia. }
  pose proof (bpow_pos (-52)) as Hb52.
  assert (1 + bpow (-52) <= vt)%R as Ht'.
  { rewrite plus_IZR in Ht. lra. }
  assert (0 < vd / vt)%R as Hq by (apply Rdiv_lt_0_compat; lra).
  pose proof (rounds_repr (2 ^ 53 - 1) 11 ltac:(lia) ltac:(lia)) as Hr0.
  assert (vd / vt <= IZR (2 ^ 53 - 1) * bpow 11)%R as Hle.
  { apply Rmult_le_reg_r with vt; [lra|].
    unfold Rdiv. rewrite Rmult_assoc, Rinv_l, Rmult_1_r by lra.
    apply Rle_trans with (IZR U64.modulus); [lra|].
    rewrite (bpow_IZR 11) by lia. rewrite <- mult_IZR.
    change ((2 ^ 53 - 1) * 2 ^ 11) with (U64.modulus - 2048).
    rewrite minus_IZR.
    assert (IZR U64.modulus = 4096 * IZR (2 ^ 52))%R as H64.
    { rewrite <- mult_IZR. reflexivity. }
    assert (0 < IZR (2 ^ 52))%R by (apply IZR_lt; lia).
    assert (bpow (-52) < 1)%R.
    { rewrite <- bpow_0. apply bpow_lt. lia. }
    assert ((IZR U64.modulus - 2048) * (1 + bpow (-52)) <= (IZR U64.modulus - 2048) * vt)%R.
    { apply Rmult_le_compat_l; [|exact Ht']. rewrite H64. nra. }
    assert (IZR U64.modulus <= (IZR U64.modulus - 2048) * (1 + bpow (-52)))%R; [|lra].
    rewrite H64. nra. }
  destruct (rounds_mono _ _ _ _ _ _ Hq Hle Hr Hr0) as [HE Hv].
  destruct (rounds_bounds _ _ _ Hq Hr) as [HM HEm].
  destruct (to_u64_finish_mono M E (2 ^ 53 - 1) 11 (U64.modulus - 2048))
    as (a & Ha & Hrange); try assumption; try lia.
  - rewrite to_u64_finish by lia. reflexivity.
  - exists a. auto.
Qed.

End Beyond.

(** X5.  When the two snapshots are more than one second apart, [calc_pps]
    and [calc_drop_pps] are defined for every pair of counters, and the
    rate is at most [2^64 - 2048]. *)
Theorem rates_defined_beyond_one_second rec prev r p :
  NANOSEC_PER_SEC < U64.sub (timestamp rec) (timestamp prev) ->
  exists pps drop,
    calc_pps r p (calc_period rec prev) = Some pps /\
    calc_drop_pps r p (calc_period rec prev) = Some drop /\
    0 <= pps <= U64.modulus - 2048 /\ 0 <= drop <= U64.modulus - 2048.
Proof.
  intros Hd. unfold calc_period, calc_pps, calc_drop_pps.
  pose proof (u64_sub_range (timestamp rec) (timestamp prev)) as Hrange.
  destruct (Z.ltb_spec 0 (U64.sub (timestamp rec) (timestamp prev))) as [_|];
    [|unfold NANOSEC_PER_SEC in Hd; lia].
  destruct (period_beyond_one_second _ (conj Hd (proj2 Hrange))) as (m & e & -> & Ht).
  cbn [Double.ltb Double.zero SFltb SFcompare].
  destruct (rate_defined_beyond _ m e (u64_sub_range (processed r) (processed p)) Ht)
    as (a & Ha & Hra).
  destruct (rate_defined_beyond _ m e (u64_sub_range (dropped r) (dropped p)) Ht)
    as (b & Hb & Hrb).
  exists a, b. auto.
Qed.

Lemma rates_defined_beyond_one_second_witness :
  NANOSEC_PER_SEC < U64.sub 3000000000 0 /\
  exists pps drop,
    calc_pps (mk_datarec 99 0) (mk_datarec 100 7)
             (calc_period (mk_record 3000000000 (mk_datarec 0 0) [])
                          (mk_record 0 (mk_datarec 0 0) [])) = Some pps /\
    calc_drop_pps (mk_datarec 99 0) (mk_datarec 100 7)
             (calc_period (mk_record 3000000000 (mk_datarec 0 0) [])
                          (mk_record 0 (mk_datarec 0 0) [])) = Some drop /\
    0 <= pps <= U64.modulus - 2048 /\ 0 <= drop <= U64.modulus - 2048.
Proof.
  assert (NANOSEC_PER_SEC < U64.sub 3000000000 0) as H by (vm_compute; reflexivity).
  split; [exact H|].
  apply (rates_defined_beyond_one_second
           (mk_record 3000000000 (mk_datarec 0 0) [])
           (mk_record 0 (mk_datarec 0 0) [])
           (mk_datarec 99 0) (mk_datarec 100 7)).
  exact H.
Defined.

(** * Counters that go down *)

Section Underflow.

(** The period of two timestamps at most [2^k] seconds apart is at most
    [2^k]. *)
Lemma period_at_most d k :
  0 < d < U64.modulus -> d <= 2 ^ k * NANOSEC_PER_SEC -> 0 <= k ->
  exists m e,
    Double.div (Double.of_Z d) (Double.of_Z NANOSEC_PER_SEC) = S754_finite false m e /\
    (0 < IZR (Z.pos m) * bpow e <= bpow k)%R.
Proof.
  intros Hd Hk Hk0.
  destruct (period_finite d Hd)
    as (m & e & M & E & vd & Hdiv & Hvd & (Md & Ed & Hrd & ->) & Hr & Hv).
  exists m, e. split; [exact Hdiv|].
  assert (0 < IZR (Z.pos m) * bpow e)%R as Hpos.
  { pose proof (bpow_pos e). assert (0 < IZR (Z.pos m))%R by (apply IZR_lt; lia). nra. }
  split; [exact Hpos|]. rewrite Hv.
  assert (0 < IZR NANOSEC_PER_SEC)%R as Hn by (apply IZR_lt; reflexivity).
  (* [2^k * 10^9] is a double *)
  pose proof (rounds_repr (NANOSEC_PER_SEC * 2 ^ 23) (k - 23)
                ltac:(unfold NANOSEC_PER_SEC; lia) ltac:(lia)) as HrT.
  assert (IZR (NANOSEC_PER_SEC * 2 ^ 23) * bpow (k - 23)
          = IZR NANOSEC_PER_SEC * bpow k)%R as HT.
  { rewrite mult_IZR. replace (k - 23) with (k + -23) by lia. rewrite bpow_add.
    pose proof (bpow_neg_IZR (-23) ltac:(lia)) as H23.
    change (- -23) with 23 in H23.
    rewrite Rmult_assoc, (Rmult_comm (bpow k)), <- (Rmult_assoc (IZR (2 ^ 23))), H23.
    ring. }
  rewrite HT in HrT.
  assert (0 < IZR d)%R as Hd0 by (apply IZR_lt; lia).
  assert (IZR d <= IZR NANOSEC_PER_SEC * bpow k)%R as HdT.
  { rewrite (bpow_IZR k) by lia. rewrite <- mult_IZR. apply IZR_le. lia. }
  destruct (rounds_mono _ _ _ _ _ _ Hd0 HdT Hrd HrT) as [_ Hvd'].
  rewrite HT in Hvd'.
  (* so the quotient is at most [2^k], which is a double *)
  pose proof (rounds_repr (2 ^ 52) (k - 52) ltac:(lia) ltac:(lia)) as Hr2.
  assert (IZR (2 ^ 52) * bpow (k - 52) = bpow k)%R as H2.
  { replace (k - 52) with (k + -52) by lia. rewrite bpow_add.
    pose proof (bpow_neg_IZR (-52) ltac:(lia)) as H52.
    change (- -52) with 52 in H52.
    rewrite (Rmult_comm (bpow k)), <- Rmult_assoc, H52. ring. }
  rewrite H2 in Hr2.
  assert (0 < IZR Md * bpow Ed / IZR NANOSEC_PER_SEC)%R as Hq.
  { apply Rdiv_lt_0_compat; lra. }
  assert (IZR Md * bpow Ed / IZR NANOSEC_PER_SEC <= bpow k)%R as Hle.
  { apply Rmult_le_reg_r with (IZR NANOSEC_PER_SEC); [exact Hn|].
    unfold Rdiv. rewrite Rmult_assoc, Rinv_l, Rmult_1_r by lra. lra. }
  destruct (rounds_mono _ _ _ _ _ _ Hq Hle Hr Hr2) as [_ Hres].
  rewrite H2 in Hres. exact Hres.
Qed.

(** A count of at least [2^63] divided by a period of at most [2^k]
    seconds gives at least [2^(63-k)], when the quotient converts at all. *)
Lemma rate_at_least delta m e k a :
  2 ^ 63 <= delta < U64.modulus -> 0 <= k <= 63 ->
  (0 < IZR (Z.pos m) * bpow e <= bpow k)%R ->
  Double.to_u64 (Double.div (Double.of_Z delta) (S754_finite false m e)) = Some a ->
  2 ^ (63 - k) <= a.
Proof.
  intros Hdelta Hk Ht Ha.
  destruct (of_Z_u64 delta ltac:(lia)) as (Mp & Ep & mp & ep & Hrp & Hof & Hvp).
  rewrite Hof in Ha.
  destruct (div_rounds mp ep m e) as (MQ & EQ & Hdiv & HrQ).
  rewrite Hdiv in Ha. rewrite Hvp in HrQ.
  set (vt := (IZR (Z.pos m) * bpow e)%R) in *.
  (* the count converts to at least [2^63] *)
  pose proof (rounds_repr (2 ^ 52) 11 ltac:(lia) ltac:(lia)) as Hr63.
  assert (IZR (2 ^ 52) * bpow 11 = IZR (2 ^ 63))%R as H63.
  { rewrite (bpow_IZR 11) by lia. rewrite <- mult_IZR. reflexivity. }
  rewrite H63 in Hr63.
  assert (0 < IZR (2 ^ 63))%R as H63pos by (apply IZR_lt; lia).
  assert (IZR (2 ^ 63) <= IZR delta)%R as Hd63 by (apply IZR_le; lia).
  destruct (rounds_mono _ _ _ _ _ _ H63pos Hd63 Hr63 Hrp) as [_ Hvd].
  rewrite H63 in Hvd.
  (* the quotient is at least [2^(63-k)], which is a double *)
  pose proof (rounds_repr (2 ^ 52) (11 - k) ltac:(lia) ltac:(lia)) as Hrk.
  assert (IZR (2 ^ 52) * bpow (11 - k) = IZR (2 ^ (63 - k)))%R as Hk63.
  { rewrite <- (bpow_IZR (63 - k)) by lia.
    replace (63 - k) with (52 + (11 - k)) by lia. rewrite bpow_add.
    rewrite (bpow_IZR 52) by lia. reflexivity. }
  rewrite Hk63 in Hrk.
  assert (0 < IZR (2 ^ (63 - k)))%R as Hkpos.
  { apply IZR_lt. apply Z.pow_pos_nonneg; lia. }
  assert (IZR (2 ^ (63 - k)) * bpow k = IZR (2 ^ 63))%R as Hprod.
  { rewrite <- (bpow_IZR (63 - k)) by lia. rewrite <- bpow_add.
    replace (63 - k + k) with 63 by lia. apply bpow_IZR. lia. }
  assert (IZR (2 ^ (63 - k)) <= IZR Mp * bpow Ep / vt)%R as Hle.
  { apply Rmult_le_reg_r with vt; [lra|].
    unfold Rdiv. rewrite Rmult_assoc, Rinv_l, Rmult_1_r by lra.
    apply Rle_trans with (IZR (2 ^ (63 - k)) * bpow k)%R; [|lra].
    apply Rmult_le_compat_l; lra. }
  destruct (rounds_mono _ _ _ _ _ _ Hkpos Hle Hrk HrQ) as [_ Hres].
  rewrite Hk63 in Hres.
  destruct (rounds_bounds _ _ _ (Rlt_le_trans _ _ _ Hkpos Hle) HrQ) as [HMQ HEQ].
  rewrite to_u64_finish in Ha by lia.
  apply shiftl_floor in Hres.
  destruct (Z.eqb_spec MQ 0) as [->|_].
  { rewrite Z.shiftl_0_l in Hres.
    assert (0 < 2 ^ (63 - k)) by (apply Z.pow_pos_nonneg; lia). lia. }
  destruct (_ <=? 971); [|discriminate].
  destruct (Z.shiftl MQ EQ <? U64.modulus); [|discriminate].
  injection Ha as <-. exact Hres.
Qed.

End Underflow.

(** C7, as the code has it.  When [curr.processed < prev.processed] and
    the period is positive, the [__u64] subtraction wraps to
    [curr.processed - prev.processed + 2^64], a nonzero [__u64], and
    [calc_pps] converts the quotient of that count by the period with no
    check for the wrap-around.  What comes out depends on how far the
    counter fell and on the period.  When it fell by at most [2^63] and
    the two snapshots are at most [2^k] seconds apart, the rate, if the
    conversion is defined, is at least [2^(63-k)]; it is defined whenever
    they are more than one second apart.  When the counter fell by at most
    1024 and the snapshots are at most one second apart, the quotient is
    at least [2^64] and its conversion to [__u64] is undefined.  A counter
    that fell from 200 to 100 over two seconds is reported at [2^63] per
    second. *)
Theorem pps_underflow_wraps :
  (forall curr prev period,
     U64.in_range (processed curr) -> U64.in_range (processed prev) ->
     processed curr < processed prev ->
     Double.ltb Double.zero period = true ->
     U64.sub (processed curr) (processed prev)
       = processed curr - processed prev + 2 ^ 64 /\
     0 < U64.sub (processed curr) (processed prev) < 2 ^ 64 /\
     calc_pps curr prev period
       = Double.to_u64
           (Double.div (Double.of_Z (processed curr - processed prev + 2 ^ 64))
                       period)) /\
  (forall rec old curr prev k,
     U64.in_range (processed curr) -> U64.in_range (processed prev) ->
     processed curr < processed prev ->
     processed prev - processed curr <= 2 ^ 63 ->
     0 <= k <= 63 ->
     0 < U64.sub (timestamp rec) (timestamp old) <= 2 ^ k * NANOSEC_PER_SEC ->
     (forall a, calc_pps curr prev (calc_period rec old) = Some a ->
                2 ^ (63 - k) <= a) /\
     (NANOSEC_PER_SEC < U64.sub (timestamp rec) (timestamp old) ->
      exists a, calc_pps curr prev (calc_period rec old) = Some a /\
                2 ^ (63 - k) <= a <= U64.modulus - 2048)) /\
  (forall rec old curr prev,
     U64.in_range (processed curr) -> U64.in_range (processed prev) ->
     processed curr < processed prev ->
     processed prev - processed curr <= 1024 ->
     0 < U64.sub (timestamp rec) (timestamp old) <= NANOSEC_PER_SEC ->
     calc_pps curr prev (calc_period rec old) = None) /\
  calc_pps (mk_datarec 100 0) (mk_datarec 200 0) (Double.of_Z 2) = Some (2 ^ 63).
Proof.
  assert (forall curr prev,
            U64.in_range (processed curr) -> U64.in_range (processed prev) ->
            processed curr < processed prev ->
            U64.sub (processed curr) (processed prev)
            = processed curr - processed prev + 2 ^ 64) as Hwrap.
  { intros curr prev Hc Hp Hlt. unfold U64.sub, U64.wrap. symmetry.
    apply (Z.mod_unique_pos _ _ (-1)); unfold U64.in_range, U64.modulus in *; lia. }
  split; [|split; [|split; [|reflexivity]]].
  - intros curr prev period Hc Hp Hlt Ht.
    pose proof (Hwrap curr prev Hc Hp Hlt) as Hsub.
    split; [exact Hsub|]. split.
    + rewrite Hsub. unfold U64.in_range, U64.modulus in *. lia.
    + unfold calc_pps. rewrite Ht, Hsub. reflexivity.
  - intros rec old curr prev k Hc Hp Hlt Hfall Hk Ht.
    pose proof (Hwrap curr prev Hc Hp Hlt) as Hsub.
    pose proof (u64_sub_range (timestamp rec) (timestamp old)) as Hrange.
    assert (2 ^ 63 <= U64.sub (processed curr) (processed prev) < U64.modulus)
      as Hdelta.
    { rewrite Hsub. unfold U64.in_range, U64.modulus in *. lia. }
    assert (forall a, calc_pps curr prev (calc_period rec old) = Some a ->
                      2 ^ (63 - k) <= a) as Hlow.
    { intros a Ha. unfold calc_pps, calc_period in Ha.
      destruct (Z.ltb_spec 0 (U64.sub (timestamp rec) (timestamp old))) as [_|];
        [|lia].
      destruct (period_at_most _ k (conj (proj1 Ht) (proj2 Hrange)) (proj2 Ht)
                  (proj1 Hk)) as (m & e & Hper & Hv).
      rewrite Hper in Ha. cbn [Double.ltb Double.zero SFltb SFcompare] in Ha.
      exact (rate_at_least _ m e k a Hdelta Hk Hv Ha). }
    split; [exact Hlow|]. intros Hbeyond.
    assert (exists a, calc_pps curr prev (calc_period rec old) = Some a /\
                      0 <= a <= U64.modulus - 2048) as (a & Ha & Hra).
    { unfold calc_pps, calc_period.
      destruct (Z.ltb_spec 0 (U64.sub (timestamp rec) (timestamp old))) as [_|];
        [|lia].
      destruct (period_beyond_one_second _ (conj Hbeyond (proj2 Hrange)))
        as (m & e & -> & Hv).
      cbn [Double.ltb Double.zero SFltb SFcompare].
      apply (rate_defined_beyond _ m e (u64_sub_range _ _) Hv). }
    exists a. split; [exact Ha|]. split; [apply Hlow, Ha|lia].
  - intros rec old curr prev Hc Hp Hlt Hfall Ht.
    pose proof (Hwrap curr prev Hc Hp Hlt) as Hsub.
    unfold calc_pps. apply (rate_undefined_near_wrap rec old _ Ht).
    rewrite Hsub. unfold U64.in_range, U64.modulus in *. lia.
Qed.

Lemma pps_underflow_wraps_witness :
  exists a,
    calc_pps (mk_datarec 100 0) (mk_datarec 200 0)
             (calc_period (mk_record 2000000000 zero_datarec [])
                          (mk_record 0 zero_datarec [])) = Some a /\
    2 ^ 62 <= a <= U64.modulus - 2048.
Proof.
  apply (proj2 (proj1 (proj2 pps_underflow_wraps)
                  (mk_record 2000000000 zero_datarec []) (mk_record 0 zero_datarec [])
                  (mk_datarec 100 0) (mk_datarec 200 0) 1
                  ltac:(vm_compute; split; [discriminate|reflexivity])
                  ltac:(vm_compute; split; [discriminate|reflexivity])
                  ltac:(vm_compute; reflexivity)
                  ltac:(vm_compute; discriminate)
                  ltac:(lia)
                  ltac:(vm_compute; split; [reflexivity|discriminate]))).
  vm_compute. reflexivity.
Defined.

(** The claim as the specification states it fails: a counter that fell
    from [2^64 - 1] to [0] over two seconds is reported at [0] per second,
    and for one that fell from 100 to 99 over one second the conversion of
    the rate is undefined. *)
Lemma underflow_rate_not_always_huge :
  (U64.in_range 0 /\ U64.in_range (2 ^ 64 - 1) /\ 0 < 2 ^ 64 - 1 /\
   Double.ltb Double.zero (Double.of_Z 2) = true /\
   calc_pps (mk_datarec 0 0) (mk_datarec (2 ^ 64 - 1) 0) (Double.of_Z 2) = Some 0) /\
  (U64.in_range 99 /\ U64.in_range 100 /\ 99 < 100 /\
   Double.ltb Double.zero (Double.of_Z 1) = true /\
   calc_pps (mk_datarec 99 0) (mk_datarec 100 0) (Double.of_Z 1) = None).
Proof.
  unfold U64.in_range, U64.modulus.
  repeat split; try lia; vm_compute; reflexivity.
Qed.

(** * The statistics engine: collection, allocation and the poll loop *)

Lemma gettime_value tv_sec tv_nsec :
  U64.add (U64.mul (U64.wrap tv_sec) NANOSEC_PER_SEC) (U64.wrap tv_nsec)
  = U64.wrap (tv_sec * NANOSEC_PER_SEC + tv_nsec).
Proof.
  unfold U64.add, U64.mul, U64.wrap.
  rewrite Z.mul_mod_idemp_l by (unfold U64.modulus; lia).
  rewrite <- Z.add_mod by (unfold U64.modulus; lia). reflexivity.
Qed.

Lemma wrap_sub_wrap a b : U64.sub (U64.wrap a) (U64.wrap b) = U64.wrap (a - b).
Proof.
  unfold U64.sub, U64.wrap. rewrite <- Zminus_mod. reflexivity.
Qed.

(** X1.  [gettime]: when [clock_gettime] succeeds the result is [tv_sec *
    10^9 + tv_nsec] reduced modulo [2^64], and one reading of the clock is
    used up; every result is a [__u64]; and the wrapped difference of two
    results is the number of nanoseconds between the two readings whenever
    that number lies in [[0, 2^64)]. *)
Theorem gettime_elapsed :
  (forall w,
     0 <= (clock w (n_clock w)).1.1 ->
     gettime w = Done (U64.wrap (nanoseconds (clock w (n_clock w))))
                      (set_n_clock (S (n_clock w)) w)) /\
  (forall w t w', gettime w = Done t w' -> U64.in_range t) /\
  (forall w1 t1 w1' w2 t2 w2',
     gettime w1 = Done t1 w1' -> gettime w2 = Done t2 w2' ->
     let elapsed := nanoseconds (clock w2 (n_clock w2))
                    - nanoseconds (clock w1 (n_clock w1)) in
     0 <= elapsed < U64.modulus ->
     U64.sub t2 t1 = elapsed).
Proof.
  assert (forall w t w', gettime w = Done t w' ->
            t = U64.wrap (nanoseconds (clock w (n_clock w)))) as Hval.
  { intros w t w'. rewrite gettime_eq. cbv zeta.
    destruct (_ <? 0); [discriminate|]. intros [= <- _]. apply gettime_value. }
  split; [|split].
  - intros w Hres. rewrite gettime_eq. cbv zeta.
    destruct (Z.ltb_spec (clock w (n_clock w)).1.1 0); [lia|].
    rewrite gettime_value. reflexivity.
  - intros w t w' H. rewrite (Hval _ _ _ H).
    unfold U64.in_range, U64.wrap. apply Z.mod_pos_bound. reflexivity.
  - intros w1 t1 w1' w2 t2 w2' H1 H2 elapsed He.
    rewrite (Hval _ _ _ H1), (Hval _ _ _ H2), wrap_sub_wrap.
    unfold U64.wrap. apply Z.mod_small. exact He.
Qed.

Lemma gettime_elapsed_witness :
  gettime scenario1 = Done 0 (set_n_clock 1 scenario1) /\
  gettime (set_n_clock 15 scenario1)
  = Done 1000000000 (set_n_clock 16 (set_n_clock 15 scenario1)) /\
  U64.sub 1000000000 0 = 1000000000.
Proof.
  assert (gettime scenario1 = Done 0 (set_n_clock 1 scenario1)) as H1.
  { apply (proj1 gettime_elapsed scenario1). cbn. lia. }
  assert (gettime (set_n_clock 15 scenario1)
          = Done 1000000000 (set_n_clock 16 (set_n_clock 15 scenario1))) as H2.
  { apply (proj1 gettime_elapsed (set_n_clock 15 scenario1)). cbn. lia. }
  split; [exact H1|]. split; [exact H2|].
  apply (proj2 (proj2 gettime_elapsed) _ _ _ _ _ _ H1 H2).
  vm_compute. split; [discriminate|reflexivity].
Defined.

(** The copy loop runs off an array that is too short. *)
Lemma collect_loop_fault values n : forall i cpus0 sp0 sd0 w,
  (length values < i + n \/ length cpus0 < i + n)%nat ->
  (i <= length values)%nat -> (i <= length cpus0)%nat ->
  for_range i n (fun i '(cpus, sum_processed, sum_dropped) =>
      v ← defined (values !! i);
      _ ← defined (cpus !! i);
      let cpus := <[i := mk_datarec (processed v) (dropped v)]> cpus in
      let sum_processed := U64.add sum_processed (processed v) in
      let sum_dropped := U64.add sum_dropped (dropped v) in
      mret (cpus, sum_processed, sum_dropped))
    (cpus0, sp0, sd0) w = Fault.
Proof.
  induction n as [|n IH]; intros i cpus0 sp0 sd0 w Hshort Hv Hc; [lia|].
  rewrite for_range_S. cbv beta iota.
  destruct (values !! i) as [v|] eqn:Hvi; [|reflexivity].
  destruct (cpus0 !! i) as [c|] eqn:Hci; [|reflexivity].
  erewrite bind_done.
  2:{ erewrite bind_done; [|apply defined_some].
      erewrite bind_done; [|apply defined_some]. reflexivity. }
  apply lookup_lt_Some in Hvi, Hci.
  apply IH; rewrite ?length_insert; lia.
Qed.

(** The closed form of a successful collection, for any length of the
    list that stands for [values]. *)
Lemma map_collect_percpu_closed fd key rec w values :
  map_lookup w (n_lookups w) fd key = Some values ->
  0 <= (clock w (n_clock w)).1.1 ->
  let nr_cpus := possible_cpus w in
  ((nr_cpus <= length values)%nat -> (nr_cpus <= length (cpu rec))%nat ->
   map_collect_percpu fd key rec w
   = Done (true,
           mk_record (U64.wrap (nanoseconds (clock w (n_clock w))))
                     (mk_datarec
                        (U64.wrap (sum_list (processed <$> take nr_cpus values)))
                        (U64.wrap (sum_list (dropped <$> take nr_cpus values))))
                     (take nr_cpus values ++ drop nr_cpus (cpu rec)))
          (set_n_clock (S (n_clock w)) (set_n_lookups (S (n_lookups w)) w))) /\
  ((length values < nr_cpus \/ length (cpu rec) < nr_cpus)%nat ->
   map_collect_percpu fd key rec w = Fault).
Proof.
  intros Hl Hres nr_cpus. rewrite map_collect_percpu_eq, Hl. cbv zeta.
  assert (gettime (set_n_lookups (S (n_lookups w)) w)
          = Done (U64.wrap (nanoseconds (clock w (n_clock w))))
                 (set_n_clock (S (n_clock w)) (set_n_lookups (S (n_lookups w)) w)))
    as Hg.
  { rewrite gettime_eq. cbv zeta.
    change (clock (set_n_lookups (S (n_lookups w)) w)) with (clock w).
    change (n_clock (set_n_lookups (S (n_lookups w)) w)) with (n_clock w).
    destruct (Z.ltb_spec (clock w (n_clock w)).1.1 0) as [|_]; [lia|].
    rewrite gettime_value. reflexivity. }
  erewrite bind_done; [|exact Hg]. fold nr_cpus.
  split.
  - intros Hv Hc.
    edestruct (collect_loop_total values nr_cpus 0 (cpu rec) 0 0)
      as (cpus & sp & sd & Hloop); [cbn; lia..|].
    pose proof Hloop as Hspec.
    apply collect_loop in Hspec; [|unfold U64.in_range, U64.modulus; lia..].
    destruct Hspec as (_ & Hlen & _ & Hvals & _ & _ & Hdrop & Hsp & Hsd).
    rewrite !drop_0 in *. rewrite Z.add_0_l in Hsp, Hsd. cbn [Nat.add] in Hdrop.
    erewrite bind_done; [|apply Hloop]. cbn.
    rewrite <- Hsp, <- Hsd, <- Hvals, <- Hdrop, take_drop. reflexivity.
  - intros Hshort. apply bind_fault.
    apply collect_loop_fault; cbn; lia.
Qed.

(** X6.  [map_collect_percpu] after a successful lookup that filled
    [values[nr_cpus]] ([nr_cpus > 0]), the clock readable: when [rec->cpu]
    has at least [nr_cpus] entries it returns [true], [rec->cpu[i]] holds
    [values[i]] for every possible CPU (later entries are kept), the total
    holds the two sums modulo [2^64] and the timestamp the clock reading;
    one lookup and one clock reading are used up and nothing else changes.
    When [rec->cpu] has fewer entries the loop writes past its end:
    undefined. *)
Theorem collect_into_record fd key rec w values :
  map_lookup w (n_lookups w) fd key = Some values ->
  0 <= (clock w (n_clock w)).1.1 ->
  let nr_cpus := possible_cpus w in
  (0 < nr_cpus)%nat -> length values = nr_cpus ->
  ((nr_cpus <= length (cpu rec))%nat ->
   map_collect_percpu fd key rec w
   = Done (true,
           mk_record (U64.wrap (nanoseconds (clock w (n_clock w))))
                     (mk_datarec
                        (U64.wrap (sum_list (processed <$> values)))
                        (U64.wrap (sum_list (dropped <$> values))))
                     (values ++ drop nr_cpus (cpu rec)))
          (set_n_clock (S (n_clock w)) (set_n_lookups (S (n_lookups w)) w))) /\
  ((length (cpu rec) < nr_cpus)%nat ->
   map_collect_percpu fd key rec w = Fault).
Proof.
  intros Hl Hres nr_cpus _ Hlen.
  destruct (map_collect_percpu_closed fd key rec w values Hl Hres) as [Hdone Hfault].
  fold nr_cpus in Hdone, Hfault.
  split.
  - intros Hcpu. rewrite Hdone by lia.
    replace (take nr_cpus values) with values
      by (rewrite <- Hlen; symmetry; apply firstn_all).
    reflexivity.
  - intros Hcpu. apply Hfault. right. exact Hcpu.
Qed.

Lemma collect_into_record_witness :
  map_collect_percpu 1 0 (fresh_record 4) scenario1
  = Done (true, mk_record 0 (mk_datarec 100 0) (counters [100; 0; 0; 0]))
         (set_n_clock 1 (set_n_lookups 1 scenario1)).
Proof.
  apply (proj1 (collect_into_record 1 0 (fresh_record 4) scenario1
                  (counters [100; 0; 0; 0]) eq_refl ltac:(cbn; lia)
                  ltac:(cbn; lia) eq_refl)).
  cbn. lia.
Defined.

(** * Allocation of the snapshots *)

Lemma alloc_only_refl w : alloc_only w w.
Proof. unfold alloc_only. auto 10. Qed.

Lemma alloc_only_trans w1 w2 w3 :
  alloc_only w1 w2 -> alloc_only w2 w3 -> alloc_only w1 w3.
Proof.
  unfold alloc_only. intros (?&?&?&?&?&?&?&?&?&?) (?&?&?&?&?&?&?&?&?&?).
  repeat split; congruence.
Qed.

Lemma alloc_cpu_of_eq p fld w :
  alloc_cpu_of p fld w =
    if malloc_ok w (n_mallocs w) then
      match heap w !! p with
      | Some s =>
          match get_field fld s with
          | Some r =>
              Done tt (set_heap
                         (<[p := set_field fld
                                   (set_cpu (replicate (possible_cpus w) zero_datarec) r)
                                   s]> (heap w))
                         (set_n_mallocs (S (n_mallocs w)) w))
          | None => Fault
          end
      | None => Fault
      end
    else Fault.
Proof.
  unfold alloc_cpu_of, alloc_record_per_cpu, bpf_num_possible_cpus, malloc, load,
    get_world, store, mbind, M_bind.
  destruct (malloc_ok w (n_mallocs w)); [|reflexivity]. cbn.
  destruct (heap w !! p) as [s|]; [|reflexivity]. cbn.
  destruct (get_field fld s); reflexivity.
Qed.

Lemma alloc_fields_app p l1 l2 w :
  alloc_fields p (l1 ++ l2) w = (alloc_fields p l1;; alloc_fields p l2) w.
Proof.
  revert w. induction l1 as [|fld l1 IH]; intros w; [reflexivity|].
  cbn [alloc_fields app]. rewrite bind_assoc.
  apply bind_cong. intros _ w1 _. apply IH.
Qed.

Lemma for_range_alloc p n : forall i w,
  for_range i n (fun i _ => alloc_cpu_of p (F_enq i)) tt w
  = alloc_fields p (F_enq <$> seq i n) w.
Proof.
  induction n as [|n IH]; intros i w; [reflexivity|].
  rewrite for_range_S. cbn [seq fmap list_fmap alloc_fields].
  apply bind_cong. intros [] w1 _. apply IH.
Qed.

Lemma alloc_stats_record_eq w :
  alloc_stats_record w =
    if malloc_ok w (n_mallocs w) then
      (alloc_fields (fresh (dom (heap w))) snapshot_fields;;
       mret (fresh (dom (heap w))))
        (set_heap (<[fresh (dom (heap w)) := zero_stats_record]> (heap w))
                  (set_n_mallocs (S (n_mallocs w)) w))
    else Fault.
Proof.
  unfold alloc_stats_record, malloc, get_world.
  unfold mbind at 1 2 3, M_bind at 1 2 3.
  destruct (malloc_ok w (n_mallocs w)); [|reflexivity].
  cbn [n_mallocs set_n_mallocs heap]. rewrite store_eq.
  set (p := fresh (dom (heap w))). set (w1 := set_heap _ _).
  unfold snapshot_fields. cbn [app alloc_fields].
  rewrite !bind_assoc.
  apply bind_cong. intros _ w2 _. rewrite bind_assoc.
  apply bind_cong. intros _ w3 _. rewrite bind_assoc.
  apply bind_cong. intros _ w4 _.
  apply bind_cong2; [apply for_range_alloc|]. reflexivity.
Qed.

(** Any list of distinct records of a snapshot. *)
Lemma alloc_fields_spec p : forall l w s,
  heap w !! p = Some s ->
  Forall (fun fld => is_Some (get_field fld s)) l -> NoDup l ->
  (mallocs_ok w (length l) ->
   exists w' s',
     alloc_fields p l w = Done tt w' /\
     heap w' = <[p := s']> (heap w) /\
     n_mallocs w' = (n_mallocs w + length l)%nat /\ alloc_only w w' /\
     length (enq s') = length (enq s) /\
     forall fld,
       get_field fld s' =
         if decide (fld ∈ l)
         then set_cpu (replicate (possible_cpus w) zero_datarec) <$> get_field fld s
         else get_field fld s) /\
  (forall j, (j < length l)%nat -> malloc_ok w (n_mallocs w + j) = false ->
             alloc_fields p l w = Fault).
Proof.
  induction l as [|fld l IH]; intros w s Hs Hall Hnd.
  - split; [|cbn; lia]. intros _. exists w, s. cbn.
    split; [reflexivity|]. split; [symmetry; apply insert_id, Hs|].
    split; [lia|]. split; [apply alloc_only_refl|]. split; [reflexivity|].
    intros fld. destruct (decide (fld ∈ [])) as [H|]; [|reflexivity].
    apply elem_of_nil in H. contradiction.
  - apply Forall_cons in Hall. destruct Hall as [[r Hr] Hall].
    apply NoDup_cons in Hnd. destruct Hnd as [Hfresh Hnd].
    cbn [alloc_fields length].
    destruct (malloc_ok w (n_mallocs w)) eqn:Hm.
    + set (s1 := set_field fld (set_cpu (replicate (possible_cpus w) zero_datarec) r) s).
      set (w1 := set_heap (<[p := s1]> (heap w)) (set_n_mallocs (S (n_mallocs w)) w)).
      assert (alloc_cpu_of p fld w = Done tt w1) as Hstep.
      { rewrite alloc_cpu_of_eq, Hm, Hs, Hr. reflexivity. }
      assert (heap w1 !! p = Some s1) as Hs1 by apply lookup_insert_eq.
      assert (Forall (fun fld' => is_Some (get_field fld' s1)) l) as Hall1.
      { apply Forall_forall. intros fld' Hin.
        pose proof (proj1 (Forall_forall _ _) Hall fld' Hin) as Hsome.
        unfold s1. rewrite get_set_field_ne; [exact Hsome|].
        intros ->. contradiction. }
      destruct (IH w1 s1 Hs1 Hall1 Hnd) as [IHok IHfail].
      split.
      * intros Hok.
        destruct IHok as (w' & s' & Hrun & Hheap & Hn & Hio & Hlen & Hget).
        { intros j Hj. specialize (Hok (S j) ltac:(lia)).
          rewrite Nat.add_succ_r in Hok. exact Hok. }
        exists w', s'. split; [erewrite bind_done; [exact Hrun|exact Hstep]|].
        split; [rewrite Hheap; cbn; apply insert_insert_eq|].
        split; [rewrite Hn; cbn; lia|].
        split; [eapply alloc_only_trans; [|exact Hio]; unfold alloc_only; cbn; auto 10|].
        split.
        { rewrite Hlen. unfold s1. destruct fld; cbn; try reflexivity.
          apply length_insert. }
        intros fld'. rewrite Hget. cbn [possible_cpus w1 set_heap set_n_mallocs].
        destruct (decide (fld' = fld)) as [->|Hne].
        -- destruct (decide (fld ∈ l)) as [|_]; [contradiction|].
           destruct (decide (fld ∈ fld :: l)) as [_|Hnin];
             [|exfalso; apply Hnin; left].
           unfold s1. rewrite get_set_field by eauto. rewrite Hr. reflexivity.
        -- unfold s1. rewrite get_set_field_ne by congruence.
           destruct (decide (fld' ∈ l)) as [Hin|Hnin];
             destruct (decide (fld' ∈ fld :: l)) as [Hin'|Hnin']; try reflexivity.
           ++ exfalso. apply Hnin'. right. exact Hin.
           ++ exfalso. apply elem_of_cons in Hin'. destruct Hin'; contradiction.
      * intros j Hj Hfalse. erewrite bind_done; [|exact Hstep].
        destruct j as [|j].
        { rewrite Nat.add_0_r in Hfalse. congruence. }
        apply (IHfail j); [lia|].
        rewrite Nat.add_succ_r in Hfalse. exact Hfalse.
    + assert (alloc_cpu_of p fld w = Fault) as Hstep.
      { rewrite alloc_cpu_of_eq, Hm. reflexivity. }
      split.
      * intros Hok. specialize (Hok 0%nat ltac:(lia)).
        rewrite Nat.add_0_r in Hok. congruence.
      * intros _ _ _. apply bind_fault. exact Hstep.
Qed.

Lemma snapshot_fields_nodup : NoDup snapshot_fields.
Proof. apply (bool_decide_unpack _). vm_compute. reflexivity. Qed.

Lemma enq_in_snapshot_fields i : F_enq i ∈ snapshot_fields <-> (i < MAX_CPUS)%nat.
Proof.
  unfold snapshot_fields. rewrite elem_of_app, list_elem_of_fmap. split.
  - intros [H|(j & [= ->] & Hj)].
    + repeat (apply elem_of_cons in H; destruct H as [H|H]; [discriminate|]).
      apply elem_of_nil in H. contradiction.
    + apply elem_of_seq in Hj. lia.
  - intros Hi. right. exists i. split; [reflexivity|]. apply elem_of_seq. lia.
Qed.

(** What the fifteen array allocations make of the zeroed snapshot. *)
Lemma snapshot_filled nr_cpus s' :
  length (enq s') = MAX_CPUS ->
  (forall fld,
     get_field fld s' =
       if decide (fld ∈ snapshot_fields)
       then set_cpu (replicate nr_cpus zero_datarec) <$> get_field fld zero_stats_record
       else get_field fld zero_stats_record) ->
  s' = fresh_stats nr_cpus.
Proof.
  intros Hlen Hget.
  pose proof (Hget F_rx_cnt) as Hrx. pose proof (Hget F_redir_err) as Herr.
  pose proof (Hget F_kthread) as Hkt.
  destruct (decide (F_rx_cnt ∈ snapshot_fields)) as [_|H];
    [|exfalso; apply H; unfold snapshot_fields; set_solver].
  destruct (decide (F_redir_err ∈ snapshot_fields)) as [_|H];
    [|exfalso; apply H; unfold snapshot_fields; set_solver].
  destruct (decide (F_kthread ∈ snapshot_fields)) as [_|H];
    [|exfalso; apply H; unfold snapshot_fields; set_solver].
  cbn in Hrx, Herr, Hkt. injection Hrx as Hrx. injection Herr as Herr.
  injection Hkt as Hkt.
  destruct s' as [rx err kt e]. cbn [rx_cnt redir_err kthread enq] in *.
  subst rx err kt. unfold fresh_stats. f_equal.
  apply list_eq. intros i. specialize (Hget (F_enq i)).
  unfold zero_stats_record in Hget. cbn [get_field enq] in Hget. rewrite Hget.
  destruct (decide (F_enq i ∈ snapshot_fields)) as [Hin|Hnin].
  - apply enq_in_snapshot_fields in Hin.
    rewrite !lookup_replicate_2 by exact Hin. reflexivity.
  - assert (MAX_CPUS <= i)%nat as Hge.
    { destruct (le_lt_dec MAX_CPUS i); [assumption|].
      exfalso. apply Hnin, enq_in_snapshot_fields. assumption. }
    etrans; [apply lookup_replicate_None, Hge|].
    symmetry. apply lookup_replicate_None, Hge.
Qed.

Lemma alloc_stats_record_cases w :
  (mallocs_ok w (4 + MAX_CPUS) ->
   exists w',
     alloc_stats_record w = Done (fresh (dom (heap w))) w' /\
     heap w !! fresh (dom (heap w)) = None /\
     heap w' = <[fresh (dom (heap w)) := fresh_stats (possible_cpus w)]> (heap w) /\
     n_mallocs w' = (n_mallocs w + (4 + MAX_CPUS))%nat /\
     alloc_only w w') /\
  (forall j, (j < 4 + MAX_CPUS)%nat -> malloc_ok w (n_mallocs w + j) = false ->
     alloc_stats_record w = Fault).
Proof.
  set (p := fresh (dom (heap w))).
  set (w1 := set_heap (<[p := zero_stats_record]> (heap w))
                      (set_n_mallocs (S (n_mallocs w)) w)).
  assert (heap w1 !! p = Some zero_stats_record) as Hs1 by apply lookup_insert_eq.
  assert (Forall (fun fld => is_Some (get_field fld zero_stats_record)) snapshot_fields)
    as Hall.
  { apply Forall_forall. intros fld Hin.
    destruct fld as [| | |i]; [cbn; eauto..|].
    apply enq_in_snapshot_fields in Hin.
    unfold zero_stats_record. cbn [get_field enq]. apply lookup_lt_is_Some.
    rewrite length_replicate. exact Hin. }
  destruct (alloc_fields_spec p snapshot_fields w1 zero_stats_record Hs1 Hall
              snapshot_fields_nodup) as [Hok Hfail].
  assert (length snapshot_fields = (3 + MAX_CPUS)%nat) as Hlen by reflexivity.
  split.
  - intros Hm. rewrite alloc_stats_record_eq.
    pose proof (Hm 0%nat ltac:(unfold MAX_CPUS; lia)) as Hm0.
    rewrite Nat.add_0_r in Hm0. rewrite Hm0. fold p w1.
    destruct Hok as (w' & s' & Hrun & Hheap & Hn & Hio & Hlen' & Hget).
    { intros j Hj. cbn. specialize (Hm (S j) ltac:(lia)).
      rewrite Nat.add_succ_r in Hm. exact Hm. }
    exists w'. split; [erewrite bind_done; [reflexivity|exact Hrun]|].
    split; [apply not_elem_of_dom, is_fresh|].
    split.
    { rewrite Hheap. cbn. rewrite insert_insert_eq. f_equal.
      apply snapshot_filled; [rewrite Hlen'; apply length_replicate|exact Hget]. }
    split; [rewrite Hn, Hlen; cbn; lia|].
    eapply alloc_only_trans; [|exact Hio]. unfold alloc_only. cbn. auto 10.
  - intros j Hj Hfalse. rewrite alloc_stats_record_eq.
    destruct (malloc_ok w (n_mallocs w)) eqn:Hm; [|reflexivity]. fold p w1.
    destruct j as [|j]; [rewrite Nat.add_0_r in Hfalse; congruence|].
    apply bind_fault. apply (Hfail j); [rewrite Hlen; lia|].
    rewrite Nat.add_succ_r in Hfalse. exact Hfalse.
Qed.

Lemma mallocs_ok_dec w k : mallocs_ok w k \/ exists j, (j < k)%nat /\ malloc_ok w (n_mallocs w + j) = false.
Proof.
  destruct (decide (Forall (fun j => malloc_ok w (n_mallocs w + j) = true) (seq 0 k)))
    as [Hyes|Hno].
  - left. intros j Hj. apply (proj1 (Forall_forall _ _) Hyes). apply elem_of_seq. lia.
  - right. apply not_Forall_Exists in Hno; [|intros j; apply _].
    apply Exists_exists in Hno. destruct Hno as (j & Hj & Hfalse).
    apply elem_of_seq in Hj. exists j. split; [lia|]. cbn in Hfalse.
    destruct (malloc_ok w (n_mallocs w + j)); [exfalso; apply Hfalse|]; reflexivity.
Qed.

(** When [alloc_stats_record] returns, it returns a new, zeroed snapshot
    of the right shape. *)
Lemma alloc_stats_record_done w p w' :
  alloc_stats_record w = Done p w' ->
  heap w !! p = None /\
  heap w' = <[p := fresh_stats (possible_cpus w)]> (heap w) /\
  n_mallocs w' = (n_mallocs w + (4 + MAX_CPUS))%nat /\
  alloc_only w w'.
Proof.
  intros Hrun. destruct (alloc_stats_record_cases w) as [Hok Hfault].
  destruct (mallocs_ok_dec w (4 + MAX_CPUS)) as [Hm|(j & Hj & Hfalse)].
  - destruct (Hok Hm) as (w'' & Hrun' & H). rewrite Hrun in Hrun'.
    injection Hrun' as -> ->. exact H.
  - rewrite (Hfault j Hj Hfalse) in Hrun. discriminate.
Qed.

(** X7.  [alloc_stats_record] makes [4 + MAX_CPUS] allocations. When all
    of them succeed it returns an address that was not in use, holding a
    snapshot with every counter zero, and only the heap and the number of
    allocations change; when any of them fails the behaviour is undefined
    ([memset] runs before the test of the pointer); it never leaves
    through [exit]. *)
Theorem alloc_stats_record_outcomes w :
  (mallocs_ok w (4 + MAX_CPUS) ->
   exists w',
     alloc_stats_record w = Done (fresh (dom (heap w))) w' /\
     heap w !! fresh (dom (heap w)) = None /\
     heap w' = <[fresh (dom (heap w)) := fresh_stats (possible_cpus w)]> (heap w) /\
     n_mallocs w' = (n_mallocs w + (4 + MAX_CPUS))%nat /\
     alloc_only w w') /\
  (forall j, (j < 4 + MAX_CPUS)%nat -> malloc_ok w (n_mallocs w + j) = false ->
     alloc_stats_record w = Fault) /\
  (forall code w', alloc_stats_record w <> Exit code w').
Proof.
  destruct (alloc_stats_record_cases w) as [Hok Hfault].
  split; [exact Hok|]. split; [exact Hfault|].
  intros code w' Hexit.
  destruct (mallocs_ok_dec w (4 + MAX_CPUS)) as [Hm|(j & Hj & Hfalse)].
  - destruct (Hok Hm) as (w'' & Hrun & _). congruence.
  - rewrite (Hfault j Hj Hfalse) in Hexit. discriminate.
Qed.

Lemma alloc_stats_record_outcomes_witness :
  exists w',
    alloc_stats_record scenario1 = Done 1%positive w' /\
    heap w' = {[1%positive := fresh_stats 4]} /\ n_mallocs w' = 16%nat.
Proof.
  destruct (proj1 (alloc_stats_record_outcomes scenario1))
    as (w' & Hrun & _ & Hheap & Hn & _).
  - intros j _. reflexivity.
  - exists w'. split; [exact Hrun|]. split; [exact Hheap|exact Hn].
Defined.

(** * The buffers of the poll loop *)

(** A collection changes the clock and lookup counts and [stderr], never
    the heap, [stdout] or the environment. *)
Lemma map_collect_percpu_frame fd key r w b r' w' :
  map_collect_percpu fd key r w = Done (b, r') w' ->
  heap w' = heap w /\ stdout w' = stdout w /\ sleeps w' = sleeps w /\
  n_lookups w' = S (n_lookups w) /\ length (cpu r') = length (cpu r).
Proof.
  intros Hrun. pose proof (map_collect_percpu_done _ _ _ _ _ _ _ Hrun) as Hdone.
  rewrite map_collect_percpu_eq in Hrun. cbv zeta in Hrun.
  destruct (map_lookup w (n_lookups w) fd key) as [values|].
  - apply bind_done_inv in Hrun. destruct Hrun as (ts & w2 & Hts & Hrun).
    rewrite gettime_eq in Hts. cbv zeta in Hts.
    destruct (_ <? 0); [discriminate|]. injection Hts as _ <-.
    apply bind_done_inv in Hrun. destruct Hrun as ([[cpus sp] sd] & w3 & Hloop & Hrun).
    apply collect_loop in Hloop; [|unfold U64.in_range, U64.modulus; lia..].
    destruct Hloop as (-> & _). cbn in Hrun. injection Hrun as _ _ <-.
    destruct Hdone as (_ & _ & _ & Hlen & _). cbn. auto.
  - injection Hrun as _ _ <-. destruct Hdone as [_ ->]. cbn. auto.
Qed.

Lemma on_record_frame p fld fd key w b w' :
  on_record p fld (map_collect_percpu fd key) w = Done b w' ->
  exists s r',
    heap w !! p = Some s /\ heap w' = <[p := set_field fld r' s]> (heap w) /\
    (forall nr_cpus, wf_stats nr_cpus s -> wf_stats nr_cpus (set_field fld r' s)) /\
    stdout w' = stdout w /\ sleeps w' = sleeps w /\ n_lookups w' = S (n_lookups w).
Proof.
  unfold on_record. intros H.
  apply bind_done_inv in H. destruct H as (s & w1 & Hs & H).
  apply load_done in Hs. destruct Hs as [Hs ->].
  apply bind_done_inv in H. destruct H as (r & w1 & Hr & H).
  apply defined_done in Hr. destruct Hr as [Hr ->].
  apply bind_done_inv in H. destruct H as ([b' r'] & w1 & Hrun & H).
  apply map_collect_percpu_frame in Hrun.
  destruct Hrun as (Hheap & Hout & Hsl & Hn & Hlen).
  apply bind_done_inv in H. destruct H as ([] & w2 & Hst & H).
  rewrite store_eq in Hst. injection Hst as <-. injection H as _ <-.
  exists s, r'. split; [exact Hs|]. cbn. rewrite Hheap.
  split; [reflexivity|]. split; [|auto].
  intros nr_cpus Hwf. apply wf_set_field; [exact Hwf|].
  unfold wf_record. rewrite Hlen. apply (wf_get_field _ _ _ _ Hwf Hr).
Qed.

Lemma collect_tables_frame p fds : forall l w w' s,
  collect_tables p fds l w = Done tt w' -> heap w !! p = Some s ->
  exists s',
    heap w' = <[p := s']> (heap w) /\
    (forall nr_cpus, wf_stats nr_cpus s -> wf_stats nr_cpus s') /\
    stdout w' = stdout w /\ sleeps w' = sleeps w /\
    n_lookups w' = (n_lookups w + length l)%nat.
Proof.
  induction l as [|[[fld m] key] l IH]; intros w w' s Hrun Hs.
  - injection Hrun as <-. exists s. rewrite insert_id by exact Hs.
    cbn. rewrite Nat.add_0_r. auto.
  - cbn [collect_tables] in Hrun.
    apply bind_done_inv in Hrun. destruct Hrun as (b & w1 & Hstep & Hrun).
    apply on_record_frame in Hstep.
    destruct Hstep as (s0 & r' & Hs0 & Hheap & Hwf & Hout & Hsl & Hn).
    rewrite Hs in Hs0. injection Hs0 as <-.
    assert (heap w1 !! p = Some (set_field fld r' s)) as Hs1.
    { rewrite Hheap. apply lookup_insert_eq. }
    destruct (IH _ _ _ Hrun Hs1) as (s' & Hheap' & Hwf' & Hout' & Hsl' & Hn').
    exists s'. rewrite Hheap', Hheap, insert_insert_eq.
    split; [reflexivity|]. split; [auto|].
    rewrite Hout', Hsl', Hn', Hout, Hsl, Hn. cbn. repeat split; lia.
Qed.

Lemma stats_collect_frame p w w' s :
  stats_collect p w = Done tt w' -> heap w !! p = Some s ->
  quiet w w' /\
  exists s',
    heap w' = <[p := s']> (heap w) /\
    (forall nr_cpus, wf_stats nr_cpus s -> wf_stats nr_cpus s') /\
    stdout w' = stdout w /\ sleeps w' = sleeps w /\
    n_lookups w' = (n_lookups w + 3 + MAX_CPUS)%nat.
Proof.
  intros Hrun Hs. split.
  { pose proof (safe_stats_collect p w) as H. rewrite Hrun in H. exact H. }
  rewrite stats_collect_tables in Hrun.
  destruct (collect_tables_frame _ _ _ _ _ _ Hrun Hs) as (s' & H1 & H2 & H3 & H4 & H5).
  exists s'. repeat (split; [assumption|]).
  change (length tables) with 15%nat in H5. unfold MAX_CPUS. lia.
Qed.

Lemma stats_collect_heap p w w' :
  stats_collect p w = Done tt w' -> is_Some (heap w !! p).
Proof.
  unfold stats_collect. intros H.
  apply bind_done_inv in H. destruct H as (w0 & w1 & Hw & H).
  injection Hw as <- <-.
  apply bind_done_inv in H. destruct H as (b & w1 & Hstep & _).
  apply on_record_frame in Hstep. destruct Hstep as (s & _ & Hs & _). eauto.
Qed.

(** One iteration of the loop, taken apart. *)
Lemma poll_iteration_done interval v w v' w' :
  poll_iteration interval v w = Done v' w' ->
  v' = mk_poll_vars (prev_ptr v) (record_ptr v) /\
  exists w1 cur old,
    stats_collect (prev_ptr v) w = Done tt w1 /\
    heap w1 !! prev_ptr v = Some cur /\ heap w1 !! record_ptr v = Some old /\
    print_defined (possible_cpus w1) cur old /\
    w' = set_sleeps (sleeps w1 ++ [to_u32 interval])
           (set_stdout (stdout w1 ++ render (possible_cpus w1) cur old) w1).
Proof.
  unfold poll_iteration, swap. intros H.
  apply bind_done_inv in H. destruct H as ([] & w1 & Hc & H).
  apply bind_done_inv in H. destruct H as ([] & w2 & Hp & H).
  destruct (stats_print_done _ _ _ _ _ Hp) as (cur & old & Hcur & Hold & Hdef).
  rewrite (stats_print_render _ _ _ _ _ Hcur Hold Hdef) in Hp. injection Hp as <-.
  apply bind_done_inv in H. destruct H as ([] & w3 & Hsl & H).
  injection Hsl as <-. injection H as <- <-.
  split; [reflexivity|]. exists w1, cur, old. auto 10.
Qed.

Lemma wf_fresh_stats nr_cpus : wf_stats nr_cpus (fresh_stats nr_cpus).
Proof.
  unfold wf_stats, wf_record, fresh_stats, fresh_record.
  cbn [rx_cnt redir_err kthread enq cpu].
  rewrite !length_replicate. repeat split.
  apply Forall_replicate. cbn. apply length_replicate.
Qed.

Lemma poll_iteration_keeps interval v w v' w' :
  buffers_ok w v -> poll_iteration interval v w = Done v' w' ->
  buffers_ok w' v' /\
  record_ptr v' = prev_ptr v /\ prev_ptr v' = record_ptr v /\
  heap w' !! prev_ptr v' = heap w !! record_ptr v /\
  dom (heap w') = dom (heap w) /\ quiet w w' /\
  n_lookups w' = (n_lookups w + 3 + MAX_CPUS)%nat /\
  sleeps w' = sleeps w ++ [to_u32 interval].
Proof.
  intros (Hne & cur & old & Hcur & Hold & Hwfc & Hwfo) Hrun.
  apply poll_iteration_done in Hrun.
  destruct Hrun as (-> & w1 & cur1 & old1 & Hc & Hcur1 & Hold1 & _ & ->).
  destruct (stats_collect_frame _ _ _ _ Hc Hold)
    as (Hq & s' & Hheap & Hwf & Hout & Hsl & Hn).
  assert (possible_cpus w1 = possible_cpus w) as Hnr by apply Hq.
  cbn [record_ptr prev_ptr heap set_sleeps set_stdout possible_cpus n_lookups sleeps].
  assert (heap w1 !! record_ptr v = Some cur) as Hkeep.
  { rewrite Hheap, lookup_insert_ne by congruence. exact Hcur. }
  split.
  { split; [cbn; congruence|]. exists s', cur. cbn. rewrite Hnr.
    split; [rewrite Hheap; apply lookup_insert_eq|]. split; [exact Hkeep|]. auto. }
  split; [reflexivity|]. split; [reflexivity|].
  split; [rewrite Hkeep, Hcur; reflexivity|].
  split.
  { rewrite Hheap. apply set_eq. intros x. rewrite dom_insert, elem_of_union, elem_of_singleton.
    split; [intros [->|H]; [apply elem_of_dom; eauto|exact H]|auto]. }
  split.
  { destruct Hq as (?&?&?&?&?&?&?). unfold quiet. cbn. auto 10. }
  split; [exact Hn|]. rewrite Hsl. reflexivity.
Qed.

Lemma poll_loop_keeps interval : forall n v w v' w',
  buffers_ok w v -> poll_loop n interval v w = Done v' w' ->
  buffers_ok w' v' /\
  dom (heap w') = dom (heap w) /\ quiet w w' /\
  ({[record_ptr v'; prev_ptr v']} : gset loc) = {[record_ptr v; prev_ptr v]} /\
  n_lookups w' = (n_lookups w + n * (3 + MAX_CPUS))%nat /\
  sleeps w' = sleeps w ++ replicate n (to_u32 interval).
Proof.
  induction n as [|n IH]; intros v w v' w' Hok Hrun.
  - injection Hrun as <- <-. cbn. rewrite app_nil_r, Nat.add_0_r.
    split; [exact Hok|]. split; [reflexivity|]. split; [apply quiet_refl|]. auto.
  - cbn [poll_loop] in Hrun.
    apply bind_done_inv in Hrun. destruct Hrun as (v1 & w1 & Hstep & Hrun).
    destruct (poll_iteration_keeps _ _ _ _ _ Hok Hstep)
      as (Hok1 & Hr & Hp & _ & Hdom & Hq & Hn & Hsl).
    destruct (IH _ _ _ _ Hok1 Hrun) as (Hok' & Hdom' & Hq' & Hset & Hn' & Hsl').
    split; [exact Hok'|]. split; [congruence|].
    split; [eapply quiet_trans; eassumption|].
    split.
    { rewrite Hset, Hr, Hp. apply set_eq. intros x.
      rewrite !elem_of_union, !elem_of_singleton. tauto. }
    split; [rewrite Hn', Hn; lia|].
    rewrite Hsl', Hsl, <- app_assoc. reflexivity.
Qed.

(** [stats_poll] after any number of rounds. *)
Lemma stats_poll_done n interval w v w' :
  stats_poll n interval w = Done v w' ->
  buffers_ok w' v /\
  heap w !! record_ptr v = None /\ heap w !! prev_ptr v = None /\
  dom (heap w') = {[record_ptr v; prev_ptr v]} ∪ dom (heap w) /\
  n_mallocs w' = (n_mallocs w + 2 * (4 + MAX_CPUS))%nat /\
  n_lookups w' = (n_lookups w + (n + 1) * (3 + MAX_CPUS))%nat /\
  sleeps w' = sleeps w ++ replicate n (to_u32 interval).
Proof.
  intros Hrun. unfold stats_poll in Hrun.
  apply bind_done_inv in Hrun. destruct Hrun as (p1 & w1 & Ha1 & Hrun).
  apply bind_done_inv in Hrun. destruct Hrun as (p2 & w2 & Ha2 & Hrun).
  apply bind_done_inv in Hrun. destruct Hrun as ([] & w3 & Hc & Hrun).
  destruct (alloc_stats_record_done _ _ _ Ha1) as (Hnew1 & Hheap1 & Hn1 & Hio1).
  destruct (alloc_stats_record_done _ _ _ Ha2) as (Hnew2 & Hheap2 & Hn2 & Hio2).
  assert (p1 <> p2) as Hne.
  { intros ->. rewrite Hheap1, lookup_insert_eq in Hnew2. discriminate. }
  assert (heap w !! p2 = None) as Hnew2'.
  { rewrite Hheap1, lookup_insert_ne in Hnew2 by exact Hne. exact Hnew2. }
  assert (possible_cpus w1 = possible_cpus w) as Hnr1 by apply Hio1.
  assert (possible_cpus w2 = possible_cpus w1) as Hnr2 by apply Hio2.
  assert (heap w2 !! p1 = Some (fresh_stats (possible_cpus w))) as Hs1.
  { rewrite Hheap2, lookup_insert_ne, Hheap1 by congruence. apply lookup_insert_eq. }
  destruct (stats_collect_frame _ _ _ _ Hc Hs1)
    as (Hq3 & s' & Hheap3 & Hwf3 & _ & Hsl3 & Hl3).
  assert (possible_cpus w3 = possible_cpus w2) as Hnr3 by apply Hq3.
  assert (buffers_ok w3 (mk_poll_vars p1 p2)) as Hok3.
  { split; [exact Hne|]. exists s', (fresh_stats (possible_cpus w)). cbn.
    rewrite Hnr3, Hnr2, Hnr1.
    split; [rewrite Hheap3; apply lookup_insert_eq|].
    split; [rewrite Hheap3, lookup_insert_ne, Hheap2, Hnr1 by congruence;
            apply lookup_insert_eq|].
    split; [apply Hwf3|]; apply wf_fresh_stats. }
  destruct (poll_loop_keeps _ _ _ _ _ _ Hok3 Hrun)
    as (Hok & Hdom & Hq & Hset & Hl & Hsl).
  cbn [record_ptr prev_ptr] in Hset.
  assert (record_ptr v ∈ ({[p1; p2]} : gset loc)) as Hr.
  { rewrite <- Hset. apply elem_of_union_l, elem_of_singleton. reflexivity. }
  assert (prev_ptr v ∈ ({[p1; p2]} : gset loc)) as Hp.
  { rewrite <- Hset. apply elem_of_union_r, elem_of_singleton. reflexivity. }
  apply elem_of_union in Hr, Hp. rewrite !elem_of_singleton in Hr, Hp.
  split; [exact Hok|].
  split; [destruct Hr as [->| ->]; assumption|].
  split; [destruct Hp as [->| ->]; assumption|].
  split.
  { rewrite Hdom, Hheap3, Hheap2, Hheap1, Hset. apply set_eq. intros x.
    rewrite !dom_insert, !elem_of_union, !elem_of_singleton. tauto. }
  split.
  { destruct Hq as (_&_&_&_&_&->&_). destruct Hq3 as (_&_&_&_&_&->&_). lia. }
  split.
  { rewrite Hl, Hl3.
    destruct Hio1 as (_&_&_&_&_&Hx&_). destruct Hio2 as (_&_&_&_&_&Hy&_). lia. }
  rewrite Hsl, Hsl3.
  destruct Hio1 as (_&_&_&_&_&_&_&_&_&Hx). destruct Hio2 as (_&_&_&_&_&_&_&_&_&Hy).
  congruence.
Qed.

(** [stats_poll] exits only when the clock cannot be read. *)
Lemma stats_poll_exit n interval w code w' :
  stats_poll n interval w = Exit code w' -> code = EXIT_FAIL.
Proof.
  unfold stats_poll. intros H.
  apply bind_exit_inv in H. destruct H as [H|(p1 & w1 & _ & H)].
  { destruct (alloc_stats_record_cases w) as [Hok Hfault].
    destruct (mallocs_ok_dec w (4 + MAX_CPUS)) as [Hm|(j & Hj & Hfalse)].
    - destruct (Hok Hm) as (w'' & Hrun & _). congruence.
    - rewrite (Hfault j Hj Hfalse) in H. discriminate. }
  apply bind_exit_inv in H. destruct H as [H|(p2 & w2 & _ & H)].
  { destruct (alloc_stats_record_cases w1) as [Hok Hfault].
    destruct (mallocs_ok_dec w1 (4 + MAX_CPUS)) as [Hm|(j & Hj & Hfalse)].
    - destruct (Hok Hm) as (w'' & Hrun & _). congruence.
    - rewrite (Hfault j Hj Hfalse) in H. discriminate. }
  apply bind_exit_inv in H. destruct H as [H|([] & w3 & _ & H)].
  - pose proof (safe_stats_collect p1 w2) as Hs. rewrite H in Hs. apply Hs.
  - pose proof (safe_poll_loop n interval (mk_poll_vars p1 p2) w3) as Hs.
    rewrite H in Hs. apply Hs.
Qed.

(** X8.  The two buffers of [stats_poll]. After any number of rounds,
    [record] and [prev] are two different addresses, both new, both
    holding well-formed snapshots, and nothing else was allocated: [2 * (4
    + MAX_CPUS)] allocations, [(n + 1) * (3 + MAX_CPUS)] lookups and [n]
    calls of [sleep], each with [interval] converted to [unsigned int],
    were made. One round swaps the two pointers, keeps the snapshot that
    was current unchanged as the previous one, and allocates nothing. *)
Theorem poll_buffers_invariant :
  (forall n interval w v w',
     stats_poll n interval w = Done v w' ->
     buffers_ok w' v /\
     heap w !! record_ptr v = None /\ heap w !! prev_ptr v = None /\
     dom (heap w') = {[record_ptr v; prev_ptr v]} ∪ dom (heap w) /\
     n_mallocs w' = (n_mallocs w + 2 * (4 + MAX_CPUS))%nat /\
     n_lookups w' = (n_lookups w + (n + 1) * (3 + MAX_CPUS))%nat /\
     sleeps w' = sleeps w ++ replicate n (to_u32 interval)) /\
  (forall interval v w v' w',
     buffers_ok w v -> poll_iteration interval v w = Done v' w' ->
     buffers_ok w' v' /\
     record_ptr v' = prev_ptr v /\ prev_ptr v' = record_ptr v /\
     heap w' !! prev_ptr v' = heap w !! record_ptr v /\
     dom (heap w') = dom (heap w) /\ n_mallocs w' = n_mallocs w).
Proof.
  split; [exact stats_poll_done|].
  intros interval v w v' w' Hok Hrun.
  destruct (poll_iteration_keeps _ _ _ _ _ Hok Hrun)
    as (H1 & H2 & H3 & H4 & H5 & H6 & _).
  repeat (split; [assumption|]). apply H6.
Qed.

Lemma poll_buffers_invariant_witness :
  exists v w',
    stats_poll 1 2 scenario1 = Done v w' /\
    buffers_ok w' v /\ n_mallocs w' = 32%nat /\ n_lookups w' = 30%nat /\
    sleeps w' = [2].
Proof.
  assert (exists v w', stats_poll 1 2 scenario1 = Done v w') as (v & w' & Hrun)
      by (do 2 eexists; vm_compute; reflexivity).
  exists v, w'. split; [exact Hrun|].
  destruct (proj1 poll_buffers_invariant _ _ _ _ _ Hrun)
    as (Hok & _ & _ & _ & Hm & Hl & Hs).
  split; [exact Hok|]. split; [exact Hm|]. split; [exact Hl|exact Hs].
Defined.

(** One iteration on two good buffers: what it reads, writes and prints. *)
Lemma poll_iteration_report interval v w v' w' s0 :
  buffers_ok w v -> heap w !! record_ptr v = Some s0 ->
  poll_iteration interval v w = Done v' w' ->
  exists s1,
    heap w' !! record_ptr v' = Some s1 /\ heap w' !! prev_ptr v' = Some s0 /\
    stdout w' = stdout w ++ render (possible_cpus w) s1 s0.
Proof.
  intros (Hne & cur & old & Hcur & Hold & _) Hs0 Hrun.
  apply poll_iteration_done in Hrun.
  destruct Hrun as (-> & w1 & cur1 & old1 & Hc & Hcur1 & Hold1 & _ & ->).
  destruct (stats_collect_frame _ _ _ _ Hc Hold) as (Hq & s' & Hheap & _ & Hout & _).
  assert (possible_cpus w1 = possible_cpus w) as Hnr by apply Hq.
  rewrite Hheap, lookup_insert_ne in Hold1 by congruence.
  rewrite Hs0 in Hold1. injection Hold1 as <-.
  exists cur1. cbn. rewrite Hnr, Hout.
  split; [exact Hcur1|]. split; [|reflexivity].
  rewrite Hheap, lookup_insert_ne by congruence. exact Hs0.
Qed.

(** X9.  Two consecutive rounds of the loop of [stats_poll]: the report of
    the second round compares its new snapshot with the snapshot the first
    round collected (the current one of the first report), which is still
    in the heap unchanged; after two rounds the two pointers are back
    where they were. *)
Theorem consecutive_reports interval v w v1 w1 v2 w2 :
  buffers_ok w v ->
  poll_iteration interval v w = Done v1 w1 ->
  poll_iteration interval v1 w1 = Done v2 w2 ->
  exists s0 s1 s2,
    heap w !! record_ptr v = Some s0 /\
    heap w1 !! record_ptr v1 = Some s1 /\
    heap w2 !! record_ptr v2 = Some s2 /\ heap w2 !! prev_ptr v2 = Some s1 /\
    stdout w1 = stdout w ++ render (possible_cpus w) s1 s0 /\
    stdout w2 = stdout w1 ++ render (possible_cpus w) s2 s1 /\
    record_ptr v2 = record_ptr v /\ prev_ptr v2 = prev_ptr v.
Proof.
  intros Hok Hrun1 Hrun2.
  pose proof Hok as (_ & s0 & _ & Hs0 & _).
  destruct (poll_iteration_keeps _ _ _ _ _ Hok Hrun1)
    as (Hok1 & Hr1 & Hp1 & _ & _ & Hq & _).
  destruct (poll_iteration_keeps _ _ _ _ _ Hok1 Hrun2) as (_ & Hr2 & Hp2 & _).
  destruct (poll_iteration_report _ _ _ _ _ _ Hok Hs0 Hrun1) as (s1 & Hs1 & _ & Hout1).
  destruct (poll_iteration_report _ _ _ _ _ _ Hok1 Hs1 Hrun2) as (s2 & Hs2 & Hs1' & Hout2).
  assert (possible_cpus w1 = possible_cpus w) as Hnr by apply Hq.
  rewrite Hnr in Hout2.
  exists s0, s1, s2. repeat (split; [assumption|]). split; congruence.
Qed.

Lemma consecutive_reports_witness :
  exists w1 w2 s0 s1 s2,
    poll_iteration 2 (mk_poll_vars 1%positive 2%positive) (after_baseline scenario1)
    = Done (mk_poll_vars 2%positive 1%positive) w1 /\
    poll_iteration 2 (mk_poll_vars 2%positive 1%positive) w1
    = Done (mk_poll_vars 1%positive 2%positive) w2 /\
    heap w2 !! 2%positive = Some s1 /\
    stdout w1 = render 4 s1 s0 /\
    stdout w2 = stdout w1 ++ render 4 s2 s1.
Proof.
  assert (exists w1 w2,
             poll_iteration 2 (mk_poll_vars 1%positive 2%positive)
                            (after_baseline scenario1)
             = Done (mk_poll_vars 2%positive 1%positive) w1 /\
             poll_iteration 2 (mk_poll_vars 2%positive 1%positive) w1
             = Done (mk_poll_vars 1%positive 2%positive) w2)
    as (w1 & w2 & H1 & H2)
      by (do 2 eexists; split; [vm_compute; reflexivity|]; vm_compute; reflexivity).
  assert (buffers_ok (after_baseline scenario1)
                     (mk_poll_vars 1%positive 2%positive)) as Hok.
  { apply (stats_poll_done 0 2 scenario1). vm_compute. reflexivity. }
  destruct (consecutive_reports _ _ _ _ _ _ _ Hok H1 H2)
    as (s0 & s1 & s2 & _ & _ & _ & Hp & Ho1 & Ho2 & _).
  exists w1, w2, s0, s1, s2.
  split; [exact H1|]. split; [exact H2|]. split; [exact Hp|].
  split; [exact Ho1|exact Ho2].
Defined.

(** * The report never terminates the process *)

Lemma never_exits_ret {A} (a : A) : never_exits (mret a).
Proof. intros w code w'. discriminate. Qed.

Lemma never_exits_bind {A B} (m : M A) (f : A -> M B) :
  never_exits m -> (forall a, never_exits (f a)) -> never_exits (m ≫= f).
Proof.
  intros Hm Hf w code w' H. apply bind_exit_inv in H.
  destruct H as [H|(a & w1 & _ & H)]; [eapply Hm|eapply Hf]; exact H.
Qed.


Lemma never_exits_defined {A} (o : option A) : never_exits (defined o).
Proof. destruct o; intros w code w'; discriminate. Qed.

Lemma never_exits_printf f a : never_exits (printf f a).
Proof. intros w code w'. discriminate. Qed.

Lemma never_exits_nr_cpus : never_exits bpf_num_possible_cpus.
Proof. intros w code w'. discriminate. Qed.

Lemma never_exits_load p : never_exits (load p).
Proof.
  apply never_exits_bind; [intros w code w'; discriminate|].
  intros w. apply never_exits_defined.
Qed.

Lemma never_exits_rate v : never_exits (rate v).
Proof.
  apply never_exits_bind; [apply never_exits_defined|]. intros z. apply never_exits_ret.
Qed.

Create HintDb noexit discriminated.
#[local] Hint Resolve never_exits_ret never_exits_defined never_exits_printf
  never_exits_nr_cpus never_exits_load never_exits_rate : noexit.





(** * Reports that are always defined *)

Lemma settled_rates rec prev r p :
  settled rec prev ->
  is_Some (calc_pps r p (calc_period rec prev)) /\
  is_Some (calc_drop_pps r p (calc_period rec prev)).
Proof.
  intros [Hz|Hd].
  - unfold calc_period. rewrite Hz. cbn. eauto.
  - unfold calc_period, calc_pps, calc_drop_pps.
    pose proof (u64_sub_range (timestamp rec) (timestamp prev)) as Hrange.
    destruct (Z.ltb_spec 0 (U64.sub (timestamp rec) (timestamp prev))) as [_|];
      [|unfold NANOSEC_PER_SEC in Hd; lia].
    destruct (period_beyond_one_second _ (conj Hd (proj2 Hrange))) as (m & e & -> & Ht).
    cbn [Double.ltb Double.zero SFltb SFcompare].
    destruct (rate_defined_beyond _ m e (u64_sub_range (processed r) (processed p)) Ht)
      as (a & -> & _).
    destruct (rate_defined_beyond _ m e (u64_sub_range (dropped r) (dropped p)) Ht)
      as (b & -> & _).
    eauto.
Qed.

Lemma settled_rows nr_cpus rec prev :
  wf_record nr_cpus rec -> wf_record nr_cpus prev -> settled rec prev ->
  rows_defined (rx_row rec prev) nr_cpus /\
  (forall mk, rows_defined (rate_row mk rec prev) nr_cpus).
Proof.
  unfold wf_record, rows_defined. intros Hr Hp Hs. split; [|intros mk]; intros i Hi.
  - destruct (lookup_lt_is_Some_2 (cpu rec) i ltac:(lia)) as [r Hri].
    destruct (lookup_lt_is_Some_2 (cpu prev) i ltac:(lia)) as [p Hpi].
    destruct (settled_rates rec prev r p Hs) as [[a Ha] _].
    unfold rx_row. rewrite Hri, Hpi. cbn. rewrite Ha. cbn. eauto.
  - destruct (lookup_lt_is_Some_2 (cpu rec) i ltac:(lia)) as [r Hri].
    destruct (lookup_lt_is_Some_2 (cpu prev) i ltac:(lia)) as [p Hpi].
    destruct (settled_rates rec prev r p Hs) as [[a Ha] [b Hb]].
    unfold rate_row. rewrite Hri, Hpi. cbn. rewrite Ha. cbn. rewrite Hb. cbn. eauto.
Qed.

(** X11.  [stats_print] on two well-formed snapshots completes and prints
    the report whenever, for every table, the two timestamps are equal or
    more than one second apart: in no row can the conversion of a rate to
    [__u64] be undefined then. *)
Theorem report_defined_when_settled stats_rec stats_prev w cur old :
  heap w !! stats_rec = Some cur -> heap w !! stats_prev = Some old ->
  wf_stats (possible_cpus w) cur -> wf_stats (possible_cpus w) old ->
  (forall fld rec prev,
     get_field fld cur = Some rec -> get_field fld old = Some prev ->
     settled rec prev) ->
  stats_print stats_rec stats_prev w
  = Done tt (set_stdout (stdout w ++ render (possible_cpus w) cur old) w).
Proof.
  intros Hcur Hold Hwfc Hwfo Hs.
  apply stats_print_render; try assumption.
  assert (forall fld rec prev,
            get_field fld cur = Some rec -> get_field fld old = Some prev ->
            rows_defined (rx_row rec prev) (possible_cpus w) /\
            (forall mk, rows_defined (rate_row mk rec prev) (possible_cpus w)) /\
            is_Some (calc_pps (total rec) (total prev) (calc_period rec prev)) /\
            is_Some (calc_drop_pps (total rec) (total prev) (calc_period rec prev)))
    as Htab.
  { intros fld rec prev Hr Hp.
    pose proof (Hs fld rec prev Hr Hp) as Hset.
    destruct (settled_rows (possible_cpus w) rec prev
                (wf_get_field _ _ _ _ Hwfc Hr) (wf_get_field _ _ _ _ Hwfo Hp) Hset)
      as [H1 H2].
    destruct (settled_rates rec prev (total rec) (total prev) Hset) as [H3 H4].
    auto. }
  split; [|split; [|split]].
  - destruct (Htab F_rx_cnt _ _ eq_refl eq_refl) as (H1 & _ & H3 & _). split; assumption.
  - intros to_cpu Hto.
    destruct (field_ok_some _ (F_enq to_cpu) cur Hwfc Hto) as [rec Hr].
    destruct (field_ok_some _ (F_enq to_cpu) old Hwfo Hto) as [prev Hp].
    exists rec, prev. split; [exact Hr|]. split; [exact Hp|].
    destruct (Htab _ _ _ Hr Hp) as (_ & H2 & H3 & H4).
    split; [apply H2|]. split; [exact H3|]. intros _. exact H4.
  - destruct (Htab F_kthread _ _ eq_refl eq_refl) as (_ & H2 & H3 & H4).
    split; [apply H2|]. split; assumption.
  - destruct (Htab F_redir_err _ _ eq_refl eq_refl) as (_ & H2 & H3 & H4).
    split; [apply H2|]. split; assumption.
Qed.

Lemma sample_stats_settled fld rec prev :
  get_field fld sample_stats = Some rec -> get_field fld sample_stats = Some prev ->
  settled rec prev.
Proof.
  intros Hr Hp. rewrite Hr in Hp. injection Hp as <-. left.
  unfold U64.sub. rewrite Z.sub_diag. reflexivity.
Qed.

Lemma report_defined_when_settled_witness :
  stats_print 1%positive 2%positive identical_snapshots
  = Done tt (set_stdout (stdout identical_snapshots
                         ++ render 4 sample_stats sample_stats)
                        identical_snapshots).
Proof.
  apply (report_defined_when_settled 1%positive 2%positive identical_snapshots
           sample_stats sample_stats).
  - reflexivity.
  - reflexivity.
  - unfold wf_stats, wf_record. repeat split. repeat constructor.
  - unfold wf_stats, wf_record. repeat split. repeat constructor.
  - exact sample_stats_settled.
Defined.

(** * The size of a report *)

Lemma cpu_rows_length row nr_cpus :
  (forall i, length (default [] (row i)) <= 1)%nat ->
  (length (cpu_rows row nr_cpus) <= nr_cpus)%nat.
Proof.
  intros Hrow. unfold cpu_rows. generalize 0%nat.
  induction nr_cpus as [|n IH]; intros start; [cbn; lia|].
  cbn [seq flat_map]. rewrite length_app. specialize (Hrow start).
  specialize (IH (S start)). lia.
Qed.

Lemma rx_row_length rec prev i : (length (default [] (rx_row rec prev i)) <= 1)%nat.
Proof.
  unfold rx_row.
  destruct (cpu rec !! i) as [r|]; [|cbn; lia].
  destruct (cpu prev !! i) as [p|]; [|cbn; lia]. cbn.
  destruct (calc_pps r p _) as [pps|]; [|cbn; lia]. cbn.
  destruct (pps =? 0); cbn; lia.
Qed.

Lemma rate_row_length mk rec prev i :
  (length (default [] (rate_row mk rec prev i)) <= 1)%nat.
Proof.
  unfold rate_row.
  destruct (cpu rec !! i) as [r|]; [|cbn; lia].
  destruct (cpu prev !! i) as [p|]; [|cbn; lia]. cbn.
  destruct (calc_pps r p _) as [pps|]; [|cbn; lia]. cbn.
  destruct (calc_drop_pps r p _) as [drop|]; [|cbn; lia]. cbn.
  destruct (pps =? 0); cbn; lia.
Qed.

Lemma enq_blocks_length nr_cpus cur old :
  (length (enq_blocks nr_cpus cur old) <= MAX_CPUS * (nr_cpus + 1))%nat.
Proof.
  unfold enq_blocks.
  enough (forall n start,
             length (flat_map (fun to_cpu =>
                                 match enq cur !! to_cpu, enq old !! to_cpu with
                                 | Some rec, Some prev => enq_block nr_cpus to_cpu rec prev
                                 | _, _ => []
                                 end) (seq start n)) <= n * (nr_cpus + 1))%nat as Hall
      by apply Hall.
  induction n as [|n IH]; intros start; [cbn; lia|].
  cbn [seq flat_map]. rewrite length_app.
  assert (length match enq cur !! start, enq old !! start with
                 | Some rec, Some prev => enq_block nr_cpus start rec prev
                 | _, _ => []
                 end <= nr_cpus + 1)%nat as Hone.
  { destruct (enq cur !! start) as [rec|]; [|cbn; lia].
    destruct (enq old !! start) as [prev|]; [|cbn; lia].
    unfold enq_block. rewrite length_app.
    pose proof (cpu_rows_length (rate_row (line_enq_cpu start) rec prev) nr_cpus
                  (rate_row_length _ rec prev)).
    destruct (total_pps rec prev =? 0); cbn [length]; lia. }
  rewrite Nat.mul_succ_l.
  apply (Nat.le_trans _ _ _ (Nat.add_le_mono _ _ _ _ Hone (IH (S start)))). lia.
Qed.

Lemma render_length nr_cpus cur old :
  (5 <= length (render nr_cpus cur old) <= 17 + 15 * nr_cpus)%nat.
Proof.
  unfold render, rx_block, total_block. rewrite !length_app. cbn [length].
  pose proof (cpu_rows_length (rx_row (rx_cnt cur) (rx_cnt old)) nr_cpus
                (rx_row_length _ _)).
  pose proof (cpu_rows_length
                (rate_row (line_cpu "cpumap_kthread") (kthread cur) (kthread old))
                nr_cpus (rate_row_length _ _ _)).
  pose proof (cpu_rows_length
                (rate_row (line_cpu "redirect_err") (redir_err cur) (redir_err old))
                nr_cpus (rate_row_length _ _ _)).
  pose proof (enq_blocks_length nr_cpus cur old). unfold MAX_CPUS in *. lia.
Qed.

(** X12.  A report that [stats_print] completes consists of at least 5 and
    at most [17 + 15 * nr_cpus] calls of [printf]. *)
Theorem report_size stats_rec stats_prev w u w' :
  stats_print stats_rec stats_prev w = Done u w' ->
  exists out,
    stdout w' = stdout w ++ out /\
    (5 <= length out <= 17 + 15 * possible_cpus w)%nat.
Proof.
  intros H.
  destruct (stats_print_done _ _ _ _ _ H) as (cur & old & Hcur & Hold & Hdef).
  rewrite (stats_print_render _ _ _ _ _ Hcur Hold Hdef) in H. injection H as _ <-.
  exists (render (possible_cpus w) cur old). split; [reflexivity|].
  apply render_length.
Qed.

Lemma report_size_witness :
  exists w' out,
    stats_print 1%positive 2%positive identical_snapshots = Done tt w' /\
    stdout w' = stdout identical_snapshots ++ out /\
    (5 <= length out <= 17 + 15 * 4)%nat.
Proof.
  assert (exists w', stats_print 1%positive 2%positive identical_snapshots
                     = Done tt w') as [w' Hrun]
      by (eexists; vm_compute; reflexivity).
  destruct (report_size _ _ _ _ _ Hrun) as (out & Hout & Hlen).
  exists w', out. split; [exact Hrun|]. split; [exact Hout|exact Hlen].
Defined.

(** * The usage text and the options *)

(** * The usage text *)

Lemma set_stdout_twice w l1 l2 :
  set_stdout (stdout (set_stdout l1 w) ++ l2) (set_stdout l1 w)
  = set_stdout (l1 ++ l2) w.
Proof. reflexivity. Qed.

Lemma usage_options_listed before sentinel rest w :
  Forall (fun o => is_Some (name o)) before -> name sentinel = None ->
  usage_options (before ++ sentinel :: rest) w
  = Done tt (set_stdout (stdout w ++ flat_map option_lines before) w).
Proof.
  intros Hall Hs. revert w. induction Hall as [|o before [n Hn] _ IH]; intros w.
  - cbn. rewrite Hs, app_nil_r. destruct w; reflexivity.
  - cbn [app usage_options flat_map]. rewrite Hn.
    assert (option_lines o =
            [Printf " --%-12s" [AStr n];
             match flag o with
             | Some v => Printf " flag (internal value:%d)" [AInt v]
             | None => Printf " short-option: -%c" [AInt (val o)]
             end;
             Printf "\n" []]) as ->.
    { unfold option_lines. rewrite Hn. reflexivity. }
    destruct (flag o) as [v|];
      do 3 (erewrite bind_done; [|apply printf_eq]);
      rewrite IH; unfold set_stdout; cbn; rewrite <- !app_assoc; reflexivity.
Qed.

Lemma usage_options_unterminated opts w :
  Forall (fun o => is_Some (name o)) opts -> usage_options opts w = Fault.
Proof.
  intros Hall. revert w. induction Hall as [|o opts [n Hn] _ IH]; intros w.
  - reflexivity.
  - cbn [usage_options]. rewrite Hn.
    destruct (flag o) as [v|];
      do 3 (erewrite bind_done; [|apply printf_eq]); apply IH.
Qed.

Lemma usage_eq argv0 w :
  usage argv0 w = Done tt (set_stdout (stdout w ++ usage_text argv0) w).
Proof.
  unfold usage.
  do 4 (erewrite bind_done; [|apply printf_eq]).
  erewrite bind_done.
  2:{ apply (usage_options_listed (take 7 long_options) (mk_option None 0 None 0) []).
      - repeat constructor; cbn; eauto.
      - reflexivity. }
  rewrite printf_eq, !set_stdout_app. reflexivity.
Qed.

(** X13.  [usage] prints the documentation string, the usage line, then
    one line per entry of [long_options] up to the entry with a null name,
    and a closing empty line; on a table without such an entry the loop
    reads past the end: undefined. With the table of the program that is
    26 calls of [printf], each option with its short-option letter and
    none with the flag format. *)
Theorem usage_lists_every_option :
  (forall before sentinel rest w,
     Forall (fun o => is_Some (name o)) before -> name sentinel = None ->
     usage_options (before ++ sentinel :: rest) w
     = Done tt (set_stdout (stdout w ++ flat_map option_lines before) w)) /\
  (forall opts w,
     Forall (fun o => is_Some (name o)) opts -> usage_options opts w = Fault) /\
  (forall argv0 w,
     usage argv0 w = Done tt (set_stdout (stdout w ++ usage_text argv0) w)) /\
  (forall argv0 l,
     In l (usage_text argv0) ->
     fmt l <> " flag (internal value:%d)"%string) /\
  (forall argv0, length (usage_text argv0) = 26%nat).
Proof.
  split; [exact usage_options_listed|]. split; [exact usage_options_unterminated|].
  split; [exact usage_eq|]. split.
  - intros argv0 l Hin. unfold usage_text in Hin. cbn in Hin.
    repeat (destruct Hin as [<-|Hin]; [discriminate|]). contradiction.
  - reflexivity.
Qed.

Lemma usage_lists_every_option_witness :
  usage_options long_options scenario1
  = Done tt (set_stdout (stdout scenario1
                         ++ flat_map option_lines (take 7 long_options))
                        scenario1).
Proof.
  apply (proj1 usage_lists_every_option (take 7 long_options)
               (mk_option None 0 None 0) [] scenario1).
  - repeat (constructor; [eexists; reflexivity|]). constructor.
  - reflexivity.
Defined.

(** * The process monad *)

Section ProcessMonad.
Context {A B : Type}.

Lemma pbind_ret (m : P A) (f : A -> P B) p a p1 :
  m p = Ret a p1 -> (m ≫= f) p = f a p1.
Proof. unfold mbind, P_bind. intros ->. reflexivity. Qed.

Lemma pbind_halt (m : P A) (f : A -> P B) p code p1 :
  m p = Halt code p1 -> (m ≫= f) p = Halt code p1.
Proof. unfold mbind, P_bind. intros ->. reflexivity. Qed.

Lemma pbind_undef (m : P A) (f : A -> P B) p :
  m p = Undef -> (m ≫= f) p = Undef.
Proof. unfold mbind, P_bind. intros ->. reflexivity. Qed.

Lemma pbind_ret_inv (m : P A) (f : A -> P B) p b p2 :
  (m ≫= f) p = Ret b p2 -> exists a p1, m p = Ret a p1 /\ f a p1 = Ret b p2.
Proof.
  unfold mbind, P_bind. destruct (m p) as [a p1| |]; try discriminate. eauto.
Qed.

Lemma pbind_halt_inv (m : P A) (f : A -> P B) p code p2 :
  (m ≫= f) p = Halt code p2 ->
  m p = Halt code p2 \/ exists a p1, m p = Ret a p1 /\ f a p1 = Halt code p2.
Proof.
  unfold mbind, P_bind. destruct (m p) as [a p1|c p1|]; try discriminate; eauto.
  intros [= -> ->]. left. reflexivity.
Qed.

End ProcessMonad.

Lemma lift_done {A} (m : M A) p a w :
  m (sys p) = Done a w -> lift m p = Ret a (set_sys w p).
Proof. unfold lift. intros ->. reflexivity. Qed.

Lemma lift_exit {A} (m : M A) p code w :
  m (sys p) = Exit code w -> lift m p = Halt code (set_sys w p).
Proof. unfold lift. intros ->. reflexivity. Qed.

Lemma lift_fprintf f a p :
  lift (fprintf_stderr f a) p
  = Ret tt (set_sys (set_stderr (stderr (sys p) ++ [Printf f a]) (sys p)) p).
Proof. reflexivity. Qed.

Lemma lift_printf f a p :
  lift (printf f a) p
  = Ret tt (set_sys (set_stdout (stdout (sys p) ++ [Printf f a]) (sys p)) p).
Proof. reflexivity. Qed.

Lemma lift_usage argv0 p :
  lift (usage argv0) p
  = Ret tt (set_sys (set_stdout (stdout (sys p) ++ usage_text argv0) (sys p)) p).
Proof. apply lift_done, usage_eq. Qed.

Lemma option_error_eq argv0 p :
  option_error argv0 p
  = Ret (inl EXIT_FAIL_OPTION)
        (set_sys (set_stdout (stdout (sys p) ++ usage_text argv0) (sys p)) p).
Proof. unfold option_error. erewrite pbind_ret; [|apply lift_usage]. reflexivity. Qed.

Lemma substring_all s n : (String.length s <= n)%nat -> substring 0 n s = s.
Proof.
  revert n. induction s as [|c s IH]; intros n Hn; destruct n as [|n]; cbn in *;
    try reflexivity; try lia.
  rewrite IH by lia. reflexivity.
Qed.

Lemma strncpy_fits arg :
  (String.length arg < IF_NAMESIZE)%nat -> strncpy arg IF_NAMESIZE = arg.
Proof. intros H. apply substring_all. lia. Qed.

(** * The options *)

Lemma output_only_refl w : output_only w w.
Proof. unfold output_only. destruct w; reflexivity. Qed.

Lemma output_only_trans w1 w2 w3 :
  output_only w1 w2 -> output_only w2 w3 -> output_only w1 w3.
Proof. unfold output_only. intros H1 H2. rewrite H2, H1. reflexivity. Qed.

Lemma output_only_stdout w l : output_only w (set_stdout l w).
Proof. unfold output_only. destruct w; reflexivity. Qed.

Lemma output_only_stderr w l : output_only w (set_stderr l w).
Proof. unfold output_only. destruct w; reflexivity. Qed.

Lemma parsed_refl p : parsed p p.
Proof.
  split; [reflexivity|]. split; [reflexivity|]. split; [apply output_only_refl|].
  exists []. rewrite app_nil_r. auto.
Qed.

Lemma parsed_trans p1 p2 p3 : parsed p1 p2 -> parsed p2 p3 -> parsed p1 p3.
Proof.
  intros (He & Hs & Ho & ks & Hk & Hl) (He' & Hs' & Ho' & ks' & Hk' & Hl').
  split; [congruence|]. split; [congruence|].
  split; [eapply output_only_trans; eassumption|].
  exists (ks ++ ks'). rewrite Hk', Hk, app_assoc. split; [reflexivity|].
  apply Forall_app. auto.
Qed.

Lemma parsed_output p w :
  output_only (sys p) w -> parsed p (set_sys w p).
Proof.
  intros H. split; [reflexivity|]. split; [reflexivity|]. split; [exact H|].
  exists []. cbn. rewrite app_nil_r. auto.
Qed.

(** One option: [handle_option] as a decision tree. *)
Lemma handle_option_eq argv0 opt optarg l p :
  handle_option argv0 opt optarg l p =
    let failed q :=
      Ret (inl EXIT_FAIL_OPTION)
          (set_sys (set_stdout (stdout (sys q) ++ usage_text argv0) (sys q)) q) in
    let complain f a q :=
      set_sys (set_stderr (stderr (sys q) ++ [Printf f a]) (sys q)) q in
    if opt =? char "d" then
      match optarg with
      | None => Undef
      | Some arg =>
          if (IF_NAMESIZE <=? String.length arg)%nat then
            failed (complain "ERR: --dev name too long\n"%string [] p)
          else
            let dev := strncpy arg IF_NAMESIZE in
            let i := to_int (answer (env p) (kernel p) (K_if_nametoindex dev)) in
            let p1 := set_ifindex i (set_kernel (kernel p ++ [K_if_nametoindex dev])
                                                (set_ifname (Some dev) p)) in
            if i =? 0 then
              failed (complain "ERR: --dev name unknown err(%d):%s\n"%string
                               [AInt (errno (env p1) (kernel p1));
                                AStr (strerror (env p1) (errno (env p1) (kernel p1)))]
                               p1)
            else Ret (inr l) p1
      end
    else if opt =? char "s" then
      match optarg with
      | None => Undef
      | Some arg =>
          Ret (inr (mk_locals (debug l) (atoi (env p) arg) (prog_num l) (qsize l))) p
      end
    else if opt =? char "S" then
      Ret (inr l) (set_xdp_flags (Z.lor (xdp_flags p) XDP_FLAGS_SKB_MODE) p)
    else if opt =? char "D" then
      Ret (inr (mk_locals true (interval l) (prog_num l) (qsize l))) p
    else if opt =? char "p" then
      match optarg with
      | None => Undef
      | Some arg =>
          if (atoi (env p) arg <? 0) || (MAX_PROG <=? atoi (env p) arg) then
            failed (complain "--prognum too large err(%d):%s\n"%string
                             [AInt (errno (env p) (kernel p));
                              AStr (strerror (env p) (errno (env p) (kernel p)))] p)
          else
            Ret (inr (mk_locals (debug l) (interval l) (atoi (env p) arg) (qsize l))) p
      end
    else if opt =? char "q" then
      match optarg with
      | None => Undef
      | Some arg =>
          Ret (inr (mk_locals (debug l) (interval l) (prog_num l)
                              (to_u32 (atoi (env p) arg)))) p
      end
    else failed p.
Proof.
  unfold handle_option. cbv zeta.
  destruct (opt =? char "d").
  { destruct optarg as [arg|]; [|reflexivity].
    erewrite pbind_ret; [|apply lift_done; reflexivity].
    replace (set_sys (sys p) p) with p by (destruct p; reflexivity).
    destruct (IF_NAMESIZE <=? String.length arg)%nat.
    - erewrite pbind_ret; [|apply lift_fprintf]. apply option_error_eq.
    - erewrite pbind_ret; [|reflexivity].
      erewrite pbind_ret; [|reflexivity].
      erewrite pbind_ret; [|reflexivity].
      cbn [env set_ifname kernel].
      destruct (to_int (answer (env p) (kernel p) _) =? 0); [|reflexivity].
      erewrite pbind_ret; [|reflexivity].
      erewrite pbind_ret; [|apply lift_fprintf]. apply option_error_eq. }
  destruct (opt =? char "s").
  { destruct optarg as [arg|]; [destruct p|]; reflexivity. }
  destruct (opt =? char "S"); [reflexivity|].
  destruct (opt =? char "D"); [reflexivity|].
  destruct (opt =? char "p").
  { destruct optarg as [arg|]; [|reflexivity].
    erewrite pbind_ret; [|apply lift_done; reflexivity].
    replace (set_sys (sys p) p) with p by (destruct p; reflexivity).
    erewrite pbind_ret; [|reflexivity]. cbv zeta.
    destruct ((atoi (env p) arg <? 0) || (MAX_PROG <=? atoi (env p) arg)); [|reflexivity].
    erewrite pbind_ret; [|apply lift_fprintf]. apply option_error_eq. }
  destruct (opt =? char "q").
  { destruct optarg as [arg|]; [destruct p|]; reflexivity. }
  apply option_error_eq.
Qed.

Lemma parsed_failed argv0 p q :
  parsed p q ->
  parsed p (set_sys (set_stdout (stdout (sys q) ++ usage_text argv0) (sys q)) q).
Proof.
  intros H. eapply parsed_trans; [exact H|]. apply parsed_output, output_only_stdout.
Qed.

Lemma parsed_complain f a p :
  parsed p (set_sys (set_stderr (stderr (sys p) ++ [Printf f a]) (sys p)) p).
Proof. apply parsed_output, output_only_stderr. Qed.

Lemma parsed_lookup p dev i n :
  (String.length dev < IF_NAMESIZE)%nat ->
  parsed p (set_ifindex i (set_kernel (kernel p ++ [K_if_nametoindex dev])
                                      (set_ifname n p))).
Proof.
  intros Hlen.
  split; [reflexivity|]. split; [reflexivity|]. split; [apply output_only_refl|].
  exists [K_if_nametoindex dev]. split; [reflexivity|].
  constructor; [exact Hlen|constructor].
Qed.

Lemma handle_option_spec argv0 opt optarg l p :
  device_ok p -> locals_ok l ->
  match handle_option argv0 opt optarg l p with
  | Ret (inr l') p' =>
      parsed p p' /\ device_ok p' /\ locals_ok l' /\
      stdout (sys p') = stdout (sys p) /\ stderr (sys p') = stderr (sys p)
  | Ret (inl code) p' =>
      code = EXIT_FAIL_OPTION /\ parsed p p' /\
      stdout (sys p') = stdout (sys p) ++ usage_text argv0
  | Halt _ _ => False
  | Undef => optarg = None
  end.
Proof.
  intros Hdev Hl. rewrite handle_option_eq. cbv zeta.
  destruct (opt =? char "d").
  { destruct optarg as [arg|]; [|reflexivity].
    destruct (Nat.leb_spec IF_NAMESIZE (String.length arg)) as [Hlong|Hfits].
    - split; [reflexivity|]. split; [|reflexivity].
      apply parsed_failed, parsed_complain.
    - rewrite (strncpy_fits arg Hfits).
      destruct (Z.eqb_spec (to_int (answer (env p) (kernel p) (K_if_nametoindex arg))) 0)
        as [Hz|Hnz].
      + split; [reflexivity|]. split; [|reflexivity].
        apply parsed_failed. eapply parsed_trans; [apply parsed_lookup, Hfits|].
        apply parsed_complain.
      + split; [apply parsed_lookup, Hfits|]. split; [|auto].
        right. exists arg, (kernel p). cbn. auto. }
  destruct (opt =? char "s").
  { destruct optarg as [arg|]; [|reflexivity].
    split; [apply parsed_refl|]. auto. }
  destruct (opt =? char "S").
  { split; [|split; [|auto]].
    - split; [reflexivity|]. split; [reflexivity|]. split; [apply output_only_refl|].
      exists []. cbn. rewrite app_nil_r. auto.
    - destruct Hdev as [H|(dev & before & H)]; [left|right; exists dev, before];
        exact H. }
  destruct (opt =? char "D").
  { split; [apply parsed_refl|]. auto. }
  destruct (opt =? char "p").
  { destruct optarg as [arg|]; [|reflexivity].
    destruct (Z.ltb_spec (atoi (env p) arg) 0) as [Hneg|Hnn]; cbn [orb].
    - split; [reflexivity|]. split; [|reflexivity].
      apply parsed_failed, parsed_complain.
    - destruct (Z.leb_spec MAX_PROG (atoi (env p) arg)) as [Hbig|Hsmall].
      + split; [reflexivity|]. split; [|reflexivity].
        apply parsed_failed, parsed_complain.
      + split; [apply parsed_refl|]. split; [exact Hdev|].
        split; [|auto]. split; [cbn; lia|apply Hl]. }
  destruct (opt =? char "q").
  { destruct optarg as [arg|]; [|reflexivity].
    split; [apply parsed_refl|]. split; [exact Hdev|].
    split; [|auto]. split; [apply Hl|]. cbn. unfold to_u32.
    apply Z.mod_pos_bound. lia. }
  split; [reflexivity|]. split; [|reflexivity].
  apply parsed_failed, parsed_refl.
Qed.

(** All the options. *)
Lemma parse_options_spec argv0 : forall results l p,
  device_ok p -> locals_ok l ->
  match parse_options argv0 results l p with
  | Ret (inr l') p' =>
      parsed p p' /\ device_ok p' /\ locals_ok l' /\
      stdout (sys p') = stdout (sys p) /\ stderr (sys p') = stderr (sys p)
  | Ret (inl code) p' =>
      code = EXIT_FAIL_OPTION /\ parsed p p' /\
      stdout (sys p') = stdout (sys p) ++ usage_text argv0
  | Halt _ _ => False
  | Undef => True
  end.
Proof.
  induction results as [|[opt optarg] rest IH]; intros l p Hdev Hl.
  - cbn. split; [apply parsed_refl|]. auto.
  - cbn [parse_options]. destruct (opt =? -1).
    { cbn. split; [apply parsed_refl|]. auto. }
    pose proof (handle_option_spec argv0 opt optarg l p Hdev Hl) as Hstep.
    unfold mbind, P_bind.
    destruct (handle_option argv0 opt optarg l p) as [[code|l1] p1|code p1|];
      [exact Hstep|..|contradiction|exact I].
    destruct Hstep as (Hp1 & Hdev1 & Hl1 & Hout1 & Herr1).
    specialize (IH l1 p1 Hdev1 Hl1).
    destruct (parse_options argv0 rest l1 p1) as [[code|l2] p2|code p2|];
      [| |contradiction|exact I].
    + destruct IH as (-> & Hp2 & Hout2). split; [reflexivity|].
      split; [eapply parsed_trans; eassumption|]. congruence.
    + destruct IH as (Hp2 & Hdev2 & Hl2 & Hout2 & Herr2).
      split; [eapply parsed_trans; eassumption|]. repeat split; try assumption;
        try apply Hl2; congruence.
Qed.

(** * The run of the program *)

(** ** The settings the options choose *)

Lemma setting_cons {A} (f : string -> A) d c opt optarg given :
  setting f d c ((opt, optarg) :: given)
  = setting f (setting f d c [(opt, optarg)]) c given.
Proof.
  unfold setting, args_of. cbn [omap list_omap fst snd].
  destruct (opt =? char c); [|reflexivity].
  destruct optarg as [arg|]; [|reflexivity]. cbn.
  rewrite last_cons. destruct (last (omap _ given)); reflexivity.
Qed.

Lemma given_flag_cons c opt optarg given :
  given_flag c ((opt, optarg) :: given) = (opt =? char c) || given_flag c given.
Proof. reflexivity. Qed.

Ltac option_letters :=
  change (char "d") with 100 in *; change (char "s") with 115 in *;
  change (char "S") with 83 in *; change (char "D") with 68 in *;
  change (char "p") with 112 in *; change (char "q") with 113 in *.

(** The six option letters are different. *)
Lemma handle_option_settings argv0 opt optarg l p l' p' :
  handle_option argv0 opt optarg l p = Ret (inr l') p' ->
  env p' = env p /\
  interval l' = setting (atoi (env p)) (interval l) "s" [(opt, optarg)] /\
  prog_num l' = setting (atoi (env p)) (prog_num l) "p" [(opt, optarg)] /\
  qsize l' = setting (fun a => to_u32 (atoi (env p) a)) (qsize l) "q" [(opt, optarg)] /\
  debug l' = debug l || given_flag "D" [(opt, optarg)] /\
  xdp_flags p' = (if given_flag "S" [(opt, optarg)]
                  then Z.lor (xdp_flags p) XDP_FLAGS_SKB_MODE else xdp_flags p) /\
  ifname p' = setting Some (ifname p) "d" [(opt, optarg)].
Proof.
  rewrite handle_option_eq. cbv zeta.
  unfold setting, args_of, given_flag. cbn [omap list_omap existsb fst snd].
  option_letters.
  destruct (Z.eqb_spec opt 100) as [->|Hd].
  { destruct optarg as [arg|]; [|discriminate].
    destruct (Nat.leb_spec IF_NAMESIZE (String.length arg)) as [|Hfits]; [discriminate|].
    rewrite (strncpy_fits arg Hfits).
    destruct (_ =? 0); [discriminate|]. intros [= <- <-].
    cbn. rewrite orb_false_r. repeat (split; [reflexivity|]); reflexivity. }
  destruct (Z.eqb_spec opt 115) as [->|Hs].
  { destruct optarg as [arg|]; [|discriminate]. intros [= <- <-].
    cbn. rewrite orb_false_r. repeat (split; [reflexivity|]); reflexivity. }
  destruct (Z.eqb_spec opt 83) as [->|HS].
  { intros [= <- <-]. cbn. rewrite orb_false_r. repeat (split; [reflexivity|]); reflexivity. }
  destruct (Z.eqb_spec opt 68) as [->|HD].
  { intros [= <- <-]. cbn. rewrite orb_true_r. repeat (split; [reflexivity|]); reflexivity. }
  destruct (Z.eqb_spec opt 112) as [->|Hp].
  { destruct optarg as [arg|]; [|discriminate].
    destruct (_ || _); [discriminate|]. intros [= <- <-].
    cbn. rewrite orb_false_r. repeat (split; [reflexivity|]); reflexivity. }
  destruct (Z.eqb_spec opt 113) as [->|Hq]; [|discriminate].
  destruct optarg as [arg|]; [|discriminate]. intros [= <- <-].
  cbn. rewrite orb_false_r. repeat (split; [reflexivity|]); reflexivity.
Qed.

Lemma parse_options_settings argv0 : forall results l p l' p',
  parse_options argv0 results l p = Ret (inr l') p' ->
  let given := options_given results in
  interval l' = setting (atoi (env p)) (interval l) "s" given /\
  prog_num l' = setting (atoi (env p)) (prog_num l) "p" given /\
  qsize l' = setting (fun a => to_u32 (atoi (env p) a)) (qsize l) "q" given /\
  debug l' = debug l || given_flag "D" given /\
  xdp_flags p' = (if given_flag "S" given
                  then Z.lor (xdp_flags p) XDP_FLAGS_SKB_MODE else xdp_flags p) /\
  ifname p' = setting Some (ifname p) "d" given.
Proof.
  induction results as [|[opt optarg] rest IH]; intros l p l' p' Hrun given.
  - injection Hrun as <- <-. subst given. cbn. rewrite orb_false_r. auto 10.
  - subst given. cbn [parse_options options_given] in *.
    destruct (opt =? -1).
    { injection Hrun as <- <-. cbn. rewrite orb_false_r. auto 10. }
    apply pbind_ret_inv in Hrun. destruct Hrun as ([code|l1] & p1 & Hstep & Hrun);
      [discriminate|].
    apply handle_option_settings in Hstep.
    destruct Hstep as (Henv & Hi & Hp & Hq & Hd & Hf & Hn).
    apply IH in Hrun. destruct Hrun as (Hi' & Hp' & Hq' & Hd' & Hf' & Hn').
    rewrite Henv in *.
    rewrite !(setting_cons _ _ _ opt optarg (options_given rest)).
    rewrite !given_flag_cons.
    rewrite Hi', Hp', Hq', Hd', Hf', Hn', Hi, Hp, Hq, Hd, Hf, Hn.
    do 3 (split; [reflexivity|]). split; [|split; [|reflexivity]].
    + change (given_flag "D" [(opt, optarg)]) with ((opt =? char "D") || false).
      rewrite orb_false_r, orb_assoc. reflexivity.
    + change (given_flag "S" [(opt, optarg)]) with ((opt =? char "S") || false).
      rewrite orb_false_r.
      destruct (opt =? char "S"); cbn [orb]; [|reflexivity].
      destruct (given_flag "S" (options_given rest)); [|reflexivity].
      rewrite <- Z.lor_assoc, Z.lor_diag. reflexivity.
Qed.

(** ** From the options to the poll loop *)

Lemma after_calls_refl p : after_calls p p [] (sigint p).
Proof. unfold after_calls. rewrite app_nil_r. auto 10. Qed.

Lemma after_calls_trans p1 p2 p3 ks ks' h h' :
  after_calls p1 p2 ks h -> after_calls p2 p3 ks' h' ->
  after_calls p1 p3 (ks ++ ks') h'.
Proof.
  intros (H1&H2&H3&H4&H5&H6) (H1'&H2'&H3'&H4'&H5'&H6').
  unfold after_calls. rewrite H5', H5, app_assoc. repeat split; congruence.
Qed.

Lemma after_calls_sys p w h : sigint p = h -> after_calls p (set_sys w p) [] h.
Proof. intros <-. unfold after_calls. cbn. rewrite app_nil_r. auto 10. Qed.

Lemma create_cpu_entry_eq cpu q p :
  create_cpu_entry cpu q p =
    let c := K_bpf_map_update_elem (map_fd (sys p) 0) cpu q 0 in
    let p1 := set_kernel (kernel p ++ [c]) p in
    if answer (env p) (kernel p) c =? 0 then Ret 0 p1
    else Halt EXIT_FAIL_BPF
           (set_sys (set_stderr (stderr (sys p1) ++
                                 [Printf "Create CPU entry failed\n" []]) (sys p1)) p1).
Proof.
  unfold create_cpu_entry. erewrite pbind_ret; [|reflexivity].
  erewrite pbind_ret; [|reflexivity]. cbv zeta.
  destruct (answer (env p) (kernel p) _ =? 0); reflexivity.
Qed.

Lemma create_then_spec {B} (q : Z) (k : P B) : forall cpus p,
  (exists j p',
     (j < length cpus)%nat /\
     create_then cpus q k p = Halt EXIT_FAIL_BPF p' /\
     after_calls p p' (cpu_entries (map_fd (sys p) 0) q (take (S j) cpus)) (sigint p) /\
     output_only (sys p) (sys p')) \/
  (exists p1,
     create_then cpus q k p = k p1 /\
     after_calls p p1 (cpu_entries (map_fd (sys p) 0) q cpus) (sigint p) /\
     sys p1 = sys p).
Proof.
  induction cpus as [|cpu cpus IH]; intros p.
  - right. exists p. split; [reflexivity|]. split; [apply after_calls_refl|reflexivity].
  - cbn [create_then]. unfold mbind, P_bind. rewrite create_cpu_entry_eq. cbv zeta.
    set (c := K_bpf_map_update_elem (map_fd (sys p) 0) cpu q 0).
    set (p1 := set_kernel (kernel p ++ [c]) p).
    assert (after_calls p p1 [c] (sigint p)) as Hstep.
    { unfold after_calls. cbn. auto 10. }
    destruct (answer (env p) (kernel p) c =? 0).
    + destruct (IH p1) as [(j & p' & Hj & Hrun & Hcalls & Hout)|(p2 & Hrun & Hcalls & Hsys)].
      * left. exists (S j), p'. split; [cbn; lia|]. split; [exact Hrun|].
        split; [|exact Hout].
        change (cpu_entries (map_fd (sys p) 0) q (take (S (S j)) (cpu :: cpus)))
          with ([c] ++ cpu_entries (map_fd (sys p1) 0) q (take (S j) cpus)).
        eapply after_calls_trans; eassumption.
      * right. exists p2. split; [exact Hrun|]. split; [|exact Hsys].
        change (cpu_entries (map_fd (sys p) 0) q (cpu :: cpus))
          with ([c] ++ cpu_entries (map_fd (sys p1) 0) q cpus).
        eapply after_calls_trans; eassumption.
    + left. eexists 0%nat, _. split; [cbn; lia|]. split; [reflexivity|]. split.
      * change (cpu_entries (map_fd (sys p) 0) q (take 1 (cpu :: cpus)))
          with ([c] ++ []).
        eapply after_calls_trans; [exact Hstep|]. exact (after_calls_sys p1 _ _ eq_refl).
      * cbn. apply output_only_stderr.
Qed.

Lemma lift_stats_poll n i p :
  lift (stats_poll n i) p =
    match stats_poll n i (sys p) with
    | Done a w => Ret a (set_sys w p)
    | Exit code w => Halt EXIT_FAIL (set_sys w p)
    | Fault => Undef
    end.
Proof.
  unfold lift. destruct (stats_poll n i (sys p)) as [a w|code w|] eqn:H; try reflexivity.
  rewrite (stats_poll_exit _ _ _ _ _ H). reflexivity.
Qed.

(** What is left of [run] once the handler is installed. *)
Lemma run_attached iterations argv0 filename l p p3 (k : P (option Z)) :
  ifindex p <> -1 ->
  after_calls p p3
    ([K_load_bpf_file filename] ++
     cpu_entries (map_fd (sys p) 0) (qsize l) [0; 1; 2; 3; 4] ++ [K_signal_SIGINT])
    true ->
  sys p3 = sys p ->
  k = (p ← get_process;
       r ← syscall (K_set_link_xdp_fd (ifindex p) (prog_fd (env p) (prog_num l))
                                      (xdp_flags p));
       if r <? 0 then
         lift (fprintf_stderr "link set xdp fd failed\n" []);;
         mret (Some EXIT_FAIL_XDP)
       else
         ended ←
           (if debug l then
              lift (printf "Debug-mode reading trace pipe (fix #define DEBUG)\n" []);;
              syscall K_read_trace_pipe;;
              mret (trace_pipe_ends (env p))
            else mret true);
         if ended : bool then
           lift (stats_poll iterations (interval l));;
           mret None
         else mret None) ->
  run_outcome iterations argv0 filename l p (k p3).
Proof.
  intros Hdev Hcalls Hsys ->.
  pose proof Hcalls as (He & Hi & Hn & Hf & Hk & Hs).
  erewrite pbind_ret; [|reflexivity].
  erewrite pbind_ret; [|reflexivity].
  set (c := K_set_link_xdp_fd (ifindex p3) (prog_fd (env p3) (prog_num l)) (xdp_flags p3)).
  assert (c = attach_call p l) as Hc.
  { unfold c, attach_call. rewrite He, Hi, Hf. reflexivity. }
  set (p4 := set_kernel (kernel p3 ++ [c]) p3).
  assert (after_calls p p4 (startup_calls p filename l) true) as Hcalls4.
  { unfold startup_calls.
    replace ([K_load_bpf_file filename] ++
             cpu_entries (map_fd (sys p) 0) (qsize l) [0; 1; 2; 3; 4] ++
             [K_signal_SIGINT; attach_call p l])
      with (([K_load_bpf_file filename] ++
             cpu_entries (map_fd (sys p) 0) (qsize l) [0; 1; 2; 3; 4] ++
             [K_signal_SIGINT]) ++ [c]).
    2:{ rewrite Hc, <- !app_assoc. reflexivity. }
    eapply after_calls_trans; [exact Hcalls|].
    unfold after_calls, p4. cbn. auto 10. }
  assert (sys p4 = sys p) as Hsys4 by exact Hsys.
  destruct (answer (env p3) (kernel p3) c <? 0).
  { erewrite pbind_ret; [|apply lift_fprintf].
    apply Run_attach_failed; [exact Hdev| |].
    - replace (startup_calls p filename l) with (startup_calls p filename l ++ [])
        by apply app_nil_r.
      eapply after_calls_trans; [exact Hcalls4|]. exact (after_calls_sys p4 _ _ Hs).
    - cbn. rewrite Hsys. apply output_only_stderr. }
  destruct (debug l) eqn:Hdebug.
  - erewrite pbind_ret.
    2:{ erewrite pbind_ret; [|apply lift_printf].
        erewrite pbind_ret; [|reflexivity]. reflexivity. }
    set (w5 := set_stdout _ (sys p4)).
    set (p6 := set_kernel _ (set_sys w5 p4)).
    assert (after_calls p p6 (startup_calls p filename l ++ [K_read_trace_pipe]) true)
      as Hcalls6.
    { eapply after_calls_trans; [exact Hcalls4|]. unfold after_calls, p6. cbn. auto 10. }
    assert (output_only (sys p) (sys p6)) as Hout6.
    { unfold p6, w5. cbn. rewrite Hsys. apply output_only_stdout. }
    destruct (trace_pipe_ends (env p3)) eqn:Hends.
    + unfold mbind at 1, P_bind at 1. rewrite lift_stats_poll.
      destruct (stats_poll iterations (interval l) (sys p6)) as [v w'|code w'|] eqn:Hpoll.
      * eapply Run_polled with (w0 := sys p6) (v := v); [exact Hdev| |exact Hout6|exact Hpoll].
        rewrite Hdebug.
        replace (startup_calls p filename l ++ [K_read_trace_pipe])
          with ((startup_calls p filename l ++ [K_read_trace_pipe]) ++ [])
          by apply app_nil_r.
        eapply after_calls_trans; [exact Hcalls6|]. exact (after_calls_sys p6 _ _ Hs).
      * rewrite (stats_poll_exit _ _ _ _ _ Hpoll) in Hpoll.
        eapply Run_poll_exit with (w0 := sys p6); [exact Hdev| |exact Hout6|exact Hpoll].
        rewrite Hdebug.
        replace (startup_calls p filename l ++ [K_read_trace_pipe])
          with ((startup_calls p filename l ++ [K_read_trace_pipe]) ++ [])
          by apply app_nil_r.
        eapply after_calls_trans; [exact Hcalls6|]. exact (after_calls_sys p6 _ _ Hs).
      * apply Run_undef.
    + apply Run_trace_pipe; try assumption. rewrite <- He. exact Hends.
  - erewrite pbind_ret; [|reflexivity].
    unfold mbind at 1, P_bind at 1. rewrite lift_stats_poll.
    assert (output_only (sys p) (sys p4)) as Hout4.
    { rewrite Hsys4. apply output_only_refl. }
    destruct (stats_poll iterations (interval l) (sys p4)) as [v w'|code w'|] eqn:Hpoll.
    + eapply Run_polled with (w0 := sys p4) (v := v); [exact Hdev| |exact Hout4|exact Hpoll].
      rewrite Hdebug, app_nil_r.
      replace (startup_calls p filename l) with (startup_calls p filename l ++ [])
        by apply app_nil_r.
      eapply after_calls_trans; [exact Hcalls4|]. exact (after_calls_sys p4 _ _ Hs).
    + rewrite (stats_poll_exit _ _ _ _ _ Hpoll) in Hpoll.
      eapply Run_poll_exit with (w0 := sys p4); [exact Hdev| |exact Hout4|exact Hpoll].
      rewrite Hdebug, app_nil_r.
      replace (startup_calls p filename l) with (startup_calls p filename l ++ [])
        by apply app_nil_r.
      eapply after_calls_trans; [exact Hcalls4|]. exact (after_calls_sys p4 _ _ Hs).
    + apply Run_undef.
Qed.

Lemma run_cases iterations argv0 filename l p :
  run_outcome iterations argv0 filename l p (run iterations argv0 filename l p).
Proof.
  unfold run. erewrite pbind_ret; [|reflexivity].
  destruct (Z.eqb_spec (ifindex p) (-1)) as [Hnone|Hdev].
  { erewrite pbind_ret; [|apply lift_fprintf].
    erewrite pbind_ret; [|apply lift_usage].
    apply Run_no_device; [exact Hnone| | |reflexivity].
    - unfold after_calls. cbn. rewrite app_nil_r. auto 10.
    - cbn. eapply output_only_trans; [apply output_only_stderr|apply output_only_stdout]. }
  erewrite pbind_ret; [|reflexivity].
  set (p1 := set_kernel (kernel p ++ [K_load_bpf_file filename]) p).
  assert (after_calls p p1 [K_load_bpf_file filename] (sigint p)) as Hcalls1.
  { unfold after_calls, p1. cbn. auto 10. }
  destruct (Z.eqb_spec (answer (env p) (kernel p) (K_load_bpf_file filename)) 0)
    as [Hload|Hload]; cbn [negb].
  2:{ erewrite pbind_ret; [|apply lift_fprintf].
      apply Run_load_failed; [exact Hdev| | |left; exact Hload].
      - replace [K_load_bpf_file filename] with ([K_load_bpf_file filename] ++ [])
          by apply app_nil_r.
        eapply after_calls_trans; [exact Hcalls1|]. exact (after_calls_sys p1 _ _ eq_refl).
      - cbn. apply output_only_stderr. }
  erewrite pbind_ret; [|reflexivity].
  destruct (Z.eqb_spec (prog_fd (env p1) 0) 0) as [Hprog|Hprog].
  { erewrite pbind_ret; [|apply lift_fprintf].
    apply Run_load_failed; [exact Hdev| | |right; exact Hprog].
    - replace [K_load_bpf_file filename] with ([K_load_bpf_file filename] ++ [])
        by apply app_nil_r.
      eapply after_calls_trans; [exact Hcalls1|]. exact (after_calls_sys p1 _ _ eq_refl).
    - cbn. apply output_only_stderr. }
  lazymatch goal with
  | |- run_outcome _ _ _ _ _
         ((create_cpu_entry 0 _ ≫= fun _ =>
           create_cpu_entry 1 _ ≫= fun _ =>
           create_cpu_entry 2 _ ≫= fun _ =>
           create_cpu_entry 3 _ ≫= fun _ =>
           create_cpu_entry 4 _ ≫= fun _ => ?k) p1) =>
      change (run_outcome iterations argv0 filename l p
                (create_then [0; 1; 2; 3; 4] (qsize l) k p1));
      destruct (create_then_spec (qsize l) k [0; 1; 2; 3; 4] p1)
        as [(j & p' & Hj & -> & Hcalls & Hout)|(p2 & -> & Hcalls & Hsys)]
  end.
  - apply (Run_entry_failed _ _ _ _ _ j); [exact Hdev|exact Hj| |exact Hout].
    eapply after_calls_trans; [exact Hcalls1|exact Hcalls].
  - erewrite pbind_ret; [|reflexivity].
    erewrite pbind_ret; [|reflexivity].
    eapply run_attached; [exact Hdev| | |reflexivity].
    + rewrite app_assoc. eapply after_calls_trans.
      * eapply after_calls_trans; [exact Hcalls1|exact Hcalls].
      * unfold after_calls. cbn. auto 10.
    + exact Hsys.
Qed.

(** ** main *)

Lemma main_eq e w iterations argv0 :
  main iterations argv0 (start e w) =
    match parse_options argv0 (getopt_results e) (mk_locals false 2 0 (128 + 64))
                        (start e w) with
    | Ret (inl code) p1 => Ret (Some code) p1
    | Ret (inr l) p1 => run iterations argv0 (object_file argv0) l p1
    | Halt code p1 => Halt code p1
    | Undef => Undef
    end.
Proof.
  unfold main. cbv zeta. erewrite pbind_ret; [|reflexivity].
  unfold mbind, P_bind. cbn [env start].
  destruct (parse_options _ _ _ _) as [[code|l] p1| |]; reflexivity.
Qed.

Lemma start_ok e w :
  device_ok (start e w) /\ locals_ok (mk_locals false 2 0 (128 + 64)).
Proof.
  split; [left; split; reflexivity|]. unfold locals_ok, MAX_PROG. cbn. lia.
Qed.

Lemma output_only_fields w w' :
  output_only w w' ->
  map_fd w' = map_fd w /\ sleeps w' = sleeps w /\ heap w' = heap w /\
  n_lookups w' = n_lookups w.
Proof. unfold output_only. intros ->. cbn. auto. Qed.

(** What the options leave behind when all of them are accepted. *)
Lemma parse_options_start e w argv0 l p1 :
  parse_options argv0 (getopt_results e) (mk_locals false 2 0 (128 + 64)) (start e w)
  = Ret (inr l) p1 ->
  let given := options_given (getopt_results e) in
  env p1 = e /\ sigint p1 = false /\ output_only w (sys p1) /\
  stdout (sys p1) = stdout w /\ stderr (sys p1) = stderr w /\
  Forall is_lookup (kernel p1) /\ device_ok p1 /\ locals_ok l /\
  interval l = setting (atoi e) 2 "s" given /\
  prog_num l = setting (atoi e) 0 "p" given /\
  qsize l = setting (fun a => to_u32 (atoi e a)) (128 + 64) "q" given /\
  debug l = given_flag "D" given /\
  xdp_flags p1 = (if given_flag "S" given then XDP_FLAGS_SKB_MODE else 0) /\
  ifname p1 = last (args_of "d" given).
Proof.
  intros Hrun given.
  destruct (start_ok e w) as [Hdev Hl].
  pose proof (parse_options_spec argv0 (getopt_results e) _ _ Hdev Hl) as Hspec.
  rewrite Hrun in Hspec.
  destruct Hspec as ((He & Hs & Ho & ks & Hk & Hlk) & Hdev1 & Hl1 & Hout & Herr).
  apply parse_options_settings in Hrun.
  destruct Hrun as (Hi & Hp & Hq & Hd & Hf & Hn).
  cbn [env start sigint sys kernel app interval prog_num qsize debug xdp_flags ifname orb]
    in *.
  repeat (split; [assumption|]).
  split; [rewrite Hk; exact Hlk|].
  do 6 (split; [assumption|]).
  split; [rewrite Hf; destruct (given_flag "S" _); reflexivity|].
  rewrite Hn. unfold setting. destruct (last _); reflexivity.
Qed.

(** X14.  The ways [main] ends. It returns [EXIT_FAIL_OPTION] having made
    no call but interface lookups, with the usage text last on [stdout]
    (also when the device index converts to -1); or [EXIT_FAIL] right
    after [load_bpf_file]; or [EXIT_FAIL_XDP]; or the process exits with
    [EXIT_FAIL_BPF] right after the first failing [bpf_map_update_elem]
    (one call per CPU 0..4, in order); or with [EXIT_FAIL] from the
    statistics engine. The signal handler is installed exactly in the
    cases [EXIT_FAIL_XDP], the exit from the engine and the run that
    polls. *)
Theorem main_exit_statuses e w iterations argv0 :
  let given := options_given (getopt_results e) in
  match main iterations argv0 (start e w) with
  | Ret (Some code) p' =>
      (code = EXIT_FAIL_OPTION /\ sigint p' = false /\
       Forall is_lookup (kernel p') /\
       stdout (sys p') = stdout w ++ usage_text argv0) \/
      (code = EXIT_FAIL /\ sigint p' = false /\
       exists lookups,
         Forall is_lookup lookups /\
         kernel p' = lookups ++ [K_load_bpf_file (object_file argv0)]) \/
      (code = EXIT_FAIL_XDP /\ sigint p' = true)
  | Ret None p' => sigint p' = true
  | Halt code p' =>
      (code = EXIT_FAIL_BPF /\ sigint p' = false /\
       exists lookups k,
         Forall is_lookup lookups /\ (k < 5)%nat /\
         kernel p' =
           lookups ++ [K_load_bpf_file (object_file argv0)] ++
           cpu_entries (map_fd w 0)
                       (setting (fun a => to_u32 (atoi e a)) (128 + 64) "q" given)
                       (take (S k) [0; 1; 2; 3; 4])) \/
      (code = EXIT_FAIL /\ sigint p' = true)
  | Undef => True
  end.
Proof.
  intros given. rewrite main_eq.
  destruct (start_ok e w) as [Hdev Hl].
  pose proof (parse_options_spec argv0 (getopt_results e) _ _ Hdev Hl) as Hspec.
  destruct (parse_options _ _ _ _) as [[code|l] p1|code p1|] eqn:Hparse;
    [| |contradiction|exact I].
  { destruct Hspec as (-> & (_ & Hs & _ & ks & Hk & Hlk) & Hout).
    left. split; [reflexivity|]. split; [exact Hs|].
    split; [rewrite Hk; exact Hlk|exact Hout]. }
  clear Hspec.
  destruct (parse_options_start _ _ _ _ _ Hparse)
    as (He & Hs & Ho & Hout & _ & Hlk & _ & _ & _ & _ & Hq & _).
  destruct (output_only_fields _ _ Ho) as (Hfd & _).
  pose proof (run_cases iterations argv0 (object_file argv0) l p1) as Hrun.
  destruct Hrun as [p' Hnone Hc Ho' Hout'|p' _ Hc _ _|k p' _ Hk Hc _|p' _ Hc _
                   |p' _ _ _ Hc _|p' w0 v _ Hc _ _|p' w0 _ Hc _ _|].
  - destruct Hc as (_&_&_&_&Hker&Hsig). rewrite app_nil_r in Hker.
    left. split; [reflexivity|]. split; [congruence|].
    split; [rewrite Hker; exact Hlk|]. rewrite Hout', Hout. reflexivity.
  - destruct Hc as (_&_&_&_&Hker&Hsig).
    right. left. split; [reflexivity|]. split; [congruence|].
    exists (kernel p1). auto.
  - destruct Hc as (_&_&_&_&Hker&Hsig).
    left. split; [reflexivity|]. split; [congruence|].
    exists (kernel p1), k. rewrite Hker, Hfd, Hq. auto.
  - right. right. split; [reflexivity|apply Hc].
  - apply Hc.
  - apply Hc.
  - right. split; [reflexivity|apply Hc].
  - exact I.
Qed.

Lemma main_exit_statuses_witness :
  exists p',
    main 1 "xdp_redirect_cpu" (start wrapped_index_platform scenario1)
    = Ret (Some EXIT_FAIL_OPTION) p' /\
    ifindex p' = -1 /\ sigint p' = false /\
    Forall is_lookup (kernel p') /\
    stdout (sys p') = usage_text "xdp_redirect_cpu".
Proof.
  pose proof (main_exit_statuses wrapped_index_platform scenario1 1
                "xdp_redirect_cpu") as H.
  cbv zeta in H.
  assert (exists p',
             main 1 "xdp_redirect_cpu" (start wrapped_index_platform scenario1)
             = Ret (Some EXIT_FAIL_OPTION) p' /\ ifindex p' = -1)
    as (p' & Hrun & Hidx) by (eexists; split; vm_compute; reflexivity).
  rewrite Hrun in H. exists p'. split; [exact Hrun|]. split; [exact Hidx|].
  destruct H as [(_ & Hs & Hk & Hout)|[(Hc & _)|(Hc & _)]]; [|discriminate Hc..].
  split; [exact Hs|]. split; [exact Hk|exact Hout].
Defined.

(** The state of a run that got as far as installing the handler. *)
Lemma main_started e w iterations argv0 p' :
  final (main iterations argv0 (start e w)) = Some p' -> sigint p' = true ->
  let given := options_given (getopt_results e) in
  let q := setting (fun a => to_u32 (atoi e a)) (128 + 64) "q" given in
  let prog := setting (atoi e) 0 "p" given in
  exists before dev tail,
    Forall is_lookup before /\
    last (args_of "d" given) = Some dev /\ (String.length dev < IF_NAMESIZE)%nat /\
    env p' = e /\ ifname p' = Some dev /\
    ifindex p' = to_int (answer e before (K_if_nametoindex dev)) /\
    ifindex p' <> 0 /\ ifindex p' <> -1 /\
    xdp_flags p' = (if given_flag "S" given then XDP_FLAGS_SKB_MODE else 0) /\
    0 <= prog < MAX_PROG /\ 0 <= q < 2 ^ 32 /\
    kernel p' =
      (before ++ [K_if_nametoindex dev]) ++
      [K_load_bpf_file (object_file argv0)] ++
      cpu_entries (map_fd w 0) q [0; 1; 2; 3; 4] ++
      [K_signal_SIGINT;
       K_set_link_xdp_fd (ifindex p') (prog_fd e prog) (xdp_flags p')] ++ tail /\
    (tail = [] \/ given_flag "D" given = true /\ tail = [K_read_trace_pipe]).
Proof.
  intros Hfinal Hsig given q prog. rewrite main_eq in Hfinal.
  destruct (start_ok e w) as [Hdev Hl].
  pose proof (parse_options_spec argv0 (getopt_results e) _ _ Hdev Hl) as Hspec.
  destruct (parse_options _ _ _ _) as [[code|l] p1|code p1|] eqn:Hparse;
    [| |contradiction|discriminate].
  { injection Hfinal as <-. destruct Hspec as (_ & (_ & Hs & _) & _).
    cbn in Hs. congruence. }
  clear Hspec.
  destruct (parse_options_start _ _ _ _ _ Hparse)
    as (He & Hs & Ho & _ & _ & Hlk & Hdev1 & Hl1 & _ & Hp & Hq & Hd & Hf & Hn).
  destruct (output_only_fields _ _ Ho) as (Hfd & _).
  assert (forall tail,
            after_calls p1 p' (startup_calls p1 (object_file argv0) l ++ tail) true ->
            ifindex p1 <> -1 ->
            tail = [] \/ given_flag "D" given = true /\ tail = [K_read_trace_pipe] ->
            exists before dev tail,
              Forall is_lookup before /\
              last (args_of "d" given) = Some dev /\
              (String.length dev < IF_NAMESIZE)%nat /\
              env p' = e /\ ifname p' = Some dev /\
              ifindex p' = to_int (answer e before (K_if_nametoindex dev)) /\
              ifindex p' <> 0 /\ ifindex p' <> -1 /\
              xdp_flags p' = (if given_flag "S" given then XDP_FLAGS_SKB_MODE else 0) /\
              0 <= prog < MAX_PROG /\ 0 <= q < 2 ^ 32 /\
              kernel p' =
                (before ++ [K_if_nametoindex dev]) ++
                [K_load_bpf_file (object_file argv0)] ++
                cpu_entries (map_fd w 0) q [0; 1; 2; 3; 4] ++
                [K_signal_SIGINT;
                 K_set_link_xdp_fd (ifindex p') (prog_fd e prog) (xdp_flags p')] ++ tail /\
              (tail = [] \/ given_flag "D" given = true /\ tail = [K_read_trace_pipe]))
    as Hstarted.
  { subst q prog given.
    intros tail (He' & Hi' & Hn' & Hf' & Hk' & _) Hidx Htail.
    destruct Hdev1 as [[Hnone _]|(dev & before & Hname & Hlen & Hker & Hans & Hnz)];
      [contradiction|].
    exists before, dev, tail.
    rewrite Hker in Hlk. apply Forall_app in Hlk. destruct Hlk as [Hlk _].
    split; [exact Hlk|]. split; [transitivity (ifname p1); [symmetry; exact Hn|exact Hname]|].
    split; [exact Hlen|].
    split; [congruence|]. split; [congruence|].
    split; [rewrite Hi', Hans, He; reflexivity|].
    split; [congruence|]. split; [congruence|]. split; [congruence|].
    split; [rewrite <- Hp; apply Hl1|].
    split; [rewrite <- Hq; apply Hl1|].
    split; [|exact Htail].
    rewrite Hk', Hker. unfold startup_calls, attach_call.
    rewrite Hfd, Hi', Hf', He, <- Hq, <- Hp, <- !app_assoc. reflexivity. }
  subst q prog given.
  pose proof (run_cases iterations argv0 (object_file argv0) l p1) as Hrun.
  destruct Hrun as [p'' _ Hc _ _|p'' _ Hc _ _|k p'' _ _ Hc _|p'' Hidx Hc _
                   |p'' Hidx Hdbg _ Hc _|p'' w0 v Hidx Hc _ _|p'' w0 Hidx Hc _ _|];
    try (injection Hfinal as ->); try discriminate;
    try (destruct Hc as (_&_&_&_&_&Hsig'); congruence).
  - apply (Hstarted []); [rewrite app_nil_r; exact Hc|exact Hidx|left; reflexivity].
  - apply (Hstarted [K_read_trace_pipe]); [exact Hc|exact Hidx|].
    right. split; [rewrite <- Hd; exact Hdbg|reflexivity].
  - apply (Hstarted (if debug l then [K_read_trace_pipe] else []));
      [exact Hc|exact Hidx|].
    rewrite Hd. destruct (given_flag "D" _); auto.
  - apply (Hstarted (if debug l then [K_read_trace_pipe] else []));
      [exact Hc|exact Hidx|].
    rewrite Hd. destruct (given_flag "D" _); auto.
Qed.

(** X15.  Once [main] has installed the signal handler, the calls made
    are, in order: the interface lookups of the [--dev] options (the last
    one for the device in use, its name shorter than [IF_NAMESIZE], its
    index, the result of [if_nametoindex] converted to [int], neither 0
    nor -1), [load_bpf_file] of [<argv0>_kern.o], [bpf_map_update_elem] on
    [map_fd[0]] for the CPUs 0 to 4 with the queue size ([--qsize] as a
    [__u32], else 192), [signal], [set_link_xdp_fd] with the index,
    [prog_fd[prog_num]] ([0 <= prog_num < MAX_PROG]) and the flags
    ([XDP_FLAGS_SKB_MODE] only with [-S]), then at most [read_trace_pipe]
    (only with [--debug]). *)
Theorem main_startup_sequence e w iterations argv0 p' :
  final (main iterations argv0 (start e w)) = Some p' -> sigint p' = true ->
  let given := options_given (getopt_results e) in
  let q := setting (fun a => to_u32 (atoi e a)) (128 + 64) "q" given in
  let prog := setting (atoi e) 0 "p" given in
  exists before dev tail,
    Forall is_lookup before /\
    last (args_of "d" given) = Some dev /\ (String.length dev < IF_NAMESIZE)%nat /\
    env p' = e /\ ifname p' = Some dev /\
    ifindex p' = to_int (answer e before (K_if_nametoindex dev)) /\
    ifindex p' <> 0 /\ ifindex p' <> -1 /\
    xdp_flags p' = (if given_flag "S" given then XDP_FLAGS_SKB_MODE else 0) /\
    0 <= prog < MAX_PROG /\ 0 <= q < 2 ^ 32 /\
    kernel p' =
      (before ++ [K_if_nametoindex dev]) ++
      [K_load_bpf_file (object_file argv0)] ++
      cpu_entries (map_fd w 0) q [0; 1; 2; 3; 4] ++
      [K_signal_SIGINT;
       K_set_link_xdp_fd (ifindex p') (prog_fd e prog) (xdp_flags p')] ++ tail /\
    (tail = [] \/ given_flag "D" given = true /\ tail = [K_read_trace_pipe]).
Proof. exact (main_started e w iterations argv0 p'). Qed.

Lemma int_exit_eq sig p dev :
  ifname p = Some dev ->
  int_exit sig p =
    Halt EXIT_OK
      (set_sys
         (set_stderr
            (stderr (sys p) ++
             [Printf "Interrupted: Removing XDP program on ifindex:%d device:%s\n"
                     [AInt (ifindex p); AStr dev]]) (sys p))
         (set_kernel
            (kernel p ++
             (if -1 <? ifindex p
              then [K_set_link_xdp_fd (ifindex p) (-1) (xdp_flags p)] else []))
            p)).
Proof.
  intros Hname. unfold int_exit. erewrite pbind_ret; [|reflexivity].
  rewrite Hname. erewrite pbind_ret; [|apply lift_done; reflexivity].
  erewrite pbind_ret; [|apply lift_fprintf].
  destruct (-1 <? ifindex p).
  - erewrite pbind_ret; [|reflexivity]. reflexivity.
  - erewrite pbind_ret; [|reflexivity]. cbn. rewrite app_nil_r.
    destruct p; reflexivity.
Qed.

Lemma sample_run_eq :
  main 1 "xdp_redirect_cpu" (start sample_platform scenario1) = Ret None sample_final.
Proof. vm_compute. reflexivity. Qed.

Lemma sample_final_eq :
  final (main 1 "xdp_redirect_cpu" (start sample_platform scenario1))
  = Some sample_final.
Proof. rewrite sample_run_eq. reflexivity. Qed.

Lemma sample_final_sigint : sigint sample_final = true.
Proof. vm_compute. reflexivity. Qed.

Lemma main_startup_sequence_witness :
  exists tail,
    ifname sample_final = Some "eth0"%string /\
    kernel sample_final =
      [K_if_nametoindex "eth0"; K_load_bpf_file "xdp_redirect_cpu_kern.o";
       K_bpf_map_update_elem 0 0 192 0; K_bpf_map_update_elem 0 1 192 0;
       K_bpf_map_update_elem 0 2 192 0; K_bpf_map_update_elem 0 3 192 0;
       K_bpf_map_update_elem 0 4 192 0;
       K_signal_SIGINT;
       K_set_link_xdp_fd (ifindex sample_final) 7 (xdp_flags sample_final)] ++ tail /\
    ifindex sample_final = 3 /\ xdp_flags sample_final = 0.
Proof.
  pose proof (main_startup_sequence sample_platform scenario1 1 "xdp_redirect_cpu"
                sample_final sample_final_eq sample_final_sigint) as H.
  cbv zeta in H.
  destruct H
    as (before & dev & tail & _ & Hdev & _ & _ & Hname & Hidx & _ & _ & Hflags & _ & _
        & Hker & _).
  injection Hdev as <-.
  assert (length (kernel sample_final) = 9%nat) as Hlen by (vm_compute; reflexivity).
  assert (before = []) as ->.
  { rewrite Hker in Hlen. rewrite !length_app in Hlen.
    unfold cpu_entries in Hlen. rewrite length_fmap in Hlen.
    destruct before; [reflexivity|]. cbn [length] in Hlen. lia. }
  exists tail. split; [exact Hname|]. split; [exact Hker|].
  split; [exact Hidx|exact Hflags].
Defined.

(** X16.  [int_exit] run in a state that [main] has reached with the
    handler installed, the poll loop cut after any number of rounds: it
    prints one line on [stderr] and exits with [EXIT_OK]. Before that it
    detaches the program with [set_link_xdp_fd (ifindex, -1, xdp_flags)],
    the index and flags being those of the call that attached it, exactly
    when the index is positive, that is when [if_nametoindex] returned
    less than [2^31]; for a result of [2^31] or more the [int] index is
    negative and no call is made. *)
Theorem interrupt_detaches e w iterations argv0 p' sig :
  final (main iterations argv0 (start e w)) = Some p' -> sigint p' = true ->
  exists dev lookups fd before tail p'',
    ifname p' = Some dev /\
    ifindex p' = to_int (answer e lookups (K_if_nametoindex dev)) /\
    ifindex p' <> 0 /\ ifindex p' <> -1 /\
    kernel p' = before ++ [K_set_link_xdp_fd (ifindex p') fd (xdp_flags p')] ++ tail /\
    int_exit sig p' = Halt EXIT_OK p'' /\
    kernel p'' =
      kernel p' ++
      (if 0 <? ifindex p'
       then [K_set_link_xdp_fd (ifindex p') (-1) (xdp_flags p')] else []) /\
    (0 <= answer e lookups (K_if_nametoindex dev) < 2 ^ 31 ->
     kernel p'' = kernel p' ++ [K_set_link_xdp_fd (ifindex p') (-1) (xdp_flags p')]) /\
    (2 ^ 31 <= answer e lookups (K_if_nametoindex dev) < 2 ^ 32 ->
     kernel p'' = kernel p') /\
    stderr (sys p'') =
      stderr (sys p') ++
      [Printf "Interrupted: Removing XDP program on ifindex:%d device:%s\n"
              [AInt (ifindex p'); AStr dev]] /\
    stdout (sys p'') = stdout (sys p').
Proof.
  intros Hfinal Hsig.
  destruct (main_started _ _ _ _ _ Hfinal Hsig)
    as (before & dev & tail & _ & _ & _ & He & Hname & Hidx & Hnz & Hn1 & _ & _ & _
        & Hker & _).
  assert ((-1 <? ifindex p') = (0 <? ifindex p')) as Hcond.
  { destruct (Z.ltb_spec (-1) (ifindex p')), (Z.ltb_spec 0 (ifindex p'));
      try reflexivity; lia. }
  exists dev, before,
    (prog_fd e (setting (atoi e) 0 "p" (options_given (getopt_results e)))),
    ((before ++ [K_if_nametoindex dev]) ++
     [K_load_bpf_file (object_file argv0)] ++
     cpu_entries (map_fd w 0)
       (setting (fun a => to_u32 (atoi e a)) (128 + 64) "q"
                (options_given (getopt_results e)))
       [0; 1; 2; 3; 4] ++ [K_signal_SIGINT]), tail.
  eexists. split; [exact Hname|]. split; [exact Hidx|].
  split; [exact Hnz|]. split; [exact Hn1|].
  split; [rewrite Hker, <- !app_assoc; reflexivity|].
  rewrite (int_exit_eq sig p' dev Hname), Hcond.
  split; [reflexivity|]. split; [reflexivity|].
  split; [|split; [|split; reflexivity]].
  - intros Hrange. cbn [kernel set_sys set_kernel].
    assert (ifindex p' = answer e before (K_if_nametoindex dev)) as Heq.
    { rewrite Hidx. unfold to_int.
      rewrite Z.mod_small by lia. lia. }
    destruct (Z.ltb_spec 0 (ifindex p')); [reflexivity|lia].
  - intros Hrange. cbn [kernel set_sys set_kernel].
    assert (ifindex p' = answer e before (K_if_nametoindex dev) - 2 ^ 32) as Heq.
    { rewrite Hidx. unfold to_int.
      replace (answer e before (K_if_nametoindex dev) + 2 ^ 31)
        with (answer e before (K_if_nametoindex dev) - 2 ^ 31 + 1 * 2 ^ 32) by lia.
      rewrite Z.mod_add by lia. rewrite Z.mod_small by lia. lia. }
    destruct (Z.ltb_spec 0 (ifindex p')); [lia|apply app_nil_r].
Qed.

Lemma interrupt_detaches_witness :
  exists p'',
    int_exit 2 sample_final = Halt EXIT_OK p'' /\
    kernel p'' = kernel sample_final
                 ++ [K_set_link_xdp_fd (ifindex sample_final) (-1)
                                       (xdp_flags sample_final)] /\
    stdout (sys p'') = stdout (sys sample_final).
Proof.
  destruct (interrupt_detaches sample_platform scenario1 1 "xdp_redirect_cpu"
              sample_final 2 sample_final_eq sample_final_sigint)
    as (dev & lookups & fd & before & tail & p'' & _ & _ & _ & _ & _ & Hrun & _
        & Hker & _ & _ & Hout).
  exists p''. split; [exact Hrun|]. split; [|exact Hout].
  apply Hker. cbn. lia.
Defined.

(** X17.  A run of [main] that is still going when it is cut: either
    [--debug] was given and [read_trace_pipe] never returned, and then no
    statistics were collected at all; or the poll loop ran, calling
    [sleep] in every round with the value of the last [--sec] option (2
    without one) converted to [unsigned int], with [3 + MAX_CPUS] lookups
    per collection and [2 * (4 + MAX_CPUS)] allocations in all. *)
Theorem main_polling e w iterations argv0 p' :
  main iterations argv0 (start e w) = Ret None p' ->
  let given := options_given (getopt_results e) in
  (given_flag "D" given = true /\ trace_pipe_ends e = false /\
   last (kernel p') = Some K_read_trace_pipe /\
   sleeps (sys p') = sleeps w /\ n_lookups (sys p') = n_lookups w /\
   heap (sys p') = heap w) \/
  (sleeps (sys p') =
     sleeps w ++ replicate iterations (to_u32 (setting (atoi e) 2 "s" given)) /\
   n_lookups (sys p') = (n_lookups w + (iterations + 1) * (3 + MAX_CPUS))%nat /\
   n_mallocs (sys p') = (n_mallocs w + 2 * (4 + MAX_CPUS))%nat).
Proof.
  intros Hmain given. subst given. rewrite main_eq in Hmain.
  destruct (parse_options _ _ _ _) as [[code|l] p1|code p1|] eqn:Hparse;
    try discriminate.
  destruct (parse_options_start _ _ _ _ _ Hparse)
    as (He & _ & Ho & _ & _ & _ & _ & _ & Hi & _ & _ & Hd & _).
  destruct (output_only_fields _ _ Ho) as (_ & Hsl & Hheap & Hnl).
  pose proof (run_cases iterations argv0 (object_file argv0) l p1) as Hrun.
  destruct Hrun as [p'' _ _ _ _|p'' _ _ _ _|k p'' _ _ _ _|p'' _ _ _
                   |p'' _ Hdbg Hends Hc Ho'|p'' w0 v _ Hc Ho' Hpoll|p'' w0 _ _ _ _|];
    try discriminate; injection Hmain as ->.
  - left. destruct (output_only_fields _ _ Ho') as (_ & Hsl' & Hheap' & Hnl').
    destruct Hc as (_&_&_&_&Hker&_).
    split; [rewrite <- Hd; exact Hdbg|]. split; [rewrite <- He; exact Hends|].
    split; [rewrite Hker, app_assoc; apply last_snoc|].
    split; [congruence|]. split; congruence.
  - right. destruct (output_only_fields _ _ Ho') as (_ & Hsl' & _ & Hnl').
    apply stats_poll_done in Hpoll.
    destruct Hpoll as (_ & _ & _ & _ & Hm & Hn & Hs).
    split; [rewrite Hs, Hsl', Hsl, Hi; reflexivity|].
    split; [rewrite Hn, Hnl', Hnl; reflexivity|].
    rewrite Hm. unfold output_only in Ho, Ho'. rewrite Ho', Ho. reflexivity.
Qed.

Lemma main_polling_witness :
  sleeps (sys sample_final) = [4294967295] /\
  n_lookups (sys sample_final) = 30%nat /\ n_mallocs (sys sample_final) = 32%nat.
Proof.
  destruct (main_polling sample_platform scenario1 1 "xdp_redirect_cpu"
              sample_final sample_run_eq) as [(Hd & _)|(Hs & Hl & Hm)].
  - discriminate Hd.
  - split; [exact Hs|]. split; [exact Hl|exact Hm].
Defined.
